(* ===== verification/_CoqProject ===== *)
-Q . S2P
Prelude.v
GoStrings.v
GoNet.v
GoJson.v
JsonParse.v
GoPath.v
Sha256.v
K8s.v
ApiTypes.v
Names.v
Os.v
Network.v
WireTypes.v
Client.v
MemStore.v
Status.v
PodTemplates.v
AgentClient.v
SidecarClient.v
VolumeNodes.v
VolumeScale.v
VolumeHeal.v
VolumeController.v
EngineTypes.v
ReplicaController.v
EngineController.v
SnapshotController.v
Agent.v
Spdk.v
HttpServer.v
SidecarEngine.v
SidecarReplica.v
SpdkStack.v
WireJson.v
HttpWire.v
NodeAgent.v
SidecarMain.v
SidecarServe.v
SidecarCalls.v
CsiController.v
CsiNode.v
ControllerManager.v
CsiPlugin.v
GoFloat.v
DashStats.v
Dashboard.v
DashServer.v
Cluster.v
FakeAgent.v
Logging.v
Nfs.v
WorkQueue.v
Wakeups.v
Wiring.v
Processes.v
Store.v
Stages.v
BringUp.v
Scaling.v
Healing.v
Provisioning.v
SnapshotProgress.v
