(* ===== verification/Prelude.v ===== *)
(** * KDFS: a verification development

    KDFS is a Kubernetes storage system.  A volume is a set of replica files on
    worker nodes, mirrored by an engine and exported over NVMe-oF (or NFS); the
    parts of the program are

    - controllers (internal/controller) that reconcile the resources Volume,
      Engine, Replica and Snapshot (api/v1alpha1) with the cluster, calling the
      API server, node agents and sidecars;
    - a node agent (internal/agent, internal/reflink, internal/xfs) that makes
      replica files and loop devices;
    - sidecars (internal/sidecar, cmd/sidecar) beside SPDK (internal/spdk) that
      set up the targets of engines and replicas, reconfigure the mirror and
      take snapshots;
    - a CSI plugin (internal/csi) that creates, publishes, stages and mounts
      volumes for pods;
    - a dashboard (internal/dashboard) that lists, creates, scales, restores
      and deletes volumes through the API server;
    - shared rules: names (internal/names), addresses (internal/network) and
      status conditions (internal/status);
    - the processes (cmd) that read their configuration and serve the above.

    ** How the code is modelled

    Pure Go functions are functions.  A function that acts on the world is a
    [prog]: a finite tree of calls of a signature ([sig]) with a continuation
    for every answer, so that a theorem about all executions ([exec]) holds
    whatever the API server, the kernel or SPDK answers, failures included.
    [wp p Q] says that every execution of [p] satisfies [Q] of its trace and
    result; [safe] restricts every event; [run] executes a program against a
    handler, which the witnesses do.  Programs are structurally recursive, so
    every model terminates: the retry loops of the code have constant bounds,
    which the models keep (five attempts to attach, three to connect, thirty
    to wait for a device).  Only the start-up of the sidecar loops for as long
    as SPDK refuses: its two loops take fuel, which SidecarServe shows to be
    enough when it is more than the refusals, and that more fuel changes
    nothing once the process runs.  Go errors are values of
    [error]; [result] is the pair (value, error) of which one is set.
    Formatted texts are kept as a format and its arguments.  Integers are [Z];
    where a width matters ([Atoi], device numbers, backoffs) the bounds are
    written out.

    ** The files

    - Prelude: errors, programs, their logic and its tactics, shared lemmas.
    - GoStrings, GoNet, GoPath, GoJson, Sha256: what the code uses of the
      packages strings, strconv, fmt, net, path/filepath, encoding/json and
      crypto/sha256, with the laws of splitting, joining and cleaning.
    - K8s, ApiTypes, WireTypes: pods and metadata, the resources of
      api/v1alpha1, the messages of the agent and the sidecars.
    - Names, Network, Status: internal/names, internal/network and
      internal/status.
    - Client: the calls of the cluster components (kGet, kList, kCreate,
      kUpdate, kStatusUpdate, kDelete, HTTP, clock).  MemStore: an API server
      that keeps objects in a map, against which programs are run.
    - PodTemplates: podtemplates.go, replicahash.go.
    - AgentClient (internal/agent/http.go), SidecarClient
      (sidecar_status.go, sidecar_validate.go).
    - VolumeNodes, VolumeScale, VolumeHeal, VolumeController: volume_nodes.go,
      volume_scale.go with ensureChildren, volume_heal.go, volume_controller.go.
    - ReplicaController, EngineController, SnapshotController: the other three
      reconcilers and nodes.go.
    - Os: the calls on the operating system.  Agent: internal/agent/server.go,
      loop_linux.go, internal/reflink, internal/xfs.
    - Spdk: internal/spdk; its client interface is the signature [spdk], the
      JSON-RPC client implements it over the signature [rpc].
    - HttpServer, SidecarEngine, SidecarReplica, SidecarMain, SidecarServe:
      engine.go, reconfigure.go, status.go; replica.go, snapshot.go,
      snapshot_linux.go; cmd/sidecar/main.go, the configurations it reads and
      main itself with its loops, its mux and its handlers.
      SpdkStack: the engine's programs over the RPCs of the client.
    - JsonParse, WireJson: decoding JSON, and the messages as JSON objects, a
      class of codecs with their round trip.  HttpWire, NodeAgent, SidecarCalls:
      the client's calls served by the handlers over HTTP, for the node agent
      (internal/agent/http.go with cmd/node-agent) and for the sidecars.
    - CsiController, CsiNode, CsiPlugin: controller.go, snapshot.go, driver.go;
      node.go, mount.go; cmd/csi-plugin.
    - ControllerManager: cmd/controller-manager.
    - EngineTypes, Cluster: the type of engines as a contract of calls, every
      program that calls the API server typed by it, and their interleaving.
    - Dashboard, DashServer, DashStats, GoFloat: internal/dashboard and
      cmd/dashboard: handlers; mux and namespace; statistics, over float64,
      which is the Standard Library's SpecFloat.
    - FakeAgent, Logging, Nfs: internal/agent/fake.go, internal/logging,
      internal/sidecar/nfs.go with cmd/nfs-sidecar.
    - WorkQueue, Wakeups: the queue of a controller as a step relation, the
      interface (class [Attentive]) between a reconciler and its queue, and the
      four reconcilers as instances.  Wiring: SetupWithManager of the four, and
      which requests a change makes.
    - Store: the laws of an API server (class [ApiServer]) and a logic for
      programs over any such server, of which MemStore is one.  Stages, BringUp:
      a volume that comes up, as an abstract machine and as the reconcilers that
      carry it out; a store also keeps what the engines' sidecars were last told.
      Scaling: a volume that gets more replicas, or fewer.
      Healing: a volume that lost a replica.
      Provisioning: a volume from the request to the CSI controller to the
      device on a node.  SnapshotProgress: a snapshot that is taken.
    - Processes: [main] of the manager, the CSI plugin, the dashboard, the node
      agent and the NFS sidecar, as programs over calls of the libraries.

    ** What the theorems show

    - Volumes: which replicas, engine and attachments a reconcile asks for and
      in which order; when a volume is published as Ready; that a ready volume
      is left alone; what scaling adds and removes; that healing destroys
      something only while all but one of the replicas are healthy, one at a
      time, and never a healthy one.
    - Replicas and engines: a status is published only after what it claims has
      been confirmed by the agent, the sidecar and the pods.
    - Snapshots: the status moves along its state machine only, the invariant of
      its reachable states, the finality of Ready and Failed, and the finalizer
      protocol.
    - The node: descriptors and loop devices are released; formatting happens
      only where the code means it to, and where it does; staging mounts the
      live device of the volume, in bounded time.
    - Sidecars: the SPDK stack that is built, down to the RPCs, that it is built
      in full or the error is reported, and what reconfiguring does to the mirror.
    - Agreement between the parts: endpoints are read back as they were joined,
      the replica's NQN is the same for controller and sidecar, a snapshot's
      path is the same file for the sidecar and the agent, the statuses served
      pass the controllers' checks, and a call over HTTP is the call of the
      handler's function, up to what the network loses: calls are encoded,
      routed, decoded and answered, and what comes back, when the response
      arrives, is what a direct call answers.
    - Termination: the sidecar starts once SPDK stops refusing; staging ends.
    - The queues: however creations, changes, deletions and reconciles
      interleave, an object that is not yet as it should be is waiting for its
      reconciler or being reconciled, but for the holes that the theorem names.
      Who is woken: the children of a volume wake nobody.
    - The reconcilers together, over any API server that keeps its laws, with
      agents, sidecars and a kubelet that do their work: passes of replicas and
      engine in any order carry out the machine of Stages; six rounds bring a
      volume to Ready, and back to it when it was scaled or (after two passes of
      the volume controller) lost a replica, with the engine reconfigured over
      its new attachments, and four passes a snapshot.  (Six: the pods of replicas are asked for, started, and the
      replicas Running; the engine's pod is asked for, started, and the engine
      Running.)  The garbage collector of the API server, which takes the pods
      of deleted replicas, is a hypothesis of the theorem on scaling; the loss
      of a replica is healed when the others are remote (local ones never count
      as healthy, see VolumeHeal).  From a request to the CSI controller to the
      device on a node: what is staged is the target of the volume's engine.
    - The processes: what is done, in order, before the controllers start and
      before the CSI plugin listens.
    - The type of engines: with all the programs interleaved call by call over
      one server, and reads that may be stale, the engines that the server
      holds are well typed at all times.
    - Configuration: what the manager writes to the config map is what the
      sidecars' processes read from their environment.
    - The dashboard: what creating, scaling and restoring ask of the API server
      and in which order, which handler a request reaches (and which paths are
      redirected to their clean form instead), and that the totals
      of its floating-point statistics are exact.

    Theorems that state what the code does where that is surprising (formatting
    a restored replica, removing nothing from the mirror, reconnecting at every
    publish) say so in their comments.

    ** Not modelled

    The controller runtime itself: of its queue there is the specification in
    WorkQueue, its caches are in that reads may answer anything (a reconcile is
    one program, and the properties over several reconciles let the object be
    anything the server may hold), and which owner of an object it takes for the
    controlling one is a parameter with laws; gRPC; the transport under HTTP, of
    which HttpWire keeps what it may do to a call: a request reaches its server
    or not and is handled at most once, a response arrives, breaks off or is
    lost, time-outs included (a handler that goes on after its client gave up is
    listed before the client's next call); an engine pod that is started again
    after it was reconfigured, which comes back with the attachments of its
    environment;
    the NFS protocol, which the go-nfs library serves; the writing of log
    events, which is zerolog's; the generated deep copies; the parsing of flags
    and the registration of schemes. Parameters: parsing of quantities
    (apimachinery), the text of errors, the output of the dashboard's templates
    (html/template), the order in which Go ranges over a map, and the values of the environment. *)
From stdpp Require Export ssreflect base tactics option list numbers gmap strings pretty sorting.
From Stdlib Require Export ZArith Lia ZifyBool.
From Stdlib Require Import Ascii.

(** ** Errors and results

    A Go [error] is either a Kubernetes API status error, of which the code
    only ever asks [apierrors.IsNotFound] and [apierrors.IsAlreadyExists], a
    fresh [fmt.Errorf]/[errors.New] value (the format string and its arguments
    are kept apart), an error of the operating system, or an error wrapped with [%w]. *)
Inductive api_reason := NotFound | AlreadyExists | Conflict | OtherReason.

(** An error of the operating system: the class [errors.Is] sees, and its text. *)
Inductive os_reason := ErrNotExist | ErrExist | ErrPermission | ErrInvalid | OtherErrno.
Record os_error := mkOsError { oe_reason : os_reason; oe_text : string }.

Inductive error :=
  | ApiError (reason : api_reason) (msg : string)
  | OsError (e : os_error)
  | Errorf (fmt : string) (args : list string)
  | Wrapf (fmt : string) (args : list string) (inner : error).

Inductive result (A : Type) :=
  | Ok (a : A)
  | Err (e : error).
Arguments Ok {A} a.
Arguments Err {A} e.

#[global] Instance api_reason_eq_dec : EqDecision api_reason.
Proof. solve_decision. Defined.
#[global] Instance os_reason_eq_dec : EqDecision os_reason.
Proof. solve_decision. Defined.
#[global] Instance os_error_eq_dec : EqDecision os_error.
Proof. solve_decision. Defined.
#[global] Instance error_eq_dec : EqDecision error.
Proof. solve_decision. Defined.
#[global] Instance result_eq_dec `{EqDecision A} : EqDecision (result A).
Proof. solve_decision. Defined.

(** [errors.As] looks through [%w] wrappers for the API status. *)
Fixpoint ReasonForError (e : error) : option api_reason :=
  match e with
  | ApiError r _ => Some r
  | OsError _ | Errorf _ _ => None
  | Wrapf _ _ e' => ReasonForError e'
  end.
Definition IsNotFound (e : error) : bool :=
  bool_decide (ReasonForError e = Some NotFound).
Definition IsAlreadyExists (e : error) : bool :=
  bool_decide (ReasonForError e = Some AlreadyExists).

Definition is_ok {A} (r : result A) : bool :=
  match r with Ok _ => true | Err _ => false end.

(** ** Effectful programs

    A component talks to the outside world (the API server, a sidecar, the
    clock, the kernel) through the calls of a signature.  A program is a finite
    tree: it stops, or it makes a call and continues with whatever was
    answered.  Nothing is assumed of the answers, so a theorem about the
    executions of a program holds for every behaviour of the other side. *)
Record sig := Sig { call : Type; reply : call → Type }.

Inductive prog (S : sig) (A : Type) : Type :=
  | Ret (a : A)
  | Vis (c : call S) (k : reply S c → prog S A).
Arguments Ret {S A} a.
Arguments Vis {S A} c k.

#[global] Instance prog_ret S : MRet (prog S) := λ A a, Ret a.
#[global] Instance prog_bind S : MBind (prog S) := λ A B f,
  fix go (p : prog S A) : prog S B :=
    match p with
    | Ret a => f a
    | Vis c k => Vis c (λ r, go (k r))
    end.

Definition ask {S} (c : call S) : prog S (reply S c) := Vis c Ret.

(** The Go idiom [if err != nil { return ..., err }]. *)
Definition bind_ok {S A B} (p : prog S (result A))
    (f : A → prog S (result B)) : prog S (result B) :=
  p ≫= λ r, match r with Ok a => f a | Err e => Ret (Err e) end.

Declare Scope go_scope.
Delimit Scope go_scope with go.
Notation "x ←? p ; k" := (bind_ok p (λ x, k))
  (at level 20, p at level 100, k at level 200, only parsing) : go_scope.
Open Scope go_scope.

(** *** Executions: the calls made, what was answered, and the result. *)
Definition event (S : sig) : Type := { c : call S & reply S c }.
Definition ev {S} (c : call S) (r : reply S c) : event S := existT c r.

Fixpoint exec {S A} (p : prog S A) (tr : list (event S)) (a : A) : Prop :=
  match p with
  | Ret b => tr = [] ∧ a = b
  | Vis c k => ∃ r tr', tr = ev c r :: tr' ∧ exec (k r) tr' a
  end.

(** *** Postconditions over all executions. *)
Fixpoint wp {S A} (p : prog S A) (Q : list (event S) → A → Prop) : Prop :=
  match p with
  | Ret a => Q [] a
  | Vis c k => ∀ r, wp (k r) (λ tr a, Q (ev c r :: tr) a)
  end.

(** *** Running against a concrete environment. *)
Definition handler (S : sig) (W : Type) := ∀ c : call S, W → reply S c * W.

Fixpoint run {S A W} (h : handler S W) (p : prog S A) (w : W)
    : list (event S) * A * W :=
  match p with
  | Ret a => ([], a, w)
  | Vis c k =>
      let '(r, w1) := h c w in
      let '(tr, a, w2) := run h (k r) w1 in
      (ev c r :: tr, a, w2)
  end.

Section prog.
Context {S : sig}.
Implicit Types tr : list (event S).

Lemma wp_mono {A} (p : prog S A) (Q Q' : list (event S) → A → Prop) :
  (∀ tr a, Q tr a → Q' tr a) → wp p Q → wp p Q'.
Proof.
  revert Q Q'. induction p as [a|c k IH]; intros Q Q' HQ; simpl; [by auto|].
  intros H r. refine (IH r _ _ _ (H r)). auto.
Qed.

#[global] Instance wp_proper {A} (p : prog S A) :
  Proper (pointwise_relation _ (pointwise_relation _ impl) ==> impl) (wp p).
Proof. intros Q Q' HQ Hp. refine (wp_mono p Q Q' _ Hp). apply HQ. Qed.

#[global] Instance wp_proper_iff {A} (p : prog S A) :
  Proper (pointwise_relation _ (pointwise_relation _ iff) ==> iff) (wp p).
Proof.
  intros Q Q' HQ. split; apply wp_mono; intros tr a; apply (HQ tr a).
Qed.

(** [wp] is exactly the postconditions of all executions. *)
Lemma wp_exec {A} (p : prog S A) Q :
  wp p Q ↔ ∀ tr a, exec p tr a → Q tr a.
Proof.
  revert Q. induction p as [a|c k IH]; intros Q; simpl.
  - split; [by intros HQ tr b [-> ->]|auto].
  - split.
    + intros H tr a (r & tr' & -> & Hex). exact (proj1 (IH r _) (H r) tr' a Hex).
    + intros H r. apply IH. intros tr a Hex. apply H. eauto.
Qed.

Lemma exec_wp {A} (p : prog S A) Q tr a : exec p tr a → wp p Q → Q tr a.
Proof. intros Hex Hwp. exact (proj1 (wp_exec p Q) Hwp tr a Hex). Qed.

Lemma wp_bind {A B} (p : prog S A) (f : A → prog S B) Q :
  wp (p ≫= f) Q ↔
  wp p (λ tr1 b, wp (f b) (λ tr2 a, Q (tr1 ++ tr2) a)).
Proof.
  revert Q. induction p as [a|c k IH]; intros Q; simpl; [done|].
  split; intros H r.
  - exact (proj1 (IH r (λ tr b, Q (ev c r :: tr) b)) (H r)).
  - exact (proj2 (IH r (λ tr b, Q (ev c r :: tr) b)) (H r)).
Qed.

Lemma wp_bind_ok {A B} (p : prog S (result A)) (f : A → prog S (result B)) Q :
  wp (bind_ok p f) Q ↔
  wp p (λ tr1 r, match r with
                 | Ok a => wp (f a) (λ tr2 b, Q (tr1 ++ tr2) b)
                 | Err e => Q tr1 (Err e)
                 end).
Proof.
  unfold bind_ok. rw wp_bind. f_equiv. intros tr1 [a|e]; simpl; [done|].
  by rw app_nil_r.
Qed.

Lemma wp_ask {A} c (k : reply S c → prog S A) Q :
  wp (ask c ≫= k) Q ↔ ∀ r, wp (k r) (λ tr a, Q (ev c r :: tr) a).
Proof. done. Qed.

Lemma wp_and {A} (p : prog S A) (Q1 Q2 : list (event S) → A → Prop) :
  wp p Q1 → wp p Q2 → wp p (λ tr a, Q1 tr a ∧ Q2 tr a).
Proof.
  rw !wp_exec. intros H1 H2 tr a Hex. split; auto.
Qed.

Lemma wp_true {A} (p : prog S A) (Q : list (event S) → A → Prop) :
  (∀ tr a, Q tr a) → wp p Q.
Proof. intros H. apply wp_exec. auto. Qed.

(** Every program has an execution under every environment, and [run]
    computes it: the programs terminate whatever they are answered. *)
Lemma run_exec {A W} (h : handler S W) (p : prog S A) w :
  exec p (run h p w).1.1 (run h p w).1.2.
Proof.
  revert w. induction p as [a|c k IH]; intros w; simpl; [done|].
  destruct (h c w) as [r w1]. specialize (IH r w1).
  destruct (run h (k r) w1) as [[tr a] w2]; simpl in *. eauto.
Qed.

Lemma exec_of_run {A W} (h : handler S W) (p : prog S A) w x :
  x = run h p w → exec p x.1.1 x.1.2.
Proof. intros ->. apply run_exec. Qed.

Lemma exec_bind {A B} (p : prog S A) (f : A → prog S B) tr b :
  exec (p ≫= f) tr b ↔
  ∃ tr1 tr2 a, tr = tr1 ++ tr2 ∧ exec p tr1 a ∧ exec (f a) tr2 b.
Proof.
  revert tr. induction p as [a|c k IH]; intros tr; simpl.
  - split; [intros H; by exists [], tr, a|].
    by intros (tr1 & tr2 & a' & -> & [-> ->] & ?).
  - split.
    + intros (r & tr' & -> & (tr1 & tr2 & a & -> & ? & ?)%IH).
      exists (ev c r :: tr1), tr2, a. split_and!; [done| |done]. eauto.
    + intros (tr1 & tr2 & a & -> & (r & tr' & -> & ?) & ?).
      exists r, (tr' ++ tr2). split; [done|]. apply IH. eauto 6.
Qed.
End prog.

Arguments wp {S A} p Q : simpl never.
Arguments exec {S A} p tr a : simpl never.

(** *** Symbolic execution *)
Section rules.
Context {S : sig}.

Lemma wp_ret_intro {A} (a : A) (Q : list (event S) → A → Prop) :
  Q [] a → wp (Ret a) Q.
Proof. done. Qed.
Lemma wp_ask_intro (c : call S) Q :
  (∀ r, Q [ev c r] r) → wp (ask c) Q.
Proof. done. Qed.
Lemma wp_bind_intro {A B} (p : prog S A) (f : A → prog S B) Q :
  wp p (λ tr1 b, wp (f b) (λ tr2 a, Q (tr1 ++ tr2) a)) → wp (p ≫= f) Q.
Proof. apply wp_bind. Qed.

(** Every event satisfies [P], whatever was answered, and the result [R]. *)
Definition safe {A} (P : event S → Prop) (p : prog S A) (R : A → Prop) : Prop :=
  wp p (λ tr a, Forall P tr ∧ R a).

Lemma safe_exec {A} P (p : prog S A) R tr a :
  safe P p R → exec p tr a → Forall P tr ∧ R a.
Proof. intros Hs Hex. exact (exec_wp p _ tr a Hex Hs). Qed.
Lemma safe_ret {A} P (a : A) (R : A → Prop) : R a → safe P (Ret a) R.
Proof. by intros; split. Qed.
Lemma safe_ask P (c : call S) R :
  (∀ r, P (ev c r) ∧ R r) → safe P (ask c) R.
Proof.
  intros H r. destruct (H r). split; [by repeat constructor|done].
Qed.
Lemma safe_mono {A} P (p : prog S A) (R R' : A → Prop) :
  (∀ a, R a → R' a) → safe P p R → safe P p R'.
Proof. intros H. apply wp_mono. intros tr a []. auto. Qed.
Lemma safe_weaken {A} (P P' : event S → Prop) (p : prog S A) R :
  (∀ e, P e → P' e) → safe P p R → safe P' p R.
Proof.
  intros H. apply wp_mono. intros tr a [HP HR]. split; [|done].
  by eapply Forall_impl.
Qed.
Lemma safe_bind {A B} P (p : prog S A) (f : A → prog S B) R :
  safe P p (λ b, safe P (f b) R) → safe P (p ≫= f) R.
Proof.
  intros Hp. apply wp_bind. eapply wp_mono, Hp. intros tr1 b [HP Hb].
  eapply wp_mono, Hb. intros tr2 a [HP' HR]. by split; [apply Forall_app|].
Qed.
Lemma safe_bind_ok {A B} P (p : prog S (result A)) (f : A → prog S (result B)) R :
  safe P p (λ r, match r with Ok a => safe P (f a) R | Err e => R (Err e) end) →
  safe P (bind_ok p f) R.
Proof.
  intros Hp. apply safe_bind. eapply safe_mono, Hp. intros [a|e]; [done|].
  apply safe_ret.
Qed.
#[global] Instance safe_proper {A} P (p : prog S A) :
  Proper (pointwise_relation _ impl ==> impl) (safe P p).
Proof. intros R R' HR. exact (safe_mono P p R R' HR). Qed.
End rules.

(** *** Typed programs

    A program keeps to a contract: as long as the answers are as promised, its
    calls are as allowed, and its result satisfies [R].  Unlike [wp], the
    judgement says something of a run that is still going on. *)
Section typed.
Context {S : sig} (allowed : call S → Prop) (promised : ∀ c : call S, reply S c → Prop).
Fixpoint typed {A} (p : prog S A) (R : A → Prop) : Prop :=
  match p with
  | Ret a => R a
  | Vis c k => allowed c ∧ ∀ r, promised c r → typed (k r) R
  end.
Lemma typed_mono {A} (p : prog S A) (R R' : A → Prop) :
  (∀ a, R a → R' a) → typed p R → typed p R'.
Proof.
  intros H. induction p as [a|c k IH]; [apply H|]. intros [Hc Hk]. split; [done|].
  intros r Hr. by apply IH, Hk.
Qed.
Lemma typed_ask (c : call S) (R : reply S c → Prop) :
  allowed c → (∀ r, promised c r → R r) → typed (ask c) R.
Proof. by split. Qed.
Lemma typed_bind {A B} (p : prog S A) (f : A → prog S B) R :
  typed p (λ a, typed (f a) R) → typed (p ≫= f) R.
Proof.
  induction p as [a|c k IH]; [done|]. intros [Hc Hk]. split; [done|].
  intros r Hr. by apply IH, Hk.
Qed.
Lemma typed_bind_ok {A B} (p : prog S (result A)) (f : A → prog S (result B)) R :
  typed p (λ r, match r with Ok a => typed (f a) R | Err e => R (Err e) end) →
  typed (bind_ok p f) R.
Proof. intros H. apply typed_bind. eapply typed_mono, H. by intros [a|e]. Qed.
(** With what is known of the result of every run. *)
Lemma typed_wp {A} (p : prog S A) (R R' : A → Prop) (Q : list (event S) → A → Prop) :
  typed p R → wp p Q → (∀ tr a, R a → Q tr a → R' a) → typed p R'.
Proof.
  revert Q. induction p as [a|c k IH]; intros Q.
  - intros HR HQ H. exact (H [] a HR HQ).
  - intros [Hc Hk] Hwp H. split; [done|]. intros r Hr.
    eapply IH; [by apply Hk|exact (Hwp r)|]. intros tr a Ha HQ. exact (H _ a Ha HQ).
Qed.
(** A finished run: calls and answers are those of the contract. *)
Lemma typed_exec {A} (p : prog S A) R tr a :
  typed p R → exec p tr a → Forall (λ e, promised (projT1 e) (projT2 e)) tr →
  Forall (λ e, allowed (projT1 e)) tr ∧ R a.
Proof.
  revert tr. induction p as [b|c k IH]; intros tr.
  - intros HR [-> ->] _. by split.
  - intros [Hc Hk] (r & tr' & -> & Hex) [Hr Htr]%Forall_cons.
    destruct (IH r tr' (Hk r Hr) Hex Htr). split; [by constructor|done].
Qed.
End typed.
Arguments typed {S} allowed promised {A} p R : simpl never.

(** [wp_step] advances the program at the head of a [wp] goal by one construct;
    [safe_step] does the same for [safe].  Both stop at calls of named
    operations, which have lemmas of their own. *)
Ltac wp_step :=
  cbn beta iota;
  lazymatch goal with
  | |- wp (Ret _) _ => apply wp_ret_intro; cbn beta
  | |- wp (mret _) _ => apply wp_ret_intro; cbn beta
  | |- wp (ask _) _ => apply wp_ask_intro; intros ?; cbn beta
  | |- wp (bind_ok _ _) _ => apply wp_bind_ok; cbn beta
  | |- wp (mbind _ _) _ => apply wp_bind_intro; cbn beta
  | |- wp (match ?x with _ => _ end) _ => destruct x eqn:?; cbn beta iota
  | |- match ?x with Ok _ => _ | Err _ => _ end => destruct x eqn:?; cbn beta iota
  end.
Ltac wp_steps := repeat wp_step.

Ltac safe_step :=
  cbn beta iota;
  lazymatch goal with
  | |- safe _ (Ret _) _ => apply safe_ret; cbn beta
  | |- safe _ (mret _) _ => apply safe_ret; cbn beta
  | |- safe _ (ask _) _ => apply safe_ask; intros ?; cbn beta
  | |- safe _ (bind_ok _ _) _ => apply safe_bind_ok; cbn beta
  | |- safe _ (mbind _ _) _ => apply safe_bind; cbn beta
  | |- safe _ (match ?x with _ => _ end) _ => destruct x eqn:?; cbn beta iota
  | |- match ?x with Ok _ => _ | Err _ => _ end => destruct x eqn:?; cbn beta iota
  end.
Ltac safe_steps := repeat safe_step.

(** Lemmas that close the common trace and list side conditions. *)
Create HintDb kdfs.
Create Rewrite HintDb kdfs.
#[export] Hint Resolve Forall_nil_2 Forall_cons_2 Forall_app_2 : kdfs.

(** ** Sets built from lists *)
Lemma size_list_to_set_le `{Countable A} (l : list A) :
  size (list_to_set l : gset A) ≤ length l.
Proof.
  induction l as [|x l IH]; [done|]. cbn [list_to_set length].
  rw size_union_alt size_singleton.
  assert (size ((list_to_set l : gset A) ∖ {[x]}) ≤ size (list_to_set l : gset A)).
  { apply subseteq_size. set_solver. }
  lia.
Qed.
Lemma length_omap_le {A B} (f : A → option B) l : length (omap f l) ≤ length l.
Proof. induction l as [|x l IH]; cbn in *; [done|]. destruct (f x); cbn; lia. Qed.

(** ** Consecutive integers *)
Lemma seqZ_drop (d n : Z) :
  (0 ≤ d ≤ n)%Z → drop (Z.to_nat d) (seqZ 0 n) = seqZ d (n - d).
Proof.
  intros H. replace n with (d + (n - d))%Z at 1 by lia.
  rw seqZ_app; [|lia..]. rw drop_app_length'; [done|]. by rw length_seqZ.
Qed.

(** *** Environments that answer from a fixed snapshot *)
Section snapshot.
Context {S : sig} (f : ∀ c : call S, reply S c).

(** The result and the calls of a program when every call [c] answers [f c]. *)
Fixpoint result_in {A} (p : prog S A) : A :=
  match p with Ret a => a | Vis c k => result_in (k (f c)) end.
Fixpoint calls_in {A} (p : prog S A) : list (call S) :=
  match p with Ret _ => [] | Vis c k => c :: calls_in (k (f c)) end.

Definition snapshot_handler : handler S unit := λ c w, (f c, w).

Lemma result_in_bind {A B} (p : prog S A) (g : A → prog S B) :
  result_in (p ≫= g) = result_in (g (result_in p)).
Proof. induction p as [a|c k IH]; [done|]. apply IH. Qed.
Lemma calls_in_bind {A B} (p : prog S A) (g : A → prog S B) :
  calls_in (p ≫= g) = calls_in p ++ calls_in (g (result_in p)).
Proof. induction p as [a|c k IH]; [done|]. cbn. f_equal. apply IH. Qed.
Lemma result_in_bind_ok {A B} (p : prog S (result A)) (g : A → prog S (result B)) a :
  result_in p = Ok a → result_in (bind_ok p g) = result_in (g a).
Proof. intros Hp. unfold bind_ok. by rw result_in_bind Hp. Qed.
Lemma calls_in_bind_ok {A B} (p : prog S (result A)) (g : A → prog S (result B)) a :
  result_in p = Ok a → calls_in (bind_ok p g) = calls_in p ++ calls_in (g a).
Proof. intros Hp. unfold bind_ok. by rw calls_in_bind Hp. Qed.

(** An execution answered from the snapshot is the one just described. *)
Definition calls_of (tr : list (event S)) : list (call S) := projT1 <$> tr.
Definition answered (tr : list (event S)) : Prop :=
  Forall (λ e, projT2 e = f (projT1 e)) tr.
Lemma exec_in {A} (p : prog S A) tr a :
  exec p tr a → answered tr → a = result_in p ∧ calls_of tr = calls_in p.
Proof.
  revert tr. induction p as [b|c k IH]; intros tr.
  - by intros [-> ->].
  - intros (r & tr' & -> & Hex) [Hr Hall]%Forall_cons. simpl in Hr. subst r.
    destruct (IH _ tr' Hex Hall) as [-> Hc]. split; [done|]. unfold calls_of in *. cbn. by f_equal.
Qed.

Lemma run_answered {A} (p : prog S A) : answered (run snapshot_handler p tt).1.1.
Proof.
  induction p as [a|c k IH]; [constructor|]. cbn. specialize (IH (f c)).
  destruct (run snapshot_handler (k (f c)) tt) as [[tr a] []]. by constructor.
Qed.
End snapshot.

(** ** Implementing the calls of a signature by programs of another *)
Fixpoint interp {S T : sig} (h : ∀ c : call S, prog T (reply S c)) {A} (p : prog S A)
    : prog T A :=
  match p with
  | Ret a => Ret a
  | Vis c k => h c ≫= λ r, interp h (k r)
  end.

(** Calls implemented by typed programs whose results are as promised. *)
Lemma typed_interp {S T : sig} allowed promised allowed' promised'
    (h : ∀ c : call S, prog T (reply S c)) {A} (p : prog S A) R :
  (∀ c, allowed c → typed allowed' promised' (h c) (promised c)) →
  typed allowed promised p R → typed allowed' promised' (interp h p) R.
Proof.
  intros Hh. induction p as [a|c k IH]; [done|]. intros [Hc Hk]. apply typed_bind.
  eapply typed_mono; [|by apply Hh]. intros r Hr. by apply IH, Hk.
Qed.

(** The trace of the implementation is the concatenation of the traces of its
    calls. *)
Inductive implements {S T : sig} (h : ∀ c : call S, prog T (reply S c))
    : list (event S) → list (event T) → Prop :=
  | implements_nil : implements h [] []
  | implements_cons c r tr1 str tr2 :
      exec (h c) tr1 r → implements h str tr2 →
      implements h (ev c r :: str) (tr1 ++ tr2).

(** Every execution of the implemented program is one of the program, of which
    each call was carried out by its implementation: what is proved of the
    program for all answers holds of the implementation. *)
Lemma interp_exec {S T : sig} (h : ∀ c : call S, prog T (reply S c)) {A} (p : prog S A) tr a :
  exec (interp h p) tr a → ∃ str, exec p str a ∧ implements h str tr.
Proof.
  revert tr. induction p as [b|c k IH]; intros tr Hex.
  - destruct Hex as [-> ->]. exists []. split; [done|constructor].
  - simpl in Hex. apply exec_bind in Hex as (tr1 & tr2 & r & -> & H1 & H2).
    destruct (IH r tr2 H2) as (str & Hs & Hi).
    exists (ev c r :: str). split; [by exists r, str|]. by constructor.
Qed.
(** A call that was carried out left its trace. *)
Lemma implements_in {S T : sig} (h : ∀ c : call S, prog T (reply S c)) str tr (e : event S) :
  implements h str tr → e ∈ str →
  ∃ tr0 tr1 tr2, tr = tr0 ++ tr1 ++ tr2 ∧ exec (h (projT1 e)) tr1 (projT2 e).
Proof.
  induction 1 as [|c' r' tr1 str tr2 Hex _ IH]; [by intros ?%not_elem_of_nil|].
  intros [Heq|Hin]%elem_of_cons.
  - subst e. by exists [], tr1, tr2.
  - destruct (IH Hin) as (tr3 & tr4 & tr5 & -> & H4). exists (tr1 ++ tr3), tr4, tr5.
    by rw -app_assoc.
Qed.
Lemma interp_wp {S T : sig} (h : ∀ c : call S, prog T (reply S c)) {A} (p : prog S A)
    (Q : list (event S) → A → Prop) :
  wp p Q → wp (interp h p) (λ tr a, ∃ str, implements h str tr ∧ Q str a).
Proof.
  intros Hp. apply wp_exec. intros tr a (str & Hs & Hi)%interp_exec.
  exists str. split; [done|]. by apply (exec_wp p Q).
Qed.

(** Running the implemented program, with both traces. *)
Fixpoint run_interp {S T : sig} {A W} (h : ∀ c : call S, prog T (reply S c)) (env : handler T W)
    (p : prog S A) (w : W) : list (event S) * list (event T) * A * W :=
  match p with
  | Ret a => ([], [], a, w)
  | Vis c k =>
      let '(tr1, r, w1) := run env (h c) w in
      let '(str, tr2, a, w2) := run_interp h env (k r) w1 in
      (ev c r :: str, tr1 ++ tr2, a, w2)
  end.
Lemma run_interp_exec {S T : sig} {A W} (h : ∀ c : call S, prog T (reply S c)) (env : handler T W)
    (p : prog S A) w x :
  x = run_interp h env p w → exec p x.1.1.1 x.1.2 ∧ implements h x.1.1.1 x.1.1.2.
Proof.
  intros ->. revert w. induction p as [a|c k IH]; intros w; [by split; constructor|].
  cbn [run_interp]. pose proof (run_exec env (h c) w) as Hc.
  destruct (run env (h c) w) as [[tr1 r] w1]. specialize (IH r w1).
  destruct (run_interp h env (k r) w1) as [[[str tr2] a] w2]. cbn [fst snd] in *.
  destruct IH as [H1 H2]. split; [by exists r, str|by constructor].
Qed.

Lemma run_interp_trace {S T : sig} {A W} (h : ∀ c : call S, prog T (reply S c)) (env : handler T W)
    (p : prog S A) w x :
  x = run_interp h env p w → exec (interp h p) x.1.1.2 x.1.2.
Proof.
  intros ->. revert w. induction p as [a|c k IH]; intros w; [done|].
  cbn [run_interp]. pose proof (run_exec env (h c) w) as Hc.
  destruct (run env (h c) w) as [[tr1 r] w1]. specialize (IH r w1).
  destruct (run_interp h env (k r) w1) as [[[str tr2] a] w2]. cbn [fst snd] in *.
  simpl. apply exec_bind. by exists tr1, tr2, r.
Qed.

(** ** Two signatures side by side *)
Definition both (S T : sig) : sig :=
  Sig (call S + call T) (λ c, match c with inl c => reply S c | inr c => reply T c end).
Section both.
Context {S T : sig}.

Fixpoint on_left {A} (p : prog S A) : prog (both S T) A :=
  match p with
  | Ret a => Ret a
  | Vis c k => Vis (S:=both S T) (inl c) (λ r, on_left (k r))
  end.
Fixpoint on_right {A} (p : prog T A) : prog (both S T) A :=
  match p with
  | Ret a => Ret a
  | Vis c k => Vis (S:=both S T) (inr c) (λ r, on_right (k r))
  end.
Definition left_event (e : event S) : event (both S T) :=
  existT (P:=reply (both S T)) (inl (projT1 e)) (projT2 e).
Definition right_event (e : event T) : event (both S T) :=
  existT (P:=reply (both S T)) (inr (projT1 e)) (projT2 e).

Lemma exec_on_left {A} (p : prog S A) (tr : list (event (both S T))) a :
  exec (on_left p) tr a ↔ ∃ str, tr = left_event <$> str ∧ exec p str a.
Proof.
  revert tr. induction p as [b|c k IH]; intros tr; split.
  - intros [-> ->]. by exists [].
  - by intros (str & -> & [-> ->]).
  - intros (r & tr' & -> & (str & -> & Hk)%IH). exists (ev c r :: str).
    split; [done|]. by exists r, str.
  - intros (str & -> & (r & str' & -> & Hk)). exists r, (left_event <$> str').
    split; [done|]. apply IH. eauto.
Qed.
Lemma exec_on_right {A} (p : prog T A) (tr : list (event (both S T))) a :
  exec (on_right p) tr a ↔ ∃ ttr, tr = right_event <$> ttr ∧ exec p ttr a.
Proof.
  revert tr. induction p as [b|c k IH]; intros tr; split.
  - intros [-> ->]. by exists [].
  - by intros (str & -> & [-> ->]).
  - intros (r & tr' & -> & (str & -> & Hk)%IH). exists (ev c r :: str).
    split; [done|]. by exists r, str.
  - intros (str & -> & (r & str' & -> & Hk)). exists r, (right_event <$> str').
    split; [done|]. apply IH. eauto.
Qed.
Lemma wp_on_left {A} (p : prog S A) (Q : list (event (both S T)) → A → Prop) :
  wp p (λ tr, Q (left_event <$> tr)) → wp (on_left p) Q.
Proof.
  intros Hp. apply wp_exec. intros tr a (str & -> & Hex)%exec_on_left.
  exact (exec_wp p _ str a Hex Hp).
Qed.
Lemma wp_on_right {A} (p : prog T A) (Q : list (event (both S T)) → A → Prop) :
  wp p (λ tr, Q (right_event <$> tr)) → wp (on_right p) Q.
Proof.
  intros Hp. apply wp_exec. intros tr a (ttr & -> & Hex)%exec_on_right.
  exact (exec_wp p _ ttr a Hex Hp).
Qed.
(** The left part keeps to a contract when the program does. *)
Lemma typed_on_left {A} allowed promised (p : prog S A) R (K : call (both S T) → Prop)
    (P : ∀ c : call (both S T), reply (both S T) c → Prop) :
  (∀ c : call S, allowed c → K (inl c)) → (∀ (c : call S) r, P (inl c) r → promised c r) →
  typed allowed promised p R → typed K P (on_left p) R.
Proof.
  intros HK HP. induction p as [a|c k IH]; [done|]. intros [Hc Hk]. split; [by apply HK|].
  intros r Hr. by apply IH, Hk, HP.
Qed.
End both.
