(* ===== verification/GoStrings.v ===== *)
(** * Go's strings, strconv, sort and fmt, as far as the program uses them

    Go strings are byte strings, modelled by Rocq's [string]; [int] and [int64]
    are [Z] with their 64-bit range and wrap-around written out. *)
From S2P Require Import Prelude.
From Stdlib Require Import Ascii.

(** ** Machine integers *)
Definition min_int64 : Z := -9223372036854775808.
Definition max_int64 : Z := 9223372036854775807.
Definition in_int64 (z : Z) : bool := (min_int64 <=? z)%Z && (z <=? max_int64)%Z.
Definition wrap64 (z : Z) : Z := ((z + 2 ^ 63) mod 2 ^ 64 - 2 ^ 63)%Z.

Lemma wrap64_id z : in_int64 z = true → wrap64 z = z.
Proof.
  unfold in_int64, wrap64, min_int64, max_int64.
  intros [?%Z.leb_le ?%Z.leb_le]%andb_true_iff.
  rw Z.mod_small; lia.
Qed.

Lemma wrap64_range z : in_int64 (wrap64 z) = true.
Proof.
  unfold in_int64, wrap64, min_int64, max_int64.
  pose proof (Z.mod_pos_bound (z + 2 ^ 63) (2 ^ 64) ltac:(lia)).
  apply andb_true_iff. rw !Z.leb_le. lia.
Qed.

(** ** Strings as byte sequences *)
Lemma string_app_cons a s t : String a s +:+ t = String a (s +:+ t).
Proof. done. Qed.
Lemma string_app_nil_l s : "" +:+ s = s.
Proof. done. Qed.
Lemma string_app_nil_r s : s +:+ "" = s.
Proof. induction s as [|a s IH]; [done|]. by rw string_app_cons IH. Qed.
Lemma string_app_assoc s t u : (s +:+ t) +:+ u = s +:+ (t +:+ u).
Proof. induction s as [|a s IH]; [done|]. by rw !string_app_cons IH. Qed.
Lemma string_length_app s t :
  String.length (s +:+ t) = String.length s + String.length t.
Proof. induction s as [|a s IH]; [done|]. rw string_app_cons /= IH. lia. Qed.

Lemma string_app_inj_r s t u : s +:+ u = t +:+ u → s = t.
Proof.
  revert t. induction s as [|a s IH]; intros [|b t] Heq.
  - done.
  - apply (f_equal String.length) in Heq.
    rw !string_length_app /= in Heq. lia.
  - apply (f_equal String.length) in Heq.
    rw !string_length_app /= in Heq. lia.
  - rw !string_app_cons in Heq. injection Heq as -> Heq. f_equal. auto.
Qed.

(** All bytes of a string satisfy a test. *)
Fixpoint all_bytes (f : ascii → bool) (s : string) : bool :=
  match s with
  | "" => true
  | String c s' => f c && all_bytes f s'
  end.

Lemma all_bytes_app f s t : all_bytes f (s +:+ t) = all_bytes f s && all_bytes f t.
Proof.
  induction s as [|a s IH]; [done|]. rw string_app_cons /= IH. apply andb_assoc.
Qed.
Lemma all_bytes_impl (f g : ascii → bool) s :
  (∀ c, f c = true → g c = true) → all_bytes f s = true → all_bytes g s = true.
Proof.
  intros Hfg. induction s as [|c s IH]; simpl; [done|].
  rw !andb_true_iff. intros [??]. auto.
Qed.

(** A byte that occurs in neither of two suffix-like parts splits uniquely. *)
Lemma split_at_last_unique (f : ascii → bool) (c : ascii) s1 s2 t1 t2 :
  f c = false → all_bytes f t1 = true → all_bytes f t2 = true →
  s1 +:+ String c t1 = s2 +:+ String c t2 → s1 = s2 ∧ t1 = t2.
Proof.
  intros Hc H1 H2. revert s2. induction s1 as [|a s1 IH]; intros [|b s2] Heq;
    rw ?string_app_cons ?string_app_nil_l in Heq; injection Heq.
  - done.
  - intros -> ->. rw all_bytes_app /= Hc andb_false_r in H1. done.
  - intros <- ->. rw all_bytes_app /= Hc andb_false_r in H2. done.
  - intros Heq' ->. apply IH in Heq' as [-> ->]. done.
Qed.

(** ** strings.HasPrefix, HasSuffix, TrimPrefix *)
Fixpoint strip_prefix (pre s : string) : option string :=
  match pre, s with
  | "", _ => Some s
  | String a pre', String b s' =>
      if Ascii.eqb a b then strip_prefix pre' s' else None
  | String _ _, "" => None
  end.

Lemma strip_prefix_app pre s : strip_prefix pre (pre +:+ s) = Some s.
Proof.
  induction pre as [|a pre IH]; [done|]. rw string_app_cons /=.
  by rw Ascii.eqb_refl.
Qed.
Lemma strip_prefix_Some pre s r : strip_prefix pre s = Some r ↔ s = pre +:+ r.
Proof.
  split; [|intros ->; apply strip_prefix_app].
  revert s. induction pre as [|a pre IH]; intros [|b s]; simpl; try by intros [= <-].
  destruct (Ascii.eqb_spec a b) as [->|]; [|done].
  intros ->%IH. done.
Qed.

Definition HasPrefix (s pre : string) : bool :=
  bool_decide (is_Some (strip_prefix pre s)).
Definition string_rev (s : string) : string := String.rev s.
Definition HasSuffix (s suf : string) : bool :=
  HasPrefix (string_rev s) (string_rev suf).

Lemma HasPrefix_spec s pre : HasPrefix s pre = true ↔ ∃ r, s = pre +:+ r.
Proof.
  unfold HasPrefix. rw bool_decide_eq_true. unfold is_Some.
  split; intros [r Hr]; exists r; [by apply strip_prefix_Some|].
  by apply strip_prefix_Some.
Qed.

Lemma string_rev_app_spec s t : String.rev_app s t = String.rev s +:+ t.
Proof.
  unfold String.rev. revert t. induction s as [|a s IH]; intros t; [done|].
  simpl. rw IH (IH (String a "")) string_app_assoc. done.
Qed.
Lemma string_rev_cons a s : string_rev (String a s) = string_rev s +:+ String a "".
Proof. unfold string_rev, String.rev. simpl. by rw string_rev_app_spec. Qed.
Lemma string_rev_app s t : string_rev (s +:+ t) = string_rev t +:+ string_rev s.
Proof.
  induction s as [|a s IH].
  - by rw string_app_nil_l string_app_nil_r.
  - by rw string_app_cons !string_rev_cons IH string_app_assoc.
Qed.
Lemma string_rev_involutive s : string_rev (string_rev s) = s.
Proof. induction s as [|a s IH]; [done|]. by rw string_rev_cons string_rev_app IH. Qed.

Lemma HasSuffix_spec s suf : HasSuffix s suf = true ↔ ∃ r, s = r +:+ suf.
Proof.
  unfold HasSuffix. rw HasPrefix_spec. split.
  - intros [r Hr]. exists (string_rev r).
    rw -(string_rev_involutive s) Hr string_rev_app string_rev_involutive. done.
  - intros [r ->]. exists (string_rev r). by rw string_rev_app.
Qed.

(** ** strings.Cut, Contains, Split, Join *)
Fixpoint Cut (sep s : string) : option (string * string) :=
  match strip_prefix sep s with
  | Some rest => Some ("", rest)
  | None =>
      match s with
      | "" => None
      | String c s' =>
          match Cut sep s' with
          | Some (b, a) => Some (String c b, a)
          | None => None
          end
      end
  end.
Definition Contains (s sub : string) : bool := bool_decide (is_Some (Cut sub s)).

(** [strings.Split] for a non-empty separator; every cut shortens the rest. *)
Fixpoint split_fuel (n : nat) (sep s : string) : list string :=
  match Cut sep s with
  | None => [s]
  | Some (b, a) => match n with 0 => [s] | S n' => b :: split_fuel n' sep a end
  end.
Definition Split (s sep : string) : list string := split_fuel (String.length s) sep s.

Fixpoint Join (l : list string) (sep : string) : string :=
  match l with
  | [] => ""
  | [s] => s
  | s :: l' => s +:+ sep +:+ Join l' sep
  end.

Lemma Cut_Some sep s b a : Cut sep s = Some (b, a) → s = b +:+ sep +:+ a.
Proof.
  revert b. induction s as [|c s IH]; intros b; simpl.
  - destruct (strip_prefix sep "") as [r|] eqn:E; [|done].
    intros [= <- <-]. by apply strip_prefix_Some in E.
  - destruct (strip_prefix sep (String c s)) as [r|] eqn:E.
    + intros [= <- <-]. by apply strip_prefix_Some in E.
    + destruct (Cut sep s) as [[b' a']|]; [|done].
      intros [= <- <-]. rw string_app_cons. f_equal. by apply IH.
Qed.

Lemma Contains_spec s sub : Contains s sub = true → ∃ b a, s = b +:+ sub +:+ a.
Proof.
  unfold Contains. rw bool_decide_eq_true. intros [[b a] H%Cut_Some]. eauto.
Qed.

(** The first cut of [pre ++ sep ++ rest] is at [pre] when [sep] occurs only
    there, that is when no earlier position matches. *)
Lemma Cut_first sep pre rest :
  sep ≠ "" → (∀ b a, b +:+ sep +:+ a = pre +:+ sep +:+ rest →
              String.length pre ≤ String.length b) →
  Cut sep (pre +:+ sep +:+ rest) = Some (pre, rest).
Proof.
  intros Hne. induction pre as [|c pre IH]; intros Hmin.
  - rw string_app_nil_l. destruct sep as [|x sep]; [done|].
    rw string_app_cons /= Ascii.eqb_refl strip_prefix_app. done.
  - rw string_app_cons. simpl.
    destruct (strip_prefix sep _) as [r|] eqn:E.
    + apply strip_prefix_Some in E. specialize (Hmin "" r).
      rw string_app_nil_l string_app_cons in Hmin. simpl in Hmin.
      specialize (Hmin (eq_sym E)). lia.
    + rw IH; [done|]. intros b a Heq.
      specialize (Hmin (String c b) a). rw !string_app_cons Heq in Hmin.
      specialize (Hmin eq_refl). simpl in Hmin. lia.
Qed.

Lemma Split_head s sep b a :
  Cut sep s = Some (b, a) → s ≠ "" → ∃ l, Split s sep = b :: l ∧ l ≠ [].
Proof.
  unfold Split. destruct s as [|c s]; [done|]. intros HC _.
  change (String.length (String c s)) with (S (String.length s)).
  cbn [split_fuel]. rw HC. eexists. split; [done|].
  destruct (String.length s); simpl; repeat case_match; done.
Qed.

(** ** strconv.Itoa and strconv.Atoi *)
Definition Itoa (z : Z) : string := pretty z.

Definition is_digit (c : ascii) : bool :=
  let n := N_of_ascii c in (48 <=? n)%N && (n <=? 57)%N.
Definition digit_val (c : ascii) : Z := Z.of_N (N_of_ascii c) - 48.

Fixpoint parse_digits (s : string) (acc : Z) : option Z :=
  match s with
  | "" => Some acc
  | String c s' =>
      if is_digit c then parse_digits s' (acc * 10 + digit_val c)%Z else None
  end.

(** [strconv.ParseUint]-style unsigned part: at least one digit. *)
Definition parse_unsigned (s : string) : option Z :=
  match s with "" => None | _ => parse_digits s 0 end.

Definition Atoi (s : string) : option Z :=
  let check z := if in_int64 z then Some z else None in
  match s with
  | String "-" s' => z ← parse_unsigned s'; check (- z)%Z
  | String "+" s' => z ← parse_unsigned s'; check z
  | _ => z ← parse_unsigned s; check z
  end.

Lemma pretty_N_char_digit n : is_digit (pretty_N_char n) = true.
Proof. unfold pretty_N_char. by repeat case_match. Qed.
Lemma pretty_N_char_val n : (n < 10)%N → digit_val (pretty_N_char n) = Z.of_N n.
Proof.
  intros Hn. assert (n = 0 ∨ n = 1 ∨ n = 2 ∨ n = 3 ∨ n = 4 ∨ n = 5 ∨ n = 6 ∨
    n = 7 ∨ n = 8 ∨ n = 9)%N as Hc by lia.
  clear Hn. by destruct_or!; subst.
Qed.

Lemma pretty_N_go_digits n s :
  all_bytes is_digit s = true → all_bytes is_digit (pretty_N_go n s) = true.
Proof.
  revert s. induction (N.lt_wf_0 n) as [n _ IH]; intros s Hs.
  assert (n = 0 ∨ 0 < n)%N as [->|?] by lia; [done|].
  rw pretty_N_go_step //. apply IH; [by apply N.div_lt|].
  simpl. by rw pretty_N_char_digit Hs.
Qed.

Lemma pretty_N_go_parse n s acc :
  parse_digits (pretty_N_go n s) acc =
  parse_digits s (acc * 10 ^ (Z.of_nat (String.length (pretty_N_go n s))
                              - Z.of_nat (String.length s)) + Z.of_N n)%Z
  ∧ String.length s ≤ String.length (pretty_N_go n s).
Proof.
  revert s. induction (N.lt_wf_0 n) as [n _ IH]; intros s.
  assert (n = 0 ∨ 0 < n)%N as [->|Hpos] by lia.
  { rw pretty_N_go_0. split; [|lia]. f_equal.
    rw Z.sub_diag Z.pow_0_r. lia. }
  rw pretty_N_go_step //.
  destruct (IH (n `div` 10)%N ltac:(by apply N.div_lt)
             (String (pretty_N_char (n `mod` 10)) s)) as [Heq Hlen].
  rw Heq. simpl in Hlen |- *. rw pretty_N_char_digit.
  rw pretty_N_char_val; [|by apply N.mod_lt].
  set (L := String.length (pretty_N_go _ _)) in *.
  split; [|lia]. f_equal.
  replace (Z.of_nat L - Z.of_nat (String.length s))%Z
    with ((Z.of_nat L - Z.of_nat (S (String.length s))) + 1)%Z by lia.
  rw Z.pow_add_r; [|lia|lia].
  rw {3}(N.div_mod n 10); [|done].
  rw N2Z.inj_add N2Z.inj_mul Z.pow_1_r. lia.
Qed.

Lemma pretty_N_parse n : parse_unsigned (pretty n) = Some (Z.of_N n).
Proof.
  unfold pretty, pretty_N. case_decide as Hn; [by subst|].
  destruct (pretty_N_go_parse n "" 0) as [Heq _].
  rw Z.mul_0_l Z.add_0_l in Heq. simpl in Heq.
  destruct (pretty_N_go n "") eqn:E; [|done].
  simpl in Heq. injection Heq. lia.
Qed.

Lemma pretty_N_digits (n : N) : all_bytes is_digit (pretty n) = true.
Proof. unfold pretty, pretty_N. case_decide; [done|]. by apply pretty_N_go_digits. Qed.

Lemma Itoa_nonneg z : (0 ≤ z)%Z → Itoa z = pretty (Z.to_N z).
Proof. by destruct z as [|p|p]; [..|lia]. Qed.

Lemma Itoa_digits z : (0 ≤ z)%Z → all_bytes is_digit (Itoa z) = true.
Proof. intros Hz. rw Itoa_nonneg //. apply pretty_N_digits. Qed.

#[global] Instance Itoa_inj : Inj (=) (=) Itoa.
Proof. unfold Itoa. apply _. Qed.

Lemma Atoi_unsigned s :
  all_bytes is_digit s = true →
  Atoi s = (z ← parse_unsigned s; if in_int64 z then Some z else None).
Proof.
  unfold Atoi. destruct s as [|[[] [] [] [] [] [] [] []] s]; done.
Qed.

Lemma Atoi_Itoa z : in_int64 z = true → Atoi (Itoa z) = Some z.
Proof.
  intros Hr. destruct z as [|p|p].
  - done.
  - rw Atoi_unsigned; [|by apply Itoa_digits].
    rw Itoa_nonneg // pretty_N_parse. simpl. by rw Hr.
  - change (Itoa (Z.neg p)) with (String "-" (pretty (N.pos p))).
    unfold Atoi. rw pretty_N_parse. simpl. by rw Hr.
Qed.

Lemma Atoi_range s z : Atoi s = Some z → in_int64 z = true.
Proof.
  unfold Atoi. intros H. repeat (case_match; simplify_option_eq); done.
Qed.

(** ** strings.TrimSpace

    White space is that of [unicode.IsSpace], on its UTF-8 encodings. *)
Definition bN (c : ascii) : N := N_of_ascii c.
Definition space1 (a : ascii) : bool :=
  let n := bN a in ((9 <=? n)%N && (n <=? 13)%N) || (n =? 32)%N.
Definition space2 (a b : ascii) : bool :=
  (bN a =? 194)%N && ((bN b =? 133)%N || (bN b =? 160)%N).
Definition space3 (a b c : ascii) : bool :=
  let '(x, y, z) := (bN a, bN b, bN c) in
  ((x =? 225) && (y =? 154) && (z =? 128)            (* U+1680 *)
   || (x =? 226) && (y =? 128) &&
      ((128 <=? z) && (z <=? 138)                    (* U+2000 .. U+200A *)
       || (z =? 168) || (z =? 169) || (z =? 175))    (* U+2028, U+2029, U+202F *)
   || (x =? 226) && (y =? 129) && (z =? 159)         (* U+205F *)
   || (x =? 227) && (y =? 128) && (z =? 128))%N.     (* U+3000 *)

Section trim.
(** [flip] trims a reversed string: multi-byte encodings come backwards. *)
Variable flip : bool.
Definition sp2 (a b : ascii) := if flip then space2 b a else space2 a b.
Definition sp3 (a b c : ascii) := if flip then space3 c b a else space3 a b c.
Fixpoint trim_left (s : string) : string :=
  match s with
  | "" => ""
  | String a s1 =>
      if space1 a then trim_left s1 else
      match s1 with
      | String b s2 =>
          if sp2 a b then trim_left s2 else
          match s2 with
          | String c s3 => if sp3 a b c then trim_left s3 else s
          | "" => s
          end
      | "" => s
      end
  end.
End trim.

Definition TrimSpace (s : string) : string :=
  string_rev (trim_left true (string_rev (trim_left false s))).

#[local] Ltac bytes_lia :=
  unfold space1, sp2, sp3, space2, space3; cbv beta iota zeta; lia.

Lemma trim_left_visible flip a s :
  (32 <? bN a)%N && (bN a <? 128)%N = true →
  trim_left flip (String a s) = String a s.
Proof.
  intros Ha. cbn [trim_left].
  assert (space1 a = false) as -> by bytes_lia.
  destruct s as [|b [|c s]]; try done.
  - assert (sp2 flip a b = false) as -> by (destruct flip; bytes_lia).
    done.
  - assert (sp2 flip a b = false) as -> by (destruct flip; bytes_lia).
    assert (sp3 flip a b c = false) as -> by (destruct flip; bytes_lia).
    done.
Qed.

(** A string of visible ASCII bytes is its own trimming. *)
Definition visible (c : ascii) : bool := (32 <? bN c)%N && (bN c <? 128)%N.

Lemma all_bytes_rev f s : all_bytes f (string_rev s) = all_bytes f s.
Proof.
  induction s as [|a s IH]; [done|].
  rw string_rev_cons all_bytes_app IH /= andb_true_r. apply andb_comm.
Qed.

Lemma trim_left_all_visible flip s :
  all_bytes visible s = true → trim_left flip s = s.
Proof.
  destruct s as [|a s]; [done|]. simpl. rw andb_true_iff. intros [Ha _].
  by apply trim_left_visible.
Qed.

Lemma TrimSpace_visible s : all_bytes visible s = true → TrimSpace s = s.
Proof.
  intros Hs. unfold TrimSpace. rw (trim_left_all_visible false) //.
  rw trim_left_all_visible; [|by rw all_bytes_rev]. apply string_rev_involutive.
Qed.

(** ** strings.ToLower, on ASCII letters *)
Definition lower_ascii (c : ascii) : ascii :=
  let n := bN c in
  if (65 <=? n)%N && (n <=? 90)%N then ascii_of_N (n + 32) else c.
Fixpoint ToLower (s : string) : string :=
  match s with "" => "" | String c s' => String (lower_ascii c) (ToLower s') end.

(** ** sort.Strings: the sorted permutation, bytewise lexicographic *)
Definition SortStrings (l : list string) : list string := merge_sort String.le l.

Lemma SortStrings_perm l : SortStrings l ≡ₚ l.
Proof. apply merge_sort_Permutation. Qed.
Lemma SortStrings_sorted l : StronglySorted String.le (SortStrings l).
Proof. apply StronglySorted_merge_sort; apply _. Qed.
Lemma length_SortStrings l : length (SortStrings l) = length l.
Proof. apply Permutation_length, SortStrings_perm. Qed.

(** ** fmt.Sscanf with a literal followed by a decimal verb

    The scanned variable keeps its zero value when the literal does not match,
    no digit follows, or the number does not fit.  The literal is the name of
    a Kubernetes object, free of white space and of the verb character. *)
Fixpoint span_digits (s : string) : string :=
  match s with
  | String c s' => if is_digit c then String c (span_digits s') else ""
  | "" => ""
  end.
Definition scan_decimal (s : string) : Z :=
  let num sign s :=
    match parse_unsigned (span_digits s) with
    | Some z => if in_int64 (sign * z)%Z then (sign * z)%Z else 0%Z
    | None => 0%Z
    end in
  match s with
  | String "-" s' => num (-1)%Z s'
  | String "+" s' => num 1%Z s'
  | _ => num 1%Z s
  end.
Definition Sscanf_decimal (literal input : string) : Z :=
  match strip_prefix literal input with
  | Some rest => scan_decimal rest
  | None => 0%Z
  end.

(** [fmt.Sscanf(s, "%d:%d", &a, &b)]: white space may precede a number, but no
    line end; the rest of the input is ignored. *)
Definition newline : ascii := ascii_of_N 10.
Fixpoint byte_in (c : ascii) (s : string) : bool :=
  match s with "" => false | String d s' => Ascii.eqb c d || byte_in c s' end.
Definition skip_space (s : string) : option string :=
  let rest := trim_left false s in
  let skipped := String.substring 0 (String.length s - String.length rest) s in
  if byte_in newline skipped then None else Some rest.
Fixpoint after_digits (s : string) : string :=
  match s with
  | String c s' => if is_digit c then after_digits s' else s
  | "" => ""
  end.
Definition scan_number (s : string) : option (Z * string) :=
  let num sign s :=
    match parse_unsigned (span_digits s) with
    | Some z => if in_int64 (sign * z)%Z then Some ((sign * z)%Z, after_digits s) else None
    | None => None
    end in
  match skip_space s with
  | Some (String "-" s') => num (-1)%Z s'
  | Some (String "+" s') => num 1%Z s'
  | Some s' => num 1%Z s'
  | None => None
  end.
Definition Sscanf_pair (s : string) : option (Z * Z) :=
  match scan_number s with
  | Some (a, String ":" s') =>
      match scan_number s' with Some (b, _) => Some (a, b) | None => None end
  | _ => None
  end.
Example Sscanf_pair_dev : Sscanf_pair "7:12" = Some (7, 12)%Z.
Proof. reflexivity. Qed.
Example Sscanf_pair_space : Sscanf_pair "7 :12" = None ∧ Sscanf_pair "7: 12x" = Some (7, 12)%Z.
Proof. split; reflexivity. Qed.

Lemma span_digits_all s : all_bytes is_digit s = true → span_digits s = s.
Proof.
  induction s as [|c s IH]; simpl; [done|].
  intros [-> ?]%andb_true_iff. f_equal. auto.
Qed.

Lemma scan_decimal_Itoa z :
  (0 ≤ z)%Z → in_int64 z = true → scan_decimal (Itoa z) = z.
Proof.
  intros Hz Hr. pose proof (Itoa_digits z Hz) as Hd.
  assert (scan_decimal (Itoa z) = match parse_unsigned (span_digits (Itoa z)) with
    | Some z => if in_int64 (1 * z)%Z then (1 * z)%Z else 0%Z
    | None => 0%Z end) as ->.
  { destruct (Itoa z) as [|[[] [] [] [] [] [] [] []] s]; done. }
  rw span_digits_all // Itoa_nonneg // pretty_N_parse.
  replace (1 * _)%Z with z by lia. by rw Hr.
Qed.

Lemma Sscanf_decimal_Itoa lit z :
  (0 ≤ z)%Z → in_int64 z = true → Sscanf_decimal lit (lit +:+ Itoa z) = z.
Proof.
  intros ??. unfold Sscanf_decimal. rw strip_prefix_app. by apply scan_decimal_Itoa.
Qed.

(** A separator that is cut nowhere occurs nowhere. *)
Lemma Cut_None sep s b a : Cut sep s = None → s ≠ b +:+ sep +:+ a.
Proof.
  revert s. induction b as [|c b IH]; intros s HC ->.
  - rw string_app_nil_l in HC. destruct (sep +:+ a) as [|c s] eqn:E; cbn [Cut] in HC.
    + destruct sep; [done|done].
    + rw -E strip_prefix_app in HC. done.
  - rw string_app_cons in HC. cbn [Cut] in HC.
    destruct (strip_prefix sep _); [done|].
    destruct (Cut sep (b +:+ sep +:+ a)) as [[? ?]|] eqn:E; [done|]. by apply (IH _ E).
Qed.

Lemma Contains_false s sub b a : Contains s sub = false → s ≠ b +:+ sub +:+ a.
Proof.
  unfold Contains. rw bool_decide_eq_false -eq_None_not_Some. apply Cut_None.
Qed.

Lemma string_app_inj_l s t u : s +:+ t = s +:+ u → t = u.
Proof. induction s as [|a s IH]; [done|]. rw !string_app_cons. intros [= ?]. auto. Qed.

(** Two decompositions of a string: the shorter head is a prefix of the other. *)
Lemma string_app_split b s v t :
  b +:+ s = v +:+ t → String.length b < String.length v →
  ∃ c w, v = b +:+ String c w ∧ s = String c w +:+ t.
Proof.
  revert v. induction b as [|x b IH]; intros v Heq Hlen.
  - destruct v as [|c w]; [simpl in Hlen; lia|]. exists c, w.
    by rw string_app_nil_l in Heq.
  - destruct v as [|y v]; [simpl in Hlen; lia|]. rw !string_app_cons in Heq.
    injection Heq as -> Heq. simpl in Hlen.
    destruct (IH v Heq ltac:(lia)) as (c & w & -> & ->). by exists c, w.
Qed.
