(* ===== verification/GoNet.v ===== *)
(** * Go's net and net/url, as far as the program uses them

    [net.ParseIP] with [IP.To4], [net.SplitHostPort], [net.JoinHostPort] and
    [url.URL.String]. *)
From S2P Require Import Prelude GoStrings.
From Stdlib Require Import Ascii.

(** ** Bytes of a string *)
Fixpoint has_byte (c : ascii) (s : string) : bool :=
  match s with
  | "" => false
  | String a s' => Ascii.eqb a c || has_byte c s'
  end.

(** The parts before and after the first occurrence of a byte. *)
Fixpoint cut_byte (c : ascii) (s : string) : option (string * string) :=
  match s with
  | "" => None
  | String a s' =>
      if Ascii.eqb a c then Some ("", s')
      else match cut_byte c s' with
           | Some (b, r) => Some (String a b, r)
           | None => None
           end
  end.

(** The parts before and after the last occurrence of a byte. *)
Fixpoint cut_last (c : ascii) (s : string) : option (string * string) :=
  match s with
  | "" => None
  | String a s' =>
      match cut_last c s' with
      | Some (b, r) => Some (String a b, r)
      | None => if Ascii.eqb a c then Some ("", s') else None
      end
  end.

(** ** net.JoinHostPort and net.SplitHostPort *)
Definition JoinHostPort (host port : string) : string :=
  if has_byte ":" host then "[" +:+ host +:+ "]:" +:+ port
  else host +:+ ":" +:+ port.

Definition addrErr {A} (why hostport : string) : result A :=
  Err (Errorf why [hostport]).
Definition missingPort := "missing port in address".
Definition tooManyColons := "too many colons in address".

(** What follows the bracketed host: a port after the last colon. *)
Definition after_bracket (hostport tail : string) : result string :=
  match tail with
  | "" => addrErr missingPort hostport
  | String c port =>
      if Ascii.eqb c ":" then
        if has_byte ":" port then addrErr tooManyColons hostport else Ok port
      else addrErr missingPort hostport
  end.

Definition SplitHostPort (hostport : string) : result (string * string) :=
  match cut_last ":" hostport with
  | None => addrErr missingPort hostport
  | Some (before, after) =>
      match hostport with
      | String "[" rest =>
          match cut_byte "]" rest with
          | None => addrErr "missing ']' in address" hostport
          | Some (host, tail) =>
              match after_bracket hostport tail with
              | Err e => Err e
              | Ok port =>
                  if has_byte "[" rest then addrErr "unexpected '[' in address" hostport
                  else if has_byte "]" tail then addrErr "unexpected ']' in address" hostport
                  else Ok (host, port)
              end
          end
      | _ =>
          if has_byte ":" before then addrErr tooManyColons hostport
          else if has_byte "[" hostport then addrErr "unexpected '[' in address" hostport
          else if has_byte "]" hostport then addrErr "unexpected ']' in address" hostport
          else Ok (before, after)
      end
  end.

(** ** net.ParseIP: the sixteen bytes, or nil *)

(** [parseIPv4Fields]: decimal fields without leading zeros, exactly four. *)
Fixpoint ipv4_fields (s : string) (val : Z) (digLen : nat) (fields : list Z)
    : option (list Z) :=
  match s with
  | "" => if bool_decide (length fields < 3) then None else Some (fields ++ [val])
  | String c s' =>
      if is_digit c then
        if bool_decide (digLen = 1) && (val =? 0)%Z then None
        else
          let val := (val * 10 + digit_val c)%Z in
          if (val >? 255)%Z then None else ipv4_fields s' val (S digLen) fields
      else if Ascii.eqb c "." then
        if bool_decide (digLen = 0) || bool_decide (s' = "") then None
        else if bool_decide (length fields = 3) then None
        else ipv4_fields s' 0 0 (fields ++ [val])
      else None
  end.
Definition parseIPv4 (s : string) : option (list Z) := ipv4_fields s 0 0 [].

Definition hex_val (c : ascii) : option Z :=
  let n := Z.of_N (bN c) in
  if ((48 <=? n) && (n <=? 57))%Z then Some (n - 48)%Z
  else if ((97 <=? n) && (n <=? 102))%Z then Some (n - 87)%Z
  else if ((65 <=? n) && (n <=? 70))%Z then Some (n - 55)%Z
  else None.

(** A group of at most four hexadecimal digits: its value, the number of
    digits and what follows; [None] when there are more. *)
Fixpoint hex_group (s : string) (acc : Z) (off : nat) : option (Z * nat * string) :=
  match s with
  | "" => Some (acc, off, "")
  | String c s' =>
      match hex_val c with
      | None => Some (acc, off, s)
      | Some d => if bool_decide (3 < off) then None else hex_group s' (acc * 16 + d)%Z (S off)
      end
  end.

(** The loop of [parseIPv6]: the bytes so far, the position of the ellipsis,
    and what is left of the text (left over text makes the parse fail). *)
Fixpoint ipv6_groups (fuel : nat) (s : string) (ip : list Z) (ellipsis : option nat)
    : option (list Z * option nat * string) :=
  match fuel with
  | 0 => Some (ip, ellipsis, s)
  | S fuel' =>
      if bool_decide (16 ≤ length ip) then Some (ip, ellipsis, s) else
      match hex_group s 0 0 with
      | None => None
      | Some (_, 0, _) => None
      | Some (acc, _, rest) =>
          match rest with
          | String "." _ =>
              if bool_decide (ellipsis = None) && negb (bool_decide (length ip = 12)) then None
              else if bool_decide (16 < length ip + 4) then None
              else match parseIPv4 s with
                   | None => None
                   | Some fields => Some (ip ++ fields, ellipsis, "")
                   end
          | _ =>
              let ip := ip ++ [Z.shiftr acc 8; Z.land acc 255] in
              match rest with
              | "" => Some (ip, ellipsis, "")
              | String ":" "" => None
              | String ":" (String ":" rest2) =>
                  match ellipsis with
                  | Some _ => None
                  | None =>
                      let ellipsis := Some (length ip) in
                      if bool_decide (rest2 = "") then Some (ip, ellipsis, "")
                      else ipv6_groups fuel' rest2 ip ellipsis
                  end
              | String ":" rest1 => ipv6_groups fuel' rest1 ip ellipsis
              | _ => None
              end
          end
      end
  end.

(** The zeros the ellipsis stands for. *)
Definition expand_ellipsis (ip : list Z) (ellipsis : option nat) : option (list Z) :=
  if bool_decide (length ip < 16) then
    match ellipsis with
    | None => None
    | Some e => Some (take e ip ++ replicate (16 - length ip) 0%Z ++ drop e ip)
    end
  else match ellipsis with None => Some ip | Some _ => None end.

Definition parseIPv6 (s : string) : option (list Z) :=
  let go s ellipsis :=
    match ipv6_groups 8 s [] ellipsis with
    | Some (ip, ellipsis, "") => expand_ellipsis ip ellipsis
    | _ => None
    end in
  match s with
  | String ":" (String ":" "") => Some (replicate 16 0%Z)
  | String ":" (String ":" s') => go s' (Some 0)
  | _ => go s None
  end.

Definition v4in6 (fields : list Z) : list Z :=
  replicate 10 0%Z ++ [255; 255]%Z ++ fields.

(** The first '.', ':' or '%' decides; an address with a zone is no [net.IP]. *)
Fixpoint first_mark (s : string) : option ascii :=
  match s with
  | "" => None
  | String c s' =>
      if Ascii.eqb c "." || Ascii.eqb c ":" || Ascii.eqb c "%" then Some c
      else first_mark s'
  end.
Definition ParseIP (s : string) : option (list Z) :=
  match first_mark s with
  | Some "."%char => v4in6 <$> parseIPv4 s
  | Some ":"%char => if has_byte "%" s then None else parseIPv6 s
  | _ => None
  end.

Definition To4 (ip : list Z) : option (list Z) :=
  if bool_decide (take 12 ip = replicate 10 0%Z ++ [255; 255]%Z) then Some (drop 12 ip)
  else None.

(** ** url.URL{Scheme, Host, Path}.String, for a non-empty scheme and a clean
    absolute path *)
Definition unreserved (c : ascii) : bool :=
  let n := bN c in
  ((97 <=? n) && (n <=? 122) || (65 <=? n) && (n <=? 90) || (48 <=? n) && (n <=? 57))%N.
Definition host_safe (c : ascii) : bool :=
  unreserved c || existsb (Ascii.eqb c)
    ["!"; "$"; "&"; "'"; "("; ")"; "*"; "+"; ","; ";"; "="; ":"; "["; "]"; "<"; ">";
     Ascii.Ascii false true false false false true false false;
     "-"; "_"; "."; "~"]%char.
Definition hex_digit (upper : bool) (n : N) : ascii :=
  (if n <? 10 then ascii_of_N (48 + n)
   else ascii_of_N ((if upper then 55 else 87) + n))%N.
Fixpoint escape_host (s : string) : string :=
  match s with
  | "" => ""
  | String c s' =>
      if host_safe c then String c (escape_host s')
      else String "%" (String (hex_digit true (bN c / 16)%N)
             (String (hex_digit true (bN c mod 16)%N) (escape_host s')))
  end.
Definition URLString (scheme host path : string) : string :=
  scheme +:+ "://" +:+ escape_host host +:+ path.

(** ** Lemmas *)
Lemma has_byte_app c s t : has_byte c (s +:+ t) = has_byte c s || has_byte c t.
Proof. induction s as [|a s IH]; [done|]. rw string_app_cons /= IH. apply orb_assoc. Qed.

Lemma cut_byte_first c s t :
  has_byte c s = false → cut_byte c (s +:+ String c t) = Some (s, t).
Proof.
  induction s as [|a s IH]; intros H.
  - rw string_app_nil_l. cbn. by rw Ascii.eqb_refl.
  - cbn in H. apply orb_false_iff in H as [H1 H2]. rw string_app_cons. cbn. by rw H1 IH.
Qed.

Lemma cut_last_none c s : has_byte c s = false → cut_last c s = None.
Proof.
  induction s as [|a s IH]; [done|]. cbn. intros [H1 H2]%orb_false_iff. by rw IH // H1.
Qed.

Lemma cut_last_last c s t :
  has_byte c t = false → cut_last c (s +:+ String c t) = Some (s, t).
Proof.
  intros Ht. induction s as [|a s IH].
  - rw string_app_nil_l. cbn. by rw cut_last_none // Ascii.eqb_refl.
  - rw string_app_cons. cbn. by rw IH.
Qed.

(** A port has no colon and no bracket. *)
Definition plain (s : string) : bool := negb (has_byte "[" s) && negb (has_byte "]" s).

Lemma Split_Join host port :
  plain host = true → plain port = true → has_byte ":" port = false →
  SplitHostPort (JoinHostPort host port) = Ok (host, port).
Proof.
  unfold plain. intros [Hh1%negb_true_iff Hh2%negb_true_iff]%andb_true_iff
    [Hp1%negb_true_iff Hp2%negb_true_iff]%andb_true_iff Hp.
  unfold JoinHostPort, SplitHostPort. destruct (has_byte ":" host) eqn:Hc.
  - change (host +:+ "]:" +:+ port) with (host +:+ String "]" (String ":" port)).
    replace (cut_last ":" _) with (Some ("[" +:+ host +:+ "]", port)).
    2:{ symmetry. change ("[" +:+ host +:+ String "]" (String ":" port))
          with ("[" +:+ host +:+ "]" +:+ String ":" port).
        rw -!string_app_assoc. by apply cut_last_last. }
    cbn [String.append "+:+"]. unfold after_bracket.
    change ("[" +:+ ?x) with (String "[" x). cbv iota beta.
    rw cut_byte_first //. cbn. rw Hp has_byte_app Hh1 /= Hp1 Hp2. done.
  - change (":" +:+ port) with (String ":" port). rw cut_last_last //.
    destruct host as [|a host].
    + rw string_app_nil_l. cbn. by rw Hp1 Hp2.
    + cbn in Hh1, Hh2. apply orb_false_iff in Hh1 as [Ha1 Hh1], Hh2 as [Ha2 Hh2].
      rw string_app_cons.
      assert (has_byte "[" (String a (host +:+ String ":" port)) = false) as E1
        by (cbn; by rw Ha1 has_byte_app Hh1 /= Hp1).
      assert (has_byte "]" (String a (host +:+ String ":" port)) = false) as E2
        by (cbn; by rw Ha2 has_byte_app Hh2 /= Hp2).
      destruct (Ascii.eqb_spec a "[") as [->|]; [done|].
      destruct a as [[] [] [] [] [] [] [] []]; try done; by rw E1 E2 Hc.
Qed.
