(* ===== verification/GoJson.v ===== *)
(** * Go's encoding/json, as far as the program uses it

    JSON values and [json.Marshal]'s compact text.  Object members are listed in
    the order they are printed: the order of the struct's fields, or sorted keys
    for a map. *)
From S2P Require Import Prelude GoStrings GoNet.
From Stdlib Require Import Ascii.

(** JSON values.  A number is an integer, or the text of a literal that is not
    one (it has a fraction or an exponent). *)
Inductive json :=
  | JNull
  | JBool (b : bool)
  | JNum (z : Z)
  | JLit (text : string)
  | JStr (s : string)
  | JArr (l : list json)
  | JObj (fields : list (string * json)).

(** [m[key]] on a decoded object: a repeated key keeps its last value. *)
Fixpoint obj_get (key : string) (fields : list (string * json)) : option json :=
  match fields with
  | [] => None
  | (k, v) :: fields' =>
      match obj_get key fields' with
      | Some v' => Some v'
      | None => if bool_decide (k = key) then Some v else None
      end
  end.
(** Type assertions [v.(T)] *)
Definition as_object (v : json) : option (list (string * json)) :=
  match v with JObj fs => Some fs | _ => None end.
Definition as_array (v : json) : option (list json) :=
  match v with JArr l => Some l | _ => None end.
Definition as_string (v : json) : option string :=
  match v with JStr s => Some s | _ => None end.
(** [s, _ := m[key].(string)] *)
Definition get_string (key : string) (fields : list (string * json)) : string :=
  default "" (obj_get key fields ≫= as_string).

(** ** String literals, with HTML characters escaped *)
Definition dquote : ascii := Ascii.Ascii false true false false false true false false.
Definition backslash : ascii := Ascii.Ascii false false true true true false true false.
Definition q1 (c : ascii) : string := String c "".
Definition esc2 (c : ascii) : string := String backslash (q1 c).
Definition hex4 (n : N) : string :=
  String backslash ("u00" +:+ String (hex_digit false (n / 16)) (q1 (hex_digit false (n mod 16)))).

Definition quote_ascii (c : ascii) : string :=
  let n := bN c in
  if Ascii.eqb c dquote || Ascii.eqb c backslash then esc2 c
  else if (n =? 8)%N then esc2 "b"
  else if (n =? 12)%N then esc2 "f"
  else if (n =? 10)%N then esc2 "n"
  else if (n =? 13)%N then esc2 "r"
  else if (n =? 9)%N then esc2 "t"
  else if (n <? 32)%N || Ascii.eqb c "<" || Ascii.eqb c ">" || Ascii.eqb c "&" then hex4 n
  else q1 c.

(** Well-formed UTF-8 sequences of two, three and four bytes. *)
Definition cont (c : ascii) : bool := ((128 <=? bN c) && (bN c <=? 191))%N.
Definition utf8_2 (a b : ascii) : bool := ((194 <=? bN a) && (bN a <=? 223))%N && cont b.
Definition utf8_3 (a b c : ascii) : bool :=
  let x := bN a in
  ((x =? 224) && (160 <=? bN b) || (225 <=? x) && (x <=? 236) ||
   (x =? 237) && (bN b <=? 159) || (238 <=? x) && (x <=? 239))%N && cont b && cont c.
Definition utf8_4 (a b c d : ascii) : bool :=
  let x := bN a in
  ((x =? 240) && (144 <=? bN b) || (241 <=? x) && (x <=? 243) ||
   (x =? 244) && (bN b <=? 143))%N && cont b && cont c && cont d.
(** U+2028 and U+2029 are escaped, as [\u2028] and [\u2029]. *)
Definition line_sep (a b c : ascii) : bool :=
  ((bN a =? 226) && (bN b =? 128) && ((bN c =? 168) || (bN c =? 169)))%N.

Definition bad_byte : string := String backslash "ufffd".

Fixpoint quote_body (s : string) : string :=
  match s with
  | "" => ""
  | String a s1 =>
      if (bN a <? 128)%N then quote_ascii a +:+ quote_body s1 else
      match s1 with
      | "" => bad_byte
      | String b s2 =>
          if utf8_2 a b then String a (String b (quote_body s2)) else
          match s2 with
          | "" => bad_byte +:+ quote_body s1
          | String c s3 =>
              if utf8_3 a b c then
                if line_sep a b c then
                  (String backslash "u202") +:+
                  String (if (bN c =? 168)%N then "8" else "9")%char (quote_body s3)
                else String a (String b (String c (quote_body s3)))
              else
              match s3 with
              | "" => bad_byte +:+ quote_body s1
              | String d s4 =>
                  if utf8_4 a b c d then
                    String a (String b (String c (String d (quote_body s4))))
                  else bad_byte +:+ quote_body s1
              end
          end
      end
  end.
Definition quote (s : string) : string := String dquote (quote_body s +:+ q1 dquote).

(** ** json.Marshal *)
Fixpoint Marshal (v : json) : string :=
  match v with
  | JNull => "null"
  | JBool b => if b then "true" else "false"
  | JNum z => Itoa z
  | JLit text => text
  | JStr s => quote s
  | JArr l =>
      "[" +:+ Join ((fix go l := match l with [] => [] | v :: l => Marshal v :: go l end) l) ","
          +:+ "]"
  | JObj fs =>
      "{" +:+ Join ((fix go fs := match fs with
                                  | [] => []
                                  | (k, v) :: fs => (quote k +:+ ":" +:+ Marshal v) :: go fs
                                  end) fs) "," +:+ "}"
  end.

(** A field with [omitempty]. *)
Definition omit_str (k v : string) : list (string * json) :=
  if bool_decide (v = "") then [] else [(k, JStr v)].
Definition omit_bool (k : string) (b : bool) : list (string * json) :=
  if b then [(k, JBool true)] else [].
