(* ===== verification/JsonParse.v ===== *)
(** * encoding/json: decoding

    The scanner and the parser of [json.Unmarshal] and of [Decoder.Decode], and
    that they read back what [json.Marshal] printed. *)
From S2P Require Import Prelude GoStrings GoNet GoJson.
From Stdlib Require Import Ascii.

(** ** Strings *)

(** A byte of a literal, or the code unit of a [\u] escape. *)
Inductive str_unit := UByte (c : ascii) | UCode (n : N).

Definition byte (n : N) : string := q1 (ascii_of_N n).
(** The UTF-8 encoding of a code point. *)
Definition utf8_encode (n : N) : string :=
  if (n <? 128)%N then byte n
  else if (n <? 2048)%N then byte (192 + n / 64) +:+ byte (128 + n mod 64)
  else if (n <? 65536)%N then
    byte (224 + n / 4096) +:+ byte (128 + n / 64 mod 64) +:+ byte (128 + n mod 64)
  else byte (240 + n / 262144) +:+ byte (128 + n / 4096 mod 64) +:+
       byte (128 + n / 64 mod 64) +:+ byte (128 + n mod 64).
Definition replacement : string := utf8_encode 65533.
Definition high_surrogate (n : N) : bool := ((55296 <=? n) && (n <? 56320))%N.
Definition low_surrogate (n : N) : bool := ((56320 <=? n) && (n <? 57344))%N.
Definition plain_unit (u : str_unit) : bool :=
  match u with UByte _ => true | UCode n => negb (high_surrogate n || low_surrogate n) end.
Definition unit_text (u : str_unit) : string :=
  match u with
  | UByte c => q1 c
  | UCode n => if high_surrogate n || low_surrogate n then replacement else utf8_encode n
  end.
(** Two escapes that are a surrogate pair make one code point; a surrogate on
    its own is replaced. *)
Fixpoint unit_texts (us : list str_unit) : string :=
  match us with
  | [] => ""
  | u :: us' =>
      match u, us' with
      | UCode n, UCode m :: us'' =>
          if high_surrogate n && low_surrogate m then
            utf8_encode (65536 + (n - 55296) * 1024 + (m - 56320)) +:+ unit_texts us''
          else unit_text u +:+ unit_texts us'
      | _, _ => unit_text u +:+ unit_texts us'
      end
  end.
(** Bytes that are not UTF-8 are replaced one by one. *)
Fixpoint coerce_utf8 (s : string) : string :=
  match s with
  | "" => ""
  | String a s1 =>
      if (bN a <? 128)%N then String a (coerce_utf8 s1) else
      match s1 with
      | "" => replacement
      | String b s2 =>
          if utf8_2 a b then String a (String b (coerce_utf8 s2)) else
          match s2 with
          | "" => replacement +:+ coerce_utf8 s1
          | String c s3 =>
              if utf8_3 a b c then String a (String b (String c (coerce_utf8 s3))) else
              match s3 with
              | "" => replacement +:+ coerce_utf8 s1
              | String d s4 =>
                  if utf8_4 a b c d then
                    String a (String b (String c (String d (coerce_utf8 s4))))
                  else replacement +:+ coerce_utf8 s1
              end
          end
      end
  end.
Definition unquote (us : list str_unit) : string := coerce_utf8 (unit_texts us).

(** ** Tokens *)
Inductive token :=
  | TLBrace | TRBrace | TLBrack | TRBrack | TColon | TComma | TSpace
  | TStr (s : string) | TNum (text : string) | TTrue | TFalse | TNull
  | TErr.                                      (* not JSON from here on *)
(** Texts and units are accumulated in reverse. *)
Inductive lex_state :=
  | LTop | LNum (acc : string) | LWord (acc : string)
  | LStr (acc : list str_unit) | LEsc (acc : list str_unit)
  | LHex (acc : list str_unit) (left_ : nat) (v : N)
  | LErr.

(** The grammar of numbers: [-? (0|[1-9][0-9]* ) (.[0-9]+)? ([eE][+-]?[0-9]+)?] *)
Definition some_digits (s : string) : bool := bool_decide (span_digits s ≠ "").
Definition exponent_ok (s : string) : bool :=
  match s with
  | "" => true
  | String e s' =>
      (Ascii.eqb e "e" || Ascii.eqb e "E") &&
      let s' := match s' with
                | String c s'' => if Ascii.eqb c "+" || Ascii.eqb c "-" then s'' else s'
                | "" => s' end in
      some_digits s' && bool_decide (after_digits s' = "")
  end.
Definition fraction_ok (s : string) : bool :=
  match s with
  | String c s' =>
      if Ascii.eqb c "." then some_digits s' && exponent_ok (after_digits s') else exponent_ok s
  | "" => true
  end.
Definition magnitude_ok (s : string) : bool :=
  match s with
  | "" => false
  | String c s' =>
      if Ascii.eqb c "0" then fraction_ok s'
      else some_digits s && fraction_ok (after_digits s)
  end.
Definition number_ok (s : string) : bool :=
  match s with
  | String c s' => if Ascii.eqb c "-" then magnitude_ok s' else magnitude_ok s
  | "" => false
  end.
Definition num_char (c : ascii) : bool :=
  is_digit c || Ascii.eqb c "-" || Ascii.eqb c "+" || Ascii.eqb c "." ||
  Ascii.eqb c "e" || Ascii.eqb c "E".
Definition word_char (c : ascii) : bool := ((97 <=? bN c) && (bN c <=? 122))%N.
Definition number_token (text : string) : token := if number_ok text then TNum text else TErr.
Definition word_token (text : string) : token :=
  if String.eqb text "true" then TTrue
  else if String.eqb text "false" then TFalse
  else if String.eqb text "null" then TNull
  else TErr.
Definition json_space (c : ascii) : bool :=
  ((bN c =? 32) || (bN c =? 9) || (bN c =? 10) || (bN c =? 13))%N.

Definition feed_top (c : ascii) : list token * lex_state :=
  if json_space c then ([TSpace], LTop)
  else if Ascii.eqb c "{" then ([TLBrace], LTop)
  else if Ascii.eqb c "}" then ([TRBrace], LTop)
  else if Ascii.eqb c "[" then ([TLBrack], LTop)
  else if Ascii.eqb c "]" then ([TRBrack], LTop)
  else if Ascii.eqb c ":" then ([TColon], LTop)
  else if Ascii.eqb c "," then ([TComma], LTop)
  else if Ascii.eqb c dquote then ([], LStr [])
  else if is_digit c || Ascii.eqb c "-" then ([], LNum (q1 c))
  else if word_char c then ([], LWord (q1 c))
  else ([TErr], LErr).
Definition escaped (c : ascii) : option ascii :=
  if Ascii.eqb c dquote || Ascii.eqb c backslash || Ascii.eqb c "/" then Some c
  else if Ascii.eqb c "b" then Some (ascii_of_N 8)
  else if Ascii.eqb c "f" then Some (ascii_of_N 12)
  else if Ascii.eqb c "n" then Some (ascii_of_N 10)
  else if Ascii.eqb c "r" then Some (ascii_of_N 13)
  else if Ascii.eqb c "t" then Some (ascii_of_N 9)
  else None.

Definition feed (st : lex_state) (c : ascii) : list token * lex_state :=
  match st with
  | LTop => feed_top c
  | LNum acc =>
      if num_char c then ([], LNum (String c acc))
      else let '(ts, st') := feed_top c in (number_token (string_rev acc) :: ts, st')
  | LWord acc =>
      if word_char c then ([], LWord (String c acc))
      else let '(ts, st') := feed_top c in (word_token (string_rev acc) :: ts, st')
  | LStr acc =>
      if Ascii.eqb c dquote then ([TStr (unquote (rev acc))], LTop)
      else if Ascii.eqb c backslash then ([], LEsc acc)
      else if (bN c <? 32)%N then ([TErr], LErr)
      else ([], LStr (UByte c :: acc))
  | LEsc acc =>
      if Ascii.eqb c "u" then ([], LHex acc 4 0)
      else match escaped c with
           | Some e => ([], LStr (UByte e :: acc))
           | None => ([TErr], LErr)
           end
  | LHex acc n v =>
      match hex_val c with
      | None => ([TErr], LErr)
      | Some d =>
          let v := (v * 16 + Z.to_N d)%N in
          ([], match n with S (S n') => LHex acc (S n') v | _ => LStr (UCode v :: acc) end)
      end
  | LErr => ([], LErr)
  end.
Definition flush (st : lex_state) : list token :=
  match st with
  | LTop | LErr => []
  | LNum acc => [number_token (string_rev acc)]
  | LWord acc => [word_token (string_rev acc)]
  | LStr _ | LEsc _ | LHex _ _ _ => [TErr]
  end.
Fixpoint lex (st : lex_state) (s : string) : list token :=
  match s with
  | "" => flush st
  | String c s' => let '(ts, st') := feed st c in ts ++ lex st' s'
  end.

(** ** Values *)
Inductive frame :=
  | InArr (items : list json)                        (* in reverse *)
  | InObj (fields : list (string * json))            (* in reverse *)
  | InMember (fields : list (string * json)) (key : string).
(** [true]: the closing bracket may come instead. *)
Inductive parse_state := PValue (first : bool) | PKey (first : bool) | PColon (key : string)
  | PAfter (v : json).
Definition max_depth : Z := 10000.
Definition deep (stack : list frame) : bool := (max_depth <=? Z.of_nat (length stack))%Z.

Definition number_json (text : string) : json :=
  let int s := match parse_unsigned s with Some z => JNum z | None => JLit text end in
  match text with
  | String c s' =>
      if Ascii.eqb c "-" then
        match parse_unsigned s' with Some z => JNum (- z) | None => JLit text end
      else int text
  | "" => JLit text
  end.

Fixpoint parse (st : parse_state) (stack : list frame) (ts : list token)
    : option (json * list token) :=
  match ts with
  | [] => None
  | t :: ts' =>
      let complete (v : json) (stack : list frame) :=
        match stack with [] => Some (v, ts') | _ => parse (PAfter v) stack ts' end in
      match t, st, stack with
      | TSpace, _, _ => parse st stack ts'
      | TNull, PValue _, _ => complete JNull stack
      | TTrue, PValue _, _ => complete (JBool true) stack
      | TFalse, PValue _, _ => complete (JBool false) stack
      | TStr s, PValue _, _ => complete (JStr s) stack
      | TNum text, PValue _, _ => complete (number_json text) stack
      | TLBrack, PValue _, _ =>
          if deep stack then None else parse (PValue true) (InArr [] :: stack) ts'
      | TLBrace, PValue _, _ =>
          if deep stack then None else parse (PKey true) (InObj [] :: stack) ts'
      | TRBrack, PValue true, InArr _ :: stack' => complete (JArr []) stack'
      | TComma, PAfter v, InArr items :: stack' =>
          parse (PValue false) (InArr (v :: items) :: stack') ts'
      | TRBrack, PAfter v, InArr items :: stack' => complete (JArr (rev (v :: items))) stack'
      | TComma, PAfter v, InMember fields key :: stack' =>
          parse (PKey false) (InObj ((key, v) :: fields) :: stack') ts'
      | TRBrace, PAfter v, InMember fields key :: stack' =>
          complete (JObj (rev ((key, v) :: fields))) stack'
      | TRBrace, PKey true, InObj _ :: stack' => complete (JObj []) stack'
      | TStr key, PKey _, _ => parse (PColon key) stack ts'
      | TColon, PColon key, InObj fields :: stack' =>
          parse (PValue false) (InMember fields key :: stack') ts'
      | _, _, _ => None
      end
  end.

Definition syntaxError : error := Errorf "invalid JSON" [].
Definition is_space (t : token) : bool := match t with TSpace => true | _ => false end.
(** [json.Unmarshal] into [any]: the whole text is one value. *)
Definition Unmarshal (s : string) : result json :=
  match parse (PValue false) [] (lex LTop s) with
  | Some (v, rest) => if forallb is_space rest then Ok v else Err syntaxError
  | None => Err syntaxError
  end.
(** [json.NewDecoder(r).Decode]: the first value of the text; after a literal,
    which only the next byte ends, there must be space. *)
Definition Decode (s : string) : result json :=
  match parse (PValue false) [] (lex LTop s) with
  | Some (JObj _ as v, _) | Some (JArr _ as v, _) => Ok v
  | Some (v, []) | Some (v, TSpace :: _) => Ok v
  | _ => Err syntaxError
  end.

Example Unmarshal_sample :
  Unmarshal " [1, -2.5e3 ,{}, [ ] , null]" =
    Ok (JArr [JNum 1; JLit "-2.5e3"; JObj []; JArr []; JNull]) ∧
  Unmarshal "[1,]" = Err syntaxError ∧ Unmarshal "{} x" = Err syntaxError ∧
  Decode "{} x" = Ok (JObj []) ∧ Decode "01" = Err syntaxError.
Proof. vm_compute. done. Qed.

(** ** Reading back what was printed *)

(** [s] is UTF-8. *)
Fixpoint utf8_ok (s : string) : bool :=
  match s with
  | "" => true
  | String a s1 =>
      if (bN a <? 128)%N then utf8_ok s1 else
      match s1 with
      | "" => false
      | String b s2 =>
          if utf8_2 a b then utf8_ok s2 else
          match s2 with
          | "" => false
          | String c s3 =>
              if utf8_3 a b c then utf8_ok s3 else
              match s3 with
              | "" => false
              | String d s4 => if utf8_4 a b c d then utf8_ok s4 else false
              end
          end
      end
  end.

(** Induction along the sequences of UTF-8. *)
Lemma utf8_ind (P : string → Prop) :
  P "" →
  (∀ a s, (bN a <? 128)%N = true → P s → P (String a s)) →
  (∀ a b s, (bN a <? 128)%N = false → utf8_2 a b = true → P s → P (String a (String b s))) →
  (∀ a b c s, (bN a <? 128)%N = false → utf8_2 a b = false → utf8_3 a b c = true → P s →
     P (String a (String b (String c s)))) →
  (∀ a b c d s, (bN a <? 128)%N = false → utf8_2 a b = false → utf8_3 a b c = false →
     utf8_4 a b c d = true → P s → P (String a (String b (String c (String d s))))) →
  ∀ s, utf8_ok s = true → P s.
Proof.
  intros H0 H1 H2 H3 H4.
  assert (∀ n s, String.length s ≤ n → utf8_ok s = true → P s) as H; [|intros s Hs; exact (H (String.length s) s (le_n _) Hs)].
  intros n. induction n as [|n IH]; intros s Hn Hs.
  { destruct s; [done|]. cbn in Hn. lia. }
  destruct s as [|a s1]; [done|]. cbn [utf8_ok String.length] in Hs, Hn.
  destruct (bN a <? 128)%N eqn:Ha; [apply H1; [done|apply IH; [lia|done]]|].
  destruct s1 as [|b s2]; [done|]. cbn [String.length] in Hn.
  destruct (utf8_2 a b) eqn:Hab; [apply H2; [done..|apply IH; [lia|done]]|].
  destruct s2 as [|c s3]; [done|]. cbn [String.length] in Hn.
  destruct (utf8_3 a b c) eqn:Hc; [apply H3; [done..|apply IH; [lia|done]]|].
  destruct s3 as [|d s4]; [done|]. cbn [String.length] in Hn.
  destruct (utf8_4 a b c d) eqn:Hd; [|done]. apply H4; [done..|apply IH; [lia|done]].
Qed.

Lemma coerce_utf8_ok s : utf8_ok s = true → coerce_utf8 s = s.
Proof.
  apply (utf8_ind (λ s, coerce_utf8 s = s)); [done|..]; intros; cbn [coerce_utf8].
  - by rw H H0.
  - by rw H H0 H1.
  - by rw H H0 H1 H2.
  - by rw H H0 H1 H2 H3.
Qed.

Lemma unit_texts_cons u us : plain_unit u = true → unit_texts (u :: us) = unit_text u +:+ unit_texts us.
Proof.
  intros Hu. destruct u as [c|n]; cbn [unit_texts]; [by destruct us|].
  destruct us as [|[c|m] us]; [done..|]. cbn [plain_unit] in Hu.
  apply negb_true_iff, orb_false_iff in Hu as [-> _]. done.
Qed.
Lemma unit_texts_app us1 us2 :
  forallb plain_unit us1 = true → unit_texts (us1 ++ us2) = unit_texts us1 +:+ unit_texts us2.
Proof.
  induction us1 as [|u us1 IH]; [done|]. cbn [forallb app]. intros [Hu H1]%andb_prop.
  by rw !unit_texts_cons // IH // string_app_assoc.
Qed.

Lemma lex_cons st c s ts st' : feed st c = (ts, st') → lex st (String c s) = ts ++ lex st' s.
Proof. intros H. cbn [lex]. by rw H. Qed.
Lemma lex_byte acc c s :
  (bN c <? 128)%N = false → lex (LStr acc) (String c s) = lex (LStr (UByte c :: acc)) s.
Proof.
  intros H. assert (feed (LStr acc) c = ([], LStr (UByte c :: acc))) as E; [|by rw (lex_cons _ _ _ _ _ E)].
  destruct c as [[] [] [] [] [] [] [] []]; try done; by vm_compute in H.
Qed.
(** An ASCII byte and what it is printed as. *)
Lemma lex_quote_ascii a :
  (bN a <? 128)%N = true → ∃ u, plain_unit u = true ∧ unit_text u = q1 a ∧
    ∀ acc s, lex (LStr acc) (quote_ascii a +:+ s) = lex (LStr (u :: acc)) s.
Proof.
  intros H.
  destruct a as [[] [] [] [] [] [] [] []];
    first [by vm_compute in H
          |eexists (UByte _); split; [reflexivity|split; [reflexivity|intros acc s; reflexivity]]
          |eexists (UCode _); split; [|split; [|intros acc s; reflexivity]]; vm_compute; reflexivity].
Qed.
Lemma ascii_of_bN a n : bN a = n → a = ascii_of_N n.
Proof. intros <-. symmetry. apply ascii_N_embedding. Qed.
Lemma line_sep_code a b c :
  line_sep a b c = true → ∃ n,
    String a (String b (q1 c)) = utf8_encode n ∧ plain_unit (UCode n) = true ∧
    ∀ acc s, lex (LStr acc) (String backslash "u202" +:+
        String (if (bN c =? 168)%N then "8" else "9")%char s) = lex (LStr (UCode n :: acc)) s.
Proof.
  unfold line_sep. intros [[Ha%N.eqb_eq Hb%N.eqb_eq]%andb_prop Hc]%andb_prop.
  apply ascii_of_bN in Ha as ->, Hb as ->.
  apply orb_prop in Hc as [Hc%N.eqb_eq|Hc%N.eqb_eq]; rw Hc; apply ascii_of_bN in Hc as ->.
  - by exists 8232%N.
  - by exists 8233%N.
Qed.

Lemma lex_quote_body s :
  utf8_ok s = true → ∃ us, forallb plain_unit us = true ∧ unit_texts us = s ∧
    ∀ acc rest, lex (LStr acc) (quote_body s +:+ rest) = lex (LStr (rev us ++ acc)) rest.
Proof.
  set (P s := ∃ us, forallb plain_unit us = true ∧ unit_texts us = s ∧
    ∀ acc rest, lex (LStr acc) (quote_body s +:+ rest) = lex (LStr (rev us ++ acc)) rest).
  assert (∀ u us pre q s, plain_unit u = true → unit_text u = pre → forallb plain_unit us = true →
    unit_texts us = s → (∀ acc rest, lex (LStr acc) (q +:+ rest) = lex (LStr (u :: acc)) rest) →
    (∀ acc rest, lex (LStr acc) (quote_body s +:+ rest) = lex (LStr (rev us ++ acc)) rest) →
    forallb plain_unit (u :: us) = true ∧ unit_texts (u :: us) = pre +:+ s ∧
    ∀ acc rest, lex (LStr acc) ((q +:+ quote_body s) +:+ rest) = lex (LStr (rev (u :: us) ++ acc)) rest)
    as Hcons.
  { intros u us pre q t Hu Hpre Hus Ht Hq Hl. split_and!.
    - cbn [forallb]. by rw Hu Hus.
    - by rw unit_texts_cons // Hpre Ht.
    - intros acc rest. rw string_app_assoc Hq Hl. cbn [rev]. by rw -app_assoc. }
  apply (utf8_ind P).
  - exists []. by split_and!.
  - intros a t Ha (us & Hus & Ht & Hl). destruct (lex_quote_ascii a Ha) as (u & Hu & Hx & Hq).
    exists (u :: us). cbn [quote_body]. rw Ha. apply (Hcons u us (q1 a)); auto.
  - intros a b t Ha Hab (us & Hus & Ht & Hl). exists (UByte a :: UByte b :: us).
    assert ((bN b <? 128) = false)%N as Hb.
    { unfold utf8_2, cont in Hab. lia. }
    cbn [quote_body]. rw Ha Hab. split; [done|]. split; [by rw !unit_texts_cons // Ht|].
    intros acc rest. rw !string_app_cons !lex_byte // Hl. cbn [rev]. by rw -!app_assoc.
  - intros a b c t Ha Hab Hc (us & Hus & Ht & Hl). cbn [quote_body]. unfold P. cbn [quote_body].
    rw Ha Hab Hc. destruct (line_sep a b c) eqn:Hsep.
    + destruct (line_sep_code a b c Hsep) as (n & Hn & Hp & Hq). exists (UCode n :: us).
      split; [cbn [forallb]; by rw Hp Hus|]. split.
      * rw unit_texts_cons // Ht. cbn [unit_text]. cbn [plain_unit] in Hp.
        apply negb_true_iff in Hp. rw Hp -Hn. done.
      * intros acc rest. rw string_app_assoc string_app_cons Hq Hl. cbn [rev]. by rw -app_assoc.
    + assert ((bN b <? 128) = false ∧ (bN c <? 128) = false)%N as [Hb Hc'].
      { unfold utf8_3, cont in Hc. lia. }
      exists (UByte a :: UByte b :: UByte c :: us). split; [done|].
      split; [by rw !unit_texts_cons // Ht|].
      intros acc rest. rw !string_app_cons !lex_byte // Hl. cbn [rev]. by rw -!app_assoc.
  - intros a b c d t Ha Hab Hc Hd (us & Hus & Ht & Hl). unfold P. cbn [quote_body].
    rw Ha Hab Hc Hd.
    assert ((bN b <? 128) = false ∧ (bN c <? 128) = false ∧ (bN d <? 128) = false)%N as (Hb & Hc' & Hd').
    { unfold utf8_4, cont in Hd. lia. }
    exists (UByte a :: UByte b :: UByte c :: UByte d :: us). split; [done|].
    split; [by rw !unit_texts_cons // Ht|].
    intros acc rest. rw !string_app_cons !lex_byte // Hl. cbn [rev]. by rw -!app_assoc.
Qed.

(** ** The tokens of a value *)
Fixpoint tokens_of (v : json) : list token :=
  match v with
  | JNull => [TNull]
  | JBool true => [TTrue]
  | JBool false => [TFalse]
  | JNum z => [TNum (Itoa z)]
  | JLit text => [TNum text]
  | JStr s => [TStr s]
  | JArr l =>
      TLBrack :: (fix go l := match l with
                              | [] => []
                              | [v] => tokens_of v
                              | v :: l' => tokens_of v ++ TComma :: go l'
                              end) l ++ [TRBrack]
  | JObj fs =>
      TLBrace :: (fix go fs := match fs with
                               | [] => []
                               | [(k, v)] => TStr k :: TColon :: tokens_of v
                               | (k, v) :: fs' => TStr k :: TColon :: tokens_of v ++ TComma :: go fs'
                               end) fs ++ [TRBrace]
  end.
Definition items_tokens : list json → list token :=
  fix go l := match l with
              | [] => []
              | [v] => tokens_of v
              | v :: l' => tokens_of v ++ TComma :: go l'
              end.
Definition fields_tokens : list (string * json) → list token :=
  fix go fs := match fs with
               | [] => []
               | [(k, v)] => TStr k :: TColon :: tokens_of v
               | (k, v) :: fs' => TStr k :: TColon :: tokens_of v ++ TComma :: go fs'
               end.

(** Values whose texts are UTF-8 and whose other numbers have a fraction or an
    exponent. *)
Fixpoint json_ok (v : json) : bool :=
  match v with
  | JNull | JBool _ | JNum _ => true
  | JLit text => number_ok text && all_bytes num_char text &&
                 match number_json text with JLit _ => true | _ => false end
  | JStr s => utf8_ok s
  | JArr l => forallb json_ok l
  | JObj fs => forallb (λ kv, utf8_ok kv.1 && json_ok kv.2) fs
  end.
Fixpoint json_depth (v : json) : Z :=
  match v with
  | JArr l => (1 + foldr Z.max 0 (json_depth <$> l))%Z
  | JObj fs => (1 + foldr Z.max 0 ((λ kv, json_depth kv.2) <$> fs))%Z
  | _ => 0%Z
  end.

Section json_induction.
Context (P : json → Prop).
Hypothesis (Hnull : P JNull) (Hbool : ∀ b, P (JBool b)) (Hnum : ∀ z, P (JNum z))
  (Hlit : ∀ t, P (JLit t)) (Hstr : ∀ s, P (JStr s))
  (Harr : ∀ l, Forall P l → P (JArr l)) (Hobj : ∀ fs, Forall (λ kv, P kv.2) fs → P (JObj fs)).
Fixpoint json_nested_ind (v : json) : P v :=
  match v with
  | JNull => Hnull
  | JBool b => Hbool b
  | JNum z => Hnum z
  | JLit t => Hlit t
  | JStr s => Hstr s
  | JArr l => Harr l ((fix go l : Forall P l :=
      match l with
      | [] => Forall_nil_2 _
      | v :: l' => Forall_cons_2 _ _ _ (json_nested_ind v) (go l')
      end) l)
  | JObj fs => Hobj fs ((fix go fs : Forall (λ kv, P kv.2) fs :=
      match fs with
      | [] => Forall_nil_2 _
      | kv :: fs' => Forall_cons_2 _ _ _ (json_nested_ind kv.2) (go fs')
      end) fs)
  end.
End json_induction.

(** What may follow a number or a literal. *)
Definition delimited (s : string) : bool :=
  match s with
  | "" => true
  | String c _ => Ascii.eqb c "," || Ascii.eqb c "]" || Ascii.eqb c "}" || json_space c
  end.

Lemma lex_quote s rest :
  utf8_ok s = true → lex LTop (quote s +:+ rest) = TStr s :: lex LTop rest.
Proof.
  intros Hs. destruct (lex_quote_body s Hs) as (us & Hus & Ht & Hl).
  unfold quote. rw string_app_cons string_app_assoc (lex_cons LTop dquote _ [] (LStr [])) //.
  rw app_nil_l Hl (lex_cons _ dquote _ [TStr (unquote us)] LTop) //.
  - unfold unquote. by rw Ht coerce_utf8_ok.
  - cbn [feed]. by rw app_nil_r rev_involutive.
Qed.
Lemma lex_run (mk : string → lex_state) (keep : ascii → bool) s acc rest :
  (∀ acc c, keep c = true → feed (mk acc) c = ([], mk (String c acc))) →
  all_bytes keep s = true →
  lex (mk acc) (s +:+ rest) = lex (mk (string_rev s +:+ acc)) rest.
Proof.
  intros Hfeed. revert acc. induction s as [|c s IH]; intros acc; [done|].
  cbn [all_bytes]. intros [Hc Hs]%andb_prop.
  rw string_app_cons (lex_cons _ _ _ _ _ (Hfeed acc c Hc)) app_nil_l IH //.
  by rw string_rev_cons string_app_assoc.
Qed.
Lemma lex_delimited (mk : string → lex_state) (tok : string → token) acc rest :
  flush (mk acc) = [tok (string_rev acc)] →
  (∀ c, delimited (q1 c) = true → feed (mk acc) c =
     let '(ts, st') := feed_top c in (tok (string_rev acc) :: ts, st')) →
  delimited rest = true → lex (mk acc) rest = tok (string_rev acc) :: lex LTop rest.
Proof.
  intros Hf Hfeed Hd. destruct rest as [|c rest]; [exact Hf|].
  cbn [lex]. rw Hfeed; [|exact Hd]. cbn [feed]. by destruct (feed_top c).
Qed.
Lemma delimited_cases c (P : ascii → Prop) :
  delimited (q1 c) = true → P ","%char → P "]"%char → P "}"%char →
  P (ascii_of_N 32) → P (ascii_of_N 9) → P (ascii_of_N 10) → P (ascii_of_N 13) → P c.
Proof.
  cbn. unfold json_space.
  intros [[[H%Ascii.eqb_eq|H%Ascii.eqb_eq]%orb_prop|H%Ascii.eqb_eq]%orb_prop|H]%orb_prop;
    subst; auto.
  destruct (orb_prop _ _ H) as [[[H1|H1]%orb_prop|H1]%orb_prop|H1];
    apply N.eqb_eq, ascii_of_bN in H1; subst; auto.
Qed.

Lemma after_digits_all s : all_bytes is_digit s = true → after_digits s = "".
Proof. induction s as [|c s IH]; [done|]. cbn. intros [-> H]%andb_prop. auto. Qed.
Lemma digits_num_chars s : all_bytes is_digit s = true → all_bytes num_char s = true.
Proof. apply all_bytes_impl. intros c Hc. unfold num_char. by rw Hc. Qed.
(** A positive number is printed without a leading zero. *)
Lemma pretty_N_go_head n s : (0 < n)%N → ∃ c t, pretty_N_go n s = String c t ∧ Ascii.eqb c "0" = false.
Proof.
  revert s. induction (N.lt_wf_0 n) as [n _ IH]; intros s Hn. rw pretty_N_go_step //.
  destruct (decide (n `div` 10 = 0)%N) as [Hz|Hz].
  - rw Hz pretty_N_go_0. eexists _, _. split; [done|].
    assert (n < 10)%N as Hlt by (apply N.div_small_iff; [done|exact Hz]).
    rw N.mod_small //. assert (n = 1 ∨ n = 2 ∨ n = 3 ∨ n = 4 ∨ n = 5 ∨ n = 6 ∨
      n = 7 ∨ n = 8 ∨ n = 9)%N as Hc by lia. clear -Hc. by destruct_or!; subst.
  - apply IH; [by apply N.div_lt|by apply N.neq_0_lt_0].
Qed.
Lemma magnitude_pretty (n : N) : magnitude_ok (pretty n) = true.
Proof.
  pose proof (pretty_N_digits n) as Hd. unfold pretty, pretty_N in *.
  case_decide as Hn; [done|].
  destruct (pretty_N_go_head n "") as (c & t & Heq & Hc); [lia|]. rw Heq. rw Heq in Hd.
  unfold magnitude_ok, some_digits. rw Hc span_digits_all // after_digits_all //.
Qed.
Lemma Itoa_cases z :
  (0 ≤ z)%Z ∧ Itoa z = pretty (Z.to_N z) ∨
  (z < 0)%Z ∧ Itoa z = String "-" (pretty (Z.to_N (- z))).
Proof.
  destruct z as [|p|p]; [left; by split|left; split; [lia|done]|right; split; [lia|done]].
Qed.
Lemma digit_not_minus c : is_digit c = true → Ascii.eqb c "-" = false.
Proof. intros H. apply Ascii.eqb_neq. by intros ->. Qed.
Lemma pretty_N_first (n : N) : ∃ c t, pretty n = String c t ∧ is_digit c = true.
Proof.
  pose proof (pretty_N_digits n) as Hd. pose proof (magnitude_pretty n) as Hm.
  destruct (pretty n) as [|c t]; [done|]. exists c, t. split; [done|].
  cbn [all_bytes] in Hd. by apply andb_prop in Hd as [Hd _].
Qed.
Lemma number_ok_Itoa z :
  number_ok (Itoa z) = true ∧ all_bytes num_char (Itoa z) = true ∧ number_json (Itoa z) = JNum z.
Proof.
  destruct (Itoa_cases z) as [[Hz ->]|[Hz ->]].
  - destruct (pretty_N_first (Z.to_N z)) as (c & t & E & Hc).
    split_and!; [|by apply digits_num_chars, pretty_N_digits|].
    + pose proof (magnitude_pretty (Z.to_N z)) as Hm. rw E in Hm. rw E. cbn [number_ok].
      by rw digit_not_minus.
    + pose proof (pretty_N_parse (Z.to_N z)) as Hp. rw E in Hp. rw E. unfold number_json.
      rw digit_not_minus // Hp. do 2 f_equal. lia.
  - pose proof (magnitude_pretty (Z.to_N (- z))) as Hm.
    split_and!; [done|cbn; by apply digits_num_chars, pretty_N_digits|].
    cbn [number_json]. rw pretty_N_parse. cbn. do 2 f_equal. lia.
Qed.

Lemma lex_number text rest :
  number_ok text = true → all_bytes num_char text = true → delimited rest = true →
  lex LTop (text +:+ rest) = TNum text :: lex LTop rest.
Proof.
  intros Hok Hch Hd. destruct text as [|c t]; [done|]. cbn [all_bytes] in Hch.
  apply andb_prop in Hch as [Hc Ht].
  assert (feed LTop c = ([], LNum (q1 c))) as Hfeed.
  { cbn [number_ok] in Hok. destruct (Ascii.eqb_spec c "-") as [->|_]; [done|].
    unfold magnitude_ok, some_digits in Hok. destruct (Ascii.eqb_spec c "0") as [->|_]; [done|].
    cbn [span_digits] in Hok. destruct (is_digit c) eqn:Hdig; [|done].
    clear -Hdig. destruct c as [[] [] [] [] [] [] [] []]; done. }
  rw string_app_cons (lex_cons _ _ _ _ _ Hfeed) app_nil_l.
  rw (lex_run LNum num_char) //; [|by intros acc a Ha; cbn [feed]; rw Ha].
  rw (lex_delimited LNum number_token) //.
  - unfold number_token. rw string_rev_app string_rev_involutive. change (string_rev (q1 c)) with (q1 c).
    change (q1 c +:+ t) with (String c t). by rw Hok.
  - intros a Ha. pattern a. apply (delimited_cases a _ Ha); reflexivity.
Qed.
Lemma lex_word w tok rest :
  word_token w = tok → w ∈ ["true"; "false"; "null"] → delimited rest = true →
  lex LTop (w +:+ rest) = tok :: lex LTop rest.
Proof.
  intros <- Hw Hd.
  assert (∀ acc, lex (LWord acc) rest = word_token (string_rev acc) :: lex LTop rest) as H.
  { intros acc. apply (lex_delimited LWord word_token); [done| |done].
    intros a Ha. pattern a. apply (delimited_cases a _ Ha); reflexivity. }
  rw !elem_of_cons elem_of_nil in Hw. destruct Hw as [->|[->|[->|[]]]]; apply H.
Qed.

(** ** The scanner on printed values *)
Definition lexes (v : json) : Prop := ∀ rest,
  json_ok v = true → delimited rest = true →
  lex LTop (Marshal v +:+ rest) = tokens_of v ++ lex LTop rest.
Definition items_text : list json → string :=
  λ l, Join ((fix go l := match l with [] => [] | v :: l => Marshal v :: go l end) l) ",".
Definition fields_text : list (string * json) → string :=
  λ fs, Join ((fix go fs := match fs with
                            | [] => []
                            | (k, v) :: fs => (quote k +:+ ":" +:+ Marshal v) :: go fs
                            end) fs) ",".
Definition punct (c : ascii) (t : token) : Prop := feed_top c = ([t], LTop).
Lemma lex_punct c t s : punct c t → lex LTop (String c s) = t :: lex LTop s.
Proof. intros H. by rw (lex_cons LTop c s [t] LTop). Qed.

Lemma lex_items l rest :
  Forall lexes l → forallb json_ok l = true →
  lex LTop (items_text l +:+ String "]" rest) = items_tokens l ++ TRBrack :: lex LTop rest.
Proof.
  intros Hall. induction Hall as [|v l Hv Hall IH]; intros Hok.
  { apply lex_punct. reflexivity. }
  cbn [forallb] in Hok. apply andb_prop in Hok as [Hokv Hok].
  destruct l as [|w l].
  - unfold items_text. cbn [Join]. by rw Hv.
  - change (items_text (v :: w :: l)) with (Marshal v +:+ "," +:+ items_text (w :: l)).
    rw !string_app_assoc Hv // (lex_punct "," TComma) //.
    rw IH //. cbn [items_tokens]. by rw -app_assoc.
Qed.
Lemma lex_fields fs rest :
  Forall (λ kv, lexes kv.2) fs → forallb (λ kv, utf8_ok kv.1 && json_ok kv.2) fs = true →
  lex LTop (fields_text fs +:+ String "}" rest) = fields_tokens fs ++ TRBrace :: lex LTop rest.
Proof.
  intros Hall. induction Hall as [|[k v] fs Hv Hall IH]; intros Hok.
  { apply lex_punct. reflexivity. }
  cbn [forallb fst snd] in Hok, Hv. apply andb_prop in Hok as [[Hk Hokv]%andb_prop Hok].
  destruct fs as [|[k' v'] fs].
  - unfold fields_text. cbn [Join]. rw !string_app_assoc lex_quote // (lex_punct ":" TColon) //.
    by rw Hv.
  - change (fields_text ((k, v) :: (k', v') :: fs)) with
      ((quote k +:+ ":" +:+ Marshal v) +:+ "," +:+ fields_text ((k', v') :: fs)).
    rw !string_app_assoc lex_quote // (lex_punct ":" TColon) // Hv // (lex_punct "," TComma) //.
    rw IH //. cbn [fields_tokens app]. by rw -app_assoc.
Qed.

Lemma lex_Marshal v : lexes v.
Proof.
  induction v using json_nested_ind; intros rest Hok Hd.
  - apply (lex_word "null" TNull); [done|set_solver|done].
  - destruct b; [apply (lex_word "true" TTrue)|apply (lex_word "false" TFalse)];
      first [done|set_solver].
  - destruct (number_ok_Itoa z) as (? & ? & _). by apply lex_number.
  - cbn [json_ok] in Hok. apply andb_prop in Hok as [[? ?]%andb_prop _]. by apply lex_number.
  - by apply lex_quote.
  - change (Marshal (JArr l)) with (String "[" (items_text l +:+ "]")).
    rw string_app_cons (lex_punct _ TLBrack) // string_app_assoc lex_items //.
    change (tokens_of (JArr l)) with (TLBrack :: items_tokens l ++ [TRBrack]).
    cbn [app]. by rw -app_assoc.
  - change (Marshal (JObj fs)) with (String "{" (fields_text fs +:+ "}")).
    rw string_app_cons (lex_punct _ TLBrace) // string_app_assoc lex_fields //.
    change (tokens_of (JObj fs)) with (TLBrace :: fields_tokens fs ++ [TRBrace]).
    cbn [app]. by rw -app_assoc.
Qed.

(** ** The parser on the tokens of a value *)
Definition complete (v : json) (stack : list frame) (rest : list token) :=
  match stack with [] => Some (v, rest) | _ => parse (PAfter v) stack rest end.
Definition parses (v : json) : Prop := ∀ first stack rest,
  json_ok v = true → (Z.of_nat (length stack) + json_depth v ≤ max_depth)%Z →
  parse (PValue first) stack (tokens_of v ++ rest) = complete v stack rest.
Lemma depth_in {A} (f : A → Z) (l : list A) x :
  x ∈ l → (f x ≤ foldr Z.max 0 (f <$> l))%Z.
Proof. induction 1; cbn; lia. Qed.
Lemma shallow {A} (stack : list frame) (f : A → Z) l d :
  (Z.of_nat (length stack) + (1 + foldr Z.max 0 (f <$> l)) ≤ d)%Z →
  (Z.of_nat (length stack) + 1 ≤ d)%Z ∧ ∀ x, x ∈ l → (Z.of_nat (S (length stack)) + f x ≤ d)%Z.
Proof.
  intros H. assert (0 ≤ foldr Z.max 0 (f <$> l))%Z by (clear; induction l; cbn; lia).
  split; [lia|]. intros x Hx%(depth_in f). lia.
Qed.

Lemma parse_items l items first stack rest :
  Forall parses l → l ≠ [] → forallb json_ok l = true →
  (∀ v, v ∈ l → (Z.of_nat (S (length stack)) + json_depth v ≤ max_depth)%Z) →
  parse (PValue first) (InArr items :: stack) (items_tokens l ++ TRBrack :: rest) =
  complete (JArr (rev items ++ l)) stack rest.
Proof.
  intros Hall. revert items first. induction Hall as [|v l Hv Hall IH]; [done|].
  intros items first _ Hok Hdepth. cbn [forallb] in Hok. apply andb_prop in Hok as [Hokv Hok].
  assert (Z.of_nat (length (InArr items :: stack)) + json_depth v ≤ max_depth)%Z as Hdv.
  { apply Hdepth. apply list_elem_of_here. }
  destruct l as [|w l].
  - cbn [items_tokens]. by rw Hv.
  - change (items_tokens (v :: w :: l)) with (tokens_of v ++ TComma :: items_tokens (w :: l)).
    rw -app_assoc Hv //. cbn [complete app parse]. rw IH //.
    + cbn [rev]. by rw -app_assoc.
    + intros x Hx. apply Hdepth. by apply list_elem_of_further.
Qed.
Lemma parse_fields fs fields first stack rest :
  Forall (λ kv, parses kv.2) fs → fs ≠ [] →
  forallb (λ kv, utf8_ok kv.1 && json_ok kv.2) fs = true →
  (∀ kv, kv ∈ fs → (Z.of_nat (S (length stack)) + json_depth kv.2 ≤ max_depth)%Z) →
  parse (PKey first) (InObj fields :: stack) (fields_tokens fs ++ TRBrace :: rest) =
  complete (JObj (rev fields ++ fs)) stack rest.
Proof.
  intros Hall. revert fields first. induction Hall as [|[k v] fs Hv Hall IH]; [done|].
  intros fields first _ Hok Hdepth. cbn [forallb fst snd] in Hok, Hv.
  apply andb_prop in Hok as [[_ Hokv]%andb_prop Hok].
  assert (Z.of_nat (length (InMember fields k :: stack)) + json_depth v ≤ max_depth)%Z as Hdv.
  { apply (Hdepth (k, v)). apply list_elem_of_here. }
  destruct fs as [|[k' v'] fs].
  - cbn [fields_tokens app parse]. destruct first; by rw Hv.
  - change (fields_tokens ((k, v) :: (k', v') :: fs)) with
      (TStr k :: TColon :: tokens_of v ++ TComma :: fields_tokens ((k', v') :: fs)).
    cbn [app parse]. rw -app_assoc. destruct first; rw Hv //; cbn [complete app parse]; rw IH //.
    + cbn [rev]. by rw -app_assoc.
    + intros x Hx. apply Hdepth. by apply list_elem_of_further.
    + cbn [rev]. by rw -app_assoc.
    + intros x Hx. apply Hdepth. by apply list_elem_of_further.
Qed.
Lemma parse_tokens v : parses v.
Proof.
  induction v using json_nested_ind; intros first stack rest Hok Hdepth;
    cbn [json_ok json_depth] in Hok, Hdepth.
  - by destruct stack.
  - by destruct b, stack.
  - destruct (number_ok_Itoa z) as (_ & _ & Hz). cbn [tokens_of app parse]. by rw Hz.
  - apply andb_prop in Hok as [_ Hlit]. cbn [tokens_of app parse].
    assert (number_json t = JLit t) as ->; [|done].
    unfold number_json in *. repeat case_match; by try injection Hlit.
  - by destruct stack.
  - apply shallow in Hdepth as [Hd Hin].
    change (tokens_of (JArr l)) with (TLBrack :: items_tokens l ++ [TRBrack]).
    cbn [app parse]. unfold deep. replace (max_depth <=? _)%Z with false by lia.
    rw -app_assoc. destruct l as [|v l]; [by destruct stack|].
    by rw (parse_items (v :: l)).
  - apply shallow in Hdepth as [Hd Hin].
    change (tokens_of (JObj fs)) with (TLBrace :: fields_tokens fs ++ [TRBrace]).
    cbn [app parse]. unfold deep. replace (max_depth <=? _)%Z with false by lia.
    rw -app_assoc. destruct fs as [|kv fs]; [by destruct stack|].
    by rw (parse_fields (kv :: fs)).
Qed.

(** What [json.Marshal] printed is read back. *)
Lemma Unmarshal_Marshal v :
  json_ok v = true → (json_depth v ≤ max_depth)%Z → Unmarshal (Marshal v) = Ok v.
Proof.
  intros Hok Hd. unfold Unmarshal. pose proof (lex_Marshal v "" Hok eq_refl) as Hl.
  rw string_app_nil_r in Hl. rw Hl parse_tokens //.
Qed.
Lemma Decode_Marshal v rest :
  json_ok v = true → (json_depth v ≤ max_depth)%Z →
  match v with JObj _ | JArr _ => delimited rest = true | _ => rest = "" end →
  Decode (Marshal v +:+ rest) = Ok v.
Proof.
  intros Hok Hd Hrest. unfold Decode.
  assert (delimited rest = true) as Hdel by (destruct v; try done; by rw Hrest).
  rw (lex_Marshal v rest Hok Hdel) parse_tokens //. by destruct v; try rw Hrest.
Qed.
