(* ===== verification/GoPath.v ===== *)
(** * Go's path/filepath on Unix, as far as the program uses it

    [Clean], [Dir] and [Join], lexically, by path elements. *)
From S2P Require Import Prelude GoStrings GoNet.
From Stdlib Require Import Ascii.

(** The elements between slashes, the empty ones included. *)
Fixpoint elements (s : string) : list string :=
  match s with
  | "" => [""]
  | String c s' =>
      match elements s' with
      | [] => []
      | e :: es => if Ascii.eqb c "/" then "" :: e :: es else String c e :: es
      end
  end.

(** The stack of kept elements, innermost first. *)
Fixpoint clean_stack (rooted : bool) (es stack : list string) : list string :=
  match es with
  | [] => stack
  | e :: es' =>
      if bool_decide (e = "") || bool_decide (e = ".") then clean_stack rooted es' stack
      else if bool_decide (e = "..") then
        match stack with
        | top :: rest =>
            if bool_decide (top = "..") then clean_stack rooted es' (e :: stack)
            else clean_stack rooted es' rest
        | [] => clean_stack rooted es' (if rooted then [] else [e])
        end
      else clean_stack rooted es' (e :: stack)
  end.

Definition is_rooted (s : string) : bool :=
  match s with String c _ => Ascii.eqb c "/" | "" => false end.

Definition Clean (path : string) : string :=
  if bool_decide (path = "") then "." else
  let body := Join (rev (clean_stack (is_rooted path) (elements path) [])) "/" in
  if is_rooted path then "/" +:+ body
  else if bool_decide (body = "") then "." else body.

(** What precedes the last element, its final slash included. *)
Fixpoint upto_last_slash (s : string) : string :=
  match s with
  | "" => ""
  | String c s' =>
      if has_byte "/" s' then String c (upto_last_slash s')
      else if Ascii.eqb c "/" then "/" else ""
  end.
Definition Dir (path : string) : string := Clean (upto_last_slash path).

(** [filepath.Join]: the non-empty elements, cleaned. *)
Definition PathJoin (elem : list string) : string :=
  match filter (λ e, e ≠ "") elem with
  | [] => ""
  | es => Clean (Join es "/")
  end.

Example Dir_volume : Dir "/var/lib/kdfs/pvc-1/vol.img" = "/var/lib/kdfs/pvc-1".
Proof. reflexivity. Qed.
Example Clean_dots : Clean "/a/./b//../../../c/" = "/c".
Proof. reflexivity. Qed.
Example Clean_relative : Clean "a/../../b" = "../b".
Proof. reflexivity. Qed.

(** ** Paths made of plain elements *)
Definition no_slash (e : string) : Prop := has_byte "/" e = false.
Definition plain_element (e : string) : Prop :=
  no_slash e ∧ e ≠ "" ∧ e ≠ "." ∧ e ≠ "..".

Lemma elements_nonempty s : ∃ e es, elements s = e :: es.
Proof.
  induction s as [|c s (e & es & IH)]; [by eexists _, _|]. cbn [elements]. rw IH.
  destruct (Ascii.eqb c "/"); by eexists _, _.
Qed.
Lemma elements_seg e s :
  no_slash e → elements (e +:+ String "/" s) = e :: elements s.
Proof.
  unfold no_slash. induction e as [|c e IH].
  - intros _. change ("" +:+ String "/" s) with (String "/" s). cbn [elements].
    destruct (elements_nonempty s) as (e & es & ->). done.
  - cbn [has_byte]. intros [Hc He]%orb_false_iff. rw string_app_cons. cbn [elements].
    by rw (IH He) Hc.
Qed.
Lemma elements_single e : no_slash e → elements e = [e].
Proof.
  unfold no_slash. induction e as [|c e IH]; [done|]. cbn [has_byte].
  intros [Hc He]%orb_false_iff. cbn [elements]. by rw (IH He) Hc.
Qed.
Lemma upto_last_slash_seg p e :
  no_slash e → upto_last_slash (p +:+ String "/" e) = p +:+ "/".
Proof.
  unfold no_slash. intros He. induction p as [|c p IH].
  - change ("" +:+ String "/" e) with (String "/" e). cbn [upto_last_slash]. by rw He.
  - rw !string_app_cons. cbn [upto_last_slash]. rw has_byte_app IH. cbn [has_byte].
    by rw orb_true_r.
Qed.
Lemma clean_stack_plain rooted e es stack :
  plain_element e → clean_stack rooted (e :: es) stack = clean_stack rooted es (e :: stack).
Proof.
  intros (_ & H1 & H2 & H3). cbn [clean_stack]. by rw !bool_decide_false.
Qed.
Lemma clean_stack_empty rooted es stack :
  clean_stack rooted ("" :: es) stack = clean_stack rooted es stack.
Proof. done. Qed.

(** Two and three plain elements below the root are clean, with or without a
    final slash. *)
Lemma Clean_rooted2 a b :
  plain_element a → plain_element b →
  Clean ("/" +:+ a +:+ "/" +:+ b +:+ "/") = "/" +:+ a +:+ "/" +:+ b.
Proof.
  intros Ha Hb. unfold Clean. rw bool_decide_false //.
  change (is_rooted _) with true.
  assert (elements ("/" +:+ a +:+ "/" +:+ b +:+ "/") = [""; a; b; ""]) as ->.
  { change ("/" +:+ a +:+ "/" +:+ b +:+ "/") with ("" +:+ String "/" (a +:+ String "/" (b +:+ String "/" ""))).
    destruct Ha, Hb. by rw !elements_seg. }
  by rw clean_stack_empty (clean_stack_plain _ a) // (clean_stack_plain _ b) //.
Qed.
Lemma Clean_rooted3 a b c :
  plain_element a → plain_element b → plain_element c →
  Clean ("/" +:+ a +:+ "/" +:+ b +:+ "/" +:+ c) = "/" +:+ a +:+ "/" +:+ b +:+ "/" +:+ c.
Proof.
  intros Ha Hb Hc. unfold Clean. rw bool_decide_false //.
  change (is_rooted _) with true.
  assert (elements ("/" +:+ a +:+ "/" +:+ b +:+ "/" +:+ c) = [""; a; b; c]) as ->.
  { change ("/" +:+ a +:+ "/" +:+ b +:+ "/" +:+ c) with ("" +:+ String "/" (a +:+ String "/" (b +:+ String "/" c))).
    pose proof Ha as [? _]; pose proof Hb as [? _]; pose proof Hc as [? _].
    by rw !elements_seg // elements_single. }
  by rw clean_stack_empty (clean_stack_plain _ a) // (clean_stack_plain _ b) // (clean_stack_plain _ c).
Qed.
