(* ===== verification/Sha256.v ===== *)
(** * crypto/sha256.Sum256 and the hexadecimal of a digest

    FIPS 180-4 on byte lists; words are 32-bit integers. *)
From S2P Require Import Prelude GoStrings GoNet.
From Stdlib Require Import Ascii.

Definition mask32 : Z := 4294967295.
Definition add32 (x y : Z) : Z := Z.land (x + y) mask32.
Definition rotr (n x : Z) : Z :=
  Z.lor (Z.shiftr x n) (Z.land (Z.shiftl x (32 - n)) mask32).
Definition Ch (x y z : Z) : Z := Z.lxor (Z.land x y) (Z.land (Z.lxor x mask32) z).
Definition Maj (x y z : Z) : Z :=
  Z.lxor (Z.lxor (Z.land x y) (Z.land x z)) (Z.land y z).
Definition Sigma0 (x : Z) : Z := Z.lxor (Z.lxor (rotr 2 x) (rotr 13 x)) (rotr 22 x).
Definition Sigma1 (x : Z) : Z := Z.lxor (Z.lxor (rotr 6 x) (rotr 11 x)) (rotr 25 x).
Definition sigma0 (x : Z) : Z := Z.lxor (Z.lxor (rotr 7 x) (rotr 18 x)) (Z.shiftr x 3).
Definition sigma1 (x : Z) : Z := Z.lxor (Z.lxor (rotr 17 x) (rotr 19 x)) (Z.shiftr x 10).

Definition K256 : list Z := [
  1116352408; 1899447441; 3049323471; 3921009573; 961987163; 1508970993; 2453635748;
  2870763221; 3624381080; 310598401; 607225278; 1426881987; 1925078388; 2162078206;
  2614888103; 3248222580; 3835390401; 4022224774; 264347078; 604807628; 770255983;
  1249150122; 1555081692; 1996064986; 2554220882; 2821834349; 2952996808; 3210313671;
  3336571891; 3584528711; 113926993; 338241895; 666307205; 773529912; 1294757372;
  1396182291; 1695183700; 1986661051; 2177026350; 2456956037; 2730485921; 2820302411;
  3259730800; 3345764771; 3516065817; 3600352804; 4094571909; 275423344; 430227734;
  506948616; 659060556; 883997877; 958139571; 1322822218; 1537002063; 1747873779;
  1955562222; 2024104815; 2227730452; 2361852424; 2428436474; 2756734187; 3204031479;
  3329325298]%Z.
Definition H256 : list Z := [
  1779033703; 3144134277; 1013904242; 2773480762; 1359893119; 2600822924; 528734635;
  1541459225]%Z.

(** ** Padding and words *)
Definition bytes_of (s : string) : list Z := (λ c, Z.of_N (bN c)) <$> String.list_ascii_of_string s.
Definition be_bytes (n : nat) (z : Z) : list Z :=
  (λ i, Z.land (Z.shiftr z (8 * (Z.of_nat n - 1 - i))) 255) <$> seqZ 0 (Z.of_nat n).
Definition be_word (b : list Z) : Z := fold_left (λ acc x, acc * 256 + x)%Z b 0%Z.

Definition pad (msg : list Z) : list Z :=
  let n := length msg in
  let zeros := Z.to_nat ((55 - Z.of_nat n) mod 64) in
  msg ++ [128%Z] ++ replicate zeros 0%Z ++ be_bytes 8 (8 * Z.of_nat n).

Fixpoint chunks {A} (k n : nat) (l : list A) : list (list A) :=
  match n with 0 => [] | S n' => take k l :: chunks k n' (drop k l) end.

(** The message schedule, most recent word first. *)
Fixpoint schedule (n : nat) (ws : list Z) : list Z :=
  match n with
  | 0 => ws
  | S n' =>
      let w := λ i, nth i ws 0%Z in
      schedule n' (add32 (add32 (sigma1 (w 1)) (w 6)) (add32 (sigma0 (w 14)) (w 15)) :: ws)
  end.

Definition round (st : list Z) (kw : Z * Z) : list Z :=
  match st with
  | [a; b; c; d; e; f; g; h] =>
      let t1 := add32 (add32 (add32 h (Sigma1 e)) (Ch e f g)) (add32 kw.1 kw.2) in
      let t2 := add32 (Sigma0 a) (Maj a b c) in
      [add32 t1 t2; a; b; c; add32 d t1; e; f; g]
  | _ => st
  end.

Definition compress (st : list Z) (block : list Z) : list Z :=
  let ws := rev (schedule 48 (rev (be_word <$> chunks 4 16 block))) in
  zip_with add32 st (fold_left round (zip K256 ws) st).

Definition Sum256 (msg : list Z) : list Z :=
  let p := pad msg in
  concat (be_bytes 4 <$> fold_left compress (chunks 64 (length p / 64) p) H256).

(** [fmt.Sprintf("%x", bytes)] *)
Fixpoint hex_string (bs : list Z) : string :=
  match bs with
  | [] => ""
  | b :: bs' =>
      String (hex_digit false (Z.to_N (b / 16)%Z))
        (String (hex_digit false (Z.to_N (b mod 16)%Z)) (hex_string bs'))
  end.

(** The published test vectors. *)
Example Sum256_empty : hex_string (Sum256 []) =
  "e3b0c44298fc1c149afbf4c8996fb92427ae41e4649b934ca495991b7852b855".
Proof. vm_compute. reflexivity. Qed.
Example Sum256_abc : hex_string (Sum256 (bytes_of "abc")) =
  "ba7816bf8f01cfea414140de5dae2223b00361a396177a9cb410ff61f20015ad".
Proof. vm_compute. reflexivity. Qed.
Example Sum256_two_blocks :
  hex_string (Sum256 (bytes_of "abcdbcdecdefdefgefghfghighijhijkijkljklmklmnlmnomnopnopq")) =
  "248d6a61d20638b8e5c026930c3e6039a33ce45964ff2167f6ecedd419db06c1".
Proof. vm_compute. reflexivity. Qed.

(** ** Lengths *)
Lemma length_hex_string bs : String.length (hex_string bs) = 2 * length bs.
Proof. induction bs as [|b bs IH]; [done|]. cbn. rw IH. lia. Qed.
Lemma length_be_bytes n z : length (be_bytes n z) = n.
Proof. unfold be_bytes. rw length_fmap length_seqZ. lia. Qed.
Lemma length_round st kw : length (round st kw) = length st.
Proof.
  destruct st as [|a [|b [|c [|d [|e [|f [|g [|h [|]]]]]]]]]; done.
Qed.
Lemma length_rounds kws st : length (fold_left round kws st) = length st.
Proof.
  revert st. induction kws as [|kw kws IH]; intros st; [done|].
  cbn [fold_left]. by rw IH length_round.
Qed.
Lemma length_compress st block : length (compress st block) = length st.
Proof. unfold compress. rw length_zip_with length_rounds. lia. Qed.
Lemma length_compress_all blocks st : length (fold_left compress blocks st) = length st.
Proof.
  revert st. induction blocks as [|b bs IH]; intros st; [done|].
  cbn [fold_left]. by rw IH length_compress.
Qed.
Lemma length_Sum256 msg : length (Sum256 msg) = 32.
Proof.
  unfold Sum256. set (st := fold_left _ _ _).
  assert (length st = 8) as Hst by apply length_compress_all.
  clearbody st. do 9 (destruct st as [|? st]; try done).
Qed.
