(* ===== verification/K8s.v ===== *)
(** * Kubernetes data and the calls a component makes

    The fields of the metav1 and corev1 types that the program reads or
    writes, the custom resources of [api/v1alpha1], and the signature of calls:
    the API server (controller-runtime's [client.Client]), the clock, the node
    agent, the sidecars and HTTP. *)
From S2P Require Import Prelude GoStrings.

(** ** metav1 *)
Definition Time := Z.  (* nanoseconds since the epoch *)

Record NamespacedName := mkName { nn_Namespace : string; nn_Name : string }.

Record OwnerReference := mkOwner {
  or_APIVersion : string; or_Kind : string; or_Name : string; or_UID : string;
  or_Controller : option bool; or_BlockOwnerDeletion : option bool }.

Record ObjectMeta := mkMeta {
  om_Name : string; om_Namespace : string; om_UID : string;
  om_ResourceVersion : string;
  om_Labels : gmap string string; om_Finalizers : list string;
  om_OwnerReferences : list OwnerReference;
  om_DeletionTimestamp : option Time }.

(** [metav1.ObjectMeta{Name: name, Namespace: ns}] *)
Definition newMeta (name ns : string) : ObjectMeta :=
  mkMeta name ns "" "" ∅ [] [] None.
Definition set_OwnerReferences (os : list OwnerReference) (m : ObjectMeta) :=
  mkMeta (om_Name m) (om_Namespace m) (om_UID m) (om_ResourceVersion m)
    (om_Labels m) (om_Finalizers m) os (om_DeletionTimestamp m).
Definition set_Finalizers (fs : list string) (m : ObjectMeta) :=
  mkMeta (om_Name m) (om_Namespace m) (om_UID m) (om_ResourceVersion m)
    (om_Labels m) fs (om_OwnerReferences m) (om_DeletionTimestamp m).

Record Condition := mkCondition {
  cond_Type : string; cond_Status : string; cond_ObservedGeneration : Z;
  cond_LastTransitionTime : Time; cond_Reason : string; cond_Message : string }.
Definition ConditionTrue := "True".
Definition ConditionFalse := "False".

(** ** corev1 *)
Inductive EnvVarSource :=
  | FieldRef (FieldPath : string)
  | ConfigMapKeyRef (name key : string) (optional : option bool).
Record EnvVar := mkEnv {
  env_Name : string; env_Value : string; env_ValueFrom : option EnvVarSource }.
Record VolumeMount := mkMount { vm_Name : string; vm_MountPath : string }.
Record Container := mkContainer {
  c_Name : string; c_Image : string; c_Args : list string; c_Env : list EnvVar;
  c_VolumeMounts : list VolumeMount; c_Privileged : option bool }.
Inductive VolumeSource := HostPath (path : string) | EmptyDir.
Record PodVolume := mkPodVolume { pv_Name : string; pv_Source : VolumeSource }.
Record PodSpec := mkPodSpec {
  ps_NodeName : string; ps_RestartPolicy : string;
  ps_Volumes : list PodVolume; ps_Containers : list Container }.
Record PodStatus := mkPodStatus {
  pst_Phase : string; pst_PodIP : string;
  pst_ContainerReady : list bool  (* ContainerStatuses[i].Ready *) }.
Record Pod := mkPod {
  pod_meta : ObjectMeta; pod_spec : PodSpec; pod_status : PodStatus }.
Definition PodRunning := "Running".
Definition pod_set_owners (os : list OwnerReference) (p : Pod) : Pod :=
  mkPod (set_OwnerReferences os (pod_meta p)) (pod_spec p) (pod_status p).

Record Node := mkNode { node_meta : ObjectMeta }.
Record ConfigMap := mkConfigMap {
  cm_meta : ObjectMeta; cm_Data : gmap string string }.
