(* ===== verification/ApiTypes.v ===== *)
(** * api/v1alpha1: the custom resources

    One record per Go struct, phases as the strings they are, and
    [ParseReplicaCount]. *)
From S2P Require Import Prelude GoStrings K8s.

Record NamespacedObjectReference := mkNORef {
  nor_Name : string; nor_Namespace : string }.

(** ** Volume *)
Definition VolumePhaseCreating := "Creating".
Definition VolumePhaseReady := "Ready".
Definition VolumePhaseDegraded := "Degraded".
Definition VolumePhaseFailed := "Failed".
Definition VolumeConditionScheduled := "Scheduled".
Definition VolumeConditionEngineReady := "EngineReady".
Definition VolumeConditionReplicasReady := "ReplicasReady".
Definition VolumeConditionReplicasHealing := "ReplicasHealing".

Record ReplicaHealth := mkHealth {
  rh_Name : string; rh_NodeID : string; rh_Phase : string;
  rh_RestartAttempts : Z; rh_LastHealTime : option Time }.
Record VolumeSpec := mkVolumeSpec {
  vs_Size : string; vs_StorageClassName : string; vs_NodeID : string;
  vs_ReplicaCount : string;
  vs_SnapshotSource : option string  (* SnapshotSource.SnapshotName *) }.
Record VolumeStatus := mkVolumeStatus {
  vst_Phase : string; vst_EngineRef : option NamespacedObjectReference;
  vst_ReplicaHealth : list ReplicaHealth; vst_Conditions : list Condition }.
Definition zeroVolumeStatus := mkVolumeStatus "" None [] [].
Record Volume := mkVolume {
  vol_meta : ObjectMeta; vol_spec : VolumeSpec; vol_status : VolumeStatus }.

Definition vol_set_NodeID (n : string) (v : Volume) : Volume :=
  let s := vol_spec v in
  mkVolume (vol_meta v)
    (mkVolumeSpec (vs_Size s) (vs_StorageClassName s) n (vs_ReplicaCount s)
       (vs_SnapshotSource s)) (vol_status v).
Definition vol_set_Phase (p : string) (v : Volume) : Volume :=
  let s := vol_status v in
  mkVolume (vol_meta v) (vol_spec v)
    (mkVolumeStatus p (vst_EngineRef s) (vst_ReplicaHealth s) (vst_Conditions s)).
Definition vol_set_EngineRef (r : option NamespacedObjectReference) (v : Volume) :=
  let s := vol_status v in
  mkVolume (vol_meta v) (vol_spec v)
    (mkVolumeStatus (vst_Phase s) r (vst_ReplicaHealth s) (vst_Conditions s)).
Definition vol_set_ReplicaHealth (h : list ReplicaHealth) (v : Volume) : Volume :=
  let s := vol_status v in
  mkVolume (vol_meta v) (vol_spec v)
    (mkVolumeStatus (vst_Phase s) (vst_EngineRef s) h (vst_Conditions s)).
Definition vol_set_Conditions (cs : list Condition) (v : Volume) : Volume :=
  let s := vol_status v in
  mkVolume (vol_meta v) (vol_spec v)
    (mkVolumeStatus (vst_Phase s) (vst_EngineRef s) (vst_ReplicaHealth s) cs).
Definition vol_Name (v : Volume) := om_Name (vol_meta v).
Definition vol_Namespace (v : Volume) := om_Namespace (vol_meta v).

(** [ParseReplicaCount]: the pair is (count, auto). *)
Definition ParseReplicaCount (value : string) : result (Z * bool) :=
  if bool_decide (value = "auto") || bool_decide (value = "") then Ok (0%Z, true)
  else
    match Atoi value with
    | None =>
        Err (Errorf "invalid replicaCount %q: must be auto or a positive integer" [value])
    | Some count =>
        if (count <=? 0)%Z then
          Err (Errorf "invalid replicaCount %q: must be auto or a positive integer" [value])
        else Ok (count, false)
    end.

(** ** Replica *)
Definition ReplicaTypeLocal := "Local".
Definition ReplicaTypeRemote := "Remote".
Definition ReplicaPhasePending := "Pending".
Definition ReplicaPhaseCreating := "Creating".
Definition ReplicaPhaseRunning := "Running".
Definition ReplicaPhaseFailed := "Failed".
Definition ReplicaConditionFilesystemCreated := "FilesystemCreated".
Definition ReplicaConditionBdevAttached := "BdevAttached".
Definition ReplicaConditionNVMFExported := "NVMFExported".

Record ReplicaSpec := mkReplicaSpec {
  rs_VolumeRef : string; rs_NodeID : string; rs_Type : string;
  rs_Size : string; rs_DataPath : string; rs_SnapshotSource : string }.
Record ReplicaStatus := mkReplicaStatus {
  rst_Phase : string; rst_BdevName : string; rst_NQN : string;
  rst_Endpoint : string; rst_Conditions : list Condition }.
Record Replica := mkReplica {
  rep_meta : ObjectMeta; rep_spec : ReplicaSpec; rep_status : ReplicaStatus }.
Definition zeroReplicaStatus := mkReplicaStatus "" "" "" "" [].

Definition rep_set_Type (t : string) (r : Replica) : Replica :=
  let s := rep_spec r in
  mkReplica (rep_meta r)
    (mkReplicaSpec (rs_VolumeRef s) (rs_NodeID s) t (rs_Size s) (rs_DataPath s)
       (rs_SnapshotSource s)) (rep_status r).
Definition rep_set_status (st : ReplicaStatus) (r : Replica) : Replica :=
  mkReplica (rep_meta r) (rep_spec r) st.
Definition rst_set_Export (nqn endpoint : string) (s : ReplicaStatus) :=
  mkReplicaStatus (rst_Phase s) (rst_BdevName s) nqn endpoint (rst_Conditions s).
Definition rst_set_Running (bdev : string) (s : ReplicaStatus) :=
  mkReplicaStatus ReplicaPhaseRunning bdev (rst_NQN s) (rst_Endpoint s)
    (rst_Conditions s).
Definition rst_set_Conditions (cs : list Condition) (s : ReplicaStatus) :=
  mkReplicaStatus (rst_Phase s) (rst_BdevName s) (rst_NQN s) (rst_Endpoint s) cs.
Definition rep_Name (r : Replica) := om_Name (rep_meta r).
Definition rep_Namespace (r : Replica) := om_Namespace (rep_meta r).

(** ** Engine *)
Definition EnginePhasePending := "Pending".
Definition EnginePhaseRunning := "Running".
Definition EnginePhaseDegraded := "Degraded".
Definition EnginePhaseFailed := "Failed".
Definition EngineConditionPodScheduled := "PodScheduled".
Definition EngineConditionSPDKStarted := "SPDKStarted".
Definition EngineConditionRAIDConfigured := "RAIDConfigured".
Definition EngineConditionSubsystemReady := "SubsystemReady".

Record ReplicaAttachment := mkAttachment {
  ra_Name : string; ra_NodeID : string; ra_IsLocal : bool;
  ra_NQN : string; ra_Address : string; ra_Port : string }.
#[global] Instance attachment_eq_dec : EqDecision ReplicaAttachment.
Proof. solve_decision. Defined.
Record EngineSpec := mkEngineSpec {
  es_VolumeRef : string; es_NodeID : string; es_Replicas : list ReplicaAttachment }.
Record PodReference := mkPodRef { pr_Name : string; pr_Namespace : string }.
Record EngineStatus := mkEngineStatus {
  est_Phase : string; est_PodRef : option PodReference; est_Endpoint : string;
  est_SubsystemNQN : string; est_ROXSubsystemNQN : string; est_ROXEndpoint : string;
  est_LastReplicasHash : string; est_Conditions : list Condition }.
Record Engine := mkEngine {
  eng_meta : ObjectMeta; eng_spec : EngineSpec; eng_status : EngineStatus }.
Definition zeroEngineStatus := mkEngineStatus "" None "" "" "" "" "" [].

(** The attachment literal [ReplicaAttachment{Name: n, NodeID: node}]. *)
Definition newAttachment (n node : string) := mkAttachment n node false "" "" "".
Definition ra_set_IsLocal (b : bool) (a : ReplicaAttachment) :=
  mkAttachment (ra_Name a) (ra_NodeID a) b (ra_NQN a) (ra_Address a) (ra_Port a).
Definition ra_set_Endpoint (nqn addr port : string) (a : ReplicaAttachment) :=
  mkAttachment (ra_Name a) (ra_NodeID a) (ra_IsLocal a) nqn addr port.

Definition eng_set_Replicas (ras : list ReplicaAttachment) (e : Engine) : Engine :=
  let s := eng_spec e in
  mkEngine (eng_meta e) (mkEngineSpec (es_VolumeRef s) (es_NodeID s) ras)
    (eng_status e).
Definition eng_Replicas (e : Engine) := es_Replicas (eng_spec e).
Definition eng_set_status (st : EngineStatus) (e : Engine) : Engine :=
  mkEngine (eng_meta e) (eng_spec e) st.
Definition est_set_PodRef (r : option PodReference) (s : EngineStatus) :=
  mkEngineStatus (est_Phase s) r (est_Endpoint s) (est_SubsystemNQN s)
    (est_ROXSubsystemNQN s) (est_ROXEndpoint s) (est_LastReplicasHash s)
    (est_Conditions s).
Definition est_set_Phase (p : string) (s : EngineStatus) :=
  mkEngineStatus p (est_PodRef s) (est_Endpoint s) (est_SubsystemNQN s)
    (est_ROXSubsystemNQN s) (est_ROXEndpoint s) (est_LastReplicasHash s)
    (est_Conditions s).
Definition est_set_Target (endpoint nqn : string) (s : EngineStatus) :=
  mkEngineStatus (est_Phase s) (est_PodRef s) endpoint nqn
    (est_ROXSubsystemNQN s) (est_ROXEndpoint s) (est_LastReplicasHash s)
    (est_Conditions s).
Definition est_set_Hash (h : string) (s : EngineStatus) :=
  mkEngineStatus (est_Phase s) (est_PodRef s) (est_Endpoint s) (est_SubsystemNQN s)
    (est_ROXSubsystemNQN s) (est_ROXEndpoint s) h (est_Conditions s).
Definition est_set_Conditions (cs : list Condition) (s : EngineStatus) :=
  mkEngineStatus (est_Phase s) (est_PodRef s) (est_Endpoint s) (est_SubsystemNQN s)
    (est_ROXSubsystemNQN s) (est_ROXEndpoint s) (est_LastReplicasHash s) cs.
Definition eng_Name (e : Engine) := om_Name (eng_meta e).
Definition eng_Namespace (e : Engine) := om_Namespace (eng_meta e).

(** ** Snapshot *)
Definition SnapshotPhasePending := "Pending".
Definition SnapshotPhaseCreating := "Creating".
Definition SnapshotPhaseReady := "Ready".
Definition SnapshotPhaseFailed := "Failed".
Definition SnapshotConditionCreated := "SnapshotCreated".
Definition SnapshotConditionFileReady := "SnapshotFileReady".

Record SnapshotSpec := mkSnapshotSpec { ss_VolumeRef : string; ss_SnapshotID : string }.
Record SnapshotStatus := mkSnapshotStatus {
  sst_Phase : string; sst_SnapshotPath : string; sst_EngineNode : string;
  sst_SizeBytes : Z; sst_CreationTime : option Time; sst_ReadyToUse : bool;
  sst_Conditions : list Condition }.
Record Snapshot := mkSnapshot {
  snap_meta : ObjectMeta; snap_spec : SnapshotSpec; snap_status : SnapshotStatus }.
Definition zeroSnapshotStatus := mkSnapshotStatus "" "" "" 0 None false [].

Definition snap_set_meta (m : ObjectMeta) (s : Snapshot) : Snapshot :=
  mkSnapshot m (snap_spec s) (snap_status s).
Definition snap_set_status (st : SnapshotStatus) (s : Snapshot) : Snapshot :=
  mkSnapshot (snap_meta s) (snap_spec s) st.
Definition sst_set_Phase (p : string) (s : SnapshotStatus) :=
  mkSnapshotStatus p (sst_SnapshotPath s) (sst_EngineNode s) (sst_SizeBytes s)
    (sst_CreationTime s) (sst_ReadyToUse s) (sst_Conditions s).
Definition sst_set_EngineNode (n : string) (s : SnapshotStatus) :=
  mkSnapshotStatus (sst_Phase s) (sst_SnapshotPath s) n (sst_SizeBytes s)
    (sst_CreationTime s) (sst_ReadyToUse s) (sst_Conditions s).
Definition sst_set_Conditions (cs : list Condition) (s : SnapshotStatus) :=
  mkSnapshotStatus (sst_Phase s) (sst_SnapshotPath s) (sst_EngineNode s)
    (sst_SizeBytes s) (sst_CreationTime s) (sst_ReadyToUse s) cs.
Definition sst_set_Ready (path : string) (size : Z) (now : Time) (s : SnapshotStatus) :=
  mkSnapshotStatus SnapshotPhaseReady path (sst_EngineNode s) size (Some now) true
    (sst_Conditions s).
Definition snap_Name (s : Snapshot) := om_Name (snap_meta s).
Definition snap_Namespace (s : Snapshot) := om_Namespace (snap_meta s).

(** ** Properties *)
Lemma ParseReplicaCount_ok v n auto :
  ParseReplicaCount v = Ok (n, auto) →
  (auto = true ∧ n = 0%Z ∧ (v = "auto" ∨ v = "")) ∨
  (auto = false ∧ (1 ≤ n ≤ max_int64)%Z ∧ Atoi v = Some n).
Proof.
  unfold ParseReplicaCount. intros H.
  destruct (bool_decide_reflect (v = "auto")) as [->|]; simpl in H.
  { left. naive_solver. }
  destruct (bool_decide_reflect (v = "")) as [->|]; simpl in H.
  { left. naive_solver. }
  right. destruct (Atoi v) as [z|] eqn:E; [|done].
  destruct (Z.leb_spec z 0) as [|Hz]; [done|]. injection H as <- <-.
  apply Atoi_range in E. unfold in_int64 in E. split_and!; [done|lia..|done].
Qed.

(** [ParseReplicaCount] accepts exactly "auto", the empty string (both
    automatic) and the decimal numbers in 1 .. 2^63-1; in particular every
    positive count it is printed from is read back. *)
Theorem ParseReplicaCount_spec (v : string) :
  match ParseReplicaCount v with
  | Ok (n, true) => n = 0%Z ∧ (v = "auto" ∨ v = "")
  | Ok (n, false) => (1 ≤ n ≤ max_int64)%Z ∧ Atoi v = Some n
  | Err _ => v ≠ "auto" ∧ v ≠ "" ∧ ∀ n, Atoi v = Some n → (n ≤ 0)%Z
  end ∧
  ∀ n, (1 ≤ n ≤ max_int64)%Z → ParseReplicaCount (Itoa n) = Ok (n, false).
Proof.
  split.
  - destruct (ParseReplicaCount v) as [[n []]|e] eqn:E.
    + apply ParseReplicaCount_ok in E. naive_solver.
    + apply ParseReplicaCount_ok in E. naive_solver.
    + unfold ParseReplicaCount in E.
      destruct (bool_decide_reflect (v = "auto")); [done|].
      destruct (bool_decide_reflect (v = "")); [done|]. simpl in E.
      split_and!; [done..|]. intros m Hm. rw Hm in E.
      by destruct (Z.leb_spec m 0).
  - intros n Hn. unfold ParseReplicaCount.
    assert (Atoi (Itoa n) = Some n) as Hn'.
    { apply Atoi_Itoa. unfold in_int64, min_int64. unfold max_int64 in *. lia. }
    destruct (bool_decide_reflect (Itoa n = "auto")) as [E|].
    { rw E in Hn'. vm_compute in Hn'. done. }
    destruct (bool_decide_reflect (Itoa n = "")) as [E|].
    { rw E in Hn'. vm_compute in Hn'. done. }
    cbn [orb]. rw Hn'. destruct (Z.leb_spec n 0); [lia|done].
Qed.

