(* ===== verification/Names.v ===== *)
(** * internal/names: names of derived objects, data paths and NQNs

    The process environment is a parameter, read through [Getenv]. *)
From S2P Require Import Prelude GoStrings.
From Stdlib Require Import Ascii.

Class Environ := Getenv : string → string.

Definition defaultNQNAuthority := "nqn.2026-05.krea.to".

Section names.
Context `{Environ}.

Definition authority : string :=
  let value := TrimSpace (Getenv "NQN_AUTHORITY") in
  if bool_decide (value = "") then defaultNQNAuthority else value.

Definition VolumeNQN (volumeName : string) : string :=
  authority +:+ ":volume-" +:+ volumeName.
Definition ReplicaNQN (volumeName : string) (i : Z) : string :=
  authority +:+ ":replica-" +:+ volumeName +:+ "-" +:+ Itoa i.
Definition VolumeROXNQN (volumeName : string) : string :=
  authority +:+ ":rox-" +:+ volumeName.
Definition HostNQN (nodeName : string) : string :=
  authority +:+ ":krea.to:host-" +:+ nodeName.

(** The character class [a-z0-9.-] of the host NQN pattern. *)
Definition host_byte (c : ascii) : bool :=
  let n := bN c in
  ((97 <=? n) && (n <=? 122) || (48 <=? n) && (n <=? 57) ||
   (n =? 46) || (n =? 45))%N.

(** The pattern is the quoted authority, a literal, and a non-empty run of
    class bytes up to the end of the text. *)
Definition IsHostNQN (value : string) : bool :=
  match strip_prefix (authority +:+ ":krea.to:host-") value with
  | Some rest => bool_decide (rest ≠ "") && all_bytes host_byte rest
  | None => false
  end.
End names.

Definition EngineName (volumeName : string) : string := volumeName +:+ "-engine".
Definition ReplicaName (volumeName : string) (i : Z) : string :=
  volumeName +:+ "-replica-" +:+ Itoa i.
Definition DataPath (volumeName : string) : string :=
  "/var/lib/kdfs/" +:+ volumeName +:+ "/vol.img".
Definition SnapshotFilePath (volumeName snapshotID : string) : string :=
  "/var/lib/kdfs/" +:+ volumeName +:+ "/snapshot-" +:+ snapshotID +:+ ".img".

(** ** Shape and injectivity of the generated names *)
Lemma ReplicaName_split v i :
  ReplicaName v i = (v +:+ "-replica") +:+ String "-" (Itoa i).
Proof. unfold ReplicaName. by rw string_app_assoc. Qed.
Lemma EngineName_split v : EngineName v = v +:+ String "-" "engine".
Proof. done. Qed.

Lemma ReplicaName_inj_nonneg v1 v2 i j :
  (0 ≤ i)%Z → (0 ≤ j)%Z → ReplicaName v1 i = ReplicaName v2 j → v1 = v2 ∧ i = j.
Proof.
  intros Hi Hj. rw !ReplicaName_split. intros Heq.
  apply (split_at_last_unique is_digit) in Heq as [Hv Hij];
    [|done|by apply Itoa_digits..].
  split; [by apply string_app_inj_r in Hv|by apply (inj Itoa)].
Qed.

#[global] Instance ReplicaName_inj v : Inj (=) (=) (ReplicaName v).
Proof.
  intros i j Heq. unfold ReplicaName in Heq. by do 3 apply (inj _) in Heq.
Qed.

#[global] Instance EngineName_inj : Inj (=) (=) EngineName.
Proof. intros v1 v2. apply string_app_inj_r. Qed.

(** What follows the last dash is a number in one and a word in the other. *)
Definition not_dash (c : ascii) : bool := negb (Ascii.eqb c "-").

Lemma digits_not_dash s : all_bytes is_digit s = true → all_bytes not_dash s = true.
Proof.
  apply all_bytes_impl. intros c. unfold not_dash.
  by destruct (Ascii.eqb_spec c "-") as [->|].
Qed.

Lemma ReplicaName_EngineName v1 v2 i :
  (0 ≤ i)%Z → ReplicaName v1 i ≠ EngineName v2.
Proof.
  intros Hi. rw ReplicaName_split EngineName_split. intros Heq.
  pose proof (Itoa_digits i Hi) as Hd.
  apply (split_at_last_unique not_dash) in Heq as [_ Ht];
    [|done|by apply digits_not_dash|done].
  by rw Ht in Hd.
Qed.
