(* ===== verification/Os.v ===== *)
(** * The calls of the node components on the operating system

    Files, loop devices, mounts, commands and sleeping.  A call answers an
    operating-system error or a value; any answer is allowed. *)
From S2P Require Import Prelude GoStrings.

Definition Fd := nat.
Inductive open_mode :=
  | O_RDONLY | O_RDWR
  | O_CREATE_RDWR                (* O_CREATE|O_RDWR *)
  | O_CREATE_WRONLY_EXCL         (* O_CREAT|O_WRONLY|O_EXCL *)
  | O_CREATE_WRONLY_TRUNC.       (* O_CREATE|O_WRONLY|O_TRUNC *)

Inductive os_call :=
  | MkdirAll (path : string) (perm : Z)
  | Stat (path : string)                       (* answers the size *)
  | ReadFile (path : string)
  | WriteFile (path data : string) (perm : Z)
  | ReadDir (path : string)                    (* answers the names, sorted *)
  | Remove (path : string)
  | RemoveAll (path : string)
  | Open (path : string) (mode : open_mode) (perm : Z)
  | Close (fd : Fd)
  | Truncate (fd : Fd) (size : Z)
  | Mknod (path : string) (mode : Z) (major minor : Z)
  | LoopCtlGetFree (control : Fd)
  | LoopSetFd (loop backing : Fd)
  | LoopClrFd (loop : Fd)
  | LoopSetStatus64 (loop : Fd) (fileName : string)
  | FileClone (dst src : Fd)
  | Copy (dst src : Fd)
  | Command (name : string) (args : list string)  (* CombinedOutput *)
  | UnixMount (source target fsType : string) (flags : Z) (data : string)
  | UnixUnmount (target : string) (flags : Z)
  | Sleep (d : Z).

Definition os_value (c : os_call) : Type :=
  match c with
  | Stat _ => Z
  | ReadFile _ => string
  | ReadDir _ => list string
  | Open _ _ _ => Fd
  | LoopCtlGetFree _ => Z
  | _ => unit
  end.
(** A command answers its output and its error, if any. *)
Definition os_reply (c : os_call) : Type :=
  match c with
  | Command _ _ => string * option os_error
  | _ => os_error + os_value c
  end.

Definition os : sig := Sig os_call os_reply.
Abbreviation OS := (prog os).
Abbreviation os_trace := (list (event os)).

(** A call whose error is returned as it is. *)
Definition to_result {A} (r : os_error + A) : result A :=
  match r with inl e => Err (OsError e) | inr a => Ok a end.

Definition osMkdirAll (path : string) (perm : Z) : OS (result unit) :=
  r ← ask (S := os) (MkdirAll path perm); Ret (to_result r).
Definition osStat (path : string) : OS (result Z) :=
  r ← ask (S := os) (Stat path); Ret (to_result r).
Definition osReadFile (path : string) : OS (result string) :=
  r ← ask (S := os) (ReadFile path); Ret (to_result r).
Definition osWriteFile (path data : string) (perm : Z) : OS (result unit) :=
  r ← ask (S := os) (WriteFile path data perm); Ret (to_result r).
Definition osReadDir (path : string) : OS (result (list string)) :=
  r ← ask (S := os) (ReadDir path); Ret (to_result r).
Definition osRemove (path : string) : OS (result unit) :=
  r ← ask (S := os) (Remove path); Ret (to_result r).
Definition osRemoveAll (path : string) : OS (result unit) :=
  r ← ask (S := os) (RemoveAll path); Ret (to_result r).
Definition osOpen (path : string) (mode : open_mode) (perm : Z) : OS (result Fd) :=
  r ← ask (S := os) (Open path mode perm); Ret (to_result r).
Definition osClose (fd : Fd) : OS (result unit) :=
  r ← ask (S := os) (Close fd); Ret (to_result r).
Definition osTruncate (fd : Fd) (size : Z) : OS (result unit) :=
  r ← ask (S := os) (Truncate fd size); Ret (to_result r).
Definition osMknod (path : string) (mode major minor : Z) : OS (result unit) :=
  r ← ask (S := os) (Mknod path mode major minor); Ret (to_result r).
Definition osLoopCtlGetFree (control : Fd) : OS (result Z) :=
  r ← ask (S := os) (LoopCtlGetFree control); Ret (to_result r).
Definition osLoopSetFd (loop backing : Fd) : OS (result unit) :=
  r ← ask (S := os) (LoopSetFd loop backing); Ret (to_result r).
Definition osLoopClrFd (loop : Fd) : OS (result unit) :=
  r ← ask (S := os) (LoopClrFd loop); Ret (to_result r).
Definition osLoopSetStatus64 (loop : Fd) (fileName : string) : OS (result unit) :=
  r ← ask (S := os) (LoopSetStatus64 loop fileName); Ret (to_result r).
Definition osFileClone (dst src : Fd) : OS (result unit) :=
  r ← ask (S := os) (FileClone dst src); Ret (to_result r).
Definition osCopy (dst src : Fd) : OS (result unit) :=
  r ← ask (S := os) (Copy dst src); Ret (to_result r).
Definition osUnixMount (source target fsType : string) (flags : Z) (data : string)
    : OS (result unit) :=
  r ← ask (S := os) (UnixMount source target fsType flags data); Ret (to_result r).
Definition osUnixUnmount (target : string) (flags : Z) : OS (result unit) :=
  r ← ask (S := os) (UnixUnmount target flags); Ret (to_result r).
Definition osCommand (name : string) (args : list string) : OS (string * option os_error) :=
  ask (S := os) (Command name args).
Definition osSleep (d : Z) : OS unit :=
  _ ← ask (S := os) (Sleep d); Ret tt.

(** [if err := f(); err != nil { return fmt.Errorf(fmt, args..., err) }] *)
Definition wrapping {A} (fmt : string) (args : list string) (p : OS (result A))
    : OS (result A) :=
  r ← p; Ret (match r with Ok a => Ok a | Err e => Err (Wrapf fmt args e) end).

(** [defer f.Close()]: closed on every way out, the result kept. *)
Definition with_close {A} (fd : Fd) (p : OS A) : OS A :=
  a ← p; _ ← osClose fd; Ret a.

(** [os.IsNotExist], which does not look through wrappers, and [errors.Is],
    which does. *)
Definition IsNotExist (e : error) : bool :=
  match e with OsError oe => bool_decide (oe_reason oe = ErrNotExist) | _ => false end.
Fixpoint ErrorsIs (e : error) (r : os_reason) : bool :=
  match e with
  | OsError oe => bool_decide (oe_reason oe = r)
  | Wrapf _ _ e' => ErrorsIs e' r
  | _ => false
  end.

(** ** Symbolic execution *)
Lemma with_close_wp {A} fd (p : OS A) Q :
  wp p (λ tr a, ∀ r, Q (tr ++ [ev (S:=os) (Close fd) r]) a) → wp (with_close fd p) Q.
Proof.
  intros H. apply wp_bind. eapply wp_mono, H. intros tr a HQ r. apply HQ.
Qed.
Lemma wrapping_wp {A} fmt args (p : OS (result A)) Q :
  wp p (λ tr r, Q tr (match r with Ok a => Ok a | Err e => Err (Wrapf fmt args e) end)) →
  wp (wrapping fmt args p) Q.
Proof.
  intros H. apply wp_bind. eapply wp_mono, H. intros tr r HQ. apply wp_ret_intro.
  by rw app_nil_r.
Qed.

Section call_rules.
Lemma osMkdirAll_wp path perm Q :
  (∀ e, Q [ev (S:=os) (MkdirAll path perm) (inl e)] (Err (OsError e))) →
  (∀ v : unit, Q [ev (S:=os) (MkdirAll path perm) (inr v)] (Ok v)) → wp (osMkdirAll path perm) Q.
Proof. intros He Hv [e|v]; [apply He|apply Hv]. Qed.
Lemma osStat_wp path Q :
  (∀ e, Q [ev (S:=os) (Stat path) (inl e)] (Err (OsError e))) →
  (∀ v : Z, Q [ev (S:=os) (Stat path) (inr v)] (Ok v)) → wp (osStat path) Q.
Proof. intros He Hv [e|v]; [apply He|apply Hv]. Qed.
Lemma osReadFile_wp path Q :
  (∀ e, Q [ev (S:=os) (ReadFile path) (inl e)] (Err (OsError e))) →
  (∀ v : string, Q [ev (S:=os) (ReadFile path) (inr v)] (Ok v)) → wp (osReadFile path) Q.
Proof. intros He Hv [e|v]; [apply He|apply Hv]. Qed.
Lemma osWriteFile_wp path data perm Q :
  (∀ e, Q [ev (S:=os) (WriteFile path data perm) (inl e)] (Err (OsError e))) →
  (∀ v : unit, Q [ev (S:=os) (WriteFile path data perm) (inr v)] (Ok v)) → wp (osWriteFile path data perm) Q.
Proof. intros He Hv [e|v]; [apply He|apply Hv]. Qed.
Lemma osReadDir_wp path Q :
  (∀ e, Q [ev (S:=os) (ReadDir path) (inl e)] (Err (OsError e))) →
  (∀ v : list string, Q [ev (S:=os) (ReadDir path) (inr v)] (Ok v)) → wp (osReadDir path) Q.
Proof. intros He Hv [e|v]; [apply He|apply Hv]. Qed.
Lemma osRemove_wp path Q :
  (∀ e, Q [ev (S:=os) (Remove path) (inl e)] (Err (OsError e))) →
  (∀ v : unit, Q [ev (S:=os) (Remove path) (inr v)] (Ok v)) → wp (osRemove path) Q.
Proof. intros He Hv [e|v]; [apply He|apply Hv]. Qed.
Lemma osRemoveAll_wp path Q :
  (∀ e, Q [ev (S:=os) (RemoveAll path) (inl e)] (Err (OsError e))) →
  (∀ v : unit, Q [ev (S:=os) (RemoveAll path) (inr v)] (Ok v)) → wp (osRemoveAll path) Q.
Proof. intros He Hv [e|v]; [apply He|apply Hv]. Qed.
Lemma osOpen_wp path mode perm Q :
  (∀ e, Q [ev (S:=os) (Open path mode perm) (inl e)] (Err (OsError e))) →
  (∀ v : Fd, Q [ev (S:=os) (Open path mode perm) (inr v)] (Ok v)) → wp (osOpen path mode perm) Q.
Proof. intros He Hv [e|v]; [apply He|apply Hv]. Qed.
Lemma osClose_wp fd Q :
  (∀ e, Q [ev (S:=os) (Close fd) (inl e)] (Err (OsError e))) →
  (∀ v : unit, Q [ev (S:=os) (Close fd) (inr v)] (Ok v)) → wp (osClose fd) Q.
Proof. intros He Hv [e|v]; [apply He|apply Hv]. Qed.
Lemma osTruncate_wp fd size Q :
  (∀ e, Q [ev (S:=os) (Truncate fd size) (inl e)] (Err (OsError e))) →
  (∀ v : unit, Q [ev (S:=os) (Truncate fd size) (inr v)] (Ok v)) → wp (osTruncate fd size) Q.
Proof. intros He Hv [e|v]; [apply He|apply Hv]. Qed.
Lemma osMknod_wp path mode major minor Q :
  (∀ e, Q [ev (S:=os) (Mknod path mode major minor) (inl e)] (Err (OsError e))) →
  (∀ v : unit, Q [ev (S:=os) (Mknod path mode major minor) (inr v)] (Ok v)) → wp (osMknod path mode major minor) Q.
Proof. intros He Hv [e|v]; [apply He|apply Hv]. Qed.
Lemma osLoopCtlGetFree_wp control Q :
  (∀ e, Q [ev (S:=os) (LoopCtlGetFree control) (inl e)] (Err (OsError e))) →
  (∀ v : Z, Q [ev (S:=os) (LoopCtlGetFree control) (inr v)] (Ok v)) → wp (osLoopCtlGetFree control) Q.
Proof. intros He Hv [e|v]; [apply He|apply Hv]. Qed.
Lemma osLoopSetFd_wp loop backing Q :
  (∀ e, Q [ev (S:=os) (LoopSetFd loop backing) (inl e)] (Err (OsError e))) →
  (∀ v : unit, Q [ev (S:=os) (LoopSetFd loop backing) (inr v)] (Ok v)) → wp (osLoopSetFd loop backing) Q.
Proof. intros He Hv [e|v]; [apply He|apply Hv]. Qed.
Lemma osLoopClrFd_wp loop Q :
  (∀ e, Q [ev (S:=os) (LoopClrFd loop) (inl e)] (Err (OsError e))) →
  (∀ v : unit, Q [ev (S:=os) (LoopClrFd loop) (inr v)] (Ok v)) → wp (osLoopClrFd loop) Q.
Proof. intros He Hv [e|v]; [apply He|apply Hv]. Qed.
Lemma osLoopSetStatus64_wp loop fileName Q :
  (∀ e, Q [ev (S:=os) (LoopSetStatus64 loop fileName) (inl e)] (Err (OsError e))) →
  (∀ v : unit, Q [ev (S:=os) (LoopSetStatus64 loop fileName) (inr v)] (Ok v)) → wp (osLoopSetStatus64 loop fileName) Q.
Proof. intros He Hv [e|v]; [apply He|apply Hv]. Qed.
Lemma osFileClone_wp dst src Q :
  (∀ e, Q [ev (S:=os) (FileClone dst src) (inl e)] (Err (OsError e))) →
  (∀ v : unit, Q [ev (S:=os) (FileClone dst src) (inr v)] (Ok v)) → wp (osFileClone dst src) Q.
Proof. intros He Hv [e|v]; [apply He|apply Hv]. Qed.
Lemma osCopy_wp dst src Q :
  (∀ e, Q [ev (S:=os) (Copy dst src) (inl e)] (Err (OsError e))) →
  (∀ v : unit, Q [ev (S:=os) (Copy dst src) (inr v)] (Ok v)) → wp (osCopy dst src) Q.
Proof. intros He Hv [e|v]; [apply He|apply Hv]. Qed.
Lemma osUnixMount_wp source target fsType flags data Q :
  (∀ e, Q [ev (S:=os) (UnixMount source target fsType flags data) (inl e)] (Err (OsError e))) →
  (∀ v : unit, Q [ev (S:=os) (UnixMount source target fsType flags data) (inr v)] (Ok v)) → wp (osUnixMount source target fsType flags data) Q.
Proof. intros He Hv [e|v]; [apply He|apply Hv]. Qed.
Lemma osUnixUnmount_wp target flags Q :
  (∀ e, Q [ev (S:=os) (UnixUnmount target flags) (inl e)] (Err (OsError e))) →
  (∀ v : unit, Q [ev (S:=os) (UnixUnmount target flags) (inr v)] (Ok v)) → wp (osUnixUnmount target flags) Q.
Proof. intros He Hv [e|v]; [apply He|apply Hv]. Qed.
Lemma osCommand_wp name args Q :
  (∀ r : string * option os_error, Q [ev (S:=os) (Command name args) r] r) →
  wp (osCommand name args) Q.
Proof. done. Qed.
Lemma osSleep_wp d Q :
  (∀ r, Q [ev (S:=os) (Sleep d) r] tt) → wp (osSleep d) Q.
Proof. done. Qed.
End call_rules.

(** [os_step] is [wp_step] extended with the calls. *)
Ltac os_step :=
  cbn beta iota;
  lazymatch goal with
  | |- wp (with_close _ _) _ => apply with_close_wp; cbn beta
  | |- wp (wrapping _ _ _) _ => apply wrapping_wp; cbn beta
  | |- wp (osMkdirAll _ _) _ => apply osMkdirAll_wp; intros ?; cbn beta iota
  | |- wp (osStat _) _ => apply osStat_wp; intros ?; cbn beta iota
  | |- wp (osReadFile _) _ => apply osReadFile_wp; intros ?; cbn beta iota
  | |- wp (osWriteFile _ _ _) _ => apply osWriteFile_wp; intros ?; cbn beta iota
  | |- wp (osReadDir _) _ => apply osReadDir_wp; intros ?; cbn beta iota
  | |- wp (osRemove _) _ => apply osRemove_wp; intros ?; cbn beta iota
  | |- wp (osRemoveAll _) _ => apply osRemoveAll_wp; intros ?; cbn beta iota
  | |- wp (osOpen _ _ _) _ => apply osOpen_wp; intros ?; cbn beta iota
  | |- wp (osClose _) _ => apply osClose_wp; intros ?; cbn beta iota
  | |- wp (osTruncate _ _) _ => apply osTruncate_wp; intros ?; cbn beta iota
  | |- wp (osMknod _ _ _ _) _ => apply osMknod_wp; intros ?; cbn beta iota
  | |- wp (osLoopCtlGetFree _) _ => apply osLoopCtlGetFree_wp; intros ?; cbn beta iota
  | |- wp (osLoopSetFd _ _) _ => apply osLoopSetFd_wp; intros ?; cbn beta iota
  | |- wp (osLoopClrFd _) _ => apply osLoopClrFd_wp; intros ?; cbn beta iota
  | |- wp (osLoopSetStatus64 _ _) _ => apply osLoopSetStatus64_wp; intros ?; cbn beta iota
  | |- wp (osFileClone _ _) _ => apply osFileClone_wp; intros ?; cbn beta iota
  | |- wp (osCopy _ _) _ => apply osCopy_wp; intros ?; cbn beta iota
  | |- wp (osUnixMount _ _ _ _ _) _ => apply osUnixMount_wp; intros ?; cbn beta iota
  | |- wp (osUnixUnmount _ _) _ => apply osUnixUnmount_wp; intros ?; cbn beta iota
  | |- wp (osCommand _ _) _ => apply osCommand_wp; intros [? [?|]]; cbn beta iota
  | |- wp (osSleep _) _ => apply osSleep_wp; intros ?; cbn beta iota
  | |- ∀ _ : os_reply _, _ => intros ?
  | |- _ => wp_step
  end.
Ltac os_steps := repeat os_step.

(** ** What a trace says about descriptors *)
Definition opened_of (e : event os) : option Fd :=
  match e with
  | existT (Open _ _ _) (inr fd) => Some fd
  | _ => None
  end.
Definition closed_of (e : event os) : option Fd :=
  match projT1 e with Close fd => Some fd | _ => None end.
Definition opened : os_trace → list Fd := omap opened_of.
Definition closed : os_trace → list Fd := omap closed_of.
(** Every descriptor that was opened was closed, once for each time. *)
Definition balanced (tr : os_trace) : Prop := closed tr ≡ₚ opened tr.
Lemma balanced_app tr1 tr2 : balanced tr1 → balanced tr2 → balanced (tr1 ++ tr2).
Proof. unfold balanced, closed, opened. rw !omap_app. intros H1 H2. by apply Permutation_app. Qed.
Lemma balanced_nil : balanced [].
Proof. constructor. Qed.
