(* ===== verification/Network.v ===== *)
(** * internal/network/policy.go: endpoints and address policies *)
From S2P Require Import Prelude GoStrings GoNet.
From Stdlib Require Import Ascii.

Definition AddressFamily := string.
Definition FamilyAuto : AddressFamily := "Auto".
Definition FamilyIPv4 : AddressFamily := "IPv4".
Definition FamilyIPv6 : AddressFamily := "IPv6".

Record Policy := mkPolicy {
  BindAddress : string; AdvertiseAddress : string; Port : string;
  PreferredFamily : AddressFamily }.
Record RolePolicies := mkRolePolicies {
  rp_Default : Policy; rp_Engine : Policy; rp_Replica : Policy }.
Record RuntimeValues := mkRuntime { PodIP : string; HostIP : string; NodeName : string }.
Record ResolvedPolicy := mkResolved {
  r_BindAddress : string; r_AdvertiseAddress : string; r_Port : string;
  r_PreferredFamily : AddressFamily; r_AdrFam : string }.

Definition JoinEndpoint (host port : string) : string := JoinHostPort host port.
Definition SplitEndpoint (endpoint : string) : result (string * string) :=
  match SplitHostPort endpoint with
  | Err e => Err (Wrapf "split endpoint %q: %w" [endpoint] e)
  | Ok hp => Ok hp
  end.
Definition HTTPURL (scheme host port path : string) : string :=
  URLString scheme (JoinEndpoint host port) path.

Definition override_ (o b : string) : string := if bool_decide (o ≠ "") then o else b.
Definition mergePolicy (base override : Policy) : Policy :=
  mkPolicy (override_ (BindAddress override) (BindAddress base))
    (override_ (AdvertiseAddress override) (AdvertiseAddress base))
    (override_ (Port override) (Port base))
    (override_ (PreferredFamily override) (PreferredFamily base)).

Definition resolveAddressToken (value : string) (runtime : RuntimeValues)
    (fallback : string) : result string :=
  let value := TrimSpace value in
  let value := if bool_decide (value = "") then "podIP" else value in
  if bool_decide (value = "podIP") then
    if bool_decide (PodIP runtime ≠ "") then Ok (PodIP runtime) else Ok fallback
  else if bool_decide (value = "hostIP") then
    if bool_decide (HostIP runtime = "") then
      Err (Errorf "hostIP requested but not available" [])
    else Ok (HostIP runtime)
  else if bool_decide (value = "nodeName") then
    if bool_decide (NodeName runtime = "") then
      Err (Errorf "nodeName requested but not available" [])
    else Ok (NodeName runtime)
  else
    match ParseIP value with
    | Some _ => Ok value
    | None => Err (Errorf "unsupported address token %q" [value])
    end.

Definition resolveAdrFam (address : string) (family : AddressFamily) : result string :=
  if bool_decide (family ≠ FamilyAuto) then Ok family
  else
    match ParseIP address with
    | Some ip =>
        match To4 ip with
        | None => Ok FamilyIPv6
        | Some _ => Ok FamilyIPv4
        end
    | None =>
        Err (Errorf "cannot derive address family from non-IP bind address %q" [address])
    end.

Definition normalizeFamily (family : AddressFamily) : AddressFamily :=
  if bool_decide (family = "") || bool_decide (family = FamilyAuto) then FamilyAuto
  else if bool_decide (family = FamilyIPv4) then FamilyIPv4
  else if bool_decide (family = FamilyIPv6) then FamilyIPv6
  else FamilyAuto.

Definition AddressFamilyForAddress (address : string) (family : AddressFamily)
    : result string := resolveAdrFam address (normalizeFamily family).

Definition role_policy (role : string) (policies : RolePolicies) : Policy :=
  if bool_decide (role = "engine") then
    mergePolicy (rp_Default policies) (rp_Engine policies)
  else if bool_decide (role = "replica") then
    mergePolicy (rp_Default policies) (rp_Replica policies)
  else rp_Default policies.

Definition wrap_err {A} (fmt : string) (args : list string) (r : result A) : result A :=
  match r with Ok a => Ok a | Err e => Err (Wrapf fmt args e) end.

Definition ResolvePolicy (role : string) (policies : RolePolicies)
    (runtime : RuntimeValues) : result ResolvedPolicy :=
  let policy := role_policy role policies in
  match wrap_err "resolve bindAddress: %w" []
          (resolveAddressToken (BindAddress policy) runtime (PodIP runtime)) with
  | Err e => Err e
  | Ok bindAddress =>
      match wrap_err "resolve advertiseAddress: %w" []
              (resolveAddressToken (AdvertiseAddress policy) runtime bindAddress) with
      | Err e => Err e
      | Ok advertiseAddress =>
          let port := TrimSpace (Port policy) in
          if bool_decide (port = "") then Err (Errorf "port is required for role %q" [role])
          else
            let preferredFamily := normalizeFamily (PreferredFamily policy) in
            match resolveAdrFam bindAddress preferredFamily with
            | Err e => Err e
            | Ok adrFam =>
                Ok (mkResolved bindAddress advertiseAddress port preferredFamily adrFam)
            end
      end
  end.

(** ** Lemmas *)
Lemma normalizeFamily_cases f :
  normalizeFamily f ∈ [FamilyAuto; FamilyIPv4; FamilyIPv6].
Proof. unfold normalizeFamily. repeat case_match; set_solver. Qed.

Lemma normalizeFamily_idem f : normalizeFamily (normalizeFamily f) = normalizeFamily f.
Proof.
  pose proof (normalizeFamily_cases f) as H.
  repeat (apply elem_of_cons in H as [->|H]; [done|]). by apply not_elem_of_nil in H.
Qed.

(** The sources of an address: the runtime values, an IP literal, the fallback. *)
Definition address_ok (runtime : RuntimeValues) (fallback a : string) : Prop :=
  (a = PodIP runtime ∧ a ≠ "") ∨ (a = HostIP runtime ∧ a ≠ "") ∨
  (a = NodeName runtime ∧ a ≠ "") ∨ is_Some (ParseIP a) ∨
  (a = fallback ∧ PodIP runtime = "").

Lemma resolveAddressToken_ok value runtime fallback a :
  resolveAddressToken value runtime fallback = Ok a → address_ok runtime fallback a.
Proof.
  unfold resolveAddressToken, address_ok. cbv zeta. intros H.
  repeat case_bool_decide; repeat case_match; naive_solver.
Qed.

(** The family of an IPv4 or IPv6 literal. *)
Definition family_of (a : string) : option AddressFamily :=
  ip ← ParseIP a; Some (if bool_decide (To4 ip = None) then FamilyIPv6 else FamilyIPv4).

Lemma resolveAdrFam_ok a f fam :
  f ∈ [FamilyAuto; FamilyIPv4; FamilyIPv6] → resolveAdrFam a f = Ok fam →
  fam ∈ [FamilyIPv4; FamilyIPv6] ∧
  (f = FamilyAuto → family_of a = Some fam) ∧ (f ≠ FamilyAuto → fam = f).
Proof.
  unfold resolveAdrFam, family_of. intros Hf H.
  destruct (bool_decide_reflect (f ≠ FamilyAuto)).
  - injection H as <-. split; [set_solver|done].
  - destruct (ParseIP a) as [ip|]; [|done]. cbn.
    destruct (To4 ip); injection H as <-; (split; [set_solver|done]).
Qed.

(** ** Properties *)

(** A host and a port without brackets (a host name, an IPv4 or an IPv6
    address, with or without zone), the port without colons, are read back from
    the endpoint they are joined into. *)
Theorem SplitEndpoint_JoinEndpoint (host port : string) :
  plain host = true → plain port = true → has_byte ":" port = false →
  SplitEndpoint (JoinEndpoint host port) = Ok (host, port).
Proof. intros ???. unfold SplitEndpoint, JoinEndpoint. by rw Split_Join. Qed.

Lemma SplitEndpoint_JoinEndpoint_witness :
  SplitEndpoint (JoinEndpoint "fe80::1%eth0" "4420") = Ok ("fe80::1%eth0", "4420").
Proof. apply SplitEndpoint_JoinEndpoint; reflexivity. Defined.

(** A policy that resolves binds and advertises addresses that come from
    the runtime values or are IP literals (the pod IP that is missing falls back,
    for the advertised address, to the bind address), has a non-empty port, and
    its NVMe-oF address family is IPv4 or IPv6: the preferred one, or with
    Auto the family of the bind address, which then is an IP literal. *)
Theorem ResolvePolicy_ok (role : string) (policies : RolePolicies)
    (runtime : RuntimeValues) (p : ResolvedPolicy) :
  ResolvePolicy role policies runtime = Ok p →
  address_ok runtime (PodIP runtime) (r_BindAddress p) ∧
  address_ok runtime (r_BindAddress p) (r_AdvertiseAddress p) ∧
  r_Port p = TrimSpace (Port (role_policy role policies)) ∧ r_Port p ≠ "" ∧
  r_AdrFam p ∈ [FamilyIPv4; FamilyIPv6] ∧
  let pref := normalizeFamily (PreferredFamily (role_policy role policies)) in
  r_PreferredFamily p = pref ∧
  (pref = FamilyAuto → family_of (r_BindAddress p) = Some (r_AdrFam p)) ∧
  (pref ≠ FamilyAuto → r_AdrFam p = pref).
Proof.
  unfold ResolvePolicy. cbv zeta.
  destruct (resolveAddressToken (BindAddress _) _ _) as [b|e] eqn:Hb; [|done].
  cbn [wrap_err]. destruct (resolveAddressToken (AdvertiseAddress _) _ _) as [a|e] eqn:Ha;
    [|done]. cbn [wrap_err].
  destruct (bool_decide_reflect (TrimSpace (Port (role_policy role policies)) = ""));
    [done|].
  destruct (resolveAdrFam b _) as [fam|e] eqn:Hf; [|done]. intros [= <-]. cbn.
  apply resolveAddressToken_ok in Hb, Ha.
  apply resolveAdrFam_ok in Hf as (? & ? & ?); [|apply normalizeFamily_cases].
  by split_and!.
Qed.

Lemma ResolvePolicy_ok_witness :
  let policies := mkRolePolicies (mkPolicy "podIP" "podIP" "" "Auto")
                    (mkPolicy "" "" "4420" "") (mkPolicy "" "" "4421" "") in
  let runtime := mkRuntime "10.0.0.7" "192.168.1.1" "w1" in
  family_of "10.0.0.7" = Some "IPv4".
Proof.
  intros policies runtime.
  destruct (ResolvePolicy_ok "engine" policies runtime
              (mkResolved "10.0.0.7" "10.0.0.7" "4420" "Auto" "IPv4"))
    as (_ & _ & _ & _ & _ & _ & H & _).
  - vm_compute. reflexivity.
  - apply H. vm_compute. reflexivity.
Defined.
