(* ===== verification/WireTypes.v ===== *)
(** * The data the components exchange over HTTP

    [internal/agent/types.go] and [internal/sidecar/status.go]. *)
From S2P Require Import Prelude GoStrings K8s ApiTypes.

(** ** internal/agent *)
Definition ReplicaStateMissing := "Missing".
Definition ReplicaStateReady := "Ready".

Record CreateReplicaRequest := mkCreateReplica {
  crr_Path : string; crr_Size : string; crr_SnapshotSource : string }.
Record CreateReplicaResponse := mkCreateReplicaResp {
  crp_DevicePath : string; crp_State : string }.
Record DeleteReplicaRequest := mkDeleteReplica { drr_Path : string }.
Record GetReplicaRequest := mkGetReplica { grr_Path : string }.
Record DeleteSnapshotRequest := mkDeleteSnapshot { dsr_Path : string }.
Record GetReplicaResponse := mkGetReplicaResp { grp_State : string; grp_Size : string }.

(** ** internal/sidecar *)
Record SidecarStatus := mkSidecarStatus {
  st_Role : string; st_Endpoint : string; st_SubsystemNQN : string;
  st_ReplicaNQN : string }.

(** The body of a sidecar's answer to [POST /snapshot]. *)
Record SnapshotResponse := mkSnapshotResponse {
  sr_SnapshotPath : string; sr_SizeBytes : Z }.
