(* ===== verification/Client.v ===== *)
(** * The calls of the cluster components

    The controllers, the CSI controller service and the manager act on the
    cluster through interfaces: controller-runtime's [client.Client], the
    clock, [agent.Client], [SidecarStatusClient] and [http.Client].  A call of
    such an interface is an event; whatever it answers is allowed.

    [Create], [Update] and [Status().Update] overwrite the object they are
    given with the server's answer, so a successful answer carries an object. *)
From S2P Require Import Prelude GoStrings K8s ApiTypes WireTypes.

Inductive kind := KVolume | KEngine | KReplica | KSnapshot | KPod | KNode | KConfigMap.
#[global] Instance kind_eq_dec : EqDecision kind.
Proof. intros [] []; first [left; reflexivity|right; discriminate]. Defined.

Definition obj (k : kind) : Type :=
  match k with
  | KVolume => Volume
  | KEngine => Engine
  | KReplica => Replica
  | KSnapshot => Snapshot
  | KPod => Pod
  | KNode => Node
  | KConfigMap => ConfigMap
  end.

Definition obj_meta (k : kind) : obj k → ObjectMeta :=
  match k with
  | KVolume => vol_meta
  | KEngine => eng_meta
  | KReplica => rep_meta
  | KSnapshot => snap_meta
  | KPod => pod_meta
  | KNode => node_meta
  | KConfigMap => cm_meta
  end.

(** What the caller decodes a JSON body into. *)
Inductive want := WantNothing | WantStatus | WantSnapshot | WantCreateReplica
  | WantGetReplica.
Definition decoded (w : want) : Type :=
  match w with
  | WantNothing => unit
  | WantStatus => SidecarStatus
  | WantSnapshot => SnapshotResponse
  | WantCreateReplica => CreateReplicaResponse
  | WantGetReplica => GetReplicaResponse
  end.

(** An HTTP answer: the status code, the raw body, and what
    [json.NewDecoder(body).Decode] makes of it. *)
Record http_response (w : want) := mkResponse {
  hr_StatusCode : Z; hr_Body : string; hr_Decoded : result (decoded w) }.
Arguments mkResponse {w}.
Arguments hr_StatusCode {w}.
Arguments hr_Body {w}.
Arguments hr_Decoded {w}.

(** [agent.Client] values: the HTTP client for a base URL, or any other
    implementation of the interface. *)
Inductive AgentClient := HTTPAgent (baseURL : string) | OtherAgent (id : nat).
(** [SidecarStatusClient] values. *)
Inductive SidecarStatusClient := HTTPSidecarStatusClient | OtherStatusClient (id : nat).

Inductive ctl_call :=
  | Get (k : kind) (key : NamespacedName)
  | List (k : kind) (ns : option string) (labels : gmap string string)
  | Create (k : kind) (o : obj k)
  | Update (k : kind) (o : obj k)
  | StatusUpdate (k : kind) (o : obj k)
  | Delete (k : kind) (key : NamespacedName)
  | TimeNow
  | AgentFactory (nodeID : string)
  | AgentCreateReplica (a : nat) (req : CreateReplicaRequest)
  | AgentDeleteReplica (a : nat) (req : DeleteReplicaRequest)
  | AgentGetReplica (a : nat) (req : GetReplicaRequest)
  | AgentDeleteSnapshot (a : nat) (req : DeleteSnapshotRequest)
  | StatusClientGet (c : nat) (podIP : string)
  | HttpNewRequest (method url : string)
  | HttpDo (w : want) (method url body : string).

Definition ctl_reply (c : ctl_call) : Type :=
  match c with
  | Get k _ => result (obj k)
  | List k _ _ => result (list (obj k))
  | Create k _ | Update k _ | StatusUpdate k _ => result (obj k)
  | Delete _ _ => result unit
  | TimeNow => Time
  | AgentFactory _ => result AgentClient
  | AgentCreateReplica _ _ => result CreateReplicaResponse
  | AgentDeleteReplica _ _ => result unit
  | AgentGetReplica _ _ => result GetReplicaResponse
  | AgentDeleteSnapshot _ _ => result unit
  | StatusClientGet _ _ => result SidecarStatus
  | HttpNewRequest _ _ => result unit
  | HttpDo w _ _ _ => result (http_response w)
  end.

Definition ctl : sig := Sig ctl_call ctl_reply.
Abbreviation M := (prog ctl).
Abbreviation trace := (list (event ctl)).

(** The API calls, with the answer at its kind. *)
Definition kGet (k : kind) (key : NamespacedName) : M (result (obj k)) :=
  ask (S := ctl) (Get k key).
Definition kList (k : kind) (ns : option string) (labels : gmap string string)
    : M (result (list (obj k))) := ask (S := ctl) (List k ns labels).
Definition kCreate (k : kind) (o : obj k) : M (result (obj k)) :=
  ask (S := ctl) (Create k o).
Definition kUpdate (k : kind) (o : obj k) : M (result (obj k)) :=
  ask (S := ctl) (Update k o).
Definition kStatusUpdate (k : kind) (o : obj k) : M (result (obj k)) :=
  ask (S := ctl) (StatusUpdate k o).
Definition kDelete (k : kind) (key : NamespacedName) : M (result unit) :=
  ask (S := ctl) (Delete k key).
Definition timeNow : M Time := ask (S := ctl) TimeNow.
(** [http.NewRequestWithContext], which fails on a URL that does not parse, and
    [http.Client.Do]. *)
Definition newRequest (method url : string) : M (result unit) :=
  ask (S := ctl) (HttpNewRequest method url).
Definition httpDo (w : want) (method url body : string) : M (result (http_response w)) :=
  ask (S := ctl) (HttpDo w method url body).

(** [client.IgnoreNotFound] on the error of a call whose value is given. *)
Definition IgnoreNotFound {A} (a : A) (e : error) : result A :=
  if IsNotFound e then Ok a else Err e.

(** The key of [client.Object] deletes and of its own name. *)
Definition key_of (m : ObjectMeta) : NamespacedName := mkName (om_Namespace m) (om_Name m).

(** ** What a reconcile returns: the result and the error *)
Record CtrlResult := mkCtrlResult { RequeueAfter : Z }.
Definition noResult : CtrlResult := mkCtrlResult 0.
Definition Reconciled : Type := CtrlResult * option error.
Definition reconciled (e : option error) : M Reconciled := Ret (noResult, e).
Definition requeue (d : Z) : M Reconciled := Ret (mkCtrlResult d, None).

Definition err_of {A} (r : result A) : option error :=
  match r with Ok _ => None | Err e => Some e end.

(** [return ctrl.Result{}, call] *)
Definition finish {A} (p : M (result A)) : M Reconciled :=
  p ≫= λ r, Ret (noResult, err_of r).

(** [if err != nil { return ctrl.Result{}, err }] *)
Definition bind_rec {A} (p : M (result A)) (f : A → M Reconciled) : M Reconciled :=
  p ≫= λ r, match r with Ok a => f a | Err e => reconciled (Some e) end.
Notation "x ←! p ; k" := (bind_rec p (λ x, k))
  (at level 20, p at level 100, k at level 200, only parsing) : go_scope.

(** ** Durations, in nanoseconds *)
Definition Second : Z := 1000000000.
(** [time.Since] saturates at the range of a Duration. *)
Definition sat64 (z : Z) : Z := Z.max min_int64 (Z.min max_int64 z).
Definition Since (t : Time) : M Z := now ← timeNow; Ret (sat64 (now - t)%Z).

(** ** What a trace says

    The objects written by the calls of each sort, in order, whatever was
    answered. *)
Definition cast_obj (k k' : kind) (o : obj k') : option (obj k) :=
  match kind_eq_dec k' k with
  | left e => Some (eq_rect k' obj o k e)
  | right _ => None
  end.

Definition update_of (k : kind) (e : event ctl) : option (obj k) :=
  match projT1 e with Update k' o => cast_obj k k' o | _ => None end.
Definition status_of (k : kind) (e : event ctl) : option (obj k) :=
  match projT1 e with StatusUpdate k' o => cast_obj k k' o | _ => None end.
Definition create_of (k : kind) (e : event ctl) : option (obj k) :=
  match projT1 e with Create k' o => cast_obj k k' o | _ => None end.
Definition delete_of (k : kind) (e : event ctl) : option NamespacedName :=
  match projT1 e with
  | Delete k' key => if kind_eq_dec k' k then Some key else None
  | _ => None
  end.

Definition updates (k : kind) : trace → list (obj k) := omap (update_of k).
Definition status_updates (k : kind) : trace → list (obj k) := omap (status_of k).
Definition creates (k : kind) : trace → list (obj k) := omap (create_of k).
Definition deletes (k : kind) : trace → list NamespacedName := omap (delete_of k).

(** What the reads of a key answered with, in order. *)
Definition answer_of (k : kind) (key : NamespacedName) (e : event ctl)
    : option (obj k) :=
  match e with
  | existT c r =>
      match c return ctl_reply c → option (obj k) with
      | Get k' key' => λ r,
          match r with
          | Ok o => if bool_decide (nn_Namespace key' = nn_Namespace key ∧
                                    nn_Name key' = nn_Name key)
                    then cast_obj k k' o else None
          | Err _ => None
          end
      | _ => λ _, None
      end r
  end.
Definition reads (k : kind) (key : NamespacedName) : trace → list (obj k) :=
  omap (answer_of k key).

(** What the lists of a kind answered with, in order. *)
Definition cast_list (k k' : kind) (l : list (obj k')) : option (list (obj k)) :=
  match kind_eq_dec k' k with
  | left e => Some (eq_rect k' (λ k, list (obj k)) l k e)
  | right _ => None
  end.
Definition listed_of (k : kind) (e : event ctl) : option (list (obj k)) :=
  match e with
  | existT c r =>
      match c return ctl_reply c → option (list (obj k)) with
      | List k' _ _ => λ r, match r with Ok l => cast_list k k' l | Err _ => None end
      | _ => λ _, None
      end r
  end.
Definition lists (k : kind) : trace → list (list (obj k)) := omap (listed_of k).

(** A call that writes nothing to the API server. *)
Definition is_read (e : event ctl) : bool :=
  match projT1 e with
  | Create _ _ | Update _ _ | StatusUpdate _ _ | Delete _ _ => false
  | _ => true
  end.
Definition read_only : trace → Prop := Forall (λ e, is_read e = true).

Lemma Forall_omap {A B} (f : A → option B) (P : B → Prop) l :
  Forall P (omap f l) ↔ Forall (λ x, from_option P True (f x)) l.
Proof.
  induction l as [|x l IH]; simpl; [by split; constructor|].
  rw Forall_cons -IH. destruct (f x); simpl; [by rw Forall_cons|].
  split; [by intros; split|by intros []].
Qed.

Lemma omap_nil_Forall {A B} (f : A → option B) l :
  Forall (λ x, f x = None) l → omap f l = [].
Proof. induction 1 as [|x l Hx _ IH]; [done|]. simpl. by rw Hx. Qed.

(** Reads write nothing. *)
Lemma read_only_writes tr :
  read_only tr →
  (∀ k, updates k tr = []) ∧ (∀ k, status_updates k tr = []) ∧
  (∀ k, creates k tr = []) ∧ (∀ k, deletes k tr = []).
Proof.
  intros H. split_and!; intros k; apply omap_nil_Forall;
    (eapply Forall_impl; [exact H|]); intros [c r] Hc; by destruct c.
Qed.

Lemma updates_app k tr1 tr2 : updates k (tr1 ++ tr2) = updates k tr1 ++ updates k tr2.
Proof. apply omap_app. Qed.
Lemma status_updates_app k tr1 tr2 :
  status_updates k (tr1 ++ tr2) = status_updates k tr1 ++ status_updates k tr2.
Proof. apply omap_app. Qed.
Lemma creates_app k tr1 tr2 : creates k (tr1 ++ tr2) = creates k tr1 ++ creates k tr2.
Proof. apply omap_app. Qed.
Lemma deletes_app k tr1 tr2 : deletes k (tr1 ++ tr2) = deletes k tr1 ++ deletes k tr2.
Proof. apply omap_app. Qed.
Lemma reads_app k key tr1 tr2 : reads k key (tr1 ++ tr2) = reads k key tr1 ++ reads k key tr2.
Proof. apply omap_app. Qed.
Lemma read_only_app tr1 tr2 : read_only (tr1 ++ tr2) ↔ read_only tr1 ∧ read_only tr2.
Proof. apply Forall_app. Qed.

Lemma reads_self k key (o : obj k) tr :
  o ∈ reads k key (ev (S:=ctl) (Get k key) (Ok o) :: tr).
Proof.
  destruct k; cbn; rw bool_decide_true //=; set_solver.
Qed.

(** What was created, whether the server made it or had it already. *)
Definition created_ok (k : kind) (e : event ctl) : option (obj k) :=
  match e with
  | existT c r =>
      match c return ctl_reply c → option (obj k) with
      | Create k' o => λ r,
          match r with
          | Err err => if IsAlreadyExists err then cast_obj k k' o else None
          | Ok _ => cast_obj k k' o
          end
      | _ => λ _, None
      end r
  end.
Definition existing (k : kind) : trace → list (obj k) := omap (created_ok k).

Lemma existing_app k tr1 tr2 : existing k (tr1 ++ tr2) = existing k tr1 ++ existing k tr2.
Proof. apply omap_app. Qed.

Lemma existing_self k (o : obj k) r : is_ok r = true → existing k [ev (S:=ctl) (Create k o) r] = [o].
Proof. intros Hr. destruct r as [o'|e]; [|done]. cbn. by destruct k. Qed.
Lemma existing_again k (o : obj k) e : IsAlreadyExists e = true → existing k [ev (S:=ctl) (Create k o) (Err e)] = [o].
Proof. intros He. cbn. rw He. by destruct k. Qed.
(** What exists by a creation was asked for. *)
Lemma existing_created k tr : creates k tr = [] → existing k tr = [].
Proof.
  assert (∀ e, create_of k e = None → created_ok k e = None) as Hof.
  { intros [c r] Hc. destruct c; try done. cbn in Hc |- *. rw Hc.
    destruct r as [|e]; [done|]. by destruct (IsAlreadyExists e). }
  unfold creates, existing. induction tr as [|e tr IH]; [done|]. simpl.
  destruct (create_of k e) eqn:Hc; [done|]. rw (Hof e Hc). exact IH.
Qed.
Lemma read_only_existing k tr : read_only tr → existing k tr = [].
Proof. intros H. apply omap_nil_Forall. eapply Forall_impl; [exact H|]. intros [c r] Hc. by destruct c. Qed.

#[export] Hint Rewrite updates_app status_updates_app creates_app deletes_app
  reads_app : kdfs.

(** ** Symbolic execution of the calls *)
Section call_rules.
Implicit Types (k : kind).
Lemma kGet_wp k key Q : (∀ r, Q [ev (S:=ctl) (Get k key) r] r) → wp (kGet k key) Q.
Proof. done. Qed.
Lemma kList_wp k ns ls Q : (∀ r, Q [ev (S:=ctl) (List k ns ls) r] r) → wp (kList k ns ls) Q.
Proof. done. Qed.
Lemma kCreate_wp k o Q : (∀ r, Q [ev (S:=ctl) (Create k o) r] r) → wp (kCreate k o) Q.
Proof. done. Qed.
Lemma kUpdate_wp k o Q : (∀ r, Q [ev (S:=ctl) (Update k o) r] r) → wp (kUpdate k o) Q.
Proof. done. Qed.
Lemma kStatusUpdate_wp k o Q :
  (∀ r, Q [ev (S:=ctl) (StatusUpdate k o) r] r) → wp (kStatusUpdate k o) Q.
Proof. done. Qed.
Lemma kDelete_wp k key Q : (∀ r, Q [ev (S:=ctl) (Delete k key) r] r) → wp (kDelete k key) Q.
Proof. done. Qed.
Lemma timeNow_wp Q : (∀ t, Q [ev (S:=ctl) TimeNow t] t) → wp timeNow Q.
Proof. done. Qed.
Lemma newRequest_wp m u Q :
  (∀ r, Q [ev (S:=ctl) (HttpNewRequest m u) r] r) → wp (newRequest m u) Q.
Proof. done. Qed.
Lemma httpDo_wp w m u b Q :
  (∀ r, Q [ev (S:=ctl) (HttpDo w m u b) r] r) → wp (httpDo w m u b) Q.
Proof. done. Qed.
Lemma finish_wp {A} (p : M (result A)) Q :
  wp p (λ tr r, Q tr (noResult, err_of r)) → wp (finish p) Q.
Proof.
  intros H. unfold finish. apply wp_bind. eapply wp_mono, H. intros tr r HQ.
  apply wp_ret_intro. by rw app_nil_r.
Qed.
Lemma bind_rec_wp {A} (p : M (result A)) (f : A → M Reconciled) Q :
  wp p (λ tr1 r, match r with
                 | Ok a => wp (f a) (λ tr2 b, Q (tr1 ++ tr2) b)
                 | Err e => Q tr1 (noResult, Some e)
                 end) → wp (bind_rec p f) Q.
Proof.
  intros H. apply wp_bind. eapply wp_mono, H. intros tr1 [a|e] HQ; [done|].
  apply wp_ret_intro. by rw app_nil_r.
Qed.
End call_rules.

(** [ctl_step] is [wp_step] extended with the cluster calls. *)
Ltac ctl_step :=
  cbn beta iota;
  lazymatch goal with
  | |- wp (kGet _ _) _ => apply kGet_wp; intros ?; cbn beta
  | |- wp (kList _ _ _) _ => apply kList_wp; intros ?; cbn beta
  | |- wp (kCreate _ _) _ => apply kCreate_wp; intros ?; cbn beta
  | |- wp (kUpdate _ _) _ => apply kUpdate_wp; intros ?; cbn beta
  | |- wp (kStatusUpdate _ _) _ => apply kStatusUpdate_wp; intros ?; cbn beta
  | |- wp (kDelete _ _) _ => apply kDelete_wp; intros ?; cbn beta
  | |- wp timeNow _ => apply timeNow_wp; intros ?; cbn beta
  | |- wp (newRequest _ _) _ => apply newRequest_wp; intros ?; cbn beta
  | |- wp (httpDo _ _ _ _) _ => apply httpDo_wp; intros ?; cbn beta
  | |- wp (finish _) _ => apply finish_wp; cbn beta
  | |- wp (bind_rec _ _) _ => apply bind_rec_wp; cbn beta
  | |- wp (reconciled _) _ => apply wp_ret_intro; cbn beta
  | |- wp (requeue _) _ => apply wp_ret_intro; cbn beta
  | |- _ => wp_step
  end.
Ltac ctl_steps := repeat ctl_step.

(** [trace_simpl] pushes the projections through concatenations and known
    events. *)
Ltac trace_simpl :=
  rw ?updates_app ?status_updates_app ?creates_app ?deletes_app ?reads_app;
  cbn [updates status_updates creates deletes omap list_omap projT1 ev
       update_of status_of create_of delete_of cast_obj kind_eq_dec eq_rect
       app].

(** ** Safety of the calls *)
Section call_safe.
Context (P : event ctl → Prop).
Lemma call_safe (c : ctl_call) (R : ctl_reply c → Prop) :
  (∀ r, P (ev (S:=ctl) c r) ∧ R r) → safe P (ask (S:=ctl) c) R.
Proof. apply safe_ask. Qed.
Lemma finish_safe {A} (p : M (result A)) (R : Reconciled → Prop) :
  safe P p (λ r, R (noResult, err_of r)) → safe P (finish p) R.
Proof.
  intros H. apply safe_bind. eapply safe_mono, H. intros r HR. by apply safe_ret.
Qed.
Lemma bind_rec_safe {A} (p : M (result A)) (f : A → M Reconciled) (R : Reconciled → Prop) :
  safe P p (λ r, match r with Ok a => safe P (f a) R | Err e => R (noResult, Some e) end) →
  safe P (bind_rec p f) R.
Proof.
  intros H. apply safe_bind. eapply safe_mono, H. intros [a|e] HR; [done|by apply safe_ret].
Qed.
(** A program that only reads is safe for what reads satisfy. *)
Lemma read_only_safe {A} (p : M A) (R : A → Prop) :
  (∀ e, is_read e = true → P e) → wp p (λ tr r, read_only tr ∧ R r) → safe P p R.
Proof.
  intros HP. apply wp_mono. intros tr r [Hro HR]. split; [|done].
  by eapply Forall_impl.
Qed.
End call_safe.

Ltac ctl_safe_step :=
  cbn beta iota;
  lazymatch goal with
  | |- safe _ (kGet ?k ?key) _ => apply (call_safe _ (Get k key)); intros ?; cbn beta
  | |- safe _ (kList ?k ?ns ?l) _ => apply (call_safe _ (List k ns l)); intros ?; cbn beta
  | |- safe _ (kCreate ?k ?o) _ => apply (call_safe _ (Create k o)); intros ?; cbn beta
  | |- safe _ (kUpdate ?k ?o) _ => apply (call_safe _ (Update k o)); intros ?; cbn beta
  | |- safe _ (kStatusUpdate ?k ?o) _ => apply (call_safe _ (StatusUpdate k o)); intros ?; cbn beta
  | |- safe _ (kDelete ?k ?key) _ => apply (call_safe _ (Delete k key)); intros ?; cbn beta
  | |- safe _ (newRequest ?m ?u) _ => apply (call_safe _ (HttpNewRequest m u)); intros ?; cbn beta
  | |- safe _ (httpDo ?w ?m ?u ?b) _ => apply (call_safe _ (HttpDo w m u b)); intros ?; cbn beta
  | |- safe _ timeNow _ => apply (call_safe _ TimeNow); intros ?; cbn beta
  | |- safe _ (finish _) _ => apply finish_safe; cbn beta
  | |- safe _ (bind_rec _ _) _ => apply bind_rec_safe; cbn beta
  | |- safe _ (reconciled _) _ => apply safe_ret; cbn beta
  | |- safe _ (requeue _) _ => apply safe_ret; cbn beta
  | |- _ ∧ _ => split; [exact I || done|]
  | |- _ => safe_step
  end.
Ltac ctl_safe_steps := repeat ctl_safe_step.
