(* ===== verification/MemStore.v ===== *)
(** * A concrete environment for the cluster components

    An in-memory API server with the documented behaviour of create, update,
    status update, delete, get and list, a clock that ticks once per reading,
    and fixed answers of the agents and sidecars.  It instantiates the
    environment in the witnesses; no theorem assumes it. *)
From S2P Require Import Prelude GoStrings K8s ApiTypes WireTypes Client.

Definition okey : Type := string * string.  (* namespace, name *)
Definition okey_of (n : NamespacedName) : okey := (nn_Namespace n, nn_Name n).
Definition meta_okey (m : ObjectMeta) : okey := (om_Namespace m, om_Name m).

Record world := mkWorld {
  w_objs : ∀ k : kind, gmap okey (obj k);
  w_clock : Time;
  w_factory : result AgentClient;
  w_create : result CreateReplicaResponse;
  w_status : string → result SidecarStatus;
  w_http : ∀ w : want, string → result (http_response w);
  (** What the sidecars were last told, by the address of the request. *)
  w_told : gmap string string }.

Definition upd_kind (k : kind) (m : gmap okey (obj k))
    (s : ∀ k : kind, gmap okey (obj k)) (k' : kind) : gmap okey (obj k') :=
  match decide (k = k') with
  | left e => eq_rect k (λ k, gmap okey (obj k)) m k' e
  | right _ => s k'
  end.
Definition set_objs (k : kind) (m : gmap okey (obj k)) (w : world) : world :=
  mkWorld (upd_kind k m (w_objs w)) (w_clock w) (w_factory w) (w_create w)
    (w_status w) (w_http w) (w_told w).
Definition tick (w : world) : world :=
  mkWorld (w_objs w) (w_clock w + Second)%Z (w_factory w) (w_create w)
    (w_status w) (w_http w) (w_told w).
Definition note (url body : string) (w : world) : world :=
  mkWorld (w_objs w) (w_clock w) (w_factory w) (w_create w)
    (w_status w) (w_http w) (<[url := body]> (w_told w)).

(** An update of the main resource keeps the stored status, a status update
    keeps everything else, where the kind has the status subresource. *)
Definition with_status_of (k : kind) : obj k → obj k → obj k :=
  match k with
  | KVolume => λ o s, mkVolume (vol_meta o) (vol_spec o) (vol_status s)
  | KEngine => λ o s, eng_set_status (eng_status s) o
  | KReplica => λ o s, rep_set_status (rep_status s) o
  | KSnapshot => λ o s, snap_set_status (snap_status s) o
  | KPod => λ o s, mkPod (pod_meta o) (pod_spec o) (pod_status s)
  | KNode => λ o s, o
  | KConfigMap => λ o s, o
  end.

Definition has_labels (sel labels : gmap string string) : bool :=
  forallb (λ kv, bool_decide (labels !! kv.1 = Some kv.2)) (map_to_list sel).
Definition in_ns (ns : option string) (m : ObjectMeta) : bool :=
  match ns with None => true | Some n => bool_decide (om_Namespace m = n) end.

Definition notFound {A} : result A := Err (ApiError NotFound "not found").

Definition mem_handler : handler ctl world := λ c,
  match c return world → ctl_reply c * world with
  | Get k key => λ w,
      match w_objs w k !! okey_of key with
      | Some o => (Ok o, w)
      | None => (notFound, w)
      end
  | List k ns sel => λ w,
      (Ok (filter (λ o, in_ns ns (obj_meta k o) && has_labels sel (om_Labels (obj_meta k o)))
             (map_to_list (w_objs w k)).*2), w)
  | Create k o => λ w,
      let key := meta_okey (obj_meta k o) in
      match w_objs w k !! key with
      | Some _ => (Err (ApiError AlreadyExists "already exists"), w)
      | None => (Ok o, set_objs k (<[key := o]> (w_objs w k)) w)
      end
  | Update k o => λ w,
      let key := meta_okey (obj_meta k o) in
      match w_objs w k !! key with
      | None => (notFound, w)
      | Some old =>
          let o := with_status_of k o old in
          (Ok o, set_objs k (<[key := o]> (w_objs w k)) w)
      end
  | StatusUpdate k o => λ w,
      let key := meta_okey (obj_meta k o) in
      match w_objs w k !! key with
      | None => (notFound, w)
      | Some old =>
          let o := with_status_of k old o in
          (Ok o, set_objs k (<[key := o]> (w_objs w k)) w)
      end
  | Delete k key => λ w,
      match w_objs w k !! okey_of key with
      | None => (notFound, w)
      | Some _ => (Ok tt, set_objs k (delete (okey_of key) (w_objs w k)) w)
      end
  | TimeNow => λ w, (w_clock w, tick w)
  | AgentFactory _ => λ w, (w_factory w, w)
  | AgentCreateReplica _ _ => λ w, (w_create w, w)
  | AgentDeleteReplica _ _ => λ w, (Ok tt, w)
  | AgentGetReplica _ _ => λ w, (Ok (mkGetReplicaResp "Ready" ""), w)
  | AgentDeleteSnapshot _ _ => λ w, (Ok tt, w)
  | StatusClientGet _ ip => λ w, (w_status w ip, w)
  | HttpNewRequest _ _ => λ w, (Ok tt, w)
  | HttpDo wt _ url _ => λ w, (w_http w wt url, w)
  end.

(** ** Building worlds *)
Definition put (k : kind) (o : obj k) (w : world) : world :=
  set_objs k (<[meta_okey (obj_meta k o) := o]> (w_objs w k)) w.
Definition no_http (w : want) (_ : string) : result (http_response w) :=
  Err (Errorf "no route" []).
Definition empty_world : world :=
  mkWorld (λ _, ∅) 1000000000000%Z (Ok (OtherAgent 0)) (Ok (mkCreateReplicaResp "/dev/loop0" "Ready"))
    (λ _, Err (Errorf "no sidecar" [])) no_http ∅.

Definition labelled_node (name : string) (cp : bool) : Node :=
  mkNode (mkMeta name "" "" ""
    (if cp then {[ "node-role.kubernetes.io/control-plane" := "" ]} else ∅) [] [] None).
Definition running_pod (name ns mode ip : string) : Pod :=
  mkPod (mkMeta name ns "" "" {[ "kdfs.krea.to/mode" := mode ]} [] [] None)
    (mkPodSpec "" "Always" [] []) (mkPodStatus "Running" ip [true]).
