(* ===== verification/Status.v ===== *)
(** * internal/status: status conditions *)
From S2P Require Import Prelude GoStrings K8s ApiTypes WireTypes Client.

(** The first condition of the type is replaced in place, else the new one is
    appended. *)
Fixpoint replace_condition (c : Condition) (cs : list Condition) : list Condition :=
  match cs with
  | [] => [c]
  | c' :: cs' =>
      if bool_decide (cond_Type c' = cond_Type c) then c :: cs'
      else c' :: replace_condition c cs'
  end.

Definition set (conditions : list Condition)
    (conditionType conditionStatus reason message : string) : M (list Condition) :=
  now ← timeNow;
  let condition := mkCondition conditionType conditionStatus 0 now reason message in
  Ret (replace_condition condition conditions).

Definition SetTrue (conditions : list Condition)
    (conditionType reason message : string) : M (list Condition) :=
  set conditions conditionType ConditionTrue reason message.
Definition SetFalse (conditions : list Condition)
    (conditionType reason message : string) : M (list Condition) :=
  set conditions conditionType ConditionFalse reason message.

(** ** What the conditions of a type say *)
Definition find_condition (t : string) (cs : list Condition) : option Condition :=
  list_find (λ c, cond_Type c = t) cs ≫= λ ic, Some ic.2.

Lemma find_condition_cons t c cs :
  find_condition t (c :: cs) =
  if decide (cond_Type c = t) then Some c else find_condition t cs.
Proof.
  unfold find_condition. simpl. case_decide; [done|].
  by destruct (list_find _ cs) as [[i c']|].
Qed.

Lemma find_replace_condition t c cs :
  find_condition t (replace_condition c cs) =
  if decide (cond_Type c = t) then Some c else find_condition t cs.
Proof.
  induction cs as [|c' cs IH]; simpl.
  - rw find_condition_cons. done.
  - destruct (bool_decide_reflect (cond_Type c' = cond_Type c)) as [E|E].
    + rw !find_condition_cons E. by case_decide.
    + rw !find_condition_cons IH. repeat case_decide; congruence.
Qed.

Lemma replace_condition_types c cs :
  cond_Type <$> replace_condition c cs =
  if decide (cond_Type c ∈ (cond_Type <$> cs)) then cond_Type <$> cs
  else (cond_Type <$> cs) ++ [cond_Type c].
Proof.
  induction cs as [|c' cs IH]; [done|]. cbn [replace_condition].
  destruct (bool_decide_reflect (cond_Type c' = cond_Type c)) as [E|E];
    rw !fmap_cons ?IH ?E.
  - rw (decide_True (P := _ ∈ _ :: _)); [done|]. by apply list_elem_of_here.
  - repeat case_decide; set_solver.
Qed.

Lemma wp_set cs t st reason msg Q :
  (∀ now, Q [ev (S:=ctl) TimeNow now]
            (replace_condition (mkCondition t st 0 now reason msg) cs)) →
  wp (set cs t st reason msg) Q.
Proof. intros H now. apply H. Qed.

Lemma safe_set P cs t st reason msg (R : list Condition → Prop) :
  (∀ now, P (ev (S:=ctl) TimeNow now) ∧
          R (replace_condition (mkCondition t st 0 now reason msg) cs)) →
  safe P (set cs t st reason msg) R.
Proof. intros H now. destruct (H now). split; [by repeat constructor|done]. Qed.

Lemma set_in (f : ∀ c : ctl_call, ctl_reply c) cs t st reason msg :
  result_in (S:=ctl) f (set cs t st reason msg) =
    replace_condition (mkCondition t st 0 (f TimeNow) reason msg) cs ∧
  calls_in (S:=ctl) f (set cs t st reason msg) = [TimeNow].
Proof. done. Qed.

#[global] Opaque set.

(** [ctl_safe_step] that also steps over a condition being set. *)
Ltac pub_safe_step :=
  cbn beta iota;
  lazymatch goal with
  | |- safe _ (set _ _ _ _ _) _ => apply safe_set; intros ?; split; [done|]; cbn beta
  | |- safe _ (SetTrue _ _ _ _) _ => apply safe_set; intros ?; split; [done|]; cbn beta
  | |- safe _ (SetFalse _ _ _ _) _ => apply safe_set; intros ?; split; [done|]; cbn beta
  | |- _ => ctl_safe_step
  end.
Ltac pub_safe_steps := repeat pub_safe_step.
