(* ===== verification/PodTemplates.v ===== *)
(** * internal/controller/podtemplates.go and replicahash.go *)
From S2P Require Import Prelude GoStrings GoJson Sha256 K8s ApiTypes Names.

(** ** The JSON of attachments *)
Definition attachment_json (ra : ReplicaAttachment) : json :=
  JObj ([("name", JStr (ra_Name ra)); ("nodeID", JStr (ra_NodeID ra))]
        ++ omit_bool "isLocal" (ra_IsLocal ra) ++ omit_str "nqn" (ra_NQN ra)
        ++ omit_str "address" (ra_Address ra) ++ omit_str "port" (ra_Port ra)).
(** The slice is not nil: it was decoded from or made for a required array. *)
Definition attachments_json (ras : list ReplicaAttachment) : json :=
  JArr (attachment_json <$> ras).

Definition replicasHash (replicas : list ReplicaAttachment) : string :=
  hex_string (take 8 (Sum256 (bytes_of (Marshal (attachments_json replicas))))).

(** ** Images *)
Record Images := mkImages { SPDK : string; Sidecar : string; NFSSidecar : string }.
Definition defaultPodImages : Images :=
  mkImages "ghcr.io/bouquet2/kdfs/kdfs-spdk:dev" "ghcr.io/bouquet2/kdfs/kdfs-sidecar:dev"
    "ghcr.io/bouquet2/kdfs/kdfs-nfs-sidecar:dev".
(** The package variable [PodImages], overridden at start-up. *)
Class PodImages := podImages : Images.

(** ** Environment *)
Definition envValue (name value : string) : EnvVar := mkEnv name value None.
Definition envFrom (name : string) (src : EnvVarSource) : EnvVar := mkEnv name "" (Some src).

Definition runtimeEnv : list EnvVar :=
  [envFrom "KDFS_POD_IP" (FieldRef "status.podIP");
   envFrom "KDFS_HOST_IP" (FieldRef "status.hostIP");
   envFrom "KDFS_NODE_NAME" (FieldRef "spec.nodeName");
   envFrom "KDFS_NETWORK_POLICY" (ConfigMapKeyRef "kdfs-config" "networkPolicy" (Some true))].
Definition mypodIPEnv : EnvVar := envFrom "KDFS_LISTEN_ADDR" (FieldRef "status.podIP").
Definition nqnAuthorityEnv : EnvVar :=
  envFrom "NQN_AUTHORITY" (ConfigMapKeyRef "kdfs-config" "nqnAuthority" None).

Section templates.
Context `{Environ, PodImages}.

(** ** spdkPod *)
Definition pod_labels (mode : string) : gmap string string :=
  {[ "app.kubernetes.io/name" := "kdfs"; "kdfs.krea.to/mode" := mode ]}.
Definition data_mounts : list VolumeMount :=
  [mkMount "data" "/data"; mkMount "spdk-socket" "/var/tmp"].
Definition spdkPod (name namespace nodeName spdkContainer mode : string)
    (sidecarEnv : list EnvVar) (privileged : option bool) : Pod :=
  mkPod (mkMeta name namespace "" "" (pod_labels mode) [] [] None)
    (mkPodSpec nodeName "Always"
       [mkPodVolume "data" (HostPath "/var/lib/kdfs"); mkPodVolume "spdk-socket" EmptyDir]
       [mkContainer spdkContainer (SPDK podImages)
          ["--no-huge"; "-s"; "1024"; "-r"; "/var/tmp/spdk.sock"] [] data_mounts privileged;
        mkContainer "sidecar" (Sidecar podImages) ["--mode"; mode] sidecarEnv data_mounts None])
    (mkPodStatus "" "" []).

Definition add_container (c : Container) (p : Pod) : Pod :=
  let s := pod_spec p in
  mkPod (pod_meta p)
    (mkPodSpec (ps_NodeName s) (ps_RestartPolicy s) (ps_Volumes s) (ps_Containers s ++ [c]))
    (pod_status p).

(** ** EnginePodFor *)
Definition sanitizeAllowedHosts (hosts : list string) : list string :=
  filter (λ host, IsHostNQN host = true) hosts.

Definition engine_env (engine : Engine) (allowedHosts : list string) : list EnvVar :=
  let volumeName := es_VolumeRef (eng_spec engine) in
  let allowedHosts := sanitizeAllowedHosts allowedHosts in
  [envValue "KDFS_VOLUME_NAME" volumeName;
   envValue "KDFS_LOCAL_PATH" ("/data/" +:+ volumeName +:+ "/vol.img");
   envValue "KDFS_REPLICAS" (Marshal (attachments_json (eng_Replicas engine)));
   nqnAuthorityEnv]
  ++ runtimeEnv
  ++ (if bool_decide (0 < length allowedHosts)
      then [envValue "KDFS_ALLOWED_HOSTS" (Join allowedHosts ",")] else [])
  ++ [mypodIPEnv].

Definition nfs_container (volumeName : string) : Container :=
  mkContainer "nfs" (NFSSidecar podImages) []
    [envValue "KDFS_NFS_EXPORT" ("/data/" +:+ volumeName); envValue "KDFS_NFS_BIND" ":2049"]
    [mkMount "data" "/data"] (Some true).

Definition EnginePodFor (engine : Engine) (allowedHosts : list string) : Pod :=
  let volumeName := es_VolumeRef (eng_spec engine) in
  add_container (nfs_container volumeName)
    (spdkPod (eng_Name engine +:+ "-pod") (eng_Namespace engine) (es_NodeID (eng_spec engine))
       "spdk-engine" "engine" (engine_env engine allowedHosts) (Some true)).

(** ** ReplicaPodFor

    The name of the volume is part of the format that the index is scanned with;
    a percent sign, which no Kubernetes name has, would be a verb there. *)
Definition replica_index (replica : Replica) : Z :=
  Sscanf_decimal (rs_VolumeRef (rep_spec replica) +:+ "-replica-") (rep_Name replica).

Definition replica_env (replica : Replica) : list EnvVar :=
  let volumeName := rs_VolumeRef (rep_spec replica) in
  [envValue "KDFS_VOLUME_NAME" volumeName;
   envValue "KDFS_DATA_PATH" ("/data/" +:+ volumeName +:+ "/vol.img");
   envValue "KDFS_REPLICA_INDEX" (Itoa (replica_index replica));
   nqnAuthorityEnv; mypodIPEnv]
  ++ runtimeEnv.

Definition ReplicaPodFor (replica : Replica) : Pod :=
  spdkPod (rep_Name replica +:+ "-pod") (rep_Namespace replica) (rs_NodeID (rep_spec replica))
    "spdk-replica" "replica" (replica_env replica) (Some true).
End templates.

(** [fmt.Sscanf(s, "%d", &i)]: the first part "replica" that has a successor. *)
Fixpoint index_after_replica (parts : list string) : Z :=
  match parts with
  | [] => 0
  | p :: parts' =>
      match parts' with
      | q :: _ => if bool_decide (p = "replica") then Sscanf_decimal "" q
                  else index_after_replica parts'
      | [] => 0
      end
  end.
Definition replicaIndexFromName (name : string) : Z := index_after_replica (Split name "-").

(** ** What a container sees *)

(** The entry of a variable (the last wins), and its value when it is literal. *)
Fixpoint env_entry (name : string) (env : list EnvVar) : option EnvVar :=
  match env with
  | [] => None
  | e :: env' =>
      match env_entry name env' with
      | Some e' => Some e'
      | None => if String.eqb (env_Name e) name then Some e else None
      end
  end.
Definition env_value (name : string) (env : list EnvVar) : option string :=
  match env_entry name env with
  | Some (mkEnv _ v None) => Some v
  | _ => None
  end.

(** The path on the node of a path below one of the container's mounts. *)
Definition host_volume (p : Pod) (name : string) : option string :=
  match list_find (λ v, pv_Name v = name) (ps_Volumes (pod_spec p)) with
  | Some (_, v) => match pv_Source v with HostPath h => Some h | EmptyDir => None end
  | None => None
  end.
Fixpoint host_path_in (p : Pod) (mounts : list VolumeMount) (path : string) : option string :=
  match mounts with
  | [] => None
  | m :: mounts' =>
      match strip_prefix (vm_MountPath m +:+ "/") path with
      | Some rest =>
          match host_volume p (vm_Name m) with
          | Some h => Some (h +:+ "/" +:+ rest)
          | None => None
          end
      | None => host_path_in p mounts' path
      end
  end.
Definition host_path (p : Pod) (c : Container) (path : string) : option string :=
  host_path_in p (c_VolumeMounts c) path.

(** ** Properties *)

(** The sidecar of the pod of the replica named for volume [v] and index
    [i] is told exactly that volume and that index, so that the NQN it exports
    is [ReplicaNQN v i]. *)
Theorem ReplicaPodFor_index `{Environ, PodImages} (replica : Replica) (v : string) (i : Z) :
  rs_VolumeRef (rep_spec replica) = v → rep_Name replica = ReplicaName v i →
  (0 ≤ i)%Z → in_int64 i = true →
  ∃ c, ps_Containers (pod_spec (ReplicaPodFor replica)) !! 1 = Some c ∧
       env_value "KDFS_VOLUME_NAME" (c_Env c) = Some v ∧
       (env_value "KDFS_REPLICA_INDEX" (c_Env c) ≫= Atoi) = Some i.
Proof.
  intros Hv Hn Hi Hr. eexists. split; [reflexivity|]. cbn [c_Env].
  assert (replica_index replica = i) as Hidx.
  { unfold replica_index. rw Hv Hn. unfold ReplicaName.
    by rw -(string_app_assoc v "-replica-") Sscanf_decimal_Itoa. }
  unfold replica_env. rw Hidx Hv. cbn -[Itoa Atoi]. by rw Atoi_Itoa.
Qed.

Definition replica_sample : Replica :=
  mkReplica (newMeta (ReplicaName "pvc-1" 12) "ns")
    (mkReplicaSpec "pvc-1" "w1" "Remote" "1Gi" "/d" "") zeroReplicaStatus.
Lemma ReplicaPodFor_index_witness :
  let env : Environ := λ _, "" in let img : PodImages := defaultPodImages in
  ∃ c, ps_Containers (pod_spec (ReplicaPodFor replica_sample)) !! 1 = Some c ∧
       env_value "KDFS_VOLUME_NAME" (c_Env c) = Some "pvc-1" ∧
       (env_value "KDFS_REPLICA_INDEX" (c_Env c) ≫= Atoi) = Some 12%Z.
Proof.
  intros env img. apply (ReplicaPodFor_index replica_sample "pvc-1" 12);
    try reflexivity. lia.
Defined.

(** The hash of the attachments has sixteen hexadecimal digits, so it is
    never the empty string that stands for "no hash yet". *)
Theorem replicasHash_nonempty (ras : list ReplicaAttachment) :
  String.length (replicasHash ras) = 16 ∧ replicasHash ras ≠ "".
Proof.
  assert (String.length (replicasHash ras) = 16) as Hl.
  { unfold replicasHash. by rw length_hex_string length_take length_Sum256. }
  split; [done|]. intros E. by rw E in Hl.
Qed.
