(* ===== verification/AgentClient.v ===== *)
(** * internal/agent/http.go: the HTTP client of a node agent

    The methods of [agent.Client]; a client that is not the HTTP one answers
    for itself. *)
From S2P Require Import Prelude GoStrings GoNet GoJson K8s ApiTypes WireTypes Client.
From Stdlib Require Import Ascii.

(** [strings.TrimRight(s, "/")] *)
Fixpoint drop_slashes (s : string) : string :=
  match s with
  | String "/" s' => drop_slashes s'
  | _ => s
  end.
Definition TrimRightSlash (s : string) : string := string_rev (drop_slashes (string_rev s)).

Definition NewHTTPClient (baseURL : string) : AgentClient := HTTPAgent (TrimRightSlash baseURL).

(** A response body is decoded only when the caller wants one. *)
Definition decode_body (w : want) (path : string) (resp : http_response w)
    : result (decoded w) :=
  match w return http_response w → result (decoded w) with
  | WantNothing => λ _, Ok tt
  | _ => λ resp,
      match hr_Decoded resp with
      | Err e => Err (Wrapf "decode response for %s: %w" [path] e)
      | Ok v => Ok v
      end
  end resp.

Definition doJSON (baseURL path : string) (reqBody : json) (w : want)
    : M (result (decoded w)) :=
  r ← newRequest "POST" (baseURL +:+ path);
  match r with
  | Err e => Ret (Err (Wrapf "build request for %s: %w" [path] e))
  | Ok _ =>
      r ← httpDo w "POST" (baseURL +:+ path) (Marshal reqBody);
      match r with
      | Err e => Ret (Err (Wrapf "perform request for %s: %w" [path] e))
      | Ok resp =>
          if (hr_StatusCode resp <? 200)%Z || (hr_StatusCode resp >=? 300)%Z then
            Ret (Err (Errorf "request %s failed with status %d: %s"
                        [path; Itoa (hr_StatusCode resp); TrimSpace (hr_Body resp)]))
          else Ret (decode_body w path resp)
      end
  end.

Definition createReplica_json (req : CreateReplicaRequest) : json :=
  JObj ([("Path", JStr (crr_Path req)); ("Size", JStr (crr_Size req))]
        ++ omit_str "snapshotSource" (crr_SnapshotSource req)).
Definition path_json (key path : string) : json := JObj [(key, JStr path)].

Definition CreateReplica (a : AgentClient) (req : CreateReplicaRequest)
    : M (result CreateReplicaResponse) :=
  match a with
  | HTTPAgent baseURL =>
      doJSON baseURL "/replicas/create" (createReplica_json req) WantCreateReplica
  | OtherAgent id => ask (S := ctl) (AgentCreateReplica id req)
  end.
Definition DeleteReplica (a : AgentClient) (req : DeleteReplicaRequest) : M (result unit) :=
  match a with
  | HTTPAgent baseURL =>
      doJSON baseURL "/replicas/delete" (path_json "Path" (drr_Path req)) WantNothing
  | OtherAgent id => ask (S := ctl) (AgentDeleteReplica id req)
  end.
Definition DeleteSnapshot (a : AgentClient) (req : DeleteSnapshotRequest) : M (result unit) :=
  match a with
  | HTTPAgent baseURL =>
      doJSON baseURL "/snapshots/delete" (path_json "path" (dsr_Path req)) WantNothing
  | OtherAgent id => ask (S := ctl) (AgentDeleteSnapshot id req)
  end.
Definition GetReplica (a : AgentClient) (req : GetReplicaRequest)
    : M (result GetReplicaResponse) :=
  match a with
  | HTTPAgent baseURL =>
      doJSON baseURL "/replicas/get" (path_json "Path" (grr_Path req)) WantGetReplica
  | OtherAgent id => ask (S := ctl) (AgentGetReplica id req)
  end.

(** ** Lemmas *)

(** A call of an agent: what it asks for, and whether it succeeded. *)
Lemma doJSON_wp baseURL path body w :
  wp (doJSON baseURL path body w)
    (λ tr r, read_only tr ∧ (is_ok r = true → ∃ resp,
       tr = [ev (S:=ctl) (HttpNewRequest "POST" (baseURL +:+ path)) (Ok tt);
             ev (S:=ctl) (HttpDo w "POST" (baseURL +:+ path) (Marshal body)) (Ok resp)] ∧
       (200 ≤ hr_StatusCode resp < 300)%Z)).
Proof.
  unfold doJSON. ctl_steps; (split; [by repeat constructor|]); try done.
  intros Hok. destruct a. eexists. split; [done|].
  apply orb_false_iff in Heqb as [H1%Z.ltb_ge H2]. rw Z.geb_leb in H2.
  apply Z.leb_gt in H2. lia.
Qed.

(** The agent was asked for this replica and said it succeeded. *)
Definition provisioned (req : CreateReplicaRequest) (tr : trace) : Prop :=
  (∃ id resp, ev (S:=ctl) (AgentCreateReplica id req) (Ok resp) ∈ tr) ∨
  (∃ baseURL (resp : http_response WantCreateReplica),
     ev (S:=ctl) (HttpDo WantCreateReplica "POST" (baseURL +:+ "/replicas/create")
          (Marshal (createReplica_json req))) (Ok resp) ∈ tr ∧
     (200 ≤ hr_StatusCode resp < 300)%Z).

Lemma provisioned_app req tr1 tr2 :
  provisioned req tr1 ∨ provisioned req tr2 → provisioned req (tr1 ++ tr2).
Proof.
  intros [[(id & resp & H)|(u & resp & H & Hc)]|[(id & resp & H)|(u & resp & H & Hc)]];
    [left|right|left|right];
    first [exists id, resp|exists u, resp; split; [|done]];
    apply elem_of_app; [by left|by left|by right|by right].
Qed.

Lemma CreateReplica_wp a req :
  wp (CreateReplica a req)
    (λ tr r, read_only tr ∧ (is_ok r = true → provisioned req tr)).
Proof.
  destruct a as [u|id].
  - refine (wp_mono _ _ _ _ (doJSON_wp _ _ _ WantCreateReplica)). intros tr r [Hro H].
    split; [done|]. intros (resp & -> & Hc)%H. right. exists u, resp.
    split; [|done]. apply elem_of_cons. right. apply list_elem_of_here.
  - intros r. split; [by repeat constructor|]. destruct r as [resp|e]; [|done].
    intros _. left. exists id, resp. apply list_elem_of_here.
Qed.
Lemma DeleteSnapshot_read_only a req :
  wp (DeleteSnapshot a req) (λ tr _, read_only tr).
Proof.
  destruct a as [u|id].
  - refine (wp_mono _ _ _ _ (doJSON_wp _ _ _ WantNothing)). by intros tr r [].
  - intros r. by repeat constructor.
Qed.
