(* ===== verification/SidecarClient.v ===== *)
(** * internal/controller/sidecar_status.go and sidecar_validate.go *)
From S2P Require Import Prelude GoStrings GoNet GoJson K8s ApiTypes Network WireTypes Client.

(** ** GetStatus *)
Definition sidecarPort := "9810".
Definition statusURL (podIP : string) : string := HTTPURL "http" podIP sidecarPort "/status".

Definition http_GetStatus (podIP : string) : M (result SidecarStatus) :=
  _ ←? newRequest "GET" (statusURL podIP);
  resp ←? httpDo WantStatus "GET" (statusURL podIP) "";
  if negb (hr_StatusCode resp =? 200)%Z then
    Ret (Err (Errorf "sidecar status returned %d" [Itoa (hr_StatusCode resp)]))
  else Ret (hr_Decoded resp).

Definition GetStatus (c : SidecarStatusClient) (podIP : string) : M (result SidecarStatus) :=
  match c with
  | HTTPSidecarStatusClient => http_GetStatus podIP
  | OtherStatusClient id => ask (S := ctl) (StatusClientGet id podIP)
  end.

(** [statusClient := r.SidecarStatusClient; if nil, the HTTP client] *)
Definition status_client (c : option SidecarStatusClient) : SidecarStatusClient :=
  default HTTPSidecarStatusClient c.

(** ** Validation: the error, or nil *)
Definition reconfigureURL (podIP : string) : string :=
  HTTPURL "http" podIP sidecarPort "/reconfigure".

Definition validateEndpoint (endpoint : string) : option error :=
  if bool_decide (TrimSpace endpoint = "") then Some (Errorf "missing endpoint" [])
  else
    match SplitEndpoint endpoint with
    | Err e => Some (Wrapf "invalid endpoint: %w" [] e)
    | Ok (host, port) =>
        if bool_decide (TrimSpace host = "") then Some (Errorf "endpoint host is empty" [])
        else if bool_decide (TrimSpace port = "") then
          Some (Errorf "endpoint port is empty" [])
        else None
    end.

Definition validateEngineSidecarStatus (status : SidecarStatus) : option error :=
  if bool_decide (st_Role status ≠ "engine") then
    Some (Errorf "unexpected sidecar role %q" [st_Role status])
  else if bool_decide (TrimSpace (st_SubsystemNQN status) = "") then
    Some (Errorf "engine sidecar status missing subsystemNQN" [])
  else validateEndpoint (st_Endpoint status).

Definition validateReplicaSidecarStatus (status : SidecarStatus) : option error :=
  if bool_decide (st_Role status ≠ "replica") then
    Some (Errorf "unexpected sidecar role %q" [st_Role status])
  else if bool_decide (TrimSpace (st_ReplicaNQN status) = "") then
    Some (Errorf "replica sidecar status missing replicaNQN" [])
  else validateEndpoint (st_Endpoint status).

(** ** Lemmas *)

(** A usable endpoint: it splits into a host and a port that are not blank. *)
Definition endpoint_ok (endpoint : string) : Prop :=
  ∃ host port, SplitEndpoint endpoint = Ok (host, port) ∧
    TrimSpace host ≠ "" ∧ TrimSpace port ≠ "".

Lemma TrimSpace_empty : TrimSpace "" = "".
Proof. done. Qed.

Lemma validateEndpoint_spec endpoint :
  validateEndpoint endpoint = None ↔ TrimSpace endpoint ≠ "" ∧ endpoint_ok endpoint.
Proof.
  unfold validateEndpoint, endpoint_ok.
  destruct (bool_decide_reflect (TrimSpace endpoint = "")); [naive_solver|].
  destruct (SplitEndpoint endpoint) as [[host port]|e]; [|naive_solver].
  repeat case_bool_decide; naive_solver.
Qed.

Lemma validateReplica_spec status :
  validateReplicaSidecarStatus status = None ↔
  st_Role status = "replica" ∧ TrimSpace (st_ReplicaNQN status) ≠ "" ∧
  TrimSpace (st_Endpoint status) ≠ "" ∧ endpoint_ok (st_Endpoint status).
Proof.
  unfold validateReplicaSidecarStatus.
  repeat case_bool_decide; rw ?validateEndpoint_spec; naive_solver.
Qed.

Lemma validateEngine_spec status :
  validateEngineSidecarStatus status = None ↔
  st_Role status = "engine" ∧ TrimSpace (st_SubsystemNQN status) ≠ "" ∧
  TrimSpace (st_Endpoint status) ≠ "" ∧ endpoint_ok (st_Endpoint status).
Proof.
  unfold validateEngineSidecarStatus.
  repeat case_bool_decide; rw ?validateEndpoint_spec; naive_solver.
Qed.

(** The sidecar at this address has answered with this status. *)
Definition status_seen (podIP : string) (s : SidecarStatus) (tr : trace) : Prop :=
  (∃ id, ev (S:=ctl) (StatusClientGet id podIP) (Ok s) ∈ tr) ∨
  (∃ resp : http_response WantStatus,
     ev (S:=ctl) (HttpDo WantStatus "GET" (statusURL podIP) "") (Ok resp) ∈ tr ∧
     hr_StatusCode resp = 200%Z ∧ hr_Decoded resp = Ok s).

Lemma status_seen_app ip s tr1 tr2 :
  status_seen ip s tr1 ∨ status_seen ip s tr2 → status_seen ip s (tr1 ++ tr2).
Proof.
  intros [[(id & H)|(resp & H & Hc)]|[(id & H)|(resp & H & Hc)]];
    [left|right|left|right]; first [exists id|exists resp; split; [|done]];
    apply elem_of_app; [by left|by left|by right|by right].
Qed.

Lemma GetStatus_wp c podIP :
  wp (GetStatus c podIP)
    (λ tr r, read_only tr ∧ ∀ s, r = Ok s → status_seen podIP s tr).
Proof.
  destruct c as [|id]; cbn [GetStatus].
  - unfold http_GetStatus. ctl_steps; (split; [by repeat constructor|]); try done.
    intros s Hs. right. eexists. split; [apply elem_of_cons; right; apply list_elem_of_here|].
    split; [|done]. apply negb_false_iff in Heqb. lia.
  - intros r. split; [by repeat constructor|]. intros s ->. left. exists id.
    apply list_elem_of_here.
Qed.
