(* ===== verification/VolumeNodes.v ===== *)
(** * internal/controller/volume_nodes.go: choosing nodes and replica counts *)
From S2P Require Import Prelude GoStrings K8s ApiTypes WireTypes Client MemStore.

Definition controlPlaneLabel := "node-role.kubernetes.io/control-plane".
Definition isCP (node : Node) : bool :=
  bool_decide (is_Some (om_Labels (node_meta node) !! controlPlaneLabel)).
Definition node_Name (node : Node) : string := om_Name (node_meta node).
Definition listNodes : M (result (list Node)) := kList KNode None ∅.

(** The first worker that is not in use, else the first worker. *)
Definition unused_of (used : gset string) (nodes : list Node) : string :=
  match filter (λ n, isCP n = false ∧ node_Name n ∉ used) nodes with
  | n :: _ => node_Name n
  | [] =>
      match filter (λ n, isCP n = false) nodes with
      | n :: _ => node_Name n
      | [] => ""
      end
  end.

Definition pickUnusedNode (used : gset string) : M string :=
  r ← listNodes;
  match r with
  | Err _ => Ret ""
  | Ok nodes => Ret (unused_of used nodes)
  end.

Definition pickAnyWorkerNode : M (result string) :=
  nodes ←? listNodes;
  match filter (λ n, isCP n = false) nodes with
  | n :: _ => Ret (Ok (node_Name n))
  | [] =>
      match nodes with
      | n :: _ => Ret (Ok (node_Name n))
      | [] => Ret (Err (Errorf "no worker nodes available" []))
      end
  end.

(** The automatic count: workers, else all nodes, at least one. *)
Definition auto_count (nodes : list Node) : Z :=
  let count := length (filter (λ n, isCP n = false) nodes) in
  let count := if decide (count = 0 ∧ 0 < length nodes) then length nodes else count in
  let count := if decide (count < 1) then 1 else count in
  Z.of_nat count.

Definition replicasForVolume (volume : Volume) : M (result Z) :=
  match ParseReplicaCount (vs_ReplicaCount (vol_spec volume)) with
  | Err e => Ret (Err e)
  | Ok (count, auto) =>
      if negb auto then Ret (Ok count) else
      nodes ←? listNodes;
      Ret (Ok (auto_count nodes))
  end.

Definition worker_names (nodes : list Node) : list string :=
  match node_Name <$> filter (λ n, isCP n = false) nodes with
  | [] => node_Name <$> nodes
  | workers => workers
  end.

(** [workers[:n]]; a negative [n] is out of range and panics, which no caller
    reaches since counts are positive. *)
Definition pickWorkerNodes (n : Z) : M (result (list string)) :=
  nodes ←? listNodes;
  let workers := SortStrings (worker_names nodes) in
  let n := if (n >? Z.of_nat (length workers))%Z then Z.of_nat (length workers) else n in
  Ret (Ok (take (Z.to_nat n) workers)).

(** ** Lemmas *)
Lemma unused_of_fresh used nodes :
  (∃ n, n ∈ nodes ∧ isCP n = false ∧ (node_Name n ∉ used)) →
  (unused_of used nodes ∉ used) ∧
  ∃ n, n ∈ nodes ∧ isCP n = false ∧ node_Name n = unused_of used nodes.
Proof.
  intros (n & Hn & Hw & Hu). unfold unused_of.
  destruct (filter (λ n, isCP n = false ∧ node_Name n ∉ used) nodes) as [|m ms] eqn:E.
  - assert (n ∈ filter (λ n, isCP n = false ∧ node_Name n ∉ used) nodes) as Hin
      by (apply list_elem_of_filter; auto).
    rw E in Hin. by apply not_elem_of_nil in Hin.
  - assert (m ∈ filter (λ n, isCP n = false ∧ node_Name n ∉ used) nodes) as Hin
      by (rw E; apply list_elem_of_here).
    apply list_elem_of_filter in Hin as [[??] ?]. eauto.
Qed.

Lemma unused_of_worker used nodes :
  (∃ n, n ∈ nodes ∧ isCP n = false) →
  ∃ n, n ∈ nodes ∧ isCP n = false ∧ node_Name n = unused_of used nodes.
Proof.
  intros (n & Hn & Hw). unfold unused_of.
  destruct (filter (λ n, isCP n = false ∧ node_Name n ∉ used) nodes) as [|m ms] eqn:E.
  - destruct (filter (λ n, isCP n = false) nodes) as [|m ms] eqn:E'.
    + assert (n ∈ filter (λ n, isCP n = false) nodes) as Hin
        by (apply list_elem_of_filter; auto).
      rw E' in Hin. by apply not_elem_of_nil in Hin.
    + assert (m ∈ filter (λ n, isCP n = false) nodes) as Hin
        by (rw E'; apply list_elem_of_here).
      apply list_elem_of_filter in Hin as [??]. eauto.
  - assert (m ∈ filter (λ n, isCP n = false ∧ node_Name n ∉ used) nodes) as Hin
      by (rw E; apply list_elem_of_here).
    apply list_elem_of_filter in Hin as [[??] ?]. eauto.
Qed.

Lemma auto_count_pos nodes : (1 ≤ auto_count nodes)%Z.
Proof. unfold auto_count. case_decide; case_decide; lia. Qed.

Lemma listNodes_wp Q :
  (∀ r, Q [ev (S:=ctl) (List KNode None ∅) r] r) → wp listNodes Q.
Proof. done. Qed.

(** The desired count is read without writing anything, and is positive. *)
Lemma replicasForVolume_wp volume :
  wp (replicasForVolume volume)
     (λ tr r, read_only tr ∧ ∀ n, r = Ok n → (1 ≤ n)%Z).
Proof.
  unfold replicasForVolume.
  destruct (ParseReplicaCount _) as [[n auto]|e] eqn:E.
  - apply ParseReplicaCount_ok in E. destruct auto; cbn [negb].
    + wp_step. apply listNodes_wp. intros [nodes|e].
      * wp_step. split; [by repeat constructor|]. intros n' [= <-].
        apply auto_count_pos.
      * split; [by repeat constructor|done].
    + wp_step. split; [constructor|]. intros n' [= <-].
      destruct E as [[? _]|(_ & ? & _)]; [done|lia].
  - wp_step. split; [constructor|done].
Qed.

Lemma pickUnusedNode_wp used :
  wp (pickUnusedNode used)
     (λ tr r, read_only tr ∧
        match lists KNode tr with
        | nodes :: _ => r = unused_of used nodes
        | [] => r = ""
        end).
Proof.
  unfold pickUnusedNode. wp_step. apply listNodes_wp. intros [nodes|e]; wp_step;
    by split; [repeat constructor|].
Qed.

Lemma pickWorkerNodes_wp n :
  wp (pickWorkerNodes n)
     (λ tr r, read_only tr ∧
        ∀ ws, r = Ok ws → ∃ nodes,
          lists KNode tr = [nodes] ∧
          ws = take (Z.to_nat (Z.min n (Z.of_nat (length (worker_names nodes)))))
                 (SortStrings (worker_names nodes))).
Proof.
  unfold pickWorkerNodes. wp_step. apply listNodes_wp. intros [nodes|e].
  - wp_step. split; [by repeat constructor|]. intros ws [= <-]. exists nodes.
    split; [done|]. rw length_SortStrings. f_equal.
    destruct (Z.gtb_spec n (Z.of_nat (length (worker_names nodes)))); lia.
  - split; [by repeat constructor|done].
Qed.

(** ** Properties *)

(** The initial placement is the [n] least worker names in order (all of
    them when there are fewer), chosen among the workers, or among all nodes
    when there is no worker. *)
Theorem pickWorkerNodes_least (n : Z) (tr : trace) (ws : list string) :
  exec (pickWorkerNodes n) tr (Ok ws) →
  ∃ nodes rest,
    lists KNode tr = [nodes] ∧
    ws ++ rest ≡ₚ worker_names nodes ∧
    StronglySorted String.le (ws ++ rest) ∧
    Z.of_nat (length ws) = Z.max 0 (Z.min n (Z.of_nat (length (worker_names nodes)))).
Proof.
  intros Hex. pose proof (exec_wp _ _ _ _ Hex (pickWorkerNodes_wp n)) as [_ H].
  destruct (H ws eq_refl) as (nodes & Hl & ->).
  set (k := Z.to_nat _). exists nodes, (drop k (SortStrings (worker_names nodes))).
  rw take_drop. split_and!; [done|apply SortStrings_perm|apply SortStrings_sorted|].
  rw length_take length_SortStrings. lia.
Qed.

(** A cluster with two workers and a control-plane node. *)
Definition small_cluster : world :=
  put KNode (labelled_node "w2" false) (put KNode (labelled_node "cp" true)
    (put KNode (labelled_node "w1" false) empty_world)).

Lemma pickWorkerNodes_least_witness :
  ∃ nodes rest,
    lists KNode (run mem_handler (pickWorkerNodes 1) small_cluster).1.1 = [nodes] ∧
    ["w1"] ++ rest ≡ₚ worker_names nodes ∧
    StronglySorted String.le (["w1"] ++ rest) ∧
    Z.of_nat (length ["w1"]) =
      Z.max 0 (Z.min 1 (Z.of_nat (length (worker_names nodes)))).
Proof.
  apply (pickWorkerNodes_least 1 _ ["w1"]).
  pose proof (run_exec mem_handler (pickWorkerNodes 1) small_cluster) as H.
  replace (Ok ["w1"]) with (run mem_handler (pickWorkerNodes 1) small_cluster).1.2
    by (vm_compute; reflexivity).
  exact H.
Defined.

(** A new replica goes to a worker not in use whenever there is one; when
    all workers are in use it still goes to a worker. *)
Theorem pickUnusedNode_spreads (used : gset string) (tr : trace) (r : string)
    (nodes : list Node) :
  exec (pickUnusedNode used) tr r → lists KNode tr = [nodes] →
  ((∃ n, n ∈ nodes ∧ isCP n = false ∧ (node_Name n ∉ used)) → r ∉ used) ∧
  ((∃ n, n ∈ nodes ∧ isCP n = false) →
   ∃ n, n ∈ nodes ∧ isCP n = false ∧ node_Name n = r).
Proof.
  intros Hex Hl. pose proof (exec_wp _ _ _ _ Hex (pickUnusedNode_wp used)) as [_ H].
  rw Hl in H. subst r. split.
  - intros Hn. by destruct (unused_of_fresh used nodes Hn).
  - apply unused_of_worker.
Qed.

Lemma pickUnusedNode_spreads_witness :
  let nodes := [labelled_node "w1" false; labelled_node "w2" false] in
  ((∃ n, n ∈ nodes ∧ isCP n = false ∧ (node_Name n ∉ ({["w1"]} : gset string))) →
   "w2" ∉ ({["w1"]} : gset string)) ∧
  ((∃ n, n ∈ nodes ∧ isCP n = false) →
   ∃ n, n ∈ nodes ∧ isCP n = false ∧ node_Name n = "w2").
Proof.
  intros nodes.
  apply (pickUnusedNode_spreads {["w1"]}
           [ev (S:=ctl) (List KNode None ∅) (Ok nodes)] "w2" nodes).
  - eexists _, _. split; [reflexivity|]. vm_compute. split; reflexivity.
  - reflexivity.
Defined.
