(* ===== verification/VolumeScale.v ===== *)
(** * Children of a volume: creating and scaling them

    [createIfMissing] and [ensureChildren] of
    internal/controller/volume_controller.go, and volume_scale.go. *)
From S2P Require Import Prelude GoStrings K8s ApiTypes Names WireTypes Client MemStore Status VolumeNodes.

Definition GroupVersion := "storage.krea.to/v1alpha1".

Definition createIfMissing (k : kind) (o : obj k) : M (result unit) :=
  r ← kCreate k o;
  match r with
  | Err e => if IsAlreadyExists e then Ret (Ok tt) else Ret (Err e)
  | Ok _ => Ret (Ok tt)
  end.

Definition volume_owner (volume : Volume) : OwnerReference :=
  mkOwner GroupVersion "Volume" (vol_Name volume) (om_UID (vol_meta volume)) None None.

(** The replica CR of a volume with the given index, placed on [node]. *)
Definition replica_for (volume : Volume) (i : Z) (node : string) : Replica :=
  let spec := vol_spec volume in
  mkReplica
    (set_OwnerReferences [volume_owner volume]
       (newMeta (ReplicaName (vol_Name volume) i) (vol_Namespace volume)))
    (mkReplicaSpec (vol_Name volume) node
       (if bool_decide (node = vs_NodeID spec) then ReplicaTypeLocal
        else ReplicaTypeRemote)
       (vs_Size spec) (DataPath (vol_Name volume))
       (default "" (vs_SnapshotSource spec)))
    zeroReplicaStatus.

(** A volume restored from a snapshot keeps every replica on its own node. *)
Definition placed_node (volume : Volume) (node : string) : string :=
  match vs_SnapshotSource (vol_spec volume) with
  | Some _ => vs_NodeID (vol_spec volume)
  | None => node
  end.

Definition attachment_for (volume : Volume) (i : Z) (node : string) : ReplicaAttachment :=
  newAttachment (ReplicaName (vol_Name volume) i) node.

(** ** ensureChildren *)
Fixpoint create_replicas (volume : Volume) (i : Z) (nodes : list string)
    (replicas : list ReplicaAttachment) : M (result (list ReplicaAttachment)) :=
  match nodes with
  | [] => Ret (Ok replicas)
  | node :: nodes' =>
      let node := placed_node volume node in
      _ ←? createIfMissing KReplica (replica_for volume i node);
      create_replicas volume (i + 1) nodes' (replicas ++ [attachment_for volume i node])
  end.

Definition engine_for (volume : Volume) (replicas : list ReplicaAttachment) : Engine :=
  mkEngine
    (set_OwnerReferences [volume_owner volume]
       (newMeta (EngineName (vol_Name volume)) (vol_Namespace volume)))
    (mkEngineSpec (vol_Name volume) (vs_NodeID (vol_spec volume)) replicas)
    zeroEngineStatus.

Definition ensureChildren (volume : Volume) (nodes : list string) : M (result unit) :=
  replicas ←? create_replicas volume 0 nodes [];
  createIfMissing KEngine (engine_for volume replicas).

(** ** scaleUp *)

(** [for idx := 0; idx < bound; idx++]: the first index with that name. *)
Fixpoint find_index (volumeName name : string) (fuel : nat) (idx : Z) : option Z :=
  match fuel with
  | 0 => None
  | S fuel' =>
      if bool_decide (name = ReplicaName volumeName idx) then Some idx
      else find_index volumeName name fuel' (idx + 1)
  end.

Definition used_nodes (replicas : list ReplicaAttachment) : gset string :=
  list_to_set (ra_NodeID <$> replicas).
(** Computed lazily: an index is looked for only below [desired+10]. *)
Definition used_indices (volumeName : string) (desired : Z)
    (replicas : list ReplicaAttachment) : gset Z :=
  list_to_set (omap (λ ra, find_index volumeName (ra_Name ra)
                             (Z.to_nat (wrap64 (desired + 10))) 0) replicas).

(** [for usedIndices[nextIndex] { nextIndex++ }]: a set of [n] indices is
    passed after at most [n] increments. *)
Fixpoint next_free (fuel : nat) (used : gset Z) (next : Z) : Z :=
  match fuel with
  | 0 => next
  | S fuel' => if decide (next ∈ used) then next_free fuel' used (next + 1) else next
  end.
Definition next_unused (used : gset Z) (next : Z) : Z :=
  next_free (S (size used)) used next.

Fixpoint scale_up_loop (volume : Volume) (n : nat) (usedNodes : gset string)
    (usedIndices : gset Z) (nextIndex : Z) (replicas : list ReplicaAttachment)
    : M (result (list ReplicaAttachment)) :=
  match n with
  | 0 => Ret (Ok replicas)
  | S n' =>
      let nextIndex := next_unused usedIndices nextIndex in
      node ← pickUnusedNode usedNodes;
      let node := placed_node volume node in
      _ ←? createIfMissing KReplica (replica_for volume nextIndex node);
      scale_up_loop volume n' ({[node]} ∪ usedNodes) ({[nextIndex]} ∪ usedIndices)
        nextIndex (replicas ++ [attachment_for volume nextIndex node])
  end.

Definition scaling_msg (current desired : Z) : string :=
  "scaling from " +:+ Itoa current +:+ " to " +:+ Itoa desired +:+ " replicas".

(** [volume.Status.Phase = Degraded] with the Scheduled condition, written out. *)
Definition mark_scaling (volume : Volume) (reason : string) (current desired : Z)
    : M (result unit) :=
  let volume := vol_set_Phase VolumePhaseDegraded volume in
  conds ← SetTrue (vst_Conditions (vol_status volume)) VolumeConditionScheduled reason
            (scaling_msg current desired);
  _ ←? kStatusUpdate KVolume (vol_set_Conditions conds volume);
  Ret (Ok tt).

Definition scaleUp (volume : Volume) (engine : Engine) (current desired : Z)
    : M (result unit) :=
  let replicas := eng_Replicas engine in
  replicas ←? scale_up_loop volume (Z.to_nat (desired - current))
    (used_nodes replicas) (used_indices (vol_Name volume) desired replicas) 0 replicas;
  _ ←? kUpdate KEngine (eng_set_Replicas replicas engine);
  mark_scaling volume "ScalingUp" current desired.

(** ** scaleDown *)
Fixpoint scale_down_loop (volume : Volume) (n : nat) (i : Z) : M (result unit) :=
  match n with
  | 0 => Ret (Ok tt)
  | S n' =>
      r ← kDelete KReplica (mkName (vol_Namespace volume) (ReplicaName (vol_Name volume) i));
      match r with
      | Err e => if IsNotFound e then scale_down_loop volume n' (i + 1) else Ret (Err e)
      | Ok _ => scale_down_loop volume n' (i + 1)
      end
  end.

Definition scaleDown (volume : Volume) (engine : Engine) (current desired : Z)
    : M (result unit) :=
  _ ←? scale_down_loop volume (Z.to_nat (current - desired)) desired;
  _ ←? kUpdate KEngine (eng_set_Replicas (take (Z.to_nat desired) (eng_Replicas engine)) engine);
  mark_scaling volume "ScalingDown" current desired.

Definition ensureScale (volume : Volume) (engine : Engine) : M (result unit) :=
  desired ←? replicasForVolume volume;
  let current := Z.of_nat (length (eng_Replicas engine)) in
  if (desired =? current)%Z then Ret (Ok tt)
  else if (desired >? current)%Z then scaleUp volume engine current desired
  else scaleDown volume engine current desired.

(** ** Lemmas on the pure parts *)
Lemma find_index_Some v name fuel idx k :
  find_index v name fuel idx = Some k →
  name = ReplicaName v k ∧ (idx ≤ k < idx + Z.of_nat fuel)%Z.
Proof.
  revert idx. induction fuel as [|fuel IH]; intros idx; simpl; [done|].
  destruct (bool_decide_reflect (name = ReplicaName v idx)) as [E|E].
  - intros [= <-]. split; [done|lia].
  - intros [? ?]%IH. split; [done|lia].
Qed.

Lemma find_index_complete v fuel idx k :
  (idx ≤ k < idx + Z.of_nat fuel)%Z →
  find_index v (ReplicaName v k) fuel idx = Some k.
Proof.
  revert idx. induction fuel as [|fuel IH]; intros idx Hk; simpl; [lia|].
  destruct (bool_decide_reflect (ReplicaName v k = ReplicaName v idx)) as [E|E].
  - by apply (inj (ReplicaName v)) in E as ->.
  - apply IH. assert (k ≠ idx) by congruence. lia.
Qed.

(** The search for a free index ends at one, having passed only used ones. *)
Lemma next_free_spec fuel used next :
  size (filter (λ j, (next ≤ j)%Z) used) < fuel →
  (next_free fuel used next ∉ used) ∧ (next ≤ next_free fuel used next)%Z ∧
  ∀ j, (next ≤ j < next_free fuel used next)%Z → j ∈ used.
Proof.
  revert next. induction fuel as [|fuel IH]; intros next Hsize; simpl; [lia|].
  case_decide as Hn; [|split_and!; [done|lia|lia]].
  destruct (IH (next + 1)%Z) as (Hfree & Hle & Hbelow).
  - assert (filter (λ j, (next + 1 ≤ j)%Z) used ⊂ filter (λ j, (next ≤ j)%Z) used)
      as Hsub%subset_size; [|lia].
    split; [intros j; rw !elem_of_filter; intros [??]; split; [lia|done]|].
    intros H. specialize (H next). rw !elem_of_filter in H.
    destruct H as [? _]; [split; [lia|done]|lia].
  - split_and!; [done|lia|]. intros j Hj.
    destruct (decide (j = next)) as [->|]; [done|]. apply Hbelow. lia.
Qed.

Lemma next_unused_spec used next :
  (next_unused used next ∉ used) ∧ (next ≤ next_unused used next)%Z ∧
  ∀ j, (next ≤ j < next_unused used next)%Z → j ∈ used.
Proof.
  apply next_free_spec. apply Nat.lt_succ_r, subseteq_size. set_solver.
Qed.

(** A set that contains an initial segment of the naturals has its size. *)
Lemma initial_segment_size (used : gset Z) (k : Z) :
  (0 ≤ k)%Z → (∀ j, (0 ≤ j < k)%Z → j ∈ used) → (k ≤ Z.of_nat (size used))%Z.
Proof.
  intros Hk Hin.
  assert (size (list_to_set (seqZ 0 k) : gset Z) ≤ size used) as Hle.
  { apply subseteq_size. intros j. rw elem_of_list_to_set elem_of_seqZ.
    intros. apply Hin. lia. }
  rw size_list_to_set in Hle; [|apply NoDup_seqZ]. rw length_seqZ in Hle. lia.
Qed.

(** ** Lemmas on the operations *)
Lemma createIfMissing_wp k o Q :
  (∀ r, Q [ev (S:=ctl) (Create k o) r] (Ok tt)) →
  (∀ r e, Q [ev (S:=ctl) (Create k o) r] (Err e)) →
  wp (createIfMissing k o) Q.
Proof. intros HQ HE. unfold createIfMissing. ctl_steps; [apply HQ|apply HQ|apply HE]. Qed.

(** It asks once; what it asked for is there, or the error is reported. *)
Lemma createIfMissing_answer k o :
  wp (createIfMissing k o) (λ tr r, ∃ a, tr = [ev (S:=ctl) (Create k o) a] ∧
    match r with Ok _ => existing k tr = [o] | Err e => a = Err e ∧ IsAlreadyExists e = false end).
Proof.
  unfold createIfMissing. ctl_step. ctl_step. destruct r as [o'|e].
  - ctl_step. eexists. split; [done|]. by apply existing_self.
  - destruct (IsAlreadyExists e) eqn:He; ctl_step; (eexists; split; [done|]); [by apply existing_again|done].
Qed.

(** The replicas created for [nodes] from index [i] on, and their attachments. *)
Definition replicas_from (volume : Volume) (i : Z) (nodes : list string) : list Replica :=
  imap (λ d n, replica_for volume (i + Z.of_nat d) (placed_node volume n)) nodes.
Definition attachments_from (volume : Volume) (i : Z) (nodes : list string)
    : list ReplicaAttachment :=
  imap (λ d n, attachment_for volume (i + Z.of_nat d) (placed_node volume n)) nodes.

Lemma replicas_from_cons volume i n nodes :
  replicas_from volume i (n :: nodes) =
  replica_for volume i (placed_node volume n) :: replicas_from volume (i + 1) nodes.
Proof.
  unfold replicas_from. rw imap_cons Z.add_0_r. f_equal.
  apply imap_ext. intros d x _. simpl. f_equal. lia.
Qed.
Lemma attachments_from_cons volume i n nodes :
  attachments_from volume i (n :: nodes) =
  attachment_for volume i (placed_node volume n) :: attachments_from volume (i + 1) nodes.
Proof.
  unfold attachments_from. rw imap_cons Z.add_0_r. f_equal.
  apply imap_ext. intros d x _. simpl. f_equal. lia.
Qed.

Lemma attachments_from_names volume i nodes :
  ra_Name <$> attachments_from volume i nodes =
  ReplicaName (vol_Name volume) <$> seqZ i (Z.of_nat (length nodes)).
Proof.
  revert i. induction nodes as [|n nodes IH]; intros i; [done|].
  rw attachments_from_cons fmap_cons IH.
  rw (seqZ_cons i (Z.of_nat (length (n :: nodes)))); [|simpl; lia].
  rw fmap_cons. f_equal. f_equal. unfold Z.succ, Z.pred. f_equal. simpl. lia.
Qed.

Lemma attachments_from_NoDup volume i nodes :
  NoDup (ra_Name <$> attachments_from volume i nodes).
Proof. rw attachments_from_names. apply NoDup_fmap; [apply _|apply NoDup_seqZ]. Qed.

Lemma create_replicas_wp volume i nodes ras :
  wp (create_replicas volume i nodes ras)
    (λ tr r, creates KEngine tr = [] ∧
       creates KReplica tr `prefix_of` replicas_from volume i nodes ∧
       ∀ ras', r = Ok ras' →
         creates KReplica tr = replicas_from volume i nodes ∧
         ras' = ras ++ attachments_from volume i nodes).
Proof.
  revert i ras. induction nodes as [|n nodes IH]; intros i ras; cbn [create_replicas].
  - wp_step. split_and!; [done..|]. intros ras' [= <-].
    split; [done|by rw app_nil_r].
  - wp_step. apply createIfMissing_wp; [|intros r e].
    + intros r. eapply wp_mono, IH. intros tr2 res (HE & HP & HR).
      rw !creates_app HE replicas_from_cons attachments_from_cons. cbn.
      split_and!; [done|by apply prefix_cons|].
      intros ras' (-> & ->)%HR. split; [done|]. by rw -app_assoc.
    + rw replicas_from_cons. cbn. split_and!; [done| |done].
      by apply prefix_cons, prefix_nil.
Qed.

(** The creations stand, or the last one was refused with the error. *)
Definition refused {A} (tr : trace) (r : result A) : Prop :=
  ∀ e, r = Err e → ∃ tr1 k o, tr = tr1 ++ [ev (S:=ctl) (Create k o) (Err e)] ∧ IsAlreadyExists e = false.
Lemma create_replicas_made volume i nodes ras :
  wp (create_replicas volume i nodes ras) (λ tr r,
    (is_ok r = true → existing KReplica tr = replicas_from volume i nodes) ∧ refused tr r).
Proof.
  revert i ras. induction nodes as [|n nodes IH]; intros i ras; cbn [create_replicas]; [by wp_step|].
  wp_step. eapply wp_mono, createIfMissing_answer. intros tr1 [[]|e] (a & -> & Ha).
  - eapply wp_mono, IH. intros tr2 r [Hok Herr]. split.
    + intros Hr. rw existing_app Ha replicas_from_cons (Hok Hr). done.
    + intros e He. destruct (Herr e He) as (tr3 & k & o & -> & Hk). by exists (ev (S:=ctl) (Create KReplica _) a :: tr3), k, o.
  - destruct Ha as [-> He]. split; [done|]. intros e' [= <-]. by eexists [], _, _.
Qed.

(** *** The state of the loop of [scaleUp] *)
Record scale_inv (volume : Volume) (bound : Z) (S : gset Z) (next : Z)
    (ras : list ReplicaAttachment) : Prop := mk_scale_inv {
  si_names : NoDup (ra_Name <$> ras);
  si_known : ∀ ra j, ra ∈ ras → (0 ≤ j < bound)%Z →
             ra_Name ra = ReplicaName (vol_Name volume) j → j ∈ S;
  si_below : (0 ≤ next)%Z ∧ ∀ j, (0 ≤ j < next)%Z → j ∈ S;
  si_size : size S ≤ length ras }.

Lemma scale_inv_init volume desired ras :
  (desired + 10 ≤ max_int64)%Z → (0 ≤ desired)%Z → NoDup (ra_Name <$> ras) →
  scale_inv volume (desired + 10) (used_indices (vol_Name volume) desired ras) 0 ras.
Proof.
  intros Hmax Hd Hnd. assert (wrap64 (desired + 10) = desired + 10)%Z as Hw.
  { apply wrap64_id. unfold in_int64, min_int64. unfold max_int64 in *. lia. }
  unfold used_indices. rw Hw. split; [done| |split; [lia|intros; lia]|].
  - intros ra j Hra Hj Hname. apply elem_of_list_to_set, list_elem_of_omap.
    exists ra. split; [done|]. rw Hname. apply find_index_complete. lia.
  - etrans; [apply size_list_to_set_le|apply length_omap_le].
Qed.

Lemma scale_inv_step volume bound S next ras node :
  scale_inv volume bound S next ras → (Z.of_nat (length ras) < bound)%Z →
  let k := next_unused S next in
  (0 ≤ k)%Z ∧
  scale_inv volume bound ({[k]} ∪ S) k (ras ++ [attachment_for volume k node]).
Proof.
  intros [Hnd Hkn [H0 Hbelow] Hsize] Hlen k.
  destruct (next_unused_spec S next) as (Hfree & Hle & Hskip). fold k in Hfree, Hle, Hskip.
  assert (∀ j, (0 ≤ j < k)%Z → j ∈ S) as Hseg.
  { intros j Hj. destruct (decide (j < next)%Z); [apply Hbelow|apply Hskip]; lia. }
  pose proof (initial_segment_size S k ltac:(lia) Hseg). split; [lia|]. split.
  - rw fmap_app. apply NoDup_app. split_and!; [done| |apply NoDup_singleton].
    intros x (ra & -> & Hra)%list_elem_of_fmap Hx.
    apply list_elem_of_singleton in Hx. apply Hfree, (Hkn ra k); [done|lia|done].
  - intros ra j [Hra|Hra]%elem_of_app Hj Hname.
    + apply elem_of_union_r. by apply (Hkn ra).
    + apply list_elem_of_singleton in Hra as ->. simpl in Hname.
      apply (inj (ReplicaName (vol_Name volume))) in Hname as <-. set_solver.
  - split; [lia|]. intros j Hj. apply elem_of_union_r, Hseg. lia.
  - rw length_app /=. rw size_union; [|set_solver]. rw size_singleton. lia.
Qed.

(** What [scaleUp] adds: attachments of replicas that were made, or were there
    already. *)
Definition added_ok (volume : Volume) (created : list Replica) (a : ReplicaAttachment)
    : Prop :=
  ∃ j, (0 ≤ j)%Z ∧ a = attachment_for volume j (ra_NodeID a) ∧
       replica_for volume j (ra_NodeID a) ∈ created.

Lemma added_ok_mono volume c1 c2 a :
  c1 ⊆ c2 → added_ok volume c1 a → added_ok volume c2 a.
Proof. intros Hsub (j & ? & ? & ?). exists j. auto. Qed.

Lemma read_only_updates k tr : read_only tr → updates k tr = [].
Proof. intros (H & _)%read_only_writes. apply H. Qed.
Lemma read_only_creates k tr : read_only tr → creates k tr = [].
Proof. intros (_ & _ & H & _)%read_only_writes. apply H. Qed.

Lemma scale_up_loop_wp volume bound n nodes S next ras :
  scale_inv volume bound S next ras →
  (Z.of_nat (length ras + n) ≤ bound)%Z →
  wp (scale_up_loop volume n nodes S next ras)
    (λ tr r, updates KEngine tr = [] ∧
       ∀ ras', r = Ok ras' → ∃ added,
         ras' = ras ++ added ∧ length added = n ∧ NoDup (ra_Name <$> ras') ∧
         Forall (added_ok volume (existing KReplica tr)) added).
Proof.
  revert nodes S next ras. induction n as [|n IH]; intros nodes S next ras Hinv Hlen;
    cbn [scale_up_loop].
  - ctl_step. split; [done|]. intros ras' [= <-]. exists []. rw app_nil_r.
    split_and!; [done..|apply Hinv|constructor].
  - ctl_step. eapply wp_mono, pickUnusedNode_wp. intros tr1 node0 [Hro _].
    set (node := placed_node volume node0).
    destruct (scale_inv_step _ _ _ _ _ node Hinv) as [H0 Hinv']; [lia|].
    ctl_step. eapply wp_mono, createIfMissing_answer. intros tr3 [[]|e] (answer & -> & Ha).
    + eapply wp_mono; [|apply (IH _ _ _ _ Hinv'); rw length_app /=; lia].
      intros tr2 res [HU HR]. rw !existing_app Ha. trace_simpl. rw HU (read_only_updates _ _ Hro).
      split; [done|]. intros ras' (added & -> & Hl & Hnd & Hadd)%HR.
      exists (attachment_for volume (next_unused S next) node :: added).
      rw -app_assoc in Hnd. rw -app_assoc. split_and!; [done|simpl; lia|done|].
      constructor.
      * exists (next_unused S next). split_and!; [done..|]. set_solver.
      * eapply Forall_impl; [exact Hadd|]. intros a. apply added_ok_mono. set_solver.
    + trace_simpl. rw (read_only_updates _ _ Hro). done.
Qed.

Lemma mark_scaling_wp volume reason current desired :
  wp (mark_scaling volume reason current desired)
    (λ tr r, updates KEngine tr = [] ∧ creates KReplica tr = [] ∧ deletes KReplica tr = [] ∧
       ∃ v, status_updates KVolume tr = [v] ∧
            vst_Phase (vol_status v) = VolumePhaseDegraded).
Proof.
  unfold mark_scaling. ctl_step. apply wp_set. intros now.
  ctl_steps; (split_and!; [done..|]); eexists; done.
Qed.

(** When [mark_scaling] succeeds its status update was answered by the server. *)
Lemma mark_scaling_saved volume reason current desired :
  wp (mark_scaling volume reason current desired) (λ tr r, r = Ok tt → ∃ now v v',
    tr = [ev (S:=ctl) TimeNow now; ev (S:=ctl) (StatusUpdate KVolume v) (Ok v')] ∧
    vst_Phase (vol_status v) = VolumePhaseDegraded).
Proof. unfold mark_scaling. ctl_step. apply wp_set. intros now.
  ctl_steps; [|done]. intros _. eexists now, _, _. done.
Qed.

Lemma scale_down_loop_wp volume n i :
  let all := (λ j, mkName (vol_Namespace volume) (ReplicaName (vol_Name volume) j))
               <$> seqZ i (Z.of_nat n) in
  wp (scale_down_loop volume n i)
    (λ tr r, updates KEngine tr = [] ∧ deletes KReplica tr `prefix_of` all ∧
             (r = Ok tt → deletes KReplica tr = all)).
Proof.
  revert i. induction n as [|n IH]; intros i; cbn [scale_down_loop].
  - ctl_step. done.
  - cbv zeta. rw (seqZ_cons i (Z.of_nat (S n))); [|lia]. rw fmap_cons.
    replace (Z.pred (Z.of_nat (S n))) with (Z.of_nat n) by lia.
    replace (Z.succ i) with (i + 1)%Z by lia.
    ctl_steps.
    + eapply wp_mono, IH. intros tr res (HU & HP & HR). trace_simpl.
      split_and!; [done|by apply prefix_cons|]. intros ->. by rw HR.
    + eapply wp_mono, IH. intros tr res (HU & HP & HR). trace_simpl.
      split_and!; [done|by apply prefix_cons|]. intros ->. by rw HR.
    + split_and!; [done| |done]. apply prefix_cons, prefix_nil.
Qed.

Lemma ensureChildren_wp volume nodes :
  wp (ensureChildren volume nodes)
    (λ tr r, creates KReplica tr `prefix_of` replicas_from volume 0 nodes ∧
       (creates KEngine tr ≠ [] →
          creates KReplica tr = replicas_from volume 0 nodes ∧
          creates KEngine tr = [engine_for volume (attachments_from volume 0 nodes)]) ∧
       (r = Ok tt → creates KEngine tr ≠ [])).
Proof.
  unfold ensureChildren. ctl_step. eapply wp_mono, create_replicas_wp.
  intros tr1 [ras|e] (HE & HP & HR); [|by rw HE].
  destruct (HR ras eq_refl) as [Hc ->].
  apply createIfMissing_wp; intros; trace_simpl; rw HE Hc; cbn;
    rw app_nil_r; split_and!; done.
Qed.

Lemma ensureChildren_made volume nodes :
  wp (ensureChildren volume nodes) (λ tr r,
    (creates KEngine tr ≠ [] → ∃ tr1 a,
       tr = tr1 ++ [ev (S:=ctl) (Create KEngine (engine_for volume (attachments_from volume 0 nodes))) a] ∧
       existing KReplica tr1 = replicas_from volume 0 nodes) ∧
    (r = Ok tt → existing KEngine tr = [engine_for volume (attachments_from volume 0 nodes)]) ∧ refused tr r).
Proof.
  unfold ensureChildren. ctl_step.
  eapply wp_mono, wp_and; [|apply create_replicas_wp|apply create_replicas_made].
  intros tr1 [ras|e] [(HE & _ & HR) [Hok Herr]]; cycle 1.
  { rw HE. split_and!; [done..|]. intros e' [= <-]. by apply Herr. }
  destruct (HR ras eq_refl) as [_ ->]. eapply wp_mono, createIfMissing_answer. intros tr2 r (a & -> & Ha).
  split; [intros _; exists tr1, a; auto|]. split.
  - intros ->. by rw existing_app Ha (existing_created _ _ HE).
  - intros e ->. destruct Ha as [-> He]. by exists tr1, KEngine, (engine_for volume (attachments_from volume 0 nodes)).
Qed.

Lemma ensureChildren_status volume nodes :
  wp (ensureChildren volume nodes) (λ tr _, status_updates KVolume tr = []).
Proof.
  unfold ensureChildren. ctl_step.
  assert (∀ i ras, wp (create_replicas volume i nodes ras)
    (λ tr _, status_updates KVolume tr = [])) as Hc.
  { induction nodes as [|n nodes IH]; intros i ras; cbn [create_replicas]; ctl_step; [done|].
    apply createIfMissing_wp; intros; [|done]. eapply wp_mono, IH. intros tr res H.
    by trace_simpl. }
  eapply wp_mono, Hc. intros tr [ras|e] H; [|done].
  apply createIfMissing_wp; intros; trace_simpl; by rw H.
Qed.

(** ** Properties *)

(** C17. Whatever the API server answers, [ensureChildren] asks for the replica
    of every chosen node in order, with consecutive indices.  The engine is asked
    for last, and only after every replica has been made or was there already;
    its attachments are exactly these replicas and have distinct names.  It
    succeeds only when the engine was made or was there already, and an error is
    the one with which the last creation was refused. *)
Theorem ensureChildren_spec (volume : Volume) (nodes : list string) (tr : trace)
    (r : result unit) :
  exec (ensureChildren volume nodes) tr r →
  let ras := attachments_from volume 0 nodes in
  NoDup (ra_Name <$> ras) ∧
  creates KReplica tr `prefix_of` replicas_from volume 0 nodes ∧
  (creates KEngine tr ≠ [] →
     creates KReplica tr = replicas_from volume 0 nodes ∧
     creates KEngine tr = [engine_for volume ras] ∧
     ∃ tr1 a, tr = tr1 ++ [ev (S:=ctl) (Create KEngine (engine_for volume ras)) a] ∧
       existing KReplica tr1 = replicas_from volume 0 nodes) ∧
  match r with
  | Ok _ => existing KEngine tr = [engine_for volume ras]
  | Err e => ∃ tr1 k o, tr = tr1 ++ [ev (S:=ctl) (Create k o) (Err e)] ∧ IsAlreadyExists e = false
  end.
Proof.
  intros Hex ras. split; [apply attachments_from_NoDup|].
  destruct (exec_wp _ _ _ _ Hex (ensureChildren_wp volume nodes)) as (Hp & He & _).
  destruct (exec_wp _ _ _ _ Hex (ensureChildren_made volume nodes)) as (Hm & Hok & Herr).
  split; [done|]. split; [intros Hne; destruct (He Hne); auto|].
  destruct r as [[]|e]; [by apply Hok|by apply Herr].
Qed.

(** A volume of two replicas without a node, and its engine's name space. *)
Definition sample_volume (count : string) : Volume :=
  mkVolume (newMeta "v" "ns") (mkVolumeSpec "1Gi" "kdfs" "w1" count None) zeroVolumeStatus.

Definition children_run := run mem_handler (ensureChildren (sample_volume "2") ["w1"; "w2"]) empty_world.

Lemma ensureChildren_spec_witness :
  children_run.1.2 = Ok tt ∧
  existing KEngine children_run.1.1 =
    [engine_for (sample_volume "2") (attachments_from (sample_volume "2") 0 ["w1"; "w2"])].
Proof.
  assert (children_run.1.2 = Ok tt) as Hr by (vm_compute; reflexivity). split; [exact Hr|].
  destruct (ensureChildren_spec (sample_volume "2") ["w1"; "w2"] children_run.1.1 children_run.1.2)
    as (_ & _ & _ & Hok).
  - exact (exec_of_run mem_handler _ empty_world _ eq_refl).
  - rw Hr in Hok. exact Hok.
Defined.

(** C18. For a desired count up to ten below the largest [int], and an engine
    whose attachments have distinct names: scaling up asks to publish at most one
    new attachment list, the old attachments, untouched, followed by as many new
    ones as were missing; all names stay distinct and every new attachment is of a
    replica whose CR was made or was there already.  It succeeds only after the
    API server has taken the new list and, last, the volume's Degraded status. *)
Theorem scaleUp_spec (volume : Volume) (engine : Engine) (current desired : Z)
    (tr : trace) (r : result unit) :
  current = Z.of_nat (length (eng_Replicas engine)) →
  (current < desired)%Z → (desired + 10 ≤ max_int64)%Z →
  NoDup (ra_Name <$> eng_Replicas engine) →
  exec (scaleUp volume engine current desired) tr r →
  length (updates KEngine tr) ≤ 1 ∧
  (∀ e, e ∈ updates KEngine tr → ∃ added,
     e = eng_set_Replicas (eng_Replicas engine ++ added) engine ∧
     Z.of_nat (length (eng_Replicas e)) = desired ∧
     NoDup (ra_Name <$> eng_Replicas e) ∧
     Forall (added_ok volume (existing KReplica tr)) added) ∧
  (r = Ok tt → ∃ before e e' now v v',
     tr = before ++ [ev (S:=ctl) (Update KEngine e) (Ok e'); ev (S:=ctl) TimeNow now;
                     ev (S:=ctl) (StatusUpdate KVolume v) (Ok v')] ∧
     vst_Phase (vol_status v) = VolumePhaseDegraded).
Proof.
  intros Hc Hlt Hmax Hnd. revert tr r. apply wp_exec. unfold scaleUp.
  pose proof (scale_inv_init volume desired _ Hmax ltac:(lia) Hnd) as Hinv.
  ctl_step. eapply wp_mono; [|eapply (scale_up_loop_wp _ _ _ _ _ _ _ Hinv); lia].
  intros tr1 [ras|e] [HU HR]; [|rw HU; split_and!; [simpl; lia|set_solver|done]].
  destruct (HR ras eq_refl) as (added & -> & Hl & Hnd' & Hadd).
  assert (Z.of_nat (length (eng_Replicas engine ++ added)) = desired) as Hlen
    by (rw length_app; lia).
  ctl_steps.
  - eapply wp_mono; [|apply wp_and; [apply mark_scaling_wp|apply mark_scaling_saved]].
    intros tr2 res [(HU2 & _ & _ & _) HV]. rw existing_app. trace_simpl. rw HU HU2. cbn.
    split_and!; [lia| |].
    + intros e ->%list_elem_of_singleton. exists added. split_and!; [done..|].
      eapply Forall_impl; [exact Hadd|]. intros x. apply added_ok_mono. set_solver.
    + intros Hr. destruct (HV Hr) as (now & v & v' & -> & Hv). by repeat eexists.
  - rw existing_app. trace_simpl. rw HU. cbn. split_and!; [lia| |done].
    intros e0 ->%list_elem_of_singleton. exists added. rw app_nil_r. done.
Qed.

(** Volume v asked for three replicas, two of which remain (1 was removed). *)
Definition gap_engine : Engine :=
  eng_set_Replicas [newAttachment "v-replica-0" "w1"; newAttachment "v-replica-2" "w2"]
    (engine_for (sample_volume "3") []).
Definition gap_world : world :=
  put KVolume (sample_volume "3") (put KEngine gap_engine small_cluster).
Definition gap_run := run mem_handler (scaleUp (sample_volume "3") gap_engine 2 3) gap_world.

Lemma scaleUp_spec_witness :
  gap_run.1.2 = Ok tt ∧ length (updates KEngine gap_run.1.1) ≤ 1 ∧
  ∃ before e e' now v v',
    gap_run.1.1 = before ++ [ev (S:=ctl) (Update KEngine e) (Ok e'); ev (S:=ctl) TimeNow now;
                             ev (S:=ctl) (StatusUpdate KVolume v) (Ok v')] ∧
    vst_Phase (vol_status v) = VolumePhaseDegraded.
Proof.
  split; [vm_compute; reflexivity|].
  destruct (scaleUp_spec (sample_volume "3") gap_engine 2 3 gap_run.1.1 gap_run.1.2)
    as (H1 & _ & H2).
  - reflexivity.
  - lia.
  - vm_compute; discriminate.
  - apply (bool_decide_unpack _). vm_compute. exact I.
  - exact (exec_of_run mem_handler _ gap_world _ eq_refl).
  - split; [exact H1|]. apply H2. vm_compute; reflexivity.
Defined.

(** C19. Scaling down deletes, in order, the replicas whose index is at least
    the desired count, and only then publishes the first [desired] attachments;
    when the attachments carry the indices [0 .. current-1] in order, the
    replicas deleted are exactly those whose attachments are dropped. *)
Theorem scaleDown_spec (volume : Volume) (engine : Engine) (current desired : Z)
    (tr : trace) (r : result unit) :
  current = Z.of_nat (length (eng_Replicas engine)) → (0 ≤ desired < current)%Z →
  exec (scaleDown volume engine current desired) tr r →
  let kept := take (Z.to_nat desired) (eng_Replicas engine) in
  let dropped := drop (Z.to_nat desired) (eng_Replicas engine) in
  let victims := (λ j, mkName (vol_Namespace volume) (ReplicaName (vol_Name volume) j))
                   <$> seqZ desired (current - desired) in
  deletes KReplica tr `prefix_of` victims ∧
  (updates KEngine tr ≠ [] →
     deletes KReplica tr = victims ∧ updates KEngine tr = [eng_set_Replicas kept engine]) ∧
  (r = Ok tt → updates KEngine tr ≠ []) ∧
  (ra_Name <$> eng_Replicas engine = ReplicaName (vol_Name volume) <$> seqZ 0 current →
     victims = (λ ra, mkName (vol_Namespace volume) (ra_Name ra)) <$> dropped).
Proof.
  intros Hc Hd Hex kept dropped victims. rw !and_assoc. split.
  - revert tr r Hex. apply wp_exec. unfold scaleDown. ctl_step.
    eapply wp_mono, scale_down_loop_wp.
    replace (Z.of_nat (Z.to_nat (current - desired))) with (current - desired)%Z by lia.
    intros tr1 res (HU & HP & HR). destruct res as [[]|e]; [|by rw HU].
    specialize (HR eq_refl). ctl_steps.
    + eapply wp_mono, mark_scaling_wp. intros tr2 res (HU2 & _ & HD2 & _).
      trace_simpl. rw HU HU2 HR HD2. cbn. by rw app_nil_r.
    + trace_simpl. rw HU HR. cbn. by rw app_nil_r.
  - intros Hnames. unfold victims, dropped.
    rw (list_fmap_compose ra_Name (mkName (vol_Namespace volume))).
    rw fmap_drop Hnames -fmap_drop seqZ_drop; [|lia]. by rw -list_fmap_compose.
Qed.

Definition pair_engine : Engine :=
  engine_for (sample_volume "1") (attachments_from (sample_volume "1") 0 ["w1"; "w2"]).
Definition pair_world : world :=
  put KVolume (sample_volume "1") (put KEngine pair_engine empty_world).
Definition shrink_run := run mem_handler (scaleDown (sample_volume "1") pair_engine 2 1) pair_world.

Lemma scaleDown_spec_witness :
  shrink_run.1.2 = Ok tt ∧ updates KEngine shrink_run.1.1 ≠ [] ∧
  [mkName "ns" "v-replica-1"] =
    (λ ra, mkName "ns" (ra_Name ra)) <$> drop 1 (eng_Replicas pair_engine).
Proof.
  split; [vm_compute; reflexivity|].
  destruct (scaleDown_spec (sample_volume "1") pair_engine 2 1
              shrink_run.1.1 shrink_run.1.2) as (_ & _ & Hok & Hex).
  - reflexivity.
  - lia.
  - exact (exec_of_run mem_handler _ pair_world _ eq_refl).
  - split; [apply Hok; vm_compute; reflexivity|]. apply Hex. vm_compute. reflexivity.
Defined.

(** The indices need not be consecutive (healing removes an attachment from
    the middle): scaling [gap_engine] from two to one deletes the replica of
    index 1, which is not attached, and drops the attachment of index 2, whose
    replica CR is not deleted. *)
Theorem scaleDown_orphan :
  let '(tr, r, _) := run mem_handler (scaleDown (sample_volume "1") gap_engine 2 1)
                       (put KVolume (sample_volume "1") (put KEngine gap_engine empty_world)) in
  r = Ok tt ∧
  deletes KReplica tr = [mkName "ns" "v-replica-1"] ∧
  (λ e, ra_Name <$> eng_Replicas e) <$> updates KEngine tr = [["v-replica-0"]] ∧
  ra_Name <$> eng_Replicas gap_engine = ["v-replica-0"; "v-replica-2"].
Proof. vm_compute. done. Qed.
