(* ===== verification/VolumeHeal.v ===== *)
(** * internal/controller/volume_heal.go: healing unhealthy replicas *)
From S2P Require Import Prelude GoStrings K8s ApiTypes Names WireTypes Client MemStore Status VolumeNodes.

(** ** healingBackoff *)
Definition maxAttempts : Z := 5.

(** [for i := 0; i < attempts; i++ { base *= 2 }] on a 64-bit Duration. *)
Fixpoint double (n : nat) (base : Z) : Z :=
  match n with 0 => base | S n' => double n' (wrap64 (base * 2)) end.

Definition healingBackoff (attempts : Z) : Z * bool :=
  if (attempts >=? maxAttempts)%Z then (0%Z, true)
  else (double (Z.to_nat attempts) (30 * Second)%Z, false).

(** ** Lookups *)
Definition modeLabel := "kdfs.krea.to/mode".
Definition replicaPods : gmap string string := {[ modeLabel := "replica" ]}.

Definition getReplicaPodByName (namespace replicaName : string) : M (option Pod) :=
  r ← kList KPod (Some namespace) replicaPods;
  match r with
  | Err _ => Ret None
  | Ok pods =>
      Ret (list_find (λ p : Pod, om_Name (pod_meta p) = replicaName +:+ "-pod" ∧
                         pst_PodIP (pod_status p) ≠ "") pods ≫= λ ip, Some ip.2)
  end.

Definition zeroHealth : ReplicaHealth := mkHealth "" "" "" 0 None.
Definition findExistingHealth (healths : list ReplicaHealth) (name : string)
    : ReplicaHealth :=
  match list_find (λ h, rh_Name h = name) healths with
  | Some (_, h) => h
  | None => zeroHealth
  end.

Definition removeAttachment (attachments : list ReplicaAttachment) (index : nat)
    : list ReplicaAttachment :=
  take index attachments ++ drop (S index) attachments.

(** [removeAttachment] shifts the tail of the shared backing array one slot to
    the left, so a pointer into slot [index] taken before now reads its
    successor; the last slot keeps its content.  (The answer to the update is
    then decoded into the same slots; the server echoes what it was sent.) *)
Definition slot_after_remove (attachments : list ReplicaAttachment) (index : nat)
    (ra : ReplicaAttachment) : ReplicaAttachment :=
  default ra (attachments !! S index).

Definition set_health_Phase (p : string) (h : ReplicaHealth) : ReplicaHealth :=
  mkHealth (rh_Name h) (rh_NodeID h) p (rh_RestartAttempts h) (rh_LastHealTime h).
Definition count_restart (now : Time) (h : ReplicaHealth) : ReplicaHealth :=
  mkHealth (rh_Name h) (rh_NodeID h) "Pending" (wrap64 (rh_RestartAttempts h + 1))
    (Some now).

(** ** First pass: the health of every attachment

    The health entry and whether it counts as healthy. *)
Definition assess_one (volume : Volume) (ra : ReplicaAttachment)
    : M (result (ReplicaHealth * bool)) :=
  let existing := findExistingHealth (vst_ReplicaHealth (vol_status volume)) (ra_Name ra) in
  let health := mkHealth (ra_Name ra) (ra_NodeID ra) "Unknown"
                  (rh_RestartAttempts existing) (rh_LastHealTime existing) in
  r ← kGet KReplica (mkName (vol_Namespace volume) (ra_Name ra));
  match r with
  | Err e =>
      if IsNotFound e then Ret (Ok (set_health_Phase "Missing" health, false))
      else Ret (Err e)
  | Ok replica =>
      let phase := rst_Phase (rep_status replica) in
      if bool_decide (phase = "Running") then
        pod ← getReplicaPodByName (vol_Namespace volume) (ra_Name ra);
        let healthy :=
          match pod with
          | Some p => bool_decide (pst_Phase (pod_status p) = PodRunning) &&
                      bool_decide (rst_NQN (rep_status replica) ≠ "")
          | None => false
          end in
        if healthy then Ret (Ok (set_health_Phase phase health, true))
        else Ret (Ok (set_health_Phase "Pending" health, false))
      else Ret (Ok (set_health_Phase phase health, false))
  end.

Fixpoint assess (volume : Volume) (ras : list ReplicaAttachment)
    (newHealth : list ReplicaHealth) (healthyCount : Z)
    : M (result (list ReplicaHealth * Z)) :=
  match ras with
  | [] => Ret (Ok (newHealth, healthyCount))
  | ra :: ras' =>
      hb ←? assess_one volume ra;
      assess volume ras' (newHealth ++ [hb.1])
        (if hb.2 : bool then healthyCount + 1 else healthyCount)%Z
  end.

(** ** Second pass: the first attachment that can be acted upon *)
Definition maxDuration : Z := max_int64.  (* time.Duration(1<<63 - 1) *)

(** A healing result: (healed, requeueAfter). *)
Definition Healed : Type := bool * Z.

(** Publish the volume status with the healing condition and return. *)
Definition heal_return (volume : Volume) (status : string) (reason msg : string)
    (res : Healed) : M (result Healed) :=
  conds ← set (vst_Conditions (vol_status volume)) VolumeConditionReplicasHealing
            status reason msg;
  r ← kStatusUpdate KVolume (vol_set_Conditions conds volume);
  match r with
  | Ok _ => Ret (Ok res)
  | Err e => Ret (Err e)
  end.

(** Drop the attachment at [i] from the engine and report it. *)
Definition drop_attachment (volume : Volume) (engine : Engine) (i : nat)
    (ra : ReplicaAttachment) (reason : string) (msg : string → string)
    : M (result Healed) :=
  let ras := eng_Replicas engine in
  _ ←? kUpdate KEngine (eng_set_Replicas (removeAttachment ras i) engine);
  heal_return volume ConditionTrue reason
    (msg (ra_Name (slot_after_remove ras i ra))) (true, 0%Z).

(** Delete the replica CR, then its attachment. *)
Definition recreate (volume : Volume) (engine : Engine) (i : nat)
    (ra : ReplicaAttachment) (msg : string → string) : M (result Healed) :=
  r ← kDelete KReplica (mkName (vol_Namespace volume) (ra_Name ra));
  match r with
  | Err e =>
      if IsNotFound e then drop_attachment volume engine i ra "Recreating" msg
      else Ret (Err e)
  | Ok _ => drop_attachment volume engine i ra "Recreating" msg
  end.

Definition shorter (remaining cooldown : Z) : Z :=
  if (remaining <? cooldown)%Z then remaining else cooldown.

(** What is left of a backoff since the last heal; never positive when there
    was none. *)
Definition remaining_of (backoff : Z) (last : option Time) : M Z :=
  match last with
  | None => Ret 0%Z
  | Some t => d ← Since t; Ret (wrap64 (backoff - d))
  end.

(** Restart a pod: delete it, count the attempt.  [health] points into
    [newHealth], which [volume.Status.ReplicaHealth] shares. *)
Definition restart_pod (volume : Volume) (newHealth : list ReplicaHealth) (i : nat)
    (health : ReplicaHealth) (ra : ReplicaAttachment) (pod : Pod)
    : M (result Healed) :=
  let restarted (_ : unit) : M (result Healed) :=
    now ← timeNow;
    let health := count_restart now health in
    heal_return (vol_set_ReplicaHealth (<[i := health]> newHealth) volume)
      ConditionTrue "RestartingPod"
      ("restarting pod for replica " +:+ ra_Name ra +:+ " (attempt " +:+
       Itoa (rh_RestartAttempts health) +:+ ")") (true, 0%Z) in
  r ← kDelete KPod (key_of (pod_meta pod));
  match r with
  | Err e => if IsNotFound e then restarted tt else Ret (Err e)
  | Ok _ => restarted tt
  end.

(** One attachment: either the function returns, or the loop goes on with the
    shortest cooldown seen. *)
Definition heal_one (volume : Volume) (engine : Engine) (newHealth : list ReplicaHealth)
    (i : nat) (ra : ReplicaAttachment) (health : ReplicaHealth) (cooldown : Z)
    : M (Z + result Healed) :=
  let return_ (p : M (result Healed)) : M (Z + result Healed) := r ← p; Ret (inr r) in
  let continue_ (c : Z) : M (Z + result Healed) := Ret (inl c) in
  let phase := rh_Phase health in
  if bool_decide (phase = "Missing") then
    return_ (drop_attachment volume engine i ra "RemovedMissing"
      (λ n, "removed stale attachment for missing replica " +:+ n))
  else if bool_decide (phase = "Failed") || bool_decide (phase = "Pending") then
    pod ← getReplicaPodByName (vol_Namespace volume) (ra_Name ra);
    match pod with
    | None =>
        r ← kGet KReplica (mkName (vol_Namespace volume) (ra_Name ra));
        match r with
        | Err _ => continue_ cooldown
        | Ok replicaCR =>
            if bool_decide (rst_Phase (rep_status replicaCR) ≠ ReplicaPhaseRunning)
            then continue_ cooldown
            else if bool_decide (om_DeletionTimestamp (rep_meta replicaCR) ≠ None)
            then continue_ cooldown
            else return_ (recreate volume engine i ra
                   (λ n, "recreating replica " +:+ n +:+ " (pod missing)"))
        end
    | Some pod =>
        let '(backoff, exhausted) := healingBackoff (rh_RestartAttempts health) in
        if (exhausted : bool) then
          return_ (recreate volume engine i ra
            (λ n, "deleting exhausted replica " +:+ n +:+ " for recreation"))
        else
          remaining ← remaining_of backoff (rh_LastHealTime health);
          if (remaining >? 0)%Z then continue_ (shorter remaining cooldown)
          else return_ (restart_pod volume newHealth i health ra pod)
    end
  else
    let '(backoff, _) := healingBackoff (rh_RestartAttempts health) in
    remaining ← remaining_of backoff (rh_LastHealTime health);
    if (remaining >? 0)%Z then continue_ (shorter remaining cooldown)
    else continue_ cooldown.

Fixpoint heal_loop (volume : Volume) (engine : Engine) (newHealth : list ReplicaHealth)
    (i : nat) (todo : list (ReplicaAttachment * ReplicaHealth)) (cooldown : Z)
    : M (Z + result Healed) :=
  match todo with
  | [] => Ret (inl cooldown)
  | (ra, health) :: todo' =>
      r ← heal_one volume engine newHealth i ra health cooldown;
      match r with
      | inl cooldown' => heal_loop volume engine newHealth (S i) todo' cooldown'
      | inr res => Ret (inr res)
      end
  end.

(** ** healReplicas *)
Definition below_msg (healthyCount threshold : Z) : string :=
  "only " +:+ Itoa healthyCount +:+ " healthy replicas, need at least " +:+ Itoa threshold.

Definition healReplicas (volume : Volume) (engine : Engine) : M (result Healed) :=
  desired ←? replicasForVolume volume;
  nh ←? assess volume (eng_Replicas engine) [] 0;
  let '(newHealth, healthyCount) := nh in
  let volume := vol_set_ReplicaHealth newHealth volume in
  let threshold := if (desired - 1 <? 0)%Z then 0%Z else (desired - 1)%Z in
  if (healthyCount <? threshold)%Z then
    heal_return (vol_set_Phase VolumePhaseDegraded volume) ConditionFalse
      "BelowThreshold" (below_msg healthyCount threshold) (false, 0%Z)
  else
    r ← heal_loop volume engine newHealth 0 (zip (eng_Replicas engine) newHealth) maxDuration;
    match r with
    | inr res => Ret res
    | inl cooldown =>
        heal_return volume ConditionFalse "NoActionNeeded" "no replicas need healing"
          (false, if bool_decide (cooldown ≠ maxDuration) then cooldown else 0%Z)
    end.

(** ** What a pass has seen and done *)

(** The desired count as it was read. *)
Definition desired_in (volume : Volume) (tr : trace) (n : Z) : Prop :=
  match ParseReplicaCount (vs_ReplicaCount (vol_spec volume)) with
  | Ok (m, false) => n = m
  | Ok (_, true) => ∃ nodes, head (lists KNode tr) = Some nodes ∧ n = auto_count nodes
  | Err _ => False
  end.

Definition replica_ok (rep : Replica) : bool :=
  bool_decide (rst_Phase (rep_status rep) = "Running") &&
  bool_decide (rst_NQN (rep_status rep) ≠ "").
Definition pod_ok (ra : ReplicaAttachment) (p : Pod) : bool :=
  bool_decide (om_Name (pod_meta p) = ra_Name ra +:+ "-pod") &&
  bool_decide (pst_PodIP (pod_status p) ≠ "") &&
  bool_decide (pst_Phase (pod_status p) = PodRunning).
(** The answers show a running replica with an NQN and its running pod. *)
Definition seen_healthy (volume : Volume) (tr : trace) (ra : ReplicaAttachment) : bool :=
  existsb replica_ok (reads KReplica (mkName (vol_Namespace volume) (ra_Name ra)) tr) &&
  existsb (existsb (pod_ok ra)) (lists KPod tr).
Definition healthy_in (volume : Volume) (tr : trace) (ras : list ReplicaAttachment) : Z :=
  Z.of_nat (length (filter (λ ra, seen_healthy volume tr ra = true) ras)).

(** The restart is due: never healed, or the backoff has elapsed (the last
    heal is not reckoned more than 2^62 ns ahead of the clock). *)
Definition restart_due (h : ReplicaHealth) (tr : trace) : Prop :=
  (rh_RestartAttempts h < maxAttempts)%Z ∧
  ∀ t, rh_LastHealTime h = Some t → ∃ now, ev (S:=ctl) TimeNow now ∈ tr ∧
    (30 * Second * 2 ^ Z.max 0 (rh_RestartAttempts h) ≤ now - t ∨ 2 ^ 62 < t - now)%Z.

(** The pod that a list shows of a replica: the first of its name that has an address. *)
Definition pod_in (name : string) (a : result (list Pod)) : option Pod :=
  match a with
  | Err _ => None
  | Ok pods => list_find (λ p : Pod, om_Name (pod_meta p) = name +:+ "-pod" ∧
                            pst_PodIP (pod_status p) ≠ "") pods ≫= λ ip, Some ip.2
  end.
Definition replica_key (volume : Volume) (ra : ReplicaAttachment) : NamespacedName :=
  mkName (vol_Namespace volume) (ra_Name ra).
Definition pods_listed (volume : Volume) (a : result (list Pod)) : event ctl :=
  ev (S:=ctl) (List KPod (Some (vol_Namespace volume)) replicaPods) a.
(** The two answers, or the one, that show an attachment unhealthy: its replica is
    gone; or it has failed or is pending; or it runs, but has no NQN, or its pod
    is not there or does not run. *)
Inductive unhealthy_read (volume : Volume) (ra : ReplicaAttachment) : trace → Prop :=
  | ReadGone e :
      IsNotFound e = true →
      unhealthy_read volume ra [ev (S:=ctl) (Get KReplica (replica_key volume ra)) (Err e)]
  | ReadDown rep :
      rst_Phase (rep_status rep) ∈ ["Missing"; "Failed"; "Pending"] →
      unhealthy_read volume ra [ev (S:=ctl) (Get KReplica (replica_key volume ra)) (Ok rep)]
  | ReadUnserved rep a :
      rst_Phase (rep_status rep) = "Running" →
      rst_NQN (rep_status rep) = "" ∨
        (∀ p, pod_in (ra_Name ra) a = Some p → pst_Phase (pod_status p) ≠ PodRunning) →
      unhealthy_read volume ra
        [ev (S:=ctl) (Get KReplica (replica_key volume ra)) (Ok rep); pods_listed volume a].
Definition seen_unhealthy (volume : Volume) (ra : ReplicaAttachment) (tr : trace) : Prop :=
  ∃ tr1 seen tr2, tr = tr1 ++ seen ++ tr2 ∧ unhealthy_read volume ra seen.

(** Nothing is deleted and the engine is not changed. *)
Definition quiet (tr : trace) : Prop :=
  deletes KReplica tr = [] ∧ deletes KPod tr = [] ∧ updates KEngine tr = [].
(** The attachments are published without the [i]-th. *)
Definition detach (engine : Engine) (i : nat) (r : result Engine) : event ctl :=
  ev (S:=ctl) (Update KEngine (eng_set_Replicas (removeAttachment (eng_Replicas engine) i) engine)) r.
(** What a pass does about one attachment, after the reads [seen]. *)
Inductive acted (volume : Volume) (engine : Engine) (i : nat) (ra : ReplicaAttachment) (seen : trace)
    : trace → Prop :=
  | Detached r rest :
      quiet rest → acted volume engine i ra seen (detach engine i r :: rest)
  | NotDeleted e :
      IsNotFound e = false →
      acted volume engine i ra seen [ev (S:=ctl) (Delete KReplica (replica_key volume ra)) (Err e)]
  | Recreated d r rest :
      (∀ e, d = Err e → IsNotFound e = true) → quiet rest →
      acted volume engine i ra seen
        (ev (S:=ctl) (Delete KReplica (replica_key volume ra)) d :: detach engine i r :: rest)
  | Restarted pod a d rest :
      pods_listed volume a ∈ seen → pod_in (ra_Name ra) a = Some pod →
      restart_due (findExistingHealth (vst_ReplicaHealth (vol_status volume)) (ra_Name ra)) seen →
      quiet rest →
      acted volume engine i ra seen (ev (S:=ctl) (Delete KPod (key_of (pod_meta pod))) d :: rest).
Inductive heal_action (volume : Volume) (engine : Engine) (tr : trace) : Prop :=
  | NoAction : quiet tr → heal_action volume engine tr
  | Action i ra seen did :
      eng_Replicas engine !! i = Some ra → tr = seen ++ did → read_only seen →
      seen_unhealthy volume ra seen → acted volume engine i ra seen did →
      heal_action volume engine tr.

(** ** Lemmas *)
Lemma healingBackoff_eq a :
  healingBackoff a =
  if (5 <=? a)%Z then (0%Z, true) else ((30 * Second * 2 ^ Z.max 0 a)%Z, false).
Proof.
  unfold healingBackoff, maxAttempts.
  destruct (Z.geb_spec a 5), (Z.leb_spec 5 a); [done|lia|lia|]. f_equal.
  destruct (decide (a ≤ 0)%Z).
  - replace (Z.to_nat a) with 0%nat by lia. by replace (Z.max 0 a) with 0%Z by lia.
  - assert (a = 1 ∨ a = 2 ∨ a = 3 ∨ a = 4)%Z as Ha by lia.
    by destruct_or! Ha; subst.
Qed.

Lemma lists_app k tr1 tr2 : lists k (tr1 ++ tr2) = lists k tr1 ++ lists k tr2.
Proof. apply omap_app. Qed.

Lemma seen_healthy_app volume tr1 tr2 ra :
  seen_healthy volume tr1 ra = true ∨ seen_healthy volume tr2 ra = true →
  seen_healthy volume (tr1 ++ tr2) ra = true.
Proof.
  unfold seen_healthy. rw reads_app lists_app !existsb_app. intros H.
  destruct H as [[-> ->]%andb_true_iff|[-> ->]%andb_true_iff]; [done|].
  by rw !orb_true_r.
Qed.

Lemma healthy_in_mono volume tr1 tr2 ras :
  (∀ ra, seen_healthy volume tr1 ra = true → seen_healthy volume tr2 ra = true) →
  (healthy_in volume tr1 ras ≤ healthy_in volume tr2 ras)%Z.
Proof.
  intros H. unfold healthy_in. apply inj_le, sublist_length.
  induction ras as [|ra ras IH]; [done|]. rw !filter_cons.
  destruct (decide (seen_healthy volume tr1 ra = true)) as [H1|H1],
    (decide (seen_healthy volume tr2 ra = true)) as [H2|H2].
  - by apply sublist_skip.
  - by apply H in H1.
  - by apply sublist_cons.
  - done.
Qed.

Lemma getReplicaPodByName_answer ns name :
  wp (getReplicaPodByName ns name)
    (λ tr r, ∃ a, tr = [ev (S:=ctl) (List KPod (Some ns) replicaPods) a] ∧ r = pod_in name a).
Proof. unfold getReplicaPodByName. ctl_step. ctl_step. destruct r as [pods|e]; ctl_step; by eexists. Qed.
Lemma pod_in_Some name a p :
  pod_in name a = Some p →
  om_Name (pod_meta p) = name +:+ "-pod" ∧ pst_PodIP (pod_status p) ≠ "" ∧ ∃ pods, a = Ok pods ∧ p ∈ pods.
Proof.
  destruct a as [pods|e]; [|done]. cbn. intros Hp.
  match type of Hp with context [list_find ?P ?l] =>
    destruct (list_find P l) as [[i q]|] eqn:E end; [|done]. injection Hp as <-.
  apply list_find_Some in E as (Hi & [? ?] & _). split_and!; [done..|].
  exists pods. split; [done|]. by eapply list_elem_of_lookup_2.
Qed.
Lemma getReplicaPodByName_wp ns name :
  wp (getReplicaPodByName ns name)
    (λ tr r, read_only tr ∧ ∀ p, r = Some p →
       om_Name (pod_meta p) = name +:+ "-pod" ∧ pst_PodIP (pod_status p) ≠ "" ∧
       ∃ pods, lists KPod tr = [pods] ∧ p ∈ pods).
Proof.
  eapply wp_mono, getReplicaPodByName_answer. intros tr r (a & -> & ->). split; [by repeat constructor|].
  intros p (? & ? & pods & -> & ?)%pod_in_Some. split_and!; [done..|]. by exists pods.
Qed.

(** The health entry keeps the restart record of the previous passes. *)
Definition carries (volume : Volume) (ra : ReplicaAttachment) (h : ReplicaHealth) : Prop :=
  let old := findExistingHealth (vst_ReplicaHealth (vol_status volume)) (ra_Name ra) in
  rh_Name h = ra_Name ra ∧ rh_NodeID h = ra_NodeID ra ∧
  rh_RestartAttempts h = rh_RestartAttempts old ∧
  rh_LastHealTime h = rh_LastHealTime old.

Lemma reads_hit key rep tr :
  reads KReplica key (ev (S:=ctl) (Get KReplica key) (Ok rep) :: tr) =
  rep :: reads KReplica key tr.
Proof. cbn. by rw bool_decide_true. Qed.

Lemma lists_get k key (r : result (obj KReplica)) tr :
  lists k (ev (S:=ctl) (Get KReplica key) r :: tr) = lists k tr.
Proof. done. Qed.

Lemma seen_unhealthy_here volume ra tr1 seen : unhealthy_read volume ra seen → seen_unhealthy volume ra (tr1 ++ seen).
Proof. intros H. exists tr1, seen, []. by rw app_nil_r. Qed.
Lemma seen_unhealthy_app volume ra tr1 tr2 :
  seen_unhealthy volume ra tr1 ∨ seen_unhealthy volume ra tr2 → seen_unhealthy volume ra (tr1 ++ tr2).
Proof.
  intros [(a & b & c & -> & H)|(a & b & c & -> & H)].
  - exists a, b, (c ++ tr2). by rw -!app_assoc.
  - exists (tr1 ++ a), b, c. by rw -!app_assoc.
Qed.
(** The health of an attachment that a pass acts upon has been seen. *)
Definition assessed (volume : Volume) (tr : trace) (ra : ReplicaAttachment) (h : ReplicaHealth) : Prop :=
  carries volume ra h ∧
  (rh_Phase h ∈ ["Missing"; "Failed"; "Pending"] → seen_unhealthy volume ra tr).
Lemma assessed_app volume tr1 tr2 ra h :
  assessed volume tr1 ra h ∨ assessed volume tr2 ra h → assessed volume (tr1 ++ tr2) ra h.
Proof. intros [[Hc Hs]|[Hc Hs]]; (split; [done|]); intros H%Hs; apply seen_unhealthy_app; auto. Qed.

Lemma assess_one_wp volume ra :
  wp (assess_one volume ra)
    (λ tr r, read_only tr ∧ ∀ h healthy, r = Ok (h, healthy) →
       assessed volume tr ra h ∧
       (healthy = true → rh_Phase h = "Running" ∧ seen_healthy volume tr ra = true) ∧
       (healthy = false → rh_Phase h ≠ "Running")).
Proof.
  unfold assess_one. ctl_step. ctl_step. destruct r as [rep|e].
  2:{ destruct (IsNotFound e) eqn:He; ctl_step; (split; [by repeat constructor|]); [|done].
      intros h b [= <- <-]. split_and!; [|done..]. split; [done|]. intros _.
      apply (seen_unhealthy_here _ _ []). by constructor. }
  case_bool_decide as Hph; cycle 1.
  { ctl_step. split; [by repeat constructor|]. intros h b [= <- <-]. split_and!; [|done..].
    split; [done|]. intros H. apply (seen_unhealthy_here _ _ []). by constructor. }
  ctl_step. eapply wp_mono, getReplicaPodByName_answer. intros tr p (a & -> & ->). cbv zeta.
  assert (∀ r, r = rst_NQN (rep_status rep) → r = "" ∨
    (∀ p, pod_in (ra_Name ra) a = Some p → pst_Phase (pod_status p) ≠ PodRunning) →
    seen_unhealthy volume ra [ev (S:=ctl) (Get KReplica (replica_key volume ra)) (Ok rep); pods_listed volume a]) as Hun.
  { intros r -> Hr. apply (seen_unhealthy_here _ _ []). by constructor. }
  destruct (pod_in _ a) as [p|] eqn:Hp; cycle 1.
  { ctl_step. split; [by repeat constructor|]. intros h b [= <- <-]. split_and!; [|done..].
    split; [done|]. intros _. apply (Hun _ eq_refl). by right. }
  destruct (bool_decide_reflect (pst_Phase (pod_status p) = PodRunning)) as [Hrun|Hrun]; cbn [andb]; cycle 1.
  { ctl_step. split; [by repeat constructor|]. intros h b [= <- <-]. split_and!; [|done..].
    split; [done|]. intros _. apply (Hun _ eq_refl). right. by intros p' [= <-]. }
  destruct (bool_decide_reflect (rst_NQN (rep_status rep) ≠ "")) as [Hnqn|Hnqn]; cycle 1.
  { ctl_step. split; [by repeat constructor|]. intros h b [= <- <-]. split_and!; [|done..].
    split; [done|]. intros _. apply (Hun _ eq_refl). left. by apply dec_stable. }
  ctl_step. split; [by repeat constructor|]. intros h b [= <- <-].
  destruct (pod_in_Some _ _ _ Hp) as (Hname & Hip & pods & -> & Hin).
  split_and!; [|intros _; split; [done|]|done].
  { split; [done|]. intros H. cbn in H. rw Hph in H. set_solver. }
  unfold seen_healthy. cbn [app]. rw reads_hit lists_get. cbn [existsb]. rw /replica_ok Hph (bool_decide_eq_true_2 _ Hnqn).
  cbn [lists omap list_omap]. apply andb_true_iff. split; [done|]. cbn. apply orb_true_iff. left.
  apply existsb_exists. exists p. split; [by apply list_elem_of_In|].
  unfold pod_ok. rw Hname !bool_decide_true; done.
Qed.

Lemma assess_wp volume ras nh c :
  wp (assess volume ras nh c)
    (λ tr r, read_only tr ∧ ∀ nh' c', r = Ok (nh', c') → ∃ hs,
       nh' = nh ++ hs ∧ Forall2 (assessed volume tr) ras hs ∧
       c' = (c + Z.of_nat (length (filter (λ h, rh_Phase h = "Running") hs)))%Z ∧
       (c' ≤ c + healthy_in volume tr ras)%Z).
Proof.
  revert nh c. induction ras as [|ra ras IH]; intros nh c; cbn [assess].
  - ctl_step. split; [constructor|]. intros nh' c' [= <- <-]. exists [].
    rw app_nil_r. split_and!; [done|constructor|simpl; lia|unfold healthy_in; simpl; lia].
  - ctl_step. eapply wp_mono, assess_one_wp. intros tr1 [[h b]|e] [Hro1 H1].
    2:{ by split. }
    destruct (H1 h b eq_refl) as (Hcar & Hb & Hnb).
    eapply wp_mono, IH. intros tr2 r [Hro2 H2]. split; [by apply read_only_app|].
    intros nh' c' Hr. destruct (H2 nh' c' Hr) as (hs & -> & Hall & Hc & Hle).
    exists (h :: hs). rw -app_assoc. split_and!; [done| | |].
    + constructor; [apply assessed_app; by left|]. eapply Forall2_impl; [exact Hall|].
      intros ra' h' H. apply assessed_app. by right.
    + rw filter_cons. case_decide as Hd; destruct b; simpl in *; naive_solver lia.
    + pose proof (healthy_in_mono volume tr2 (tr1 ++ tr2) ras
        (λ ra H, seen_healthy_app volume tr1 tr2 ra (or_intror H))) as Hmono.
      destruct b; simpl in Hle.
      * destruct (Hb eq_refl) as [_ Hs].
        assert (seen_healthy volume (tr1 ++ tr2) ra = true) as Hs'
          by (apply seen_healthy_app; auto).
        unfold healthy_in in *. rw filter_cons_True //. simpl. lia.
      * unfold healthy_in in *. rw filter_cons. case_decide; simpl; lia.
Qed.

(** *** Traces that touch neither the engine, the replicas nor the pods *)
Lemma read_only_quiet tr : read_only tr → quiet tr.
Proof.
  intros (HU & _ & _ & HD)%read_only_writes. by split_and!.
Qed.
Lemma quiet_app tr1 tr2 : quiet tr1 → quiet tr2 → quiet (tr1 ++ tr2).
Proof.
  intros (H1 & H2 & H3) (H4 & H5 & H6). unfold quiet. trace_simpl.
  by rw H1 H2 H3 H4 H5 H6.
Qed.

Lemma restart_due_app_r h tr1 tr2 : restart_due h tr2 → restart_due h (tr1 ++ tr2).
Proof.
  intros [Ha Hd]. split; [done|]. intros t (now & Hin & Hle)%Hd. exists now.
  split; [|done]. apply elem_of_app. by right.
Qed.
Lemma restart_due_same h h' tr :
  rh_RestartAttempts h = rh_RestartAttempts h' → rh_LastHealTime h = rh_LastHealTime h' →
  restart_due h tr → restart_due h' tr.
Proof. intros Ha Ht. unfold restart_due. by rw Ha Ht. Qed.

Lemma heal_return_wp volume st reason msg res :
  wp (heal_return volume st reason msg res) (λ tr _, quiet tr).
Proof. unfold heal_return. ctl_step. apply wp_set. intros now. ctl_steps; done. Qed.

(** The programs that act, for the volume as it was and as it is published. *)
Section one.
Context (volume published : Volume) (engine : Engine) (nh : list ReplicaHealth).
Context (i : nat) (ra : ReplicaAttachment) (h : ReplicaHealth).
Hypothesis (Hns : vol_Namespace published = vol_Namespace volume).
Hypothesis (Hi : eng_Replicas engine !! i = Some ra).
Abbreviation Acted := (acted volume engine i ra).

Lemma published_key : mkName (vol_Namespace published) (ra_Name ra) = replica_key volume ra.
Proof. by rw Hns. Qed.
Lemma drop_attachment_wp reason msg :
  wp (drop_attachment published engine i ra reason msg) (λ tr _, ∃ r rest, tr = detach engine i r :: rest ∧ quiet rest).
Proof.
  unfold drop_attachment. ctl_step. ctl_step. destruct r as [e'|e].
  - eapply wp_mono, heal_return_wp. intros tr ? Hq. by eexists _, tr.
  - by eexists _, [].
Qed.
Lemma recreate_wp seen msg :
  wp (recreate published engine i ra msg) (λ tr _, Acted seen tr).
Proof.
  unfold recreate. rw published_key. ctl_step. ctl_step. destruct r as [[]|e].
  - eapply wp_mono, drop_attachment_wp. intros tr _ (r & rest & -> & Hq). by apply Recreated.
  - destruct (IsNotFound e) eqn:He; [|ctl_step; by constructor].
    eapply wp_mono, drop_attachment_wp. intros tr _ (r & rest & -> & Hq). apply Recreated; [|done]. by intros ? [= <-].
Qed.
Lemma restart_pod_wp pod :
  wp (restart_pod published nh i h ra pod)
    (λ tr _, ∃ d rest, tr = ev (S:=ctl) (Delete KPod (key_of (pod_meta pod))) d :: rest ∧ quiet rest).
Proof.
  unfold restart_pod. cbv zeta. ctl_step. ctl_step.
  assert (∀ d0, wp (now ← timeNow;
    heal_return (vol_set_ReplicaHealth (<[i := count_restart now h]> nh) published)
      ConditionTrue "RestartingPod"
      ("restarting pod for replica " +:+ ra_Name ra +:+ " (attempt " +:+
       Itoa (rh_RestartAttempts (count_restart now h)) +:+ ")") (true, 0%Z))
    (λ tr _, ∃ d rest, ev (S:=ctl) (Delete KPod (key_of (pod_meta pod))) d0 :: tr =
       ev (S:=ctl) (Delete KPod (key_of (pod_meta pod))) d :: rest ∧ quiet rest)) as Hrest.
  { intros d0. ctl_step. apply timeNow_wp. intros now. eapply wp_mono, heal_return_wp. intros tr ? Hq.
    eexists d0, _. split; [done|]. by apply (quiet_app [_]). }
  destruct r as [[]|e]; [apply Hrest|]. destruct (IsNotFound e); [apply Hrest|]. ctl_step. by eexists _, [].
Qed.

Lemma remaining_wp backoff last :
  (0 ≤ backoff < 2 ^ 40)%Z →
  wp (remaining_of backoff last)
    (λ tr r, read_only tr ∧ ((r ≤ 0)%Z → ∀ t, last = Some t → ∃ now,
       ev (S:=ctl) TimeNow now ∈ tr ∧ (backoff ≤ now - t ∨ 2 ^ 62 < t - now)%Z)).
Proof.
  intros Hb. unfold remaining_of. destruct last as [t|]; [|ctl_step; split; [constructor|done]].
  unfold Since. ctl_step. ctl_step. apply timeNow_wp. intros a.
  ctl_steps. split; [by repeat constructor|].
  intros Hr t' [= <-]. exists a. split; [apply list_elem_of_here|].
  destruct (decide (2 ^ 62 < t - a)%Z) as [|Hlt]; [by right|left].
  assert (sat64 (a - t) = a - t ∨ sat64 (a - t) = max_int64 ∧ max_int64 < a - t)%Z as Hs
    by (unfold sat64, min_int64, max_int64; lia).
  destruct Hs as [Hs|[_ ?]]; [|unfold max_int64 in *; lia]. rw Hs in Hr.
  destruct (decide (2 ^ 62 < a - t)%Z); [lia|].
  rw wrap64_id in Hr; [|unfold in_int64, min_int64, max_int64; lia]. lia.
Qed.

Lemma backoff_small a : (0 ≤ (healingBackoff a).1 < 2 ^ 40)%Z.
Proof.
  rw healingBackoff_eq. destruct (Z.leb_spec 5 a); simpl; [lia|].
  assert (2 ^ Z.max 0 a ≤ 2 ^ 4)%Z by (apply Z.pow_le_mono_r; lia).
  assert (0 < 2 ^ Z.max 0 a)%Z by (apply Z.pow_pos_nonneg; lia).
  unfold Second. lia.
Qed.

(** After the reads [tr0], in which the attachment was assessed. *)
Context (tr0 : trace) (Hro0 : read_only tr0) (Hh : assessed volume tr0 ra h).
Definition one_post (tr : trace) (r : Z + result Healed) : Prop :=
  match r with inl _ => read_only tr | inr _ => heal_action volume engine (tr0 ++ tr) end.
Lemma one_action seen did :
  rh_Phase h ∈ ["Missing"; "Failed"; "Pending"] → read_only seen → Acted (tr0 ++ seen) did →
  heal_action volume engine (tr0 ++ seen ++ did).
Proof.
  intros Hph Hro Hd. eapply (Action _ _ _ i ra (tr0 ++ seen) did); [done|by rw app_assoc| | |done].
  - by apply read_only_app.
  - apply seen_unhealthy_app. left. by apply Hh.
Qed.
(** The action of a branch that ends the pass, after reads only. *)
Lemma return_wp (p : M (result Healed)) seen :
  rh_Phase h ∈ ["Missing"; "Failed"; "Pending"] → read_only seen → wp p (λ tr _, Acted (tr0 ++ seen) tr) →
  wp (r ← p; Ret (inr r)) (λ tr2 r, one_post (seen ++ tr2) r).
Proof.
  intros Hph Hro Hp. ctl_step. eapply wp_mono, Hp. intros tr r Htr. ctl_step.
  rw app_nil_r. by apply one_action.
Qed.

Lemma heal_pod_wp pod c a :
  rh_Phase h ∈ ["Missing"; "Failed"; "Pending"] → pod_in (ra_Name ra) a = Some pod →
  let '(backoff, exhausted) := healingBackoff (rh_RestartAttempts h) in
  exhausted = false →
  wp (remaining ← remaining_of backoff (rh_LastHealTime h);
      if (remaining >? 0)%Z then Ret (inl (shorter remaining c))
      else r ← restart_pod published nh i h ra pod; Ret (inr r))
    (λ tr2 r, one_post (pods_listed volume a :: tr2) r).
Proof.
  intros Hph Hpod. pose proof (backoff_small (rh_RestartAttempts h)) as Hb.
  pose proof (healingBackoff_eq (rh_RestartAttempts h)) as Heq.
  destruct (healingBackoff _) as [backoff exh]. intros ->. simpl in Hb.
  destruct (Z.leb_spec 5 (rh_RestartAttempts h)) as [|Ha]; [done|]. injection Heq as Heq.
  ctl_step. eapply wp_mono, (remaining_wp _ _ Hb). intros tr2 rem [Hro2 Hrem].
  destruct (Z.gtb_spec rem 0) as [|Hle].
  - ctl_step. rw app_nil_r. by constructor.
  - eapply wp_mono; [|apply (return_wp _ (pods_listed volume a :: tr2) Hph)].
    + intros tr r Hr. exact Hr.
    + by constructor.
    + eapply wp_mono, restart_pod_wp. intros tr3 r (d & rest & -> & Hq).
      apply (Restarted _ _ _ _ _ pod a); [rw elem_of_app; right; apply list_elem_of_here|done| |done].
      destruct Hh as [(_ & _ & Hatt & Hlast) _].
      apply (restart_due_same h); [done..|]. apply restart_due_app_r, (restart_due_app_r _ [_]).
      split; [done|]. intros t Ht. rw -Heq. apply (Hrem ltac:(lia) t Ht).
Qed.

Lemma heal_one_wp c : wp (heal_one published engine nh i ra h c) one_post.
Proof.
  unfold heal_one. cbv zeta.
  destruct (bool_decide_reflect (rh_Phase h = "Missing")) as [Hm|_].
  { apply (return_wp _ []); [rw Hm; set_solver|constructor|]. eapply wp_mono, drop_attachment_wp.
    intros tr _ (r & rest & -> & Hq). by apply Detached. }
  destruct (_ || _) eqn:Hph.
  2:{ pose proof (backoff_small (rh_RestartAttempts h)) as Hb.
      destruct (healingBackoff _) as [backoff exh]. ctl_step.
      eapply wp_mono, (remaining_wp _ _ Hb). intros tr rem [Hro _].
      ctl_steps; by rw app_nil_r. }
  assert (rh_Phase h ∈ ["Missing"; "Failed"; "Pending"]) as Hph3.
  { apply orb_true_iff in Hph as [->%bool_decide_eq_true| ->%bool_decide_eq_true];
      set_solver. }
  assert (∀ seen msg, read_only seen →
    wp (r ← recreate published engine i ra msg; Ret (inr r)) (λ tr2 r, one_post (seen ++ tr2) r)) as Hrec.
  { intros seen msg Hro. by apply return_wp, recreate_wp. }
  ctl_step. eapply wp_mono, getReplicaPodByName_answer. rw Hns. intros tr1 pod (a & -> & ->).
  fold (pods_listed volume a). destruct (pod_in _ a) as [pod|] eqn:Hpod.
  - pose proof (heal_pod_wp pod c a Hph3 Hpod) as Hw.
    destruct (healingBackoff _) as [backoff [|]]; [apply Hrec; by repeat constructor|by apply Hw].
  - ctl_step. ctl_step.
    destruct r as [rep|e]; [|ctl_step; by repeat constructor].
    repeat case_match; try (ctl_step; by repeat constructor).
    eapply wp_mono, (Hrec [pods_listed volume a; ev (S:=ctl) (Get KReplica _) (Ok rep)]); [intros tr r Hr; exact Hr|by repeat constructor].
Qed.
End one.

Lemma heal_loop_wp volume published engine nh i todo c tr0 :
  vol_Namespace published = vol_Namespace volume → read_only tr0 →
  (∀ j ra h, todo !! j = Some (ra, h) →
     eng_Replicas engine !! (i + j) = Some ra ∧ assessed volume tr0 ra h) →
  wp (heal_loop published engine nh i todo c) (one_post volume engine tr0).
Proof.
  intros Hns. revert i c tr0. induction todo as [|[ra h] todo IH]; intros i c tr0 Hro Hz; cbn [heal_loop].
  - ctl_step. constructor.
  - ctl_step. destruct (Hz 0 ra h eq_refl) as [Hi Hh]. rw Nat.add_0_r in Hi.
    eapply wp_mono, (heal_one_wp _ _ _ _ _ _ _ Hns Hi _ Hro Hh). intros tr1 [c'|r] H1.
    + eapply wp_mono, (IH (S i) c' (tr0 ++ tr1)).
      * intros tr2 [c2|r2] H2; [by apply read_only_app|]. cbn in H2. by rw -app_assoc in H2.
      * by apply read_only_app.
      * intros j ra' h' Hj. rw Nat.add_succ_comm. destruct (Hz (S j) ra' h' Hj) as [? ?].
        split; [done|]. apply assessed_app. by left.
    + ctl_step. by rw app_nil_r.
Qed.

Lemma replicasForVolume_desired volume :
  wp (replicasForVolume volume)
     (λ tr r, read_only tr ∧ ∀ n, r = Ok n → desired_in volume tr n).
Proof.
  unfold replicasForVolume, desired_in.
  destruct (ParseReplicaCount _) as [[n auto]|e] eqn:E; [|ctl_step; by split; [constructor|]].
  destruct auto; cbn [negb]; ctl_step; [|by split; [constructor|intros n' [= <-]]].
  apply listNodes_wp. intros [nodes|e]; [ctl_step|]; (split; [by repeat constructor|]);
    intros n' [= <-]. by exists nodes.
Qed.

Lemma desired_in_app volume tr1 tr2 n : desired_in volume tr1 n → desired_in volume (tr1 ++ tr2) n.
Proof.
  unfold desired_in. destruct (ParseReplicaCount _) as [[m []]|]; [|done..].
  intros (nodes & Hl & ->). exists nodes. split; [|done]. rw lists_app.
  by destruct (lists KNode tr1).
Qed.

Definition acts (tr : trace) : Prop := ¬ quiet tr.

(** The whole pass: what it did, and that it acts only above the threshold. *)
Lemma healReplicas_wp volume engine :
  wp (healReplicas volume engine)
    (λ tr r, heal_action volume engine tr ∧
       (acts tr → ∃ n, desired_in volume tr n ∧
          (n - 1 ≤ healthy_in volume tr (eng_Replicas engine))%Z)).
Proof.
  unfold healReplicas. ctl_step. eapply wp_mono, replicasForVolume_desired.
  assert (∀ tr, quiet tr → heal_action volume engine tr ∧
    (acts tr → ∃ n, desired_in volume tr n ∧
       (n - 1 ≤ healthy_in volume tr (eng_Replicas engine))%Z)) as Hquiet.
  { intros tr Hq. split; [by apply NoAction|by intros []]. }
  intros tr1 [n|e] [Hro1 Hn]; [|by apply Hquiet, read_only_quiet].
  specialize (Hn n eq_refl). ctl_step. eapply wp_mono, assess_wp.
  intros tr2 [[nh c]|e] [Hro2 Has].
  2:{ by apply Hquiet, quiet_app; apply read_only_quiet. }
  destruct (Has nh c eq_refl) as (hs & -> & Hcar & _ & Hle).
  cbn [app]. assert (read_only (tr1 ++ tr2)) as Hro12 by by apply read_only_app.
  pose proof (read_only_quiet _ Hro12) as Hq12.
  destruct (Z.ltb_spec c (if (n - 1 <? 0)%Z then 0%Z else (n - 1)%Z)) as [|Hge].
  { eapply wp_mono, heal_return_wp. intros tr3 r Hq3. rw app_assoc.
    by apply Hquiet, quiet_app. }
  ctl_step. eapply wp_mono, (heal_loop_wp volume _ engine hs 0 _ maxDuration (tr1 ++ tr2)); [|done|done|]; cycle 1.
  { intros j ra h Hj. cbn [Nat.add]. rw lookup_zip_with_Some in Hj.
    destruct Hj as (? & ? & [= -> ->] & Hra & Hh). split; [done|]. apply assessed_app. right.
    by eapply (Forall2_lookup_lr _ _ _ _ _ _ Hcar). }
  intros tr3 [cd|res] H3; cbn [one_post] in H3.
  - eapply wp_mono, heal_return_wp. intros tr4 r Hq4. rw !app_assoc.
    apply Hquiet, quiet_app; [|done]. apply quiet_app; [done|by apply read_only_quiet].
  - ctl_step. rw app_nil_r. rw app_assoc. split; [done|].
    intros _. exists n. split; [by apply desired_in_app, desired_in_app|].
    assert (healthy_in volume tr2 (eng_Replicas engine) ≤
            healthy_in volume ((tr1 ++ tr2) ++ tr3) (eng_Replicas engine))%Z.
    { apply healthy_in_mono. intros ra Hra.
      apply seen_healthy_app. left. apply seen_healthy_app. by right. }
    destruct (Z.ltb_spec (n - 1) 0); [unfold healthy_in|]; lia.
Qed.

(** *** The volume phase published by a pass *)
Section phases.
Context (ph : string).
Definition phase_event (e : event ctl) : Prop :=
  match status_of KVolume e with
  | Some v => vst_Phase (vol_status v) = ph ∨ vst_Phase (vol_status v) = VolumePhaseDegraded
  | None => True
  end.

Lemma phase_event_read e : is_read e = true → phase_event e.
Proof. destruct e as [[] r]; done. Qed.

Lemma heal_return_phase volume st reason msg res :
  vst_Phase (vol_status volume) = ph ∨ vst_Phase (vol_status volume) = VolumePhaseDegraded →
  safe phase_event (heal_return volume st reason msg res) (λ _, True).
Proof.
  intros Hv. unfold heal_return. ctl_safe_step. apply safe_set. intros now.
  split; [done|]. ctl_safe_steps; done.
Qed.

Lemma pod_by_name_phase ns name :
  safe phase_event (getReplicaPodByName ns name) (λ _, True).
Proof.
  apply read_only_safe; [apply phase_event_read|].
  eapply wp_mono, getReplicaPodByName_wp. by intros tr r [? _].
Qed.

Context (volume : Volume) (Hv : vst_Phase (vol_status volume) = ph).
Hint Resolve heal_return_phase : core.

Lemma drop_attachment_phase engine i ra reason msg :
  safe phase_event (drop_attachment volume engine i ra reason msg) (λ _, True).
Proof. unfold drop_attachment. ctl_safe_steps; auto. Qed.
Lemma recreate_phase engine i ra msg :
  safe phase_event (recreate volume engine i ra msg) (λ _, True).
Proof. unfold recreate. ctl_safe_steps; auto using drop_attachment_phase. Qed.
Lemma restart_pod_phase nh i h ra pod :
  safe phase_event (restart_pod volume nh i h ra pod) (λ _, True).
Proof. unfold restart_pod. cbv zeta. ctl_safe_steps; auto. Qed.
Lemma remaining_phase b last : safe phase_event (remaining_of b last) (λ _, True).
Proof. unfold remaining_of, Since. ctl_safe_steps; done. Qed.

Lemma heal_one_phase engine nh i ra h c :
  safe phase_event (heal_one volume engine nh i ra h c) (λ _, True).
Proof.
  unfold heal_one. cbv zeta.
  ctl_safe_steps; (eapply safe_mono;
    [|first [apply drop_attachment_phase|apply recreate_phase|apply restart_pod_phase
            |apply remaining_phase|apply pod_by_name_phase]]);
    intros ? _; ctl_safe_steps; try done; (eapply safe_mono;
    [|first [apply recreate_phase|apply restart_pod_phase|apply remaining_phase]]);
    intros ? _; ctl_safe_steps; try done;
    (eapply safe_mono; [|apply restart_pod_phase]); intros ? _; by ctl_safe_steps.
Qed.

Lemma heal_loop_phase engine nh i todo c :
  safe phase_event (heal_loop volume engine nh i todo c) (λ _, True).
Proof.
  revert i c. induction todo as [|[ra h] todo IH]; intros i c; cbn [heal_loop];
    ctl_safe_steps; [done|].
  eapply safe_mono, heal_one_phase. intros [c'|r] _; [apply IH|by ctl_safe_steps].
Qed.
End phases.

Lemma healReplicas_phase volume engine :
  safe (phase_event (vst_Phase (vol_status volume))) (healReplicas volume engine) (λ _, True).
Proof.
  unfold healReplicas. ctl_safe_step. eapply safe_mono; cycle 1.
  { apply (read_only_safe _ _ (λ _, True)), wp_mono with (2 := replicasForVolume_wp volume);
      [apply phase_event_read|by intros tr r []]. }
  intros [n|e] _; [|done]. ctl_safe_step. eapply safe_mono; cycle 1.
  { apply (read_only_safe _ _ (λ _, True)), wp_mono with (2 := assess_wp _ _ _ _);
      [apply phase_event_read|by intros tr r []]. }
  intros [[nh c]|e] _; [|done].
  destruct (_ <? _)%Z; [apply heal_return_phase; by right|].
  ctl_safe_step. eapply safe_mono, heal_loop_phase; [|done].
  intros [cd|res] _; [apply heal_return_phase; by left|by ctl_safe_steps].
Qed.

(** ** Properties *)

(** C11. The N-1 guard: whatever the API server answers, a pass that deletes a
    replica or a pod or changes the engine has read a desired count [n] and has
    seen at least [n-1] attachments healthy, that is, with a running replica CR
    that has an NQN and a running pod of its own. *)
Theorem heal_guard (volume : Volume) (engine : Engine) (tr : trace) (r : result Healed) :
  exec (healReplicas volume engine) tr r → acts tr →
  ∃ n, desired_in volume tr n ∧
       (n - 1 ≤ healthy_in volume tr (eng_Replicas engine))%Z.
Proof.
  intros Hex Hacts. destruct (exec_wp _ _ _ _ Hex (healReplicas_wp volume engine))
    as [_ H]. auto.
Qed.


(** The restart backoff doubles from 30 s, stays at most 480 s and is
    exhausted from five attempts on. *)
Theorem healingBackoff_spec (a : Z) :
  (healingBackoff a).2 = (5 <=? a)%Z ∧
  ((a < 5)%Z → (healingBackoff a).1 = 30 * Second * 2 ^ Z.max 0 a ∧
               30 * Second ≤ (healingBackoff a).1 ≤ 480 * Second)%Z ∧
  ((0 ≤ a < 4)%Z → (healingBackoff (a + 1)).1 = 2 * (healingBackoff a).1)%Z.
Proof.
  rw !healingBackoff_eq. split; [by destruct (5 <=? a)%Z|]. split.
  - intros Ha. destruct (Z.leb_spec 5 a); [lia|]. cbn [fst]. split; [done|].
    assert (2 ^ Z.max 0 a ≤ 2 ^ 4)%Z by (apply Z.pow_le_mono_r; lia).
    assert (0 < 2 ^ Z.max 0 a)%Z by (apply Z.pow_pos_nonneg; lia).
    unfold Second. lia.
  - intros Ha. destruct (Z.leb_spec 5 a), (Z.leb_spec 5 (a + 1)); [lia..|]. cbn [fst].
    rw !Z.max_r; [|lia..]. rw Z.pow_add_r; lia.
Qed.

(** Two replicas of volume v: the first healthy, the second failed with its
    restarts exhausted; a third world has it gone. *)
Definition sick_volume : Volume :=
  mkVolume (newMeta "v" "ns") (mkVolumeSpec "1Gi" "kdfs" "w1" "2" None)
    (mkVolumeStatus "Creating" (Some (mkNORef "v-engine" "ns"))
       [mkHealth "v-replica-1" "w2" "Failed" 5 (Some 0%Z)] []).
Definition sick_engine : Engine :=
  mkEngine (newMeta "v-engine" "ns")
    (mkEngineSpec "v" "w1" [newAttachment "v-replica-0" "w1"; newAttachment "v-replica-1" "w2"])
    zeroEngineStatus.
Definition sick_replica (name phase nqn : string) : Replica :=
  mkReplica (newMeta name "ns") (mkReplicaSpec "v" "w" "Remote" "1Gi" "/d" "")
    (mkReplicaStatus phase "" nqn "" []).
Definition sick_world : world :=
  put KVolume sick_volume (put KEngine sick_engine
    (put KReplica (sick_replica "v-replica-0" "Running" "nqn")
    (put KReplica (sick_replica "v-replica-1" "Failed" "")
    (put KPod (running_pod "v-replica-0-pod" "ns" "replica" "10.0.0.1")
    (put KPod (running_pod "v-replica-1-pod" "ns" "replica" "10.0.0.2") empty_world))))).
Definition sick_run := run mem_handler (healReplicas sick_volume sick_engine) sick_world.

Lemma heal_guard_witness :
  acts sick_run.1.1 ∧ ∃ n, desired_in sick_volume sick_run.1.1 n ∧
       (n - 1 ≤ healthy_in sick_volume sick_run.1.1 (eng_Replicas sick_engine))%Z.
Proof.
  assert (acts sick_run.1.1) as Hacts.
  { intros [H _]. vm_compute in H. discriminate. }
  split; [exact Hacts|].
  apply (heal_guard sick_volume sick_engine sick_run.1.1 sick_run.1.2); [|exact Hacts].
  exact (exec_of_run mem_handler _ sick_world _ eq_refl).
Defined.


(** A running local replica has no pod and no NQN, so it never counts as
    healthy: while the volume is not ready, the first pass that may act deletes
    its CR and detaches it as "pod missing".  The message of the published
    condition names the next attachment: the loop pointer reads the slot after
    the removal shifted it. *)
Definition local_world : world :=
  put KVolume sick_volume (put KEngine sick_engine
    (put KReplica (mkReplica (newMeta "v-replica-0" "ns")
       (mkReplicaSpec "v" "w1" "Local" "1Gi" "/d" "") (mkReplicaStatus "Running" "/dev/loop0" "" "" []))
    (put KReplica (sick_replica "v-replica-1" "Running" "nqn")
    (put KPod (running_pod "v-replica-1-pod" "ns" "replica" "10.0.0.2") empty_world)))).
Theorem heal_deletes_local_replica :
  let '(tr, r, _) := run mem_handler (healReplicas sick_volume sick_engine) local_world in
  r = Ok (true, 0%Z) ∧
  deletes KReplica tr = [mkName "ns" "v-replica-0"] ∧
  (λ e, ra_Name <$> eng_Replicas e) <$> updates KEngine tr = [["v-replica-1"]] ∧
  (λ v, cond_Message <$> vst_Conditions (vol_status v)) <$> status_updates KVolume tr =
    [["recreating replica v-replica-1 (pod missing)"]].
Proof. vm_compute. done. Qed.

(** For the same reason a volume with a local replica is never healed: when
    another replica goes missing, two do not count as healthy, which is one more
    than the guard allows. *)
Definition missing_world : world :=
  put KVolume sick_volume (put KEngine sick_engine
    (put KReplica (mkReplica (newMeta "v-replica-0" "ns")
       (mkReplicaSpec "v" "w1" "Local" "1Gi" "/d" "") (mkReplicaStatus "Running" "/dev/loop0" "" "" []))
    empty_world)).
Theorem local_replica_blocks_healing :
  let '(tr, r, _) := run mem_handler (healReplicas sick_volume sick_engine) missing_world in
  r = Ok (false, 0%Z) ∧ deletes KReplica tr = [] ∧ deletes KPod tr = [] ∧ updates KEngine tr = [] ∧
  (λ v, (vst_Phase (vol_status v), cond_Message <$> vst_Conditions (vol_status v))) <$> status_updates KVolume tr =
    [(VolumePhaseDegraded, ["only 0 healthy replicas, need at least 1"])].
Proof. vm_compute. done. Qed.
