(* ===== verification/VolumeController.v ===== *)
(** * internal/controller/volume_controller.go: the volume reconciler *)
From S2P Require Import Prelude GoStrings K8s ApiTypes Names WireTypes Client MemStore Status VolumeNodes VolumeScale VolumeHeal.

Definition engine_key (volume : Volume) : NamespacedName :=
  mkName (vol_Namespace volume) (EngineName (vol_Name volume)).

(** ** childrenReady *)
Fixpoint replicas_running (namespace : string) (ras : list ReplicaAttachment)
    : M (result bool) :=
  match ras with
  | [] => Ret (Ok true)
  | attach :: ras' =>
      r ← kGet KReplica (mkName namespace (ra_Name attach));
      match r with
      | Err e => Ret (IgnoreNotFound false e)
      | Ok replica =>
          if bool_decide (rst_Phase (rep_status replica) ≠ ReplicaPhaseRunning)
          then Ret (Ok false)
          else replicas_running namespace ras'
      end
  end.

Definition childrenReady (volume : Volume) : M (result bool) :=
  r ← kGet KEngine (engine_key volume);
  match r with
  | Err e => Ret (IgnoreNotFound false e)
  | Ok engine =>
      if bool_decide (est_Phase (eng_status engine) ≠ EnginePhaseRunning)
      then Ret (Ok false)
      else replicas_running (vol_Namespace volume) (eng_Replicas engine)
  end.

(** ** First reconcile: schedule the children *)
Definition schedule_node (volume : Volume) : M (result Volume) :=
  if bool_decide (vs_NodeID (vol_spec volume) = "") then
    node ←? pickAnyWorkerNode;
    kUpdate KVolume (vol_set_NodeID node volume)
  else Ret (Ok volume).

Definition reconcile_new (volume : Volume) : M Reconciled :=
  volume ←! schedule_node volume;
  n ←! replicasForVolume volume;
  nodes ←! pickWorkerNodes n;
  _ ←! ensureChildren volume nodes;
  let volume := vol_set_EngineRef
    (Some (mkNORef (EngineName (vol_Name volume)) (vol_Namespace volume))) volume in
  let volume := vol_set_Phase VolumePhaseCreating volume in
  conds ← SetTrue (vst_Conditions (vol_status volume)) VolumeConditionScheduled
            "ChildrenCreated" "engine and replicas were created";
  finish (kStatusUpdate KVolume (vol_set_Conditions conds volume)).

(** ** Later reconciles *)
Definition mark_ready (volume : Volume) : M Reconciled :=
  let volume := vol_set_Phase VolumePhaseReady volume in
  conds ← SetTrue (vst_Conditions (vol_status volume)) VolumeConditionEngineReady
            "EngineRunning" "engine is running";
  conds ← SetTrue conds VolumeConditionReplicasReady
            "ReplicasRunning" "all replicas are running";
  finish (kStatusUpdate KVolume (vol_set_Conditions conds volume)).

Definition expected_type (volume : Volume) (ra : ReplicaAttachment) : string :=
  if bool_decide (ra_NodeID ra = vs_NodeID (vol_spec volume)) then ReplicaTypeLocal
  else ReplicaTypeRemote.

(** A replica that cannot be read is left alone. *)
Fixpoint fix_types (volume : Volume) (ras : list ReplicaAttachment) : M (result unit) :=
  match ras with
  | [] => Ret (Ok tt)
  | ra :: ras' =>
      r ← kGet KReplica (mkName (vol_Namespace volume) (ra_Name ra));
      match r with
      | Err _ => fix_types volume ras'
      | Ok replica =>
          if bool_decide (rs_Type (rep_spec replica) ≠ expected_type volume ra) then
            _ ←? kUpdate KReplica (rep_set_Type (expected_type volume ra) replica);
            fix_types volume ras'
          else fix_types volume ras'
      end
  end.

Definition heal_or_wait (volume : Volume) (engine : Engine) : M Reconciled :=
  hr ←! healReplicas volume engine;
  let '(healed, requeueAfter) := hr in
  if (healed : bool) then reconciled None
  else if (requeueAfter >? 0)%Z then requeue requeueAfter
  else requeue (5 * Second)%Z.

(** What follows the readiness test: types, then scale, else healing. *)
Definition settle (volume : Volume) (ready : bool) (engine : Engine) : M Reconciled :=
  _ ←! fix_types volume (eng_Replicas engine);
  desired ←! replicasForVolume volume;
  if negb (desired =? Z.of_nat (length (eng_Replicas engine)))%Z then
    _ ←! ensureScale volume engine;
    reconciled None
  else if negb ready then heal_or_wait volume engine
  else reconciled None.

Definition reconcile_existing (volume : Volume) : M Reconciled :=
  ready ←! childrenReady volume;
  if (ready : bool) && bool_decide (vst_Phase (vol_status volume) ≠ VolumePhaseReady)
  then mark_ready volume
  else
    r ← kGet KEngine (engine_key volume);
    match r with
    | Err e =>
        if IsNotFound e then
          finish (kStatusUpdate KVolume
            (vol_set_Phase VolumePhaseCreating (vol_set_EngineRef None volume)))
        else reconciled (Some e)
    | Ok engine => settle volume ready engine
    end.

Definition Reconcile (req : NamespacedName) : M Reconciled :=
  r ← kGet KVolume req;
  match r with
  | Err e => if IsNotFound e then reconciled None else reconciled (Some e)
  | Ok volume =>
      match vst_EngineRef (vol_status volume) with
      | None => reconcile_new volume
      | Some _ => reconcile_existing volume
      end
  end.

(** ** What a reconcile has seen *)
Definition running_engine (e : Engine) : Prop := est_Phase (eng_status e) = EnginePhaseRunning.
Definition running_replica (r : Replica) : Prop := rst_Phase (rep_status r) = ReplicaPhaseRunning.

(** An engine of the volume read as Running, with every attached replica. *)
Definition seen_ready (volume : Volume) (tr : trace) : Prop :=
  ∃ e, e ∈ reads KEngine (engine_key volume) tr ∧ running_engine e ∧
    ∀ ra, ra ∈ eng_Replicas e → ∃ rep,
      rep ∈ reads KReplica (mkName (vol_Namespace volume) (ra_Name ra)) tr ∧
      running_replica rep.

Lemma engine_seen_app volume tr1 tr2 :
  seen_ready volume tr1 ∨ seen_ready volume tr2 → seen_ready volume (tr1 ++ tr2).
Proof.
  intros [(e & He & Hr & H)|(e & He & Hr & H)]; exists e; rw reads_app;
    (split_and!; [set_solver|done|]); intros ra (rep & ? & ?)%H; exists rep;
    rw reads_app; set_solver.
Qed.

(** ** Lemmas *)
Lemma reads_cons_elem k key (o : obj k) e tr :
  o ∈ reads k key tr → o ∈ reads k key (e :: tr).
Proof. intros H. change (e :: tr) with ([e] ++ tr). rw reads_app. set_solver. Qed.

Lemma replicas_running_wp ns ras :
  wp (replicas_running ns ras)
    (λ tr r, read_only tr ∧ (r = Ok true → ∀ ra, ra ∈ ras → ∃ rep,
       rep ∈ reads KReplica (mkName ns (ra_Name ra)) tr ∧ running_replica rep)).
Proof.
  induction ras as [|ra ras IH]; cbn [replicas_running].
  - ctl_step. split; [constructor|]. set_solver.
  - ctl_steps.
    + split; [by repeat constructor|done].
    + apply bool_decide_eq_false in Heqb. apply dec_stable in Heqb.
      eapply wp_mono, IH. intros tr res [Hro H]. split; [by constructor|].
      intros Hok ra' [->|Hin]%elem_of_cons.
      * exists a. split; [apply reads_self|done].
      * destruct (H Hok ra' Hin) as (rep & ? & ?). exists rep.
        split; [by apply reads_cons_elem|done].
    + split; [by repeat constructor|]. unfold IgnoreNotFound. by destruct (IsNotFound e).
Qed.

Lemma childrenReady_wp volume :
  wp (childrenReady volume)
    (λ tr r, read_only tr ∧ (r = Ok true → seen_ready volume tr)).
Proof.
  unfold childrenReady. ctl_steps.
  - split; [by repeat constructor|done].
  - apply bool_decide_eq_false in Heqb. apply dec_stable in Heqb.
    eapply wp_mono, replicas_running_wp. intros tr res [Hro H].
    split; [by constructor|]. intros Hok. exists a. split_and!; [apply reads_self|done|].
    intros ra (rep & ? & ?)%H; [|done]. exists rep. split; [by apply reads_cons_elem|done].
  - split; [by repeat constructor|]. unfold IgnoreNotFound. by destruct (IsNotFound e).
Qed.

(** *** The volume phase published by scaling and type fixing *)
Lemma createIfMissing_phase ph (k : kind) (o : obj k) :
  safe (phase_event ph) (createIfMissing k o) (λ _, True).
Proof. unfold createIfMissing. ctl_safe_steps; done. Qed.

Lemma replicasForVolume_phase ph volume :
  safe (phase_event ph) (replicasForVolume volume) (λ _, True).
Proof.
  apply read_only_safe; [apply phase_event_read|].
  eapply wp_mono, replicasForVolume_wp. by intros tr r [].
Qed.

Lemma mark_scaling_phase ph volume reason current desired :
  safe (phase_event ph) (mark_scaling volume reason current desired) (λ _, True).
Proof.
  unfold mark_scaling. ctl_safe_step. apply safe_set. intros now. split; [done|].
  ctl_safe_steps. split; [by right|]. by ctl_safe_steps.
Qed.

Lemma scale_up_loop_phase ph volume n nodes S next ras :
  safe (phase_event ph) (scale_up_loop volume n nodes S next ras) (λ _, True).
Proof.
  revert nodes S next ras. induction n as [|n IH]; intros; cbn [scale_up_loop];
    ctl_safe_step; [done|].
  eapply safe_mono; cycle 1.
  { apply (read_only_safe _ _ (λ _, True)), wp_mono with (2 := pickUnusedNode_wp _);
      [apply phase_event_read|by intros tr r []]. }
  intros node _. ctl_safe_step. eapply safe_mono, createIfMissing_phase.
  intros [[]|e] _; [apply IH|done].
Qed.

Lemma scale_down_loop_phase ph volume n i :
  safe (phase_event ph) (scale_down_loop volume n i) (λ _, True).
Proof.
  revert i. induction n as [|n IH]; intros i; cbn [scale_down_loop]; ctl_safe_steps;
    auto.
Qed.

Lemma ensureScale_phase ph volume engine :
  safe (phase_event ph) (ensureScale volume engine) (λ _, True).
Proof.
  unfold ensureScale, scaleUp, scaleDown. ctl_safe_step.
  eapply safe_mono, replicasForVolume_phase. intros [n|e] _; [|done].
  ctl_safe_steps; try done; (eapply safe_mono;
    [|first [apply scale_up_loop_phase|apply scale_down_loop_phase]]);
    intros [ras|e] _; ctl_safe_steps; try done; apply mark_scaling_phase.
Qed.

Lemma fix_types_phase ph volume ras :
  safe (phase_event ph) (fix_types volume ras) (λ _, True).
Proof.
  induction ras as [|ra ras IH]; cbn [fix_types]; ctl_safe_steps; done.
Qed.

Lemma settle_phase volume ready engine :
  safe (phase_event (vst_Phase (vol_status volume))) (settle volume ready engine) (λ _, True).
Proof.
  unfold settle. ctl_safe_step. eapply safe_mono, fix_types_phase.
  intros [[]|e] _; [|done]. ctl_safe_step. eapply safe_mono, replicasForVolume_phase.
  intros [n|e] _; [|done]. destruct (negb (n =? _)%Z).
  - ctl_safe_step. eapply safe_mono, ensureScale_phase.
    intros [[]|e] _; by ctl_safe_steps.
  - destruct (negb ready); [|by ctl_safe_steps]. unfold heal_or_wait. ctl_safe_step.
    eapply safe_mono, healReplicas_phase. intros [[healed d]|e] _; by ctl_safe_steps.
Qed.

(** A status update that says Ready says what was seen, or repeats it. *)
Definition ready_justified (volume : Volume) (tr : trace) : Prop :=
  ∀ v, v ∈ status_updates KVolume tr → vst_Phase (vol_status v) = VolumePhaseReady →
       vst_Phase (vol_status volume) = VolumePhaseReady ∨ seen_ready volume tr.

Lemma phase_events_justified volume tr :
  Forall (phase_event (vst_Phase (vol_status volume))) tr → ready_justified volume tr.
Proof.
  intros H v (e & He & Hv)%list_elem_of_omap Hph. left.
  rw Forall_forall in H. specialize (H e He). unfold phase_event in H.
  rw Hv Hph in H. by destruct H.
Qed.

Lemma status_updates_read tr : read_only tr → status_updates KVolume tr = [].
Proof. by intros (_ & H & _)%read_only_writes. Qed.

Lemma reconcile_existing_ready volume :
  wp (reconcile_existing volume) (λ tr _, ready_justified volume tr).
Proof.
  unfold reconcile_existing. ctl_step. eapply wp_mono, childrenReady_wp.
  intros tr1 [ready|e] [Hro Hr]; cycle 1.
  { intros v Hin. rw (status_updates_read _ Hro) in Hin. by apply not_elem_of_nil in Hin. }
  assert (∀ tr2, ready_justified volume tr2 → ready_justified volume (tr1 ++ tr2)) as Happ.
  { intros tr2 H v. rw status_updates_app (status_updates_read _ Hro). intros Hin Hph.
    destruct (H v Hin Hph); [by left|right]. apply engine_seen_app. by right. }
  assert (∀ b, wp
    (r ← kGet KEngine (engine_key volume);
     match r with
     | Err e =>
         if IsNotFound e then
           finish (kStatusUpdate KVolume
             (vol_set_Phase VolumePhaseCreating (vol_set_EngineRef None volume)))
         else reconciled (Some e)
     | Ok engine => settle volume b engine
     end) (λ tr _, ready_justified volume tr)) as Hrest.
  { intros b. ctl_steps; cycle 1.
    - by intros v ->%list_elem_of_singleton Hph.
    - by intros v ?%not_elem_of_nil.
    - eapply wp_mono, (settle_phase volume b a). intros tr2 res [Hev _].
      apply phase_events_justified. by constructor. }
  destruct (ready && _) eqn:E; [|eapply wp_mono, (Hrest ready); intros; by apply Happ].
  apply andb_true_iff in E as [-> _]. unfold mark_ready. cbv zeta.
  ctl_step. apply wp_set. intros now. ctl_step. apply wp_set. intros now2. ctl_steps.
  all: intros v Hin _; right; apply engine_seen_app; left; by apply Hr.
Qed.

Lemma read_only_no_creates tr : read_only tr → ∀ k, creates k tr = [].
Proof. by intros (_ & _ & H & _)%read_only_writes. Qed.

(** Nothing is created and no status written before the children are. *)
Definition fresh (tr : trace) : Prop :=
  creates KReplica tr = [] ∧ creates KEngine tr = [] ∧ status_updates KVolume tr = [].
Lemma fresh_app tr1 tr2 : fresh tr1 → fresh tr2 → fresh (tr1 ++ tr2).
Proof.
  intros (H1 & H2 & H3) (H4 & H5 & H6). unfold fresh. trace_simpl.
  by rw H1 H2 H3 H4 H5 H6.
Qed.
Lemma read_only_fresh tr : read_only tr → fresh tr.
Proof. intros (_ & HS & HC & _)%read_only_writes. by split_and!. Qed.

Lemma schedule_node_wp volume :
  wp (schedule_node volume) (λ tr _, fresh tr).
Proof.
  unfold schedule_node, pickAnyWorkerNode. ctl_steps; try done.
  apply listNodes_wp. intros [nodes|e]; ctl_steps; done.
Qed.

(** What the first reconcile of a volume publishes. *)
Definition children_created (tr : trace) (v : Volume) : Prop :=
  vst_EngineRef (vol_status v) = Some (mkNORef (EngineName (vol_Name v)) (vol_Namespace v)) ∧
  vst_Phase (vol_status v) = VolumePhaseCreating ∧
  ∃ nodes, creates KReplica tr = replicas_from v 0 nodes ∧
           creates KEngine tr = [engine_for v (attachments_from v 0 nodes)].

Lemma children_created_app tr1 tr2 v :
  fresh tr1 → children_created tr2 v → children_created (tr1 ++ tr2) v.
Proof.
  intros (H1 & H2 & _) (? & ? & nodes & HR & HE). split_and!; [done..|].
  exists nodes. trace_simpl. by rw H1 H2 HR HE.
Qed.

Lemma reconcile_new_wp volume :
  wp (reconcile_new volume)
    (λ tr r, ∀ v, v ∈ status_updates KVolume tr → children_created tr v).
Proof.
  assert (∀ tr1 tr2, fresh tr1 →
    (∀ v, v ∈ status_updates KVolume tr2 → children_created tr2 v) →
    ∀ v, v ∈ status_updates KVolume (tr1 ++ tr2) → children_created (tr1 ++ tr2) v) as Happ.
  { intros tr1 tr2 Hf H v. destruct Hf as (?&?&HS). rw status_updates_app HS.
    intros Hin. by apply children_created_app, H. }
  assert (∀ tr, fresh tr → ∀ v, v ∈ status_updates KVolume tr → children_created tr v) as Hnil.
  { intros tr (_ & _ & ->) v Hv. by apply not_elem_of_nil in Hv. }
  unfold reconcile_new. ctl_step. eapply wp_mono, schedule_node_wp.
  intros tr1 [v1|e] Hf1; [|by apply Hnil].
  ctl_step. eapply wp_mono, replicasForVolume_wp.
  intros tr2 [n|e] [Hro2 _]; [|by apply Hnil, fresh_app, read_only_fresh].
  ctl_step. eapply wp_mono, pickWorkerNodes_wp.
  intros tr3 [nodes|e] [Hro3 _];
    [|apply Hnil; repeat apply fresh_app; first [done|by apply read_only_fresh]].
  ctl_step. eapply wp_mono; [|apply wp_and; [apply ensureChildren_wp|apply ensureChildren_status]].
  intros tr4 [[]|e] [(_ & HE & HR) HS]; cycle 1.
  { do 3 (apply Happ; [try done; by apply read_only_fresh|]). intros v. rw HS.
    intros Hv. by apply not_elem_of_nil in Hv. }
  destruct (HE (HR eq_refl)) as [HcR HcE].
  cbv zeta. ctl_step. apply wp_set. intros now. ctl_steps.
  all: do 3 (apply Happ; [try done; by apply read_only_fresh|]).
  all: intros v; rw status_updates_app HS; intros ->%list_elem_of_singleton.
  all: split_and!; [done..|]; exists nodes; trace_simpl; rw HcR HcE; cbn; by rw ?app_nil_r.
Qed.

(** ** Properties *)

(** C20. A reconcile publishes the phase Ready only for a volume that had it
    already, or after the same reconcile has read the volume's engine as Running
    and every replica attached to it as Running, whatever the API server
    answers. *)
Theorem Reconcile_ready_seen (req : NamespacedName) (tr : trace) (r : Reconciled)
    (v : Volume) :
  exec (Reconcile req) tr r →
  v ∈ status_updates KVolume tr → vst_Phase (vol_status v) = VolumePhaseReady →
  ∃ v0, v0 ∈ reads KVolume req tr ∧
        (vst_Phase (vol_status v0) = VolumePhaseReady ∨ seen_ready v0 tr).
Proof.
  intros Hex. revert v. refine (exec_wp _ (λ tr _, ∀ v, _ → _) _ _ Hex _). clear. unfold Reconcile. ctl_step. ctl_step.
  destruct r as [v0|e]; cycle 1.
  { by ctl_steps; intros v Hv; cbn in Hv; apply not_elem_of_nil in Hv. }
  destruct (vst_EngineRef (vol_status v0)) as [ref|].
  - eapply wp_mono, reconcile_existing_ready. intros tr res H v Hin Hph.
    exists v0. split; [apply reads_self|]. destruct (H v Hin Hph) as [?|Hs]; [by left|right].
    apply (engine_seen_app v0 [_] tr). by right.
  - eapply wp_mono, reconcile_new_wp. intros tr res H v Hin Hph.
    destruct (H v Hin) as (_ & Hc & _). by rw Hph in Hc.
Qed.

Definition ready_world : world :=
  put KVolume (vol_set_EngineRef (Some (mkNORef "v-engine" "ns")) (sample_volume "1"))
    (put KEngine (eng_set_status (est_set_Phase "Running" zeroEngineStatus)
        (engine_for (sample_volume "1") [newAttachment "v-replica-0" "w1"]))
    (put KReplica (rep_set_Type "Local" (sick_replica "v-replica-0" "Running" "")) empty_world)).
Definition ready_run := run mem_handler (Reconcile (mkName "ns" "v")) ready_world.
Definition ready_volume : Volume :=
  default (sample_volume "1") (head (status_updates KVolume ready_run.1.1)).

Lemma Reconcile_ready_seen_witness :
  vst_Phase (vol_status ready_volume) = VolumePhaseReady ∧
  ∃ v0, v0 ∈ reads KVolume (mkName "ns" "v") ready_run.1.1 ∧
        (vst_Phase (vol_status v0) = VolumePhaseReady ∨ seen_ready v0 ready_run.1.1).
Proof.
  split; [vm_compute; reflexivity|].
  apply (Reconcile_ready_seen _ ready_run.1.1 ready_run.1.2 ready_volume).
  - exact (exec_of_run mem_handler _ ready_world _ eq_refl).
  - vm_compute. apply list_elem_of_here.
  - vm_compute. reflexivity.
Defined.

(** The first reconcile of a volume publishes a status, and so the engine
    reference, only after asking for the engine and for every replica attached
    to it; the phase it publishes is Creating. *)
Theorem Reconcile_children_first (req : NamespacedName) (v0 : Volume) (tr : trace)
    (r : Reconciled) (v : Volume) :
  exec (Reconcile req) tr r →
  head (reads KVolume req tr) = Some v0 → vst_EngineRef (vol_status v0) = None →
  v ∈ status_updates KVolume tr → children_created tr v.
Proof.
  intros Hex. revert v. refine (exec_wp _ (λ tr _, ∀ v, _ → _) _ _ Hex _). clear. unfold Reconcile. ctl_step. ctl_step.
  destruct r as [v1|e]; cycle 1.
  { by ctl_steps; intros v _ _ Hv; cbn in Hv; apply not_elem_of_nil in Hv. }
  assert (∀ tr, head (reads KVolume req (ev (S:=ctl) (Get KVolume req) (Ok v1) :: tr)) = Some v1)
    as Hread by (intros tr; cbn; by rw bool_decide_true).
  destruct (vst_EngineRef (vol_status v1)) as [ref|] eqn:Href.
  - apply wp_exec. intros tr res _ v Hh Hn. cbn [app] in Hh. rw Hread in Hh. congruence.
  - eapply wp_mono, reconcile_new_wp. intros tr res H v _ _ Hin.
    by apply (children_created_app [_] tr), H.
Qed.

Definition new_world : world := put KVolume (sample_volume "2") small_cluster.
Definition new_run := run mem_handler (Reconcile (mkName "ns" "v")) new_world.
Definition new_volume : Volume :=
  default (sample_volume "1") (head (status_updates KVolume new_run.1.1)).

Lemma Reconcile_children_first_witness :
  new_run.1.2 = (noResult, None) ∧ children_created new_run.1.1 new_volume.
Proof.
  split; [vm_compute; reflexivity|].
  apply (Reconcile_children_first (mkName "ns" "v") (sample_volume "2")
           new_run.1.1 new_run.1.2).
  - exact (exec_of_run mem_handler _ new_world _ eq_refl).
  - vm_compute. reflexivity.
  - reflexivity.
  - vm_compute. apply list_elem_of_here.
Defined.

(** *** A cluster that answers from a snapshot *)
Section steady.
Context (f : ∀ c : ctl_call, ctl_reply c) (v : Volume) (e : Engine).
Definition read_call (c : ctl_call) : Prop :=
  match c with
  | Create _ _ | Update _ _ | StatusUpdate _ _ | Delete _ _ => False
  | _ => True
  end.
(** The replica of an attachment is running with the type its node asks for. *)
Definition settled (ra : ReplicaAttachment) : Prop :=
  ∃ rep, f (Get KReplica (mkName (vol_Namespace v) (ra_Name ra))) = Ok rep ∧
         running_replica rep ∧ rs_Type (rep_spec rep) = expected_type v ra.

Lemma replicas_running_in ras :
  (∀ ra, ra ∈ ras → settled ra) →
  result_in (S:=ctl) f (replicas_running (vol_Namespace v) ras) = Ok true ∧
  Forall read_call (calls_in (S:=ctl) f (replicas_running (vol_Namespace v) ras)).
Proof.
  induction ras as [|ra ras IH]; intros H; [done|].
  destruct (H ra) as (rep & Hf & Hr & _); [set_solver|].
  destruct IH as [IH1 IH2]; [set_solver|].
  cbn [replicas_running]. rw result_in_bind calls_in_bind /= Hf.
  rw bool_decide_false; [|by intros []]. split; [done|]. by constructor.
Qed.

Lemma fix_types_in ras :
  (∀ ra, ra ∈ ras → settled ra) →
  result_in (S:=ctl) f (fix_types v ras) = Ok tt ∧
  Forall read_call (calls_in (S:=ctl) f (fix_types v ras)).
Proof.
  induction ras as [|ra ras IH]; intros H; [done|].
  destruct (H ra) as (rep & Hf & _ & Ht); [set_solver|].
  destruct IH as [IH1 IH2]; [set_solver|].
  cbn [fix_types]. rw result_in_bind calls_in_bind /= Hf Ht.
  rw bool_decide_false; [|by intros []]. split; [done|]. by constructor.
Qed.

Lemma replicasForVolume_in : Forall read_call (calls_in (S:=ctl) f (replicasForVolume v)).
Proof.
  unfold replicasForVolume. destruct (ParseReplicaCount _) as [[n []]|]; cbn; try constructor.
  - done.
  - by destruct (f _).
Qed.

Context (He : f (Get KEngine (engine_key v)) = Ok e) (Hrun : running_engine e).
Context (Hras : ∀ ra, ra ∈ eng_Replicas e → settled ra).

Lemma childrenReady_in :
  result_in (S:=ctl) f (childrenReady v) = Ok true ∧
  Forall read_call (calls_in (S:=ctl) f (childrenReady v)).
Proof.
  destruct (replicas_running_in (eng_Replicas e) Hras) as [H1 H2].
  unfold childrenReady. rw result_in_bind calls_in_bind /= He.
  rw bool_decide_false; [|by intros []]. split; [done|]. by constructor.
Qed.

Lemma settle_in :
  result_in (S:=ctl) f (replicasForVolume v) = Ok (Z.of_nat (length (eng_Replicas e))) →
  result_in (S:=ctl) f (settle v true e) = (noResult, None) ∧
  Forall read_call (calls_in (S:=ctl) f (settle v true e)).
Proof.
  intros Hn. destruct (fix_types_in (eng_Replicas e) Hras) as [H1 H2].
  unfold settle, bind_rec. rw result_in_bind calls_in_bind H1.
  rw result_in_bind calls_in_bind Hn Z.eqb_refl. cbn [negb]. split; [done|].
  rw app_nil_r. apply Forall_app. split; [done|apply replicasForVolume_in].
Qed.
End steady.

(** C21. Steady state and progress: against a cluster in which the volume's
    engine and attached replicas are Running with the right types and as many
    as desired, a reconcile succeeds and writes nothing if the volume is Ready
    already; otherwise its only write, its last call, publishes the volume as
    Ready, and it succeeds exactly if the API server takes that write, without
    asking to be run again. *)
Theorem Reconcile_steady (f : ∀ c : ctl_call, ctl_reply c) (req : NamespacedName)
    (v : Volume) (e : Engine) (tr : trace) (r : Reconciled) :
  f (Get KVolume req) = Ok v → vst_EngineRef (vol_status v) ≠ None →
  f (Get KEngine (engine_key v)) = Ok e → running_engine e →
  (∀ ra, ra ∈ eng_Replicas e → settled f v ra) →
  result_in (S:=ctl) f (replicasForVolume v) = Ok (Z.of_nat (length (eng_Replicas e))) →
  exec (Reconcile req) tr r → answered (S:=ctl) f tr →
  (vst_Phase (vol_status v) = VolumePhaseReady →
     r = (noResult, None) ∧ Forall read_call (calls_of (S:=ctl) tr)) ∧
  (vst_Phase (vol_status v) ≠ VolumePhaseReady →
     ∃ calls v', calls_of (S:=ctl) tr = calls ++ [StatusUpdate KVolume v'] ∧
       Forall read_call calls ∧ vst_Phase (vol_status v') = VolumePhaseReady ∧
       vol_spec v' = vol_spec v ∧ r = (noResult, err_of (f (StatusUpdate KVolume v')))).
Proof.
  intros Hv Href He Hrun Hras Hn Hex Hall.
  destruct (exec_in (S:=ctl) f _ _ _ Hex Hall) as [-> ->].
  destruct (childrenReady_in f v e He Hrun Hras) as [Hc1 Hc2].
  destruct (settle_in f v e Hras Hn) as [Hs1 Hs2].
  unfold Reconcile. rw result_in_bind calls_in_bind.
  rw (Hv : result_in (S:=ctl) f (kGet KVolume req) = Ok v).
  destruct (vst_EngineRef (vol_status v)) as [ref|]; [|done].
  unfold reconcile_existing, bind_rec. rw result_in_bind calls_in_bind Hc1. cbn [andb].
  split; intros Hp.
  - rw bool_decide_false; [|by intros []]. rw result_in_bind calls_in_bind.
    rw (He : result_in (S:=ctl) f (kGet KEngine (engine_key v)) = Ok e).
    split; [done|]. constructor; [done|]. apply Forall_app. split; [done|]. by constructor.
  - rw bool_decide_true //. unfold mark_ready. cbv zeta.
    unfold SetTrue, finish. rw calls_in_bind (proj2 (set_in _ _ _ _ _ _)).
    rw calls_in_bind (proj2 (set_in _ _ _ _ _ _)) calls_in_bind.
    eexists (Get KVolume req :: calls_in (S:=ctl) f (childrenReady v) ++ [TimeNow; TimeNow]), _.
    split; [by rw app_comm_cons app_nil_r -app_assoc|].
    split_and!; [|done..|reflexivity]. constructor; [done|]. apply Forall_app. by split; [|repeat constructor].
Qed.

(** The snapshot of [ready_world]. *)
Definition ready_snapshot (c : ctl_call) : ctl_reply c := (mem_handler c ready_world).1.
Definition steady_run :=
  run (snapshot_handler (S:=ctl) ready_snapshot) (Reconcile (mkName "ns" "v")) tt.

Lemma Reconcile_steady_witness :
  ∃ calls v', calls_of (S:=ctl) steady_run.1.1 = calls ++ [StatusUpdate KVolume v'] ∧
    Forall read_call calls ∧ vst_Phase (vol_status v') = VolumePhaseReady ∧
    vol_spec v' = vol_spec (sample_volume "1") ∧
    steady_run.1.2 = (noResult, err_of (ready_snapshot (StatusUpdate KVolume v'))).
Proof.
  set (v := vol_set_EngineRef (Some (mkNORef "v-engine" "ns")) (sample_volume "1")).
  set (e := eng_set_status (est_set_Phase "Running" zeroEngineStatus)
        (engine_for (sample_volume "1") [newAttachment "v-replica-0" "w1"])).
  destruct (Reconcile_steady ready_snapshot (mkName "ns" "v") v e
    steady_run.1.1 steady_run.1.2)
    as [_ H].
  - vm_compute. reflexivity.
  - discriminate.
  - vm_compute. reflexivity.
  - vm_compute. reflexivity.
  - intros ra ->%list_elem_of_singleton.
    exists (rep_set_Type "Local" (sick_replica "v-replica-0" "Running" "")).
    split_and!; vm_compute; reflexivity.
  - vm_compute. reflexivity.
  - exact (exec_of_run (snapshot_handler (S:=ctl) ready_snapshot) _ tt _ eq_refl).
  - exact (run_answered (S:=ctl) ready_snapshot (Reconcile (mkName "ns" "v"))).
  - apply H. vm_compute. discriminate.
Defined.
