(* ===== verification/EngineTypes.v ===== *)
(** * The type of an engine

    Engines are shared: the volume controller creates and respecifies them, the
    engine controller publishes their status, the dashboard takes attachments
    out of them.  What they rely on is a type of engines: the name is derived
    from the volume's, every attachment is named after an index, and no two
    attachments have the same name.  This file says so as a contract of calls
    and shows that the volume controller, which does all but publish, keeps to
    it; Cluster.v has the other programs and their composition. *)
From S2P Require Import Prelude GoStrings K8s ApiTypes Names WireTypes Client MemStore Status VolumeNodes VolumeScale VolumeHeal VolumeController.

(** ** Well-typed engines *)
Definition index_name (volumeName name : string) : Prop :=
  ∃ i, (0 ≤ i)%Z ∧ name = ReplicaName volumeName i.
Definition wf_attachments (volumeName : string) (ras : list ReplicaAttachment) : Prop :=
  NoDup (ra_Name <$> ras) ∧ Forall (index_name volumeName) (ra_Name <$> ras).
Definition wf_engine (e : Engine) : Prop :=
  eng_Name e = EngineName (es_VolumeRef (eng_spec e)) ∧
  wf_attachments (es_VolumeRef (eng_spec e)) (eng_Replicas e).

(** A count that leaves room for the ten indices looked at above it. *)
Definition modest (n : Z) : Prop := (n + 10 ≤ max_int64)%Z.
Definition modest_volume (v : Volume) : Prop :=
  ∀ n, ParseReplicaCount (vs_ReplicaCount (vol_spec v)) = Ok (n, false) → modest n.

(** ** The contract

    Engines that are written are well typed.  What is promised of the answers:
    engines are well typed, a read answers the object it names, and volumes do
    not ask for nearly 2^63 replicas, nor are there that many objects. *)
Definition written_obj (k : kind) : obj k → Prop :=
  match k with KEngine => wf_engine | _ => λ _, True end.
Definition answered_obj (k : kind) : obj k → Prop :=
  match k with KEngine => wf_engine | KVolume => modest_volume | _ => λ _, True end.
Definition allowed (c : ctl_call) : Prop :=
  match c with
  | Create k o | Update k o | StatusUpdate k o => written_obj k o
  | _ => True
  end.
Definition promised (c : ctl_call) : ctl_reply c → Prop :=
  match c return ctl_reply c → Prop with
  | Get k key => λ r, ∀ o, r = Ok o → om_Name (obj_meta k o) = nn_Name key ∧ answered_obj k o
  | List k _ _ => λ r, ∀ l, r = Ok l → modest (Z.of_nat (length l)) ∧ Forall (answered_obj k) l
  | Create k _ | Update k _ | StatusUpdate k _ => λ r, ∀ o, r = Ok o → answered_obj k o
  | _ => λ _, True
  end.
Abbreviation Typed := (typed (S:=ctl) allowed promised).

(** [typed_step] advances the program by one construct, and stops at the
    operations that have a lemma. *)
Create HintDb typed.
Lemma typed_ret {A} (a : A) (R : A → Prop) : R a → Typed (Ret a) R.
Proof. done. Qed.
Lemma typed_call (c : ctl_call) (R : ctl_reply c → Prop) :
  allowed c → (∀ r, promised c r → R r) → Typed (ask (S:=ctl) c) R.
Proof. apply (typed_ask (S:=ctl)). Qed.
#[local] Transparent set.
Lemma typed_set cs t st reason msg (R : list Condition → Prop) :
  (∀ conds, R conds) → Typed (set cs t st reason msg) R.
Proof. intros H. split; [done|]. intros now _. apply H. Qed.
#[global] Opaque set.
Ltac typed_call c := apply (typed_call c); [try first [exact I | done]|intros ? ?; cbn beta].
Ltac typed_step :=
  cbn beta iota zeta;
  lazymatch goal with
  | |- typed _ _ (Ret _) _ => apply typed_ret; cbn beta
  | |- typed _ _ (reconciled _) _ => apply typed_ret; cbn beta
  | |- typed _ _ (requeue _) _ => apply typed_ret; cbn beta
  | |- typed _ _ (kGet ?k ?key) _ => typed_call (Get k key)
  | |- typed _ _ (kList ?k ?ns ?l) _ => typed_call (List k ns l)
  | |- typed _ _ (kCreate ?k ?o) _ => typed_call (Create k o)
  | |- typed _ _ (kUpdate ?k ?o) _ => typed_call (Update k o)
  | |- typed _ _ (kStatusUpdate ?k ?o) _ => typed_call (StatusUpdate k o)
  | |- typed _ _ (kDelete ?k ?key) _ => typed_call (Delete k key)
  | |- typed _ _ timeNow _ => typed_call TimeNow
  | |- typed _ _ (newRequest ?m ?u) _ => typed_call (HttpNewRequest m u)
  | |- typed _ _ (httpDo ?w ?m ?u ?b) _ => typed_call (HttpDo w m u b)
  | |- typed _ _ (ask ?c) _ => typed_call c
  | |- typed _ _ (finish _) _ => unfold finish
  | |- typed _ _ (bind_rec _ _) _ => unfold bind_rec
  | |- typed _ _ (set _ _ _ _ _) _ => apply typed_set; intros ?; cbn beta
  | |- typed _ _ (SetTrue _ _ _ _) _ => apply typed_set; intros ?; cbn beta
  | |- typed _ _ (SetFalse _ _ _ _) _ => apply typed_set; intros ?; cbn beta
  | |- typed _ _ (bind_ok _ _) _ => apply typed_bind_ok; cbn beta
  | |- typed _ _ (mbind _ _) _ => apply typed_bind; cbn beta
  | |- typed _ _ (match ?x with _ => _ end) _ => destruct x eqn:?
  | |- match ?x with Ok _ => _ | Err _ => _ end => destruct x eqn:?
  end.
Ltac typed_steps := repeat typed_step.
(** Using a lemma about the operation at the head. *)
Ltac typed_use H := eapply typed_mono; [|apply H].

(** ** Well-typed lists of attachments *)
Lemma wf_sublist v ras ras' : ras' `sublist_of` ras → wf_attachments v ras → wf_attachments v ras'.
Proof.
  intros Hsub%(fmap_sublist ra_Name) [Hnd Hix]. split; [by eapply sublist_NoDup|].
  rw Forall_forall in Hix. apply Forall_forall. intros n Hn. apply Hix. by eapply elem_of_sublist.
Qed.
Lemma wf_names v ras ras' :
  ra_Name <$> ras' = ra_Name <$> ras → wf_attachments v ras → wf_attachments v ras'.
Proof. unfold wf_attachments. by intros ->. Qed.
Lemma wf_set_Replicas e ras :
  wf_engine e → wf_attachments (es_VolumeRef (eng_spec e)) ras → wf_engine (eng_set_Replicas ras e).
Proof. by intros [? _]. Qed.
Lemma wf_set_status e st : wf_engine e → wf_engine (eng_set_status st e).
Proof. done. Qed.
Lemma wf_engine_for volume ras :
  wf_attachments (vol_Name volume) ras → wf_engine (engine_for volume ras).
Proof. done. Qed.
Lemma wf_from volume nodes : wf_attachments (vol_Name volume) (attachments_from volume 0 nodes).
Proof.
  split; [apply attachments_from_NoDup|]. rw attachments_from_names. apply Forall_fmap.
  apply Forall_forall. intros i Hi%elem_of_seqZ. exists i. split; [lia|done].
Qed.
Lemma removeAttachment_sublist ras i : removeAttachment ras i `sublist_of` ras.
Proof.
  unfold removeAttachment. rw -{3}(take_drop i ras). apply sublist_app; [done|].
  destruct (drop i ras) as [|ra rest] eqn:E.
  - apply (f_equal (drop 1)) in E. rw drop_drop Nat.add_1_r in E. by rw E.
  - apply (f_equal (drop 1)) in E. rw drop_drop Nat.add_1_r in E. rw E. cbn.
    rw drop_0. by apply sublist_cons.
Qed.
Lemma wf_added volume created ras added :
  wf_attachments (vol_Name volume) ras → NoDup (ra_Name <$> ras ++ added) →
  Forall (added_ok volume created) added → wf_attachments (vol_Name volume) (ras ++ added).
Proof.
  intros [_ Hix] Hnd Hadd. split; [done|]. rw fmap_app. apply Forall_app. split; [done|].
  apply Forall_fmap. eapply Forall_impl; [exact Hadd|]. intros a (j & ? & -> & _). by exists j.
Qed.
(** The engine of a volume refers to it. *)
Lemma wf_volume e volume :
  wf_engine e → eng_Name e = EngineName (vol_Name volume) →
  wf_attachments (vol_Name volume) (eng_Replicas e) ∧ es_VolumeRef (eng_spec e) = vol_Name volume.
Proof.
  intros [Hname Hwf] Hn. rw Hn in Hname. apply (inj EngineName) in Hname as Hname. by rw Hname.
Qed.

(** ** The volume controller *)
Lemma listNodes_typed (R : result (list Node) → Prop) :
  (∀ r, (∀ l, r = Ok l → modest (Z.of_nat (length l))) → R r) → Typed listNodes R.
Proof. intros H. unfold listNodes. typed_step. apply H. by intros l [? _]%H0. Qed.
Lemma replicasForVolume_typed volume :
  modest_volume volume →
  Typed (replicasForVolume volume) (λ r, ∀ n, r = Ok n → modest n ∧ (1 ≤ n)%Z).
Proof.
  intros Hv.
  assert (Typed (replicasForVolume volume) (λ r, ∀ n, r = Ok n → modest n)) as H.
  { unfold replicasForVolume. destruct (ParseReplicaCount _) as [[n auto]|e] eqn:E; [|by typed_step].
    destruct auto; cbn [negb].
    - typed_step. apply listNodes_typed. intros [nodes|e] Hn; [|done]. typed_step.
      intros n' [= <-]. specialize (Hn nodes eq_refl). unfold modest, auto_count in *.
      assert (length (filter (λ n, isCP n = false) nodes) ≤ length nodes) by apply length_filter.
      pose proof eq_refl : (max_int64 = 9223372036854775807)%Z. repeat case_decide; lia.
    - typed_step. intros n' [= <-]. by apply Hv. }
  eapply (typed_wp (S:=ctl)); [exact H|apply replicasForVolume_wp|].
  intros tr r H1 [_ H2] n Hn. split; [by apply H1|by apply H2].
Qed.

Lemma pickWorkerNodes_typed n : Typed (pickWorkerNodes n) (λ _, True).
Proof. unfold pickWorkerNodes. typed_step. apply listNodes_typed. intros [l|e] _; by typed_steps. Qed.
Lemma pickUnusedNode_typed used : Typed (pickUnusedNode used) (λ _, True).
Proof. unfold pickUnusedNode. typed_step. apply listNodes_typed. intros [l|e] _; by typed_steps. Qed.
Lemma createIfMissing_typed k o : written_obj k o → Typed (createIfMissing k o) (λ _, True).
Proof. intros Ho. unfold createIfMissing. by typed_steps. Qed.
Lemma create_replicas_typed volume i nodes ras :
  Typed (create_replicas volume i nodes ras) (λ _, True).
Proof.
  revert i ras. induction nodes as [|n nodes IH]; intros i ras; cbn [create_replicas];
    typed_steps; [done|].
  typed_use createIfMissing_typed; [|done]. intros [[]|e] _; [apply IH|done].
Qed.
Lemma ensureChildren_typed volume nodes : Typed (ensureChildren volume nodes) (λ _, True).
Proof.
  unfold ensureChildren. typed_step.
  eapply (typed_wp (S:=ctl)); [apply create_replicas_typed|apply create_replicas_wp|].
  intros tr [ras|e] _ (_ & _ & H); [|done]. destruct (H ras eq_refl) as [_ ->].
  apply createIfMissing_typed, wf_engine_for, wf_from.
Qed.
Lemma scale_up_loop_typed volume n nodes S next ras :
  Typed (scale_up_loop volume n nodes S next ras) (λ _, True).
Proof.
  revert nodes S next ras. induction n as [|n IH]; intros; cbn [scale_up_loop]; typed_steps; [done|].
  typed_use pickUnusedNode_typed. intros node _. typed_steps.
  typed_use createIfMissing_typed; [|done]. intros [[]|e] _; [apply IH|done].
Qed.
Lemma scale_down_loop_typed volume n i : Typed (scale_down_loop volume n i) (λ _, True).
Proof.
  revert i. induction n as [|n IH]; intros i; cbn [scale_down_loop]; typed_steps; by try apply IH.
Qed.
Lemma mark_scaling_typed volume reason current desired :
  Typed (mark_scaling volume reason current desired) (λ _, True).
Proof. unfold mark_scaling. by typed_steps. Qed.

(** Scaling and healing an engine that was read for the volume. *)
Section volume.
Context (volume : Volume) (engine : Engine).
Hypothesis Hengine : wf_engine engine.
Hypothesis Hname : eng_Name engine = EngineName (vol_Name volume).

Lemma respec_typed ras (R : result Engine → Prop) :
  wf_attachments (vol_Name volume) ras → (∀ r, R r) →
  Typed (kUpdate KEngine (eng_set_Replicas ras engine)) R.
Proof.
  intros Hras HR. destruct (wf_volume _ _ Hengine Hname) as [_ Href].
  typed_step; [|apply HR]. apply wf_set_Replicas; [done|]. by rw Href.
Qed.
Lemma respec_sublist ras (R : result Engine → Prop) :
  ras `sublist_of` eng_Replicas engine → (∀ r, R r) →
  Typed (kUpdate KEngine (eng_set_Replicas ras engine)) R.
Proof.
  intros Hsub. apply respec_typed. eapply wf_sublist; [exact Hsub|].
  by apply (wf_volume engine volume).
Qed.
Lemma scaleUp_typed desired :
  modest desired → (Z.of_nat (length (eng_Replicas engine)) < desired)%Z →
  Typed (scaleUp volume engine (Z.of_nat (length (eng_Replicas engine))) desired) (λ _, True).
Proof.
  intros Hmod Hlt. destruct (wf_volume _ _ Hengine Hname) as [Hwf _].
  pose proof (scale_inv_init volume desired _ Hmod ltac:(lia) (proj1 Hwf)) as Hinv.
  unfold scaleUp. typed_step. eapply (typed_wp (S:=ctl));
    [apply scale_up_loop_typed|eapply (scale_up_loop_wp _ _ _ _ _ _ _ Hinv); lia|].
  intros tr [ras|e] _ [_ HR]; [|done]. destruct (HR ras eq_refl) as (added & -> & _ & Hnd & Hadd).
  typed_step. apply respec_typed; [by eapply wf_added|]. intros [e'|e']; [|done].
  apply mark_scaling_typed.
Qed.
Lemma scaleDown_typed current desired : Typed (scaleDown volume engine current desired) (λ _, True).
Proof.
  unfold scaleDown. typed_step. typed_use scale_down_loop_typed. intros [[]|e] _; [|done].
  typed_step. apply respec_sublist; [apply sublist_take|]. intros [e'|e']; [|done].
  apply mark_scaling_typed.
Qed.
Lemma ensureScale_typed : modest_volume volume → Typed (ensureScale volume engine) (λ _, True).
Proof.
  intros Hv. unfold ensureScale. typed_step. typed_use replicasForVolume_typed; [|done].
  intros [n|e] Hn; [|done]. destruct (Hn n eq_refl) as [Hmod _]. typed_step; [by typed_step|].
  typed_step; [apply scaleUp_typed; [done|lia]|apply scaleDown_typed].
Qed.

Lemma drop_attachment_typed v i ra reason msg :
  Typed (drop_attachment v engine i ra reason msg) (λ _, True).
Proof.
  unfold drop_attachment. typed_step. apply respec_sublist; [apply removeAttachment_sublist|].
  intros [e'|e']; [|done]. unfold heal_return. by typed_steps.
Qed.
Lemma recreate_typed v i ra msg : Typed (recreate v engine i ra msg) (λ _, True).
Proof. unfold recreate. typed_steps; by try apply drop_attachment_typed. Qed.
Lemma restart_pod_typed v nh i h ra pod : Typed (restart_pod v nh i h ra pod) (λ _, True).
Proof. unfold restart_pod, heal_return. by typed_steps. Qed.
Lemma pod_by_name_typed ns name : Typed (getReplicaPodByName ns name) (λ _, True).
Proof. unfold getReplicaPodByName. by typed_steps. Qed.
Lemma remaining_of_typed b last : Typed (remaining_of b last) (λ _, True).
Proof. unfold remaining_of, Since. by typed_steps. Qed.
Lemma heal_one_typed v nh i ra h cooldown : Typed (heal_one v engine nh i ra h cooldown) (λ _, True).
Proof.
  unfold heal_one. repeat first
    [ done | typed_step
    | typed_use drop_attachment_typed; intros ? _ | typed_use recreate_typed; intros ? _
    | typed_use restart_pod_typed; intros ? _ | typed_use pod_by_name_typed; intros ? _
    | typed_use remaining_of_typed; intros ? _ ].
Qed.
Lemma heal_loop_typed v nh i todo cooldown : Typed (heal_loop v engine nh i todo cooldown) (λ _, True).
Proof.
  revert i cooldown. induction todo as [|[ra h] todo IH]; intros i cooldown; cbn [heal_loop];
    typed_steps; [done|]. typed_use heal_one_typed. intros [c|r] _; [apply IH|done].
Qed.
Lemma assess_typed v ras nh n : Typed (assess v ras nh n) (λ _, True).
Proof.
  revert nh n. induction ras as [|ra ras IH]; intros nh n; cbn [assess]; [done|].
  unfold assess_one. repeat first [done | apply IH | typed_step | typed_use pod_by_name_typed; intros ? _].
Qed.
Lemma healReplicas_typed v : modest_volume v → Typed (healReplicas v engine) (λ _, True).
Proof.
  intros Hv. unfold healReplicas. typed_step. typed_use replicasForVolume_typed; [|done].
  intros [n|e] _; [|done]. typed_step. typed_use assess_typed. intros [[nh k]|e] _; [|done].
  unfold heal_return. typed_step; typed_steps; try done.
  all: typed_use heal_loop_typed; intros [c|r] _; by typed_steps.
Qed.
End volume.

(** Reconciling. *)
Lemma schedule_node_typed volume :
  modest_volume volume →
  Typed (schedule_node volume) (λ r, ∀ v, r = Ok v → modest_volume v).
Proof.
  intros Hv. unfold schedule_node, pickAnyWorkerNode.
  assert (∀ node, Typed (kUpdate KVolume (vol_set_NodeID node volume))
    (λ r, ∀ v, r = Ok v → modest_volume v)) as Hup by (intros node; by typed_step).
  typed_step; [|typed_step; by intros v [= <-]]. typed_steps. apply listNodes_typed.
  intros [l|e] _; typed_steps; try apply Hup; done.
Qed.
Lemma reconcile_new_typed volume :
  modest_volume volume → Typed (reconcile_new volume) (λ _, True).
Proof.
  intros Hv. unfold reconcile_new. typed_steps. typed_use schedule_node_typed; [|done].
  intros [v|e] Hm; typed_steps; [|done]. specialize (Hm v eq_refl).
  typed_use replicasForVolume_typed; [|done]. intros [n|e] _; typed_steps; [|done].
  typed_use pickWorkerNodes_typed. intros [nodes|e] _; typed_steps; [|done].
  typed_use ensureChildren_typed. intros [[]|e] _; by typed_steps.
Qed.
Lemma replicas_running_typed ns ras : Typed (replicas_running ns ras) (λ _, True).
Proof. induction ras as [|ra ras IH]; cbn [replicas_running]; typed_steps; by try apply IH. Qed.
Lemma childrenReady_typed volume : Typed (childrenReady volume) (λ _, True).
Proof. unfold childrenReady. typed_steps; try done. apply replicas_running_typed. Qed.
Lemma fix_types_typed volume ras : Typed (fix_types volume ras) (λ _, True).
Proof. induction ras as [|ra ras IH]; cbn [fix_types]; typed_steps; by try apply IH. Qed.
Lemma settle_typed volume ready engine :
  modest_volume volume → wf_engine engine → eng_Name engine = EngineName (vol_Name volume) →
  Typed (settle volume ready engine) (λ _, True).
Proof.
  intros Hv He Hn. unfold settle, heal_or_wait. typed_steps. typed_use fix_types_typed.
  intros [[]|e] _; typed_steps; [|done]. typed_use replicasForVolume_typed; [|done].
  intros [n|e] _; [|done]. typed_step.
  - typed_steps. eapply typed_mono; [|by apply ensureScale_typed]. intros [[]|e] _; by typed_steps.
  - typed_step; typed_steps; [|done]. eapply typed_mono; [|by apply (healReplicas_typed volume)].
    intros [[[] d]|e] _; by typed_steps.
Qed.
Lemma reconcile_existing_typed volume :
  modest_volume volume → Typed (reconcile_existing volume) (λ _, True).
Proof.
  intros Hv. unfold reconcile_existing, mark_ready. typed_steps. typed_use childrenReady_typed.
  intros [ready|e] _; [|done]. typed_step; typed_steps; try done.
  apply settle_typed; [done| |]; by destruct (H a eq_refl).
Qed.
Lemma volume_typed req : Typed (Reconcile req) (λ _, True).
Proof.
  unfold Reconcile. typed_step. typed_step. destruct r as [volume|e]; [|by typed_steps].
  destruct (H volume eq_refl) as [_ Hv]. typed_step;
    [by apply reconcile_existing_typed|by apply reconcile_new_typed].
Qed.
