(* ===== verification/ReplicaController.v ===== *)
(** * internal/controller/replica_controller.go (and replicaPod of nodes.go) *)
From S2P Require Import Prelude GoStrings GoNet GoJson K8s ApiTypes Names Network WireTypes Client MemStore Status PodTemplates AgentClient SidecarClient VolumeScale.

(** [ReplicaReconciler]: the agent, or a factory of agents (the factory's
    answer is a call), and the status client. *)
Record ReplicaReconciler := mkReplicaReconciler {
  rr_Agent : option AgentClient;
  rr_hasFactory : bool;
  rr_SidecarStatusClient : option SidecarStatusClient }.

Definition replica_pod_key (replica : Replica) : NamespacedName :=
  mkName (rep_Namespace replica) (rep_Name replica +:+ "-pod").

(** The pod, nil when it does not exist, or an error. *)
Definition replicaPod (replica : Replica) : M (result (option Pod)) :=
  r ← kGet KPod (replica_pod_key replica);
  match r with
  | Err e => if IsNotFound e then Ret (Ok None) else Ret (Err e)
  | Ok pod => Ret (Ok (Some pod))
  end.

(** A factory answers a client or an error. *)
Definition choose_agent (r : ReplicaReconciler) (nodeID : string)
    : M (result AgentClient) :=
  match rr_Agent r with
  | Some a => Ret (Ok a)
  | None =>
      if rr_hasFactory r then ask (S := ctl) (AgentFactory nodeID)
      else Ret (Err (Errorf "replica reconciler agent client is not configured" []))
  end.

Definition snapshot_path (replica : Replica) : M string :=
  if bool_decide (rs_SnapshotSource (rep_spec replica) ≠ "") then
    r ← kGet KSnapshot (mkName (rep_Namespace replica) (rs_SnapshotSource (rep_spec replica)));
    match r with
    | Ok snap => Ret (sst_SnapshotPath (snap_status snap))
    | Err _ => Ret ""
    end
  else Ret "".

Definition replica_owner (replica : Replica) : OwnerReference :=
  mkOwner GroupVersion "Replica" (rep_Name replica) (om_UID (rep_meta replica)) None None.

Section controller.
Context `{Environ, PodImages}.

(** Running: the status fields, then the two conditions, then the update. *)
Definition publish_running (replica : Replica) : M Reconciled :=
  let st := rst_set_Running "aio0" (rep_status replica) in
  conds ← SetTrue (rst_Conditions st) ReplicaConditionFilesystemCreated "Created"
            "replica backing file was created";
  conds ← SetTrue conds ReplicaConditionBdevAttached "Attached"
            "replica backing bdev is attached";
  finish (kStatusUpdate KReplica (rep_set_status (rst_set_Conditions conds st) replica)).

Definition export_pod (replica : Replica) : Pod :=
  pod_set_owners [replica_owner replica] (ReplicaPodFor replica).

(** A remote replica: its pod, then its sidecar's status. *)
Definition reconcile_remote (r : ReplicaReconciler) (replica : Replica) : M Reconciled :=
  _ ←! createIfMissing KPod (export_pod replica);
  pod ←! replicaPod replica;
  match pod with
  | None => requeue (2 * Second)%Z
  | Some pod =>
      let podIP := pst_PodIP (pod_status pod) in
      if bool_decide (podIP = "") then requeue (2 * Second)%Z
      else
        s ← GetStatus (status_client (rr_SidecarStatusClient r)) podIP;
        match s with
        | Err _ => requeue (2 * Second)%Z
        | Ok status =>
            match validateReplicaSidecarStatus status with
            | Some _ => requeue (2 * Second)%Z
            | None =>
                let st := rst_set_Export (st_ReplicaNQN status) (st_Endpoint status)
                            (rep_status replica) in
                conds ← SetTrue (rst_Conditions st) ReplicaConditionNVMFExported "Exported"
                          "remote replica is exported over NVMe-oF";
                publish_running (rep_set_status (rst_set_Conditions conds st) replica)
            end
        end
  end.

(** Any other replica: no pod is left over. *)
Definition reconcile_local (replica : Replica) : M Reconciled :=
  let done_ := publish_running
    (rep_set_status (rst_set_Export "" "" (rep_status replica)) replica) in
  p ← replicaPod replica;
  match p with
  | Ok (Some pod) =>
      d ← kDelete KPod (key_of (pod_meta pod));
      match d with
      | Err e => if IsNotFound e then done_ else reconciled (Some e)
      | Ok _ => done_
      end
  | _ => done_
  end.

Definition provision (r : ReplicaReconciler) (replica : Replica) : M Reconciled :=
  agentClient ←! choose_agent r (rs_NodeID (rep_spec replica));
  snapPath ← snapshot_path replica;
  _ ←! CreateReplica agentClient
         (mkCreateReplica (rs_DataPath (rep_spec replica)) (rs_Size (rep_spec replica)) snapPath);
  if bool_decide (rs_Type (rep_spec replica) = ReplicaTypeRemote)
  then reconcile_remote r replica
  else reconcile_local replica.

Definition Reconcile (r : ReplicaReconciler) (req : NamespacedName) : M Reconciled :=
  g ← kGet KReplica req;
  match g with
  | Err e => if IsNotFound e then reconciled None else reconciled (Some e)
  | Ok replica =>
      if bool_decide (rst_Phase (rep_status replica) = ReplicaPhaseRunning) &&
         bool_decide (rs_Type (rep_spec replica) = ReplicaTypeRemote)
      then
        p ← replicaPod replica;
        match p with
        | Ok (Some pod) =>
            if bool_decide (pst_PodIP (pod_status pod) ≠ "") then reconciled None
            else provision r replica
        | _ => provision r replica
        end
      else provision r replica
  end.
End controller.

(** ** Lemmas *)
Lemma replicaPod_wp replica :
  wp (replicaPod replica) (λ tr _, read_only tr).
Proof. unfold replicaPod. ctl_steps; by repeat constructor. Qed.

Lemma choose_agent_wp r nodeID :
  wp (choose_agent r nodeID) (λ tr _, read_only tr).
Proof.
  unfold choose_agent. ctl_steps; by repeat constructor.
Qed.

Lemma snapshot_path_wp replica :
  wp (snapshot_path replica) (λ tr _, read_only tr).
Proof. unfold snapshot_path. ctl_steps; by repeat constructor. Qed.

Section published.
Context `{Environ, PodImages} (r : ReplicaReconciler).

(** What is published of a replica that was read as [replica]. *)
Definition exported (replica : Replica) (tr : trace) (v : Replica) : Prop :=
  creates KPod tr = [export_pod replica] ∧
  ∃ podIP s, podIP ≠ "" ∧ status_seen podIP s tr ∧ validateReplicaSidecarStatus s = None ∧
    rst_NQN (rep_status v) = st_ReplicaNQN s ∧ rst_Endpoint (rep_status v) = st_Endpoint s.
Definition not_exported (tr : trace) (v : Replica) : Prop :=
  creates KPod tr = [] ∧ rst_NQN (rep_status v) = "" ∧ rst_Endpoint (rep_status v) = "".
Definition running_published (replica : Replica) (tr : trace) (v : Replica) : Prop :=
  rep_spec v = rep_spec replica ∧ rst_Phase (rep_status v) = ReplicaPhaseRunning ∧
  rst_BdevName (rep_status v) = "aio0" ∧
  (if decide (rs_Type (rep_spec replica) = ReplicaTypeRemote)
   then exported replica tr v else not_exported tr v).

Lemma replica_running_wp replica Q :
  (∀ conds tr e, read_only tr →
     let v := rep_set_status (rst_set_Conditions conds
                (rst_set_Running "aio0" (rep_status replica))) replica in
     Q (tr ++ [ev (S:=ctl) (StatusUpdate KReplica v) e]) (noResult, err_of e)) →
  wp (publish_running replica) Q.
Proof.
  intros HQ. unfold publish_running. cbv zeta. ctl_step. apply wp_set. intros t1.
  ctl_step. apply wp_set. intros t2. ctl_steps.
  apply (HQ _ [ev (S:=ctl) TimeNow t1; ev (S:=ctl) TimeNow t2]). by repeat constructor.
Qed.
(** What a remote pass leaves behind. *)
Definition remote_post (replica : Replica) (tr : trace) : Prop :=
  updates KReplica tr = [] ∧ deletes KPod tr = [] ∧
  ∀ v, v ∈ status_updates KReplica tr →
    exported replica tr v ∧ rep_spec v = rep_spec replica ∧
    rst_Phase (rep_status v) = ReplicaPhaseRunning ∧ rst_BdevName (rep_status v) = "aio0".

Lemma remote_post_pending replica (c : result Pod) tr :
  read_only tr → remote_post replica (ev (S:=ctl) (Create KPod (export_pod replica)) c :: tr).
Proof.
  intros (HU & HS & _ & HD)%read_only_writes. split_and!; [apply HU|apply HD|].
  intros v Hv. change (v ∈ status_updates KReplica tr) in Hv. rw HS in Hv.
  by apply not_elem_of_nil in Hv.
Qed.

Lemma remote_post_published replica (c : result Pod) tr1 podIP s tr2 v e :
  read_only tr1 → read_only tr2 → status_seen podIP s tr1 → podIP ≠ "" →
  validateReplicaSidecarStatus s = None → rep_spec v = rep_spec replica →
  rst_Phase (rep_status v) = ReplicaPhaseRunning → rst_BdevName (rep_status v) = "aio0" →
  rst_NQN (rep_status v) = st_ReplicaNQN s → rst_Endpoint (rep_status v) = st_Endpoint s →
  remote_post replica ([ev (S:=ctl) (Create KPod (export_pod replica)) c] ++ tr1 ++ tr2 ++
                       [ev (S:=ctl) (StatusUpdate KReplica v) e]).
Proof.
  intros (A1 & A2 & A3 & A4)%read_only_writes (B1 & B2 & B3 & B4)%read_only_writes.
  intros Hs Hip Hval Hspec Hph Hb Hn He.
  split_and!; [by rw !updates_app A1 B1|by rw !deletes_app A4 B4|].
  intros v' Hv. rw !status_updates_app A2 B2 in Hv.
  apply list_elem_of_singleton in Hv as ->. split_and!; [split|done..].
  - rw !creates_app A3 B3. done.
  - exists podIP, s. split_and!; [done| |done..]. apply status_seen_app. right.
    apply status_seen_app. by left.
Qed.

Lemma reconcile_remote_wp replica :
  wp (reconcile_remote r replica) (λ tr _, remote_post replica tr).
Proof.
  unfold reconcile_remote. ctl_step. apply createIfMissing_wp; intros c; cycle 1.
  { intros e. apply (remote_post_pending replica c []). constructor. }
  ctl_step. eapply wp_mono, replicaPod_wp. intros tr1 p Hro1.
  destruct p as [[pod|]|e]; [|ctl_step; rw app_nil_r; by apply remote_post_pending|
                               by apply remote_post_pending].
  destruct (bool_decide_reflect (pst_PodIP (pod_status pod) = "")) as [|Hip].
  { ctl_step. rw app_nil_r. by apply remote_post_pending. }
  ctl_step. eapply wp_mono, GetStatus_wp. intros tr2 s [Hro2 Hs].
  destruct s as [s|e]; cycle 1.
  { ctl_step. rw app_nil_r. by apply remote_post_pending, read_only_app. }
  destruct (validateReplicaSidecarStatus s) eqn:Hval.
  { ctl_step. rw app_nil_r. by apply remote_post_pending, read_only_app. }
  cbv zeta. ctl_step. apply wp_set. intros t. apply replica_running_wp.
  intros conds tr3 e Hro3. cbv zeta. cbn beta. rw (app_assoc tr1). rw (app_assoc [_] tr3).
  eapply remote_post_published; [by apply read_only_app|by constructor| |done..].
  apply status_seen_app. right. by apply Hs.
Qed.

(** What a pass over any other replica leaves behind. *)
Definition local_post (replica : Replica) (tr : trace) : Prop :=
  updates KReplica tr = [] ∧ creates KPod tr = [] ∧
  ∀ v, v ∈ status_updates KReplica tr →
    not_exported tr v ∧ rep_spec v = rep_spec replica ∧
    rst_Phase (rep_status v) = ReplicaPhaseRunning ∧ rst_BdevName (rep_status v) = "aio0".

Lemma local_post_app replica tr1 tr2 :
  updates KReplica tr1 = [] → creates KPod tr1 = [] → status_updates KReplica tr1 = [] →
  local_post replica tr2 → local_post replica (tr1 ++ tr2).
Proof.
  intros H1 H2 H3 (H4 & H5 & H6). unfold local_post, not_exported. trace_simpl.
  rw H1 H2 H3 H4 H5. split_and!; [done..|]. intros v Hv.
  destruct (H6 v Hv) as ((_ & ? & ?) & ?). done.
Qed.

Lemma reconcile_local_wp replica :
  wp (reconcile_local replica) (λ tr _, local_post replica tr).
Proof.
  assert (∀ tr, updates KReplica tr = [] → creates KPod tr = [] →
    status_updates KReplica tr = [] →
    wp (publish_running (rep_set_status (rst_set_Export "" "" (rep_status replica)) replica))
      (λ tr2 _, local_post replica (tr ++ tr2))) as Hpub.
  { intros tr H1 H2 H3. apply replica_running_wp. intros conds tr2 e Hro.
    apply read_only_writes in Hro as (A1 & A2 & A3 & _).
    apply local_post_app; [done..|]. apply local_post_app; [done..|].
    split_and!; [done..|]. by intros v ->%list_elem_of_singleton. }
  unfold reconcile_local. cbv zeta. ctl_step. eapply wp_mono, replicaPod_wp.
  intros tr1 p (A1 & A2 & A3 & _)%read_only_writes.
  destruct p as [[pod|]|e]; [|by apply Hpub..].
  assert (∀ d : result unit, wp
    (publish_running (rep_set_status (rst_set_Export "" "" (rep_status replica)) replica))
    (λ tr2 _, local_post replica
       (tr1 ++ [ev (S:=ctl) (Delete KPod (key_of (pod_meta pod))) d] ++ tr2))) as Hdel.
  { intros d. eapply wp_mono, (Hpub (tr1 ++ [ev (S:=ctl) (Delete KPod _) d]));
      [|by rw ?updates_app ?creates_app ?status_updates_app ?A1 ?A2 ?A3..].
    intros tr2 res. cbn beta. by rw -app_assoc. }
  ctl_steps; [apply Hdel|apply Hdel|].
  apply local_post_app; [done..|]. split_and!; [done..|]. by intros v ?%not_elem_of_nil.
Qed.

(** Everything a reconcile publishes, for the replica as it was read. *)
Definition reconcile_post (replica : Replica) (tr : trace) : Prop :=
  updates KReplica tr = [] ∧
  ∀ v, v ∈ status_updates KReplica tr →
    running_published replica tr v ∧
    ∃ snapPath, provisioned (mkCreateReplica (rs_DataPath (rep_spec replica))
                   (rs_Size (rep_spec replica)) snapPath) tr.

Lemma reconcile_post_read_only replica tr : read_only tr → reconcile_post replica tr.
Proof.
  intros (HU & HS & _)%read_only_writes. split; [done|]. intros v. rw HS.
  by intros ?%not_elem_of_nil.
Qed.

Lemma exported_app replica tr1 tr2 v :
  creates KPod tr1 = [] → exported replica tr2 v → exported replica (tr1 ++ tr2) v.
Proof.
  intros Hc (HC & ip & s & Hip & Hs & Hrest). split; [by rw creates_app Hc|].
  exists ip, s. split_and!; [done| |apply Hrest..]. apply status_seen_app. by right.
Qed.

Lemma reconcile_post_app replica tr1 tr2 :
  read_only tr1 → reconcile_post replica tr2 → reconcile_post replica (tr1 ++ tr2).
Proof.
  intros (A1 & A2 & A3 & _)%read_only_writes [HU HS]. unfold reconcile_post. trace_simpl.
  rw A1 A2 HU. split; [done|]. intros v Hv.
  destruct (HS v Hv) as ((Hspec & Hph & Hb & Hx) & path & Hp).
  split; [|exists path; apply provisioned_app; by right]. split_and!; [done..|].
  case_decide; [by apply exported_app|]. destruct Hx as (HC & ? & ?).
  split_and!; [by rw creates_app A3|done..].
Qed.

Lemma provision_wp replica :
  wp (provision r replica) (λ tr _, reconcile_post replica tr).
Proof.
  unfold provision. ctl_step. eapply wp_mono, choose_agent_wp. intros tr1 a Hro1.
  destruct a as [a|e]; [|by apply reconcile_post_read_only].
  ctl_step. eapply wp_mono, snapshot_path_wp. intros tr2 path Hro2.
  ctl_step. eapply wp_mono, CreateReplica_wp. intros tr3 c [Hro3 Hc].
  destruct c as [c|e]; cycle 1.
  { apply reconcile_post_read_only, read_only_app. split; [done|].
    by apply read_only_app. }
  assert (∀ tr, updates KReplica tr = [] →
    (∀ v, v ∈ status_updates KReplica tr → running_published replica tr v) →
    reconcile_post replica (tr1 ++ tr2 ++ tr3 ++ tr)) as Hpost.
  { intros tr HU HS. do 2 (apply reconcile_post_app; [done|]).
    apply read_only_writes in Hro3 as (A1 & A2 & A3 & _).
    split; [by rw updates_app A1 HU|]. intros v. rw status_updates_app A2.
    intros Hv. split; [|exists path; apply provisioned_app; left; by apply Hc].
    destruct (HS v Hv) as (Hspec & Hph & Hb & Hx). split_and!; [done..|].
    case_decide; [by apply exported_app|]. destruct Hx as (HC & ? & ?).
    split_and!; [by rw creates_app A3|done..]. }
  destruct (bool_decide_reflect (rs_Type (rep_spec replica) = ReplicaTypeRemote)).
  - eapply wp_mono, reconcile_remote_wp. intros tr res (HU & _ & HS). apply Hpost; [done|].
    intros v (Hx & ? & ? & ?)%HS. split_and!; [done..|]. by rw decide_True.
  - eapply wp_mono, reconcile_local_wp. intros tr res (HU & _ & HS). apply Hpost; [done|].
    intros v (Hx & ? & ? & ?)%HS. split_and!; [done..|]. by rw decide_False.
Qed.
End published.

(** ** Properties *)

(** C16. Whatever the cluster answers, the only status a reconcile publishes is
    Running, and only after the node's agent has confirmed the replica's backing
    file.  For a remote replica its pod has been asked for, and the NQN and the
    endpoint are those its sidecar reported in a status that passes validation;
    any other replica is published without NQN and endpoint, and no pod is
    created for it. *)
Theorem Reconcile_published `{Environ, PodImages} (r : ReplicaReconciler)
    (req : NamespacedName) (tr : trace) (res : Reconciled) (v : Replica) :
  exec (Reconcile r req) tr res → v ∈ status_updates KReplica tr →
  ∃ replica, replica ∈ reads KReplica req tr ∧ running_published replica tr v ∧
    ∃ snapPath, provisioned (mkCreateReplica (rs_DataPath (rep_spec replica))
                   (rs_Size (rep_spec replica)) snapPath) tr.
Proof.
  intros Hex. revert v. refine (exec_wp _ (λ tr _, ∀ v, _ → _) _ _ Hex _). clear.
  unfold Reconcile. ctl_step. ctl_step. destruct r0 as [replica|e]; cycle 1.
  { by ctl_steps; intros v Hv; cbn in Hv; apply not_elem_of_nil in Hv. }
  set (get := ev (S:=ctl) (Get KReplica req) (Ok replica)).
  assert (∀ tr1 tr2, read_only tr1 → reconcile_post replica tr2 →
    ∀ v, v ∈ status_updates KReplica ([get] ++ tr1 ++ tr2) →
    ∃ replica, replica ∈ reads KReplica req ([get] ++ tr1 ++ tr2) ∧
      running_published replica ([get] ++ tr1 ++ tr2) v ∧
      ∃ snapPath, provisioned (mkCreateReplica (rs_DataPath (rep_spec replica))
        (rs_Size (rep_spec replica)) snapPath) ([get] ++ tr1 ++ tr2)) as Hfin.
  { intros tr1 tr2 Hro Hpost v Hv. exists replica. split; [apply reads_self|].
    apply (reconcile_post_app replica ([get] ++ tr1)) in Hpost; [|by constructor].
    rw -app_assoc in Hpost. by apply Hpost. }
  destruct (_ && _); cycle 1.
  { eapply wp_mono, (provision_wp r replica). intros tr res Hp. exact (Hfin [] tr (Forall_nil_2 _) Hp). }
  ctl_step. eapply wp_mono, replicaPod_wp. intros tr1 p Hro.
  destruct p as [[pod|]|e].
  2,3: eapply wp_mono, (provision_wp r replica); intros tr res Hp; exact (Hfin tr1 tr Hro Hp).
  destruct (bool_decide_reflect (pst_PodIP (pod_status pod) ≠ "")).
  2: eapply wp_mono, (provision_wp r replica); intros tr res Hp; exact (Hfin tr1 tr Hro Hp).
  ctl_step. apply (Hfin tr1 []); [done|]. apply reconcile_post_read_only. constructor.
Qed.

Lemma provision_creates `{Environ, PodImages} r replica :
  wp (provision r replica)
    (λ tr res, res.2 = None → ∃ snapPath,
       provisioned (mkCreateReplica (rs_DataPath (rep_spec replica))
         (rs_Size (rep_spec replica)) snapPath) tr).
Proof.
  unfold provision. ctl_step. apply wp_true. intros tr1 [a|e]; [|done].
  ctl_step. apply wp_true. intros tr2 path.
  ctl_step. eapply wp_mono, CreateReplica_wp. intros tr3 [c|e] [_ Hc]; [|done].
  apply wp_true. intros tr4 res _. exists path.
  do 2 (apply provisioned_app; right). apply provisioned_app. left. by apply Hc.
Qed.

#[local] Instance sample_environ : Environ := λ _, "".
#[local] Instance sample_images : PodImages := defaultPodImages.
Definition sample_reconciler : ReplicaReconciler :=
  mkReplicaReconciler (Some (OtherAgent 0)) false (Some (OtherStatusClient 0)).
Definition sample_replica : Replica :=
  mkReplica (newMeta "v-replica-1" "ns")
    (mkReplicaSpec "v" "w2" "Remote" "1Gi" "/var/lib/kdfs/v/vol.img" "") zeroReplicaStatus.
Definition replica_world : world :=
  let w := put KReplica sample_replica
    (put KPod (running_pod "v-replica-1-pod" "ns" "replica" "10.0.0.2") empty_world) in
  mkWorld (w_objs w) (w_clock w) (w_factory w) (w_create w)
    (λ _, Ok (mkSidecarStatus "replica" "10.0.0.2:4421" "" "nqn.x:replica-v-1")) (w_http w) (w_told w).
Definition replica_run :=
  run mem_handler (Reconcile sample_reconciler (mkName "ns" "v-replica-1")) replica_world.
Definition published_replica : Replica :=
  default sample_replica (head (status_updates KReplica replica_run.1.1)).

Lemma Reconcile_published_witness :
  rst_NQN (rep_status published_replica) = "nqn.x:replica-v-1" ∧
  ∃ replica, replica ∈ reads KReplica (mkName "ns" "v-replica-1") replica_run.1.1 ∧
    running_published replica replica_run.1.1 published_replica ∧
    ∃ snapPath, provisioned (mkCreateReplica (rs_DataPath (rep_spec replica))
                   (rs_Size (rep_spec replica)) snapPath) replica_run.1.1.
Proof.
  split; [vm_compute; reflexivity|].
  apply (Reconcile_published sample_reconciler (mkName "ns" "v-replica-1")
           replica_run.1.1 replica_run.1.2).
  - exact (exec_of_run mem_handler _ replica_world _ eq_refl).
  - vm_compute. apply list_elem_of_here.
Defined.

(** A remote replica that is Running and whose pod has an address is left
    alone: the reconcile only reads it and the pod.  A running replica of any
    other type is provisioned again by every reconcile: its agent is asked once
    more, unless none is configured or the factory fails. *)
Theorem Reconcile_running_replica `{Environ, PodImages} (r : ReplicaReconciler)
    (req : NamespacedName) (tr : trace) (res : Reconciled) (replica : Replica) :
  exec (Reconcile r req) tr res → head (reads KReplica req tr) = Some replica →
  rst_Phase (rep_status replica) = ReplicaPhaseRunning →
  if decide (rs_Type (rep_spec replica) = ReplicaTypeRemote) then
    ∀ pod, tr !! 1 ≫= answer_of KPod (replica_pod_key replica) = Some pod →
      pst_PodIP (pod_status pod) ≠ "" → res = (noResult, None) ∧ read_only tr ∧ length tr = 2
  else
    res.2 = None → ∃ snapPath, provisioned (mkCreateReplica (rs_DataPath (rep_spec replica))
                   (rs_Size (rep_spec replica)) snapPath) tr.
Proof.
  intros Hex. refine (exec_wp _ (λ tr res, _ → _) _ _ Hex _). clear.
  unfold Reconcile. ctl_step. ctl_step. destruct r0 as [rep|e]; cycle 1.
  { by ctl_steps. }
  assert (∀ tr, head (reads KReplica req (ev (S:=ctl) (Get KReplica req) (Ok rep) :: tr)) =
    Some rep) as Hhead by (intros tr; cbn; by rw bool_decide_true).
  apply wp_exec. intros tr res Hex Hh Hph. cbn [app] in Hh. rw Hhead in Hh.
  injection Hh as ->. rw Hph bool_decide_true // andb_true_l in Hex. case_decide as Ht.
  - intros pod Hpod Hip. rw (bool_decide_true _ Ht) in Hex. revert Hpod.
    refine (exec_wp _ (λ tr res, _ → _) _ _ Hex _). clear Hex tr res. unfold replicaPod.
    ctl_step. ctl_step. ctl_step. destruct r0 as [p|e].
    + ctl_step. apply wp_exec. intros tr res Hex Hp. cbn in Hp.
      rw bool_decide_true // in Hp. injection Hp as ->.
      rw bool_decide_true // in Hex. destruct Hex as [-> ->].
      split_and!; [done| |done]. by repeat constructor.
    + apply wp_true. intros tr1 p1. apply wp_true. intros tr2 res Hp. done.
  - rw (bool_decide_false _ Ht) in Hex. intros Hres.
    destruct (exec_wp _ _ _ _ Hex (provision_creates r replica) Hres) as [path Hp].
    exists path. apply (provisioned_app _ [_] tr). by right.
Qed.

Definition local_replica : Replica :=
  mkReplica (newMeta "v-replica-0" "ns")
    (mkReplicaSpec "v" "w1" "Local" "1Gi" "/var/lib/kdfs/v/vol.img" "")
    (mkReplicaStatus "Running" "aio0" "" "" []).
Definition local_world : world := put KReplica local_replica empty_world.
Definition local_run :=
  run mem_handler (Reconcile sample_reconciler (mkName "ns" "v-replica-0")) local_world.
Lemma Reconcile_running_replica_witness :
  ∃ snapPath, provisioned (mkCreateReplica "/var/lib/kdfs/v/vol.img" "1Gi" snapPath) local_run.1.1.
Proof.
  apply (Reconcile_running_replica sample_reconciler (mkName "ns" "v-replica-0")
           local_run.1.1 local_run.1.2 local_replica).
  - exact (exec_of_run mem_handler _ local_world _ eq_refl).
  - vm_compute. reflexivity.
  - reflexivity.
  - vm_compute. reflexivity.
Defined.
