(* ===== verification/EngineController.v ===== *)
(** * internal/controller/engine_controller.go (and its part of nodes.go) *)
From S2P Require Import Prelude GoStrings GoNet GoJson Sha256 K8s ApiTypes Names Network WireTypes Client MemStore Status PodTemplates AgentClient SidecarClient VolumeNodes VolumeScale.
From Stdlib Require Import Ascii.

(** ** Lookups *)
Definition replicaMode : gmap string string := {[ "kdfs.krea.to/mode" := "replica" ]}.

(** The error of the list is ignored: then there are no pods. *)
Definition getReplicaPod (replica : Replica) : M (option Pod) :=
  r ← kList KPod (Some (rep_Namespace replica)) replicaMode;
  match r with
  | Err _ => Ret None
  | Ok pods =>
      Ret (list_find (λ p : Pod, om_Name (pod_meta p) = rep_Name replica +:+ "-pod") pods
             ≫= λ ip, Some ip.2)
  end.

(** (podIP, exists, ready) *)
Definition getEnginePodInfo (engine : Engine) : M (string * bool * bool) :=
  match est_PodRef (eng_status engine) with
  | None => Ret ("", false, false)
  | Some ref =>
      r ← kGet KPod (mkName (pr_Namespace ref) (pr_Name ref));
      match r with
      | Err _ => Ret ("", false, false)
      | Ok pod =>
          let st := pod_status pod in
          let ready := bool_decide (pst_PodIP st ≠ "") && forallb id (pst_ContainerReady st) in
          let ready := if bool_decide (length (pst_ContainerReady st) = 0) then false else ready in
          Ret (pst_PodIP st, true, ready)
      end
  end.

Section controller.
Context `{Environ, PodImages}.

Definition worker_nqns (nodes : list Node) : list string :=
  (λ n, HostNQN (node_Name n)) <$> filter (λ n, isCP n = false) nodes.
Definition allowedHosts : M (list string) :=
  r ← listNodes;
  match r with
  | Err _ => Ret []
  | Ok nodes => Ret (worker_nqns nodes)
  end.

(** ** replicaStatus *)

(** One attachment: its new value and whether it is ready, or nothing when the
    replica does not exist. *)
Definition attachment_status (engine : Engine) (ra : ReplicaAttachment)
    : M (result (option (ReplicaAttachment * bool))) :=
  r ← kGet KReplica (mkName (eng_Namespace engine) (ra_Name ra));
  match r with
  | Err e => Ret (IgnoreNotFound None e)
  | Ok rep =>
      let isLocal := bool_decide (rs_NodeID (rep_spec rep) = es_NodeID (eng_spec engine)) in
      let ra := ra_set_IsLocal isLocal ra in
      if isLocal then
        Ret (Ok (Some (ra, bool_decide (rst_Phase (rep_status rep) = ReplicaPhaseRunning))))
      else
        pod ← getReplicaPod rep;
        if bool_decide (rst_Phase (rep_status rep) ≠ ReplicaPhaseRunning) ||
           bool_decide (rst_NQN (rep_status rep) = "") ||
           match pod with None => true | Some _ => false end
        then Ret (Ok (Some (ra, false)))
        else
          match SplitEndpoint (rst_Endpoint (rep_status rep)) with
          | Err e => Ret (Err e)
          | Ok (host, port) =>
              Ret (Ok (Some (ra_set_Endpoint (rst_NQN (rep_status rep)) host port ra, true)))
          end
  end.

(** The loop stops at the first replica that is missing. *)
Fixpoint attachments_status (engine : Engine) (ras acc : list ReplicaAttachment)
    (allReady : bool) : M (result (option (list ReplicaAttachment * bool))) :=
  match ras with
  | [] => Ret (Ok (Some (acc, allReady)))
  | ra :: ras' =>
      o ←? attachment_status engine ra;
      match o with
      | None => Ret (Ok None)
      | Some (ra', ready) => attachments_status engine ras' (acc ++ [ra']) (allReady && ready)
      end
  end.

(** The readiness, and the engine as it is then (the server's answer when the
    attachments changed). *)
Definition replicaStatus (engine : Engine) : M (result (bool * Engine)) :=
  o ←? attachments_status engine (eng_Replicas engine) [] true;
  match o with
  | None => Ret (Ok (false, engine))
  | Some (ras, allReady) =>
      if bool_decide (ras ≠ eng_Replicas engine) then
        engine ←? kUpdate KEngine (eng_set_Replicas ras engine);
        Ret (Ok (allReady, engine))
      else Ret (Ok (allReady, engine))
  end.

(** ** Creating the pod *)
Definition engine_owner (engine : Engine) : OwnerReference :=
  mkOwner GroupVersion "Engine" (eng_Name engine) (om_UID (eng_meta engine))
    (Some true) (Some true).

Definition engine_pod (engine : Engine) (hosts : list string) : Pod :=
  pod_set_owners [engine_owner engine] (EnginePodFor engine hosts).

Definition create_pod (engine : Engine) : M Reconciled :=
  hosts ← allowedHosts;
  let pod := engine_pod engine hosts in
  r ← kCreate KPod pod;
  let created (pod : Pod) : M Reconciled :=
    let st := est_set_PodRef
      (Some (mkPodRef (om_Name (pod_meta pod)) (om_Namespace (pod_meta pod)))) (eng_status engine) in
    let st := est_set_Phase EnginePhasePending st in
    conds ← SetTrue (est_Conditions st) EngineConditionPodScheduled "PodCreated"
              "engine pod was created";
    finish (kStatusUpdate KEngine (eng_set_status (est_set_Conditions conds st) engine)) in
  match r with
  | Err e => if IsAlreadyExists e then created pod else reconciled (Some e)
  | Ok pod => created pod
  end.

(** ** Reconfiguring a running engine *)
Definition reconfigure_payload (replicas : list ReplicaAttachment) : string :=
  Marshal (JObj [("replicas", attachments_json replicas)]).
Definition triggerReconfigure (podIP : string) (replicas : list ReplicaAttachment)
    : M (result unit) :=
  let payload := reconfigure_payload replicas in
  let url := reconfigureURL podIP in
  _ ←? newRequest "POST" url;
  resp ←? httpDo WantNothing "POST" url payload;
  if negb (hr_StatusCode resp =? 200)%Z then
    Ret (Err (Errorf "reconfigure returned %d" [Itoa (hr_StatusCode resp)]))
  else Ret (Ok tt).

(** The bdev names of the replicas that can be read. *)
Fixpoint bdev_parts (namespace : string) (ras : list ReplicaAttachment) (acc : list string)
    : M (list string) :=
  match ras with
  | [] => Ret acc
  | ra :: ras' =>
      r ← kGet KReplica (mkName namespace (ra_Name ra));
      match r with
      | Ok rep => bdev_parts namespace ras' (acc ++ [rst_BdevName (rep_status rep)])
      | Err _ => bdev_parts namespace ras' acc
      end
  end.

Definition publish_running (engine : Engine) (currentHash : string) : M Reconciled :=
  let st := est_set_Phase EnginePhaseRunning (est_set_Hash currentHash (eng_status engine)) in
  conds ← SetTrue (est_Conditions st) EngineConditionSPDKStarted "Started" "SPDK target is ready";
  bdevParts ← bdev_parts (eng_Namespace engine) (eng_Replicas engine) [];
  conds ← SetTrue conds EngineConditionRAIDConfigured "Configured"
            ("RAID-1 bdev is configured over " +:+ Join bdevParts ", ");
  conds ← SetTrue conds EngineConditionSubsystemReady "Ready" "NVMe-oF subsystem is listening";
  finish (kStatusUpdate KEngine (eng_set_status (est_set_Conditions conds st) engine)).

Definition publish_degraded (engine : Engine) : M Reconciled :=
  let st := est_set_Phase EnginePhaseDegraded (eng_status engine) in
  conds ← SetTrue (est_Conditions st) EngineConditionSPDKStarted "Reconfiguring"
            "replica scaling in progress";
  r ← kStatusUpdate KEngine (eng_set_status (est_set_Conditions conds st) engine);
  Ret (mkCtrlResult (5 * Second)%Z, err_of r).

Definition configure (engine : Engine) (podIP : string) (status : SidecarStatus)
    : M Reconciled :=
  let engine := eng_set_status
    (est_set_Target (st_Endpoint status) (st_SubsystemNQN status) (eng_status engine)) engine in
  let currentHash := replicasHash (eng_Replicas engine) in
  let lastHash := est_LastReplicasHash (eng_status engine) in
  if bool_decide (lastHash ≠ "") && bool_decide (lastHash ≠ currentHash) then
    r ← triggerReconfigure podIP (eng_Replicas engine);
    match r with
    | Err _ => publish_degraded engine
    | Ok _ => publish_running engine currentHash
    end
  else publish_running engine currentHash.

Definition observe (c : option SidecarStatusClient) (engine : Engine) : M Reconciled :=
  info ← getEnginePodInfo engine;
  let '(podIP, podExists, podReady) := info in
  if negb podExists then
    finish (kStatusUpdate KEngine (eng_set_status
      (est_set_Phase "" (est_set_PodRef None (eng_status engine))) engine))
  else if negb podReady then requeue (2 * Second)%Z  (* Phase = Pending is not stored *)
  else if bool_decide (podIP = "") then requeue (1 * Second)%Z
  else
    s ← GetStatus (status_client c) podIP;
    match s with
    | Err _ => requeue (2 * Second)%Z
    | Ok status =>
        match validateEngineSidecarStatus status with
        | Some _ => requeue (2 * Second)%Z
        | None => configure engine podIP status
        end
    end.

Definition Reconcile (c : option SidecarStatusClient) (req : NamespacedName) : M Reconciled :=
  r ← kGet KEngine req;
  match r with
  | Err e => if IsNotFound e then reconciled None else reconciled (Some e)
  | Ok engine =>
      re ←! replicaStatus engine;
      let '(ready, engine) := re in
      match est_PodRef (eng_status engine) with
      | None => if negb (ready : bool) then requeue (2 * Second)%Z else create_pod engine
      | Some _ => if negb (ready : bool) then requeue (2 * Second)%Z else observe c engine
      end
  end.
End controller.

(** ** mapEventToEngine *)
Record Event := mkEvent {
  e_Reason : string; io_Kind : string; io_Name : string; io_Namespace : string }.

Definition mapEventToEngine (event : Event) : list NamespacedName :=
  if bool_decide (e_Reason event ≠ "Scheduled") || bool_decide (io_Kind event ≠ "Pod") then []
  else
    let podName := io_Name event in
    if negb (HasSuffix podName "-pod") then []
    else
      match Split podName "-replica-" with
      | volumeName :: _ :: _ => [mkName (io_Namespace event) (EngineName volumeName)]
      | _ => []
      end.

(** ** Lemmas: events *)
Lemma replica_sep_first v rest :
  Contains (v +:+ "-") "-replica-" = false →
  Cut "-replica-" (v +:+ "-replica-" +:+ rest) = Some (v, rest).
Proof.
  intros Hv. apply Cut_first; [done|]. intros b a Heq.
  destruct (decide (String.length v ≤ String.length b)) as [|Hlt]; [done|exfalso].
  apply string_app_split in Heq as (c & w & -> & Heq); [|lia].
  change ("-replica-" +:+ ?x) with (String "-" (String "r" (String "e" (String "p"
    (String "l" (String "i" (String "c" (String "a" (String "-" x)))))))))%char in Heq.
  rw string_app_cons in Heq.
  do 8 (destruct w as [|? w];
    [rw string_app_nil_l in Heq; simplify_eq; try done
    |rw ?string_app_cons in Heq]).
  - apply (Contains_false _ _ b "" Hv). by rw string_app_assoc.
  - simplify_eq. apply (Contains_false _ _ b (w +:+ "-") Hv). by rw string_app_assoc.
Qed.

(** ** Lemmas: the pass *)
Lemma getReplicaPod_wp replica : wp (getReplicaPod replica) (λ tr _, read_only tr).
Proof. unfold getReplicaPod. ctl_steps; by repeat constructor. Qed.

Lemma getEnginePodInfo_wp engine :
  wp (getEnginePodInfo engine) (λ tr r, read_only tr ∧ (r.2 = true → r.1.1 ≠ "")).
Proof.
  unfold getEnginePodInfo. ctl_steps; (split; [by repeat constructor|]); try done.
  cbn. case_bool_decide; [done|]. intros [Hip _]%andb_true_iff.
  by apply bool_decide_eq_true in Hip.
Qed.

(** The replica of an attachment was read as ready for this engine: running on
    the engine's node, or running and exported at an endpoint that splits. *)
Definition replica_ready (engine : Engine) (rep : Replica) : Prop :=
  rst_Phase (rep_status rep) = ReplicaPhaseRunning ∧
  (rs_NodeID (rep_spec rep) = es_NodeID (eng_spec engine) ∨
   rst_NQN (rep_status rep) ≠ "" ∧ is_ok (SplitEndpoint (rst_Endpoint (rep_status rep))) = true).
Definition seen_ready (engine : Engine) (tr : trace) (ra : ReplicaAttachment) : Prop :=
  ∃ rep, rep ∈ reads KReplica (mkName (eng_Namespace engine) (ra_Name ra)) tr ∧
         replica_ready engine rep.

Lemma seen_ready_app engine tr1 tr2 ra :
  seen_ready engine tr1 ra ∨ seen_ready engine tr2 ra → seen_ready engine (tr1 ++ tr2) ra.
Proof.
  intros [(rep & ? & ?)|(rep & ? & ?)]; exists rep; rw reads_app; set_solver.
Qed.

(** An attachment keeps its name and its node. *)
Definition same_replica (ra ra' : ReplicaAttachment) : Prop :=
  ra_Name ra' = ra_Name ra ∧ ra_NodeID ra' = ra_NodeID ra.

Lemma attachment_status_wp engine ra :
  wp (attachment_status engine ra)
    (λ tr r, read_only tr ∧ ∀ ra' ready, r = Ok (Some (ra', ready)) →
       same_replica ra ra' ∧ (ready = true → seen_ready engine tr ra)).
Proof.
  unfold attachment_status. ctl_step. ctl_step. destruct r as [rep|e]; cycle 1.
  { ctl_step. split; [by repeat constructor|]. unfold IgnoreNotFound.
    destruct (IsNotFound e); intros ra' ready; congruence. }
  assert (∀ tr, replica_ready engine rep → seen_ready engine
    (ev (S:=ctl) (Get KReplica (mkName (eng_Namespace engine) (ra_Name ra))) (Ok rep) :: tr) ra)
    as Hseen by (intros tr Hr; exists rep; split; [apply reads_self|done]).
  cbv zeta. destruct (bool_decide_reflect (rs_NodeID (rep_spec rep) = es_NodeID (eng_spec engine))).
  { ctl_step. split; [by repeat constructor|]. intros ra' ready [= <- <-].
    split; [done|]. intros Hr%bool_decide_eq_true. apply (Hseen []). split; [done|by left]. }
  ctl_step. eapply wp_mono, getReplicaPod_wp. intros tr pod Hro.
  destruct (_ || _) eqn:E.
  { ctl_step. rw app_nil_r. split; [by constructor|]. by intros ra' ready [= <- <-]. }
  apply orb_false_iff in E as [[E1%bool_decide_eq_false E2%bool_decide_eq_false]%orb_false_iff _].
  apply dec_stable in E1.
  destruct (SplitEndpoint _) as [[host port]|e] eqn:Hsp; ctl_step; rw app_nil_r;
    (split; [by constructor|]); [|done].
  intros ra' ready [= <- <-]. split; [done|]. intros _. apply Hseen.
  split; [done|right]. by rw Hsp.
Qed.

Lemma attachments_status_wp engine ras acc allReady :
  wp (attachments_status engine ras acc allReady)
    (λ tr r, read_only tr ∧ ∀ ras' ready, r = Ok (Some (ras', ready)) →
       (∃ new, ras' = acc ++ new ∧ Forall2 same_replica ras new) ∧
       (ready = true → allReady = true ∧ Forall (seen_ready engine tr) ras)).
Proof.
  revert acc allReady. induction ras as [|ra ras IH]; intros acc allReady;
    cbn [attachments_status].
  - ctl_step. split; [constructor|]. intros ras' ready [= <- <-]. split; [|done].
    exists []. by rw app_nil_r.
  - ctl_step. eapply wp_mono, attachment_status_wp. intros tr1 o [Hro1 H1].
    destruct o as [[[ra' ready1]|]|e]; [|ctl_step; rw app_nil_r; by split|by split].
    destruct (H1 ra' ready1 eq_refl) as [Hsame Hready].
    eapply wp_mono, IH. intros tr2 r [Hro2 H2]. split; [by apply read_only_app|].
    intros ras' ready Hr. destruct (H2 ras' ready Hr) as [(new & -> & Hnew) Hall].
    split; [exists (ra' :: new); rw -app_assoc; by split; [|constructor]|].
    intros [[-> ->]%andb_true_iff Hrest]%Hall. split; [done|]. constructor.
    + apply seen_ready_app. left. by apply Hready.
    + eapply Forall_impl; [exact Hrest|]. intros x Hx. apply seen_ready_app. by right.
Qed.

(** The engine at hand: as it was read, or as the server answered its update. *)
Definition engine_at (req : NamespacedName) (tr : trace) (e : Engine) : Prop :=
  e ∈ reads KEngine req tr ∨ ∃ o, ev (S:=ctl) (Update KEngine o) (Ok e) ∈ tr.

Definition respec (engine : Engine) (tr : trace) : Prop :=
  ∀ e, e ∈ updates KEngine tr → ∃ ras, e = eng_set_Replicas ras engine ∧
    Forall2 same_replica (eng_Replicas engine) ras.

(** Nothing is published and no pod is asked for. *)
Definition unpublished (tr : trace) : Prop :=
  status_updates KEngine tr = [] ∧ creates KPod tr = [].
Lemma read_only_unpublished tr : read_only tr → unpublished tr.
Proof. by intros (_ & HS & HC & _)%read_only_writes. Qed.
Lemma unpublished_app tr1 tr2 : unpublished tr1 → unpublished tr2 → unpublished (tr1 ++ tr2).
Proof. intros [H1 H2] [H3 H4]. unfold unpublished. trace_simpl. by rw H1 H2 H3 H4. Qed.

Lemma replicaStatus_wp engine :
  wp (replicaStatus engine)
    (λ tr r, unpublished tr ∧ respec engine tr ∧ ∀ ready e', r = Ok (ready, e') →
       (e' = engine ∨ ∃ o, ev (S:=ctl) (Update KEngine o) (Ok e') ∈ tr) ∧
       (ready = true → Forall (seen_ready engine tr) (eng_Replicas engine))).
Proof.
  unfold replicaStatus. ctl_step. eapply wp_mono, attachments_status_wp.
  intros tr1 o [Hro H1].
  assert (respec engine tr1) as Hr1.
  { intros e. apply read_only_writes in Hro as (-> & _). by intros ?%not_elem_of_nil. }
  pose proof (read_only_unpublished _ Hro) as Hu1.
  destruct o as [[[ras allReady]|]|e]; cycle 1.
  { ctl_step. rw app_nil_r. split_and!; [done..|]. intros ready e' [= <- <-].
    split; [by left|done]. }
  { done. }
  destruct (H1 ras allReady eq_refl) as [(new & -> & Hnew) Hall]. cbn [app].
  destruct (bool_decide_reflect (new ≠ eng_Replicas engine)); cycle 1.
  { ctl_step. rw app_nil_r. split_and!; [done..|]. intros ready e' [= <- <-].
    split; [by left|]. intros Hready. by apply Hall. }
  assert (∀ x : result Engine,
    respec engine (tr1 ++ [ev (S:=ctl) (Update KEngine (eng_set_Replicas new engine)) x])) as Hr2.
  { intros x e. apply read_only_writes in Hro as (HU & _). rw updates_app HU.
    intros ->%list_elem_of_singleton. by exists new. }
  ctl_steps; rw ?app_nil_r; split_and!; try by apply unpublished_app.
  1,3: apply Hr2. 2: done.
  intros ready e' [= <- <-]. split.
  - right. eexists. apply elem_of_app. right. apply list_elem_of_here.
  - intros Hready. eapply Forall_impl; [by apply Hall|]. intros ra Hra.
    apply seen_ready_app. by left.
Qed.

(** *** What is published *)
Section published.
Context `{Environ, PodImages} (engine : Engine).

(** The sidecar acknowledged these attachments. *)
Definition reconfigured (podIP : string) (ras : list ReplicaAttachment) (tr : trace) : Prop :=
  ∃ resp : http_response WantNothing,
    ev (S:=ctl) (HttpDo WantNothing "POST" (reconfigureURL podIP)
         (Marshal (JObj [("replicas", attachments_json ras)]))) (Ok resp) ∈ tr ∧
    hr_StatusCode resp = 200%Z.

Definition hash_of (e : Engine) : string := est_LastReplicasHash (eng_status e).
Definition phase_of (e : Engine) : string := est_Phase (eng_status e).

(** The engine runs with the attachments of its spec, or could not be told. *)
Definition configured (podIP : string) (s : SidecarStatus) (tr : trace) (v : Engine) : Prop :=
  eng_meta v = eng_meta engine ∧ eng_spec v = eng_spec engine ∧
  est_Endpoint (eng_status v) = st_Endpoint s ∧
  est_SubsystemNQN (eng_status v) = st_SubsystemNQN s ∧
  ((phase_of v = EnginePhaseRunning ∧ hash_of v = replicasHash (eng_Replicas engine) ∧
    (hash_of engine = "" ∨ hash_of engine = hash_of v ∨
     reconfigured podIP (eng_Replicas engine) tr)) ∨
   (phase_of v = EnginePhaseDegraded ∧ hash_of v = hash_of engine ∧
    hash_of engine ≠ replicasHash (eng_Replicas engine))).

Definition published (tr : trace) (v : Engine) : Prop :=
  (phase_of v = EnginePhasePending ∧ is_Some (est_PodRef (eng_status v)) ∧
   ∃ hosts, creates KPod tr = [engine_pod engine hosts]) ∨
  (phase_of v = "" ∧ est_PodRef (eng_status v) = None ∧ creates KPod tr = []) ∨
  (creates KPod tr = [] ∧ ∃ podIP s, podIP ≠ "" ∧ status_seen podIP s tr ∧
     validateEngineSidecarStatus s = None ∧ configured podIP s tr v).

Lemma reconfigured_app podIP ras tr1 tr2 :
  reconfigured podIP ras tr1 ∨ reconfigured podIP ras tr2 → reconfigured podIP ras (tr1 ++ tr2).
Proof.
  intros [(resp & H1 & H2)|(resp & H1 & H2)]; exists resp; (split; [|done]);
    apply elem_of_app; [by left|by right].
Qed.

Lemma triggerReconfigure_wp podIP ras :
  wp (triggerReconfigure podIP ras)
    (λ tr r, read_only tr ∧ (r = Ok tt → reconfigured podIP ras tr)).
Proof.
  unfold triggerReconfigure. cbv zeta. ctl_steps; (split; [by repeat constructor|]); try done.
  intros _. eexists. split; [apply elem_of_cons; right; apply list_elem_of_here|].
  apply negb_false_iff in Heqb. lia.
Qed.

Lemma bdev_parts_wp ns ras acc : wp (bdev_parts ns ras acc) (λ tr _, read_only tr).
Proof.
  revert acc. induction ras as [|ra ras IH]; intros acc; cbn [bdev_parts]; ctl_steps.
  - constructor.
  - eapply wp_mono, IH. intros tr res Hro. by constructor.
  - eapply wp_mono, IH. intros tr res Hro. by constructor.
Qed.

Lemma publish_running_wp e h Q :
  (∀ tr conds x, read_only tr →
     let v := eng_set_status (est_set_Conditions conds
                (est_set_Phase EnginePhaseRunning (est_set_Hash h (eng_status e)))) e in
     Q (tr ++ [ev (S:=ctl) (StatusUpdate KEngine v) x]) (noResult, err_of x)) →
  wp (publish_running e h) Q.
Proof.
  intros HQ. unfold publish_running. cbv zeta. ctl_step. apply wp_set. intros t1.
  ctl_step. eapply wp_mono, bdev_parts_wp. intros tr parts Hro.
  ctl_step. apply wp_set. intros t2. ctl_step. apply wp_set. intros t3. ctl_steps.
  change ([?a] ++ tr ++ [?b] ++ [?c] ++ [?d]) with ([a] ++ tr ++ [b; c] ++ [d]).
  rw 2!app_assoc. apply HQ.
  apply read_only_app. split; [apply read_only_app; split|]; [by repeat constructor|done|].
  by repeat constructor.
Qed.

Lemma publish_degraded_wp e Q :
  (∀ tr conds x, read_only tr →
     let v := eng_set_status (est_set_Conditions conds
                (est_set_Phase EnginePhaseDegraded (eng_status e))) e in
     Q (tr ++ [ev (S:=ctl) (StatusUpdate KEngine v) x]) (mkCtrlResult (5 * Second)%Z, err_of x)) →
  wp (publish_degraded e) Q.
Proof.
  intros HQ. unfold publish_degraded. cbv zeta. ctl_step. apply wp_set. intros t1.
  ctl_steps; apply (HQ [ev (S:=ctl) TimeNow t1]); by repeat constructor.
Qed.

(** Every published status satisfies [P], and no pod is asked for. *)
Definition publishes (P : trace → Engine → Prop) (tr : trace) : Prop :=
  creates KPod tr = [] ∧ ∀ v, v ∈ status_updates KEngine tr → P tr v.

Lemma publishes_last (P : trace → Engine → Prop) tr v x :
  read_only tr → P (tr ++ [ev (S:=ctl) (StatusUpdate KEngine v) x]) v →
  publishes P (tr ++ [ev (S:=ctl) (StatusUpdate KEngine v) x]).
Proof.
  intros (_ & HS & HC & _)%read_only_writes HP. split; [by rw creates_app HC|].
  intros v'. rw status_updates_app HS. by intros ->%list_elem_of_singleton.
Qed.

Lemma configure_wp podIP s :
  wp (configure engine podIP s) (λ tr _, publishes (configured podIP s) tr).
Proof.
  unfold configure. cbv zeta. set (e := eng_set_status _ engine).
  change (est_LastReplicasHash (eng_status e)) with (hash_of engine).
  change (eng_Replicas e) with (eng_Replicas engine).
  assert (∀ tr1 : trace, read_only tr1 →
    hash_of engine = "" ∨ hash_of engine = replicasHash (eng_Replicas engine) ∨
      reconfigured podIP (eng_Replicas engine) tr1 →
    wp (publish_running e (replicasHash (eng_Replicas engine)))
      (λ tr2 _, publishes (configured podIP s) (tr1 ++ tr2))) as Hrun.
  { intros tr1 Hro Hh. apply publish_running_wp. intros tr2 conds x Hro2. cbv zeta.
    rw app_assoc. apply publishes_last; [by apply read_only_app|].
    split_and!; [done..|left]. split_and!; [done..|].
    destruct Hh as [?|[?|?]]; [by left|by right; left|right; right].
    apply reconfigured_app. left. apply reconfigured_app. by left. }
  destruct (bool_decide_reflect (hash_of engine ≠ "")) as [Hne|Hne%dec_stable]; cbn [andb];
    [|apply (Hrun []); [constructor|by left]].
  destruct (bool_decide_reflect (hash_of engine ≠ replicasHash (eng_Replicas engine)))
    as [Hneq|Heq%dec_stable]; [|apply (Hrun []); [constructor|by right; left]].
  ctl_step. eapply wp_mono, triggerReconfigure_wp. intros tr1 [[]|err] [Hro Hrec].
  - apply Hrun; [done|]. right; right. by apply Hrec.
  - apply publish_degraded_wp. intros tr2 conds x Hro2. cbv zeta. rw app_assoc.
    apply publishes_last; [by apply read_only_app|]. split_and!; [done..|by right].
Qed.

Lemma published_app tr1 tr2 v :
  creates KPod tr1 = [] → published tr2 v → published (tr1 ++ tr2) v.
Proof.
  intros HC [(Hp & Hr & hosts & Hc)|[(Hp & Hr & Hc)|(Hc & ip & s & Hip & Hs & Hv & Hcfg)]].
  - left. split_and!; [done..|]. exists hosts. by rw creates_app HC Hc.
  - right; left. split_and!; [done..|]. by rw creates_app HC Hc.
  - right; right. split; [by rw creates_app HC Hc|]. exists ip, s.
    split_and!; [done|apply status_seen_app; by right|done|].
    destruct Hcfg as (?&?&?&?&[(?&?&Hh)|?]); split_and!; try done; try (by right).
    left. split_and!; [done..|]. destruct Hh as [?|[?|?]]; [by left|by right; left|].
    right; right. apply reconfigured_app. by right.
Qed.

Definition all_published (tr : trace) : Prop :=
  ∀ v, v ∈ status_updates KEngine tr → published tr v.

Lemma all_published_app tr1 tr2 :
  read_only tr1 → all_published tr2 → all_published (tr1 ++ tr2).
Proof.
  intros [HS HC]%read_only_unpublished Hall v Hv. apply published_app; [done|]. apply Hall.
  by rw status_updates_app HS in Hv.
Qed.
Lemma read_only_all_published tr : read_only tr → all_published tr.
Proof. intros (_ & HS & _)%read_only_writes v. rw HS. by intros ?%not_elem_of_nil. Qed.

Lemma create_pod_wp : wp (create_pod engine) (λ tr _, all_published tr).
Proof.
  unfold create_pod, allowedHosts. ctl_step. ctl_step. apply listNodes_wp. intros nodes.
  assert (∀ hosts, wp
    (let pod := engine_pod engine hosts in r ← kCreate KPod pod;
     let created (pod : Pod) : M Reconciled :=
       let st := est_set_PodRef
         (Some (mkPodRef (om_Name (pod_meta pod)) (om_Namespace (pod_meta pod)))) (eng_status engine) in
       let st := est_set_Phase EnginePhasePending st in
       conds ← SetTrue (est_Conditions st) EngineConditionPodScheduled "PodCreated"
                 "engine pod was created";
       finish (kStatusUpdate KEngine (eng_set_status (est_set_Conditions conds st) engine)) in
     match r with
     | Err e => if IsAlreadyExists e then created pod else reconciled (Some e)
     | Ok pod => created pod
     end) (λ tr _, all_published tr)) as Hmain.
  { intros hosts. cbv zeta. ctl_steps; try (apply wp_set; intros t; ctl_steps;
      intros v ->%list_elem_of_singleton; left; split_and!; [done..|by exists hosts]).
    by intros v ?%not_elem_of_nil. }
  destruct nodes as [nodes|e]; ctl_step;
    (eapply wp_mono, Hmain; intros tr res Htr; apply all_published_app; [by repeat constructor|done]).
Qed.

Lemma observe_wp c : wp (observe c engine) (λ tr _, all_published tr).
Proof.
  unfold observe. ctl_step. eapply wp_mono, getEnginePodInfo_wp.
  intros tr1 [[podIP exists_] ready] [Hro1 _].
  destruct exists_; cbn [negb]; cycle 1.
  { ctl_steps. apply all_published_app; [done|].
    intros v ->%list_elem_of_singleton. right; left. done. }
  destruct ready; cbn [negb]; [|ctl_step; rw app_nil_r; by apply read_only_all_published].
  destruct (bool_decide_reflect (podIP = "")) as [|Hip];
    [ctl_step; rw app_nil_r; by apply read_only_all_published|].
  ctl_step. eapply wp_mono, GetStatus_wp. intros tr2 s [Hro2 Hs].
  assert (read_only (tr1 ++ tr2)) as Hro by (by apply read_only_app).
  destruct s as [s|e]; [|ctl_step; rw app_nil_r; by apply read_only_all_published].
  destruct (validateEngineSidecarStatus s) eqn:Hval;
    [ctl_step; rw app_nil_r; by apply read_only_all_published|].
  eapply wp_mono, configure_wp. intros tr3 res [HC HP].
  rw app_assoc. intros v Hv. rw -app_assoc.
  apply read_only_unpublished in Hro1 as [HS1 HC1].
  apply read_only_unpublished in Hro as [HS _]. apply published_app; [done|].
  rw status_updates_app HS in Hv.
  right; right. apply read_only_writes in Hro2 as (_ & _ & HC2 & _).
  split; [by rw creates_app HC2|]. exists podIP, s.
  split_and!; [done|apply status_seen_app; left; by apply Hs|done|].
  destruct (HP v Hv) as (?&?&?&?&[(?&?&Hh)|?]); split_and!; try done; try (by right).
  left. split_and!; [done..|]. destruct Hh as [?|[?|?]]; [by left|by right; left|].
  right; right. apply reconfigured_app. by right.
Qed.
End published.

Lemma published_unpublished `{Environ, PodImages} engine tr1 tr2 v :
  unpublished tr1 → all_published engine tr2 → v ∈ status_updates KEngine (tr1 ++ tr2) →
  published engine (tr1 ++ tr2) v.
Proof.
  intros [HS HC] Hall Hv. apply published_app; [done|]. apply Hall.
  by rw status_updates_app HS in Hv.
Qed.

(** ** Properties *)

(** C15. Whatever the cluster answers, an engine reconcile publishes a status
    only after it has read every attached replica as ready.  It says Pending
    right after asking for the engine's pod, clears the pod reference when the
    pod is gone, and otherwise publishes the endpoint and NQN of a validated
    sidecar status: Running with the hash of the attachments of the spec, which
    the running sidecar has acknowledged if the recorded hash was another one,
    or Degraded with the recorded hash kept, so that it is tried again. *)
Theorem Reconcile_engine_published `{Environ, PodImages}
    (c : option SidecarStatusClient) (req : NamespacedName) (tr : trace)
    (res : Reconciled) (v : Engine) :
  exec (Reconcile c req) tr res → v ∈ status_updates KEngine tr →
  ∃ e0 engine, e0 ∈ reads KEngine req tr ∧ Forall (seen_ready e0 tr) (eng_Replicas e0) ∧
    engine_at req tr engine ∧ published engine tr v.
Proof.
  intros Hex. revert v. refine (exec_wp _ (λ tr _, ∀ v, _ → _) _ _ Hex _). clear.
  unfold Reconcile. ctl_step. ctl_step. destruct r as [e0|err]; cycle 1.
  { by ctl_steps; intros v Hv; cbn in Hv; apply not_elem_of_nil in Hv. }
  ctl_step. eapply wp_mono, replicaStatus_wp. intros tr1 re (Hun & _ & Hre).
  destruct re as [[ready engine]|err]; cycle 1.
  { intros v Hv. rw (status_updates_app KEngine [_]) (proj1 Hun) in Hv.
    by apply not_elem_of_nil in Hv. }
  destruct (Hre ready engine eq_refl) as [Hat Hready].
  set (get := ev (S:=ctl) (Get KEngine req) (Ok e0)).
  assert (∀ tr2 v, all_published engine tr2 → ready = true →
    v ∈ status_updates KEngine ([get] ++ tr1 ++ tr2) → ∃ e0 engine,
    e0 ∈ reads KEngine req ([get] ++ tr1 ++ tr2) ∧
    Forall (seen_ready e0 ([get] ++ tr1 ++ tr2)) (eng_Replicas e0) ∧
    engine_at req ([get] ++ tr1 ++ tr2) engine ∧ published engine ([get] ++ tr1 ++ tr2) v) as Hfin.
  { intros tr2 v Hall -> Hv. exists e0, engine. split_and!; [apply reads_self| | |].
    - eapply Forall_impl; [by apply Hready|]. intros ra Hra.
      apply (seen_ready_app e0 [get]). right. apply seen_ready_app. by left.
    - destruct Hat as [->|(o & Ho)]; [left; apply reads_self|right].
      exists o. apply elem_of_app. right. apply elem_of_app. by left.
    - apply (published_unpublished engine ([get] ++ tr1) tr2); [|done..].
      by apply unpublished_app. }
  destruct ready; cbn [negb].
  - destruct (est_PodRef _).
    + eapply wp_mono, observe_wp. intros tr2 res Hall v. by apply Hfin.
    + eapply wp_mono, create_pod_wp. intros tr2 res Hall v. by apply Hfin.
  - assert (∀ v, v ∈ status_updates KEngine ([get] ++ tr1 ++ []) → False) as Hnil.
    { intros v. rw (status_updates_app KEngine [get]) app_nil_r (proj1 Hun).
      by intros ?%not_elem_of_nil. }
    destruct (est_PodRef _); ctl_step; by intros v ?%Hnil.
Qed.

(** *** After the attachments, the spec is not written again. *)
Definition no_respec (e : event ctl) : Prop := update_of KEngine e = None.
Lemma no_respec_read e : is_read e = true → no_respec e.
Proof. destruct e as [[] r]; done. Qed.
Lemma no_respec_updates tr : Forall no_respec tr → updates KEngine tr = [].
Proof. apply omap_nil_Forall. Qed.

Section respec.
Context `{Environ, PodImages} (engine : Engine).

Lemma safe_reads {A} (p : M A) : wp p (λ tr _, read_only tr) → safe no_respec p (λ _, True).
Proof.
  intros Hp. apply read_only_safe; [apply no_respec_read|].
  eapply wp_mono, Hp. by intros tr r.
Qed.

Lemma publish_running_safe e h : safe no_respec (publish_running e h) (λ _, True).
Proof.
  unfold publish_running. cbv zeta. pub_safe_steps.
  eapply safe_mono, safe_reads, bdev_parts_wp. intros parts _. by pub_safe_steps.
Qed.

Lemma observe_safe c : safe no_respec (observe c engine) (λ _, True).
Proof.
  unfold observe. pub_safe_step. eapply safe_mono, safe_reads.
  2:{ eapply wp_mono, getEnginePodInfo_wp. by intros tr r []. }
  intros [[ip ex] rd] _. pub_safe_steps; try done.
  eapply safe_mono, safe_reads. 2:{ eapply wp_mono, GetStatus_wp. by intros tr r []. }
  intros s _. pub_safe_steps; try done. unfold configure. cbv zeta.
  destruct (_ && _); [|apply publish_running_safe]. pub_safe_step.
  eapply safe_mono, safe_reads. 2:{ eapply wp_mono, triggerReconfigure_wp. by intros tr r []. }
  intros [[]|err] _; [apply publish_running_safe|]. unfold publish_degraded. cbv zeta.
  by pub_safe_steps.
Qed.

Lemma create_pod_safe : safe no_respec (create_pod engine) (λ _, True).
Proof.
  unfold create_pod, allowedHosts, listNodes. cbv zeta. by pub_safe_steps.
Qed.
End respec.

#[local] Instance engine_environ : Environ := λ _, "".
#[local] Instance engine_images : PodImages := defaultPodImages.
(** An engine recorded with another hash, its pod and its local replica. *)
Definition scaled_engine (hash : string) : Engine :=
  mkEngine (newMeta "v-engine" "ns")
    (mkEngineSpec "v" "w1" [mkAttachment "v-replica-0" "w1" true "" "" ""])
    (mkEngineStatus "Running" (Some (mkPodRef "v-engine-pod" "ns")) "" "" "" "" hash []).
Definition engine_world (hash : string) (ready : bool) : world :=
  let w := put KEngine (scaled_engine hash)
    (put KReplica (mkReplica (newMeta "v-replica-0" "ns")
       (mkReplicaSpec "v" "w1" "Local" "1Gi" "/d" "") (mkReplicaStatus "Running" "aio0" "" "" []))
    (put KPod (mkPod (newMeta "v-engine-pod" "ns") (mkPodSpec "w1" "Always" [] [])
       (mkPodStatus "Running" "10.0.0.9" [ready])) empty_world)) in
  mkWorld (w_objs w) (w_clock w) (w_factory w) (w_create w)
    (λ _, Ok (mkSidecarStatus "engine" "10.0.0.9:4420" "nqn.x:volume-v" "")) (w_http w) (w_told w).
Definition engine_run (hash : string) (ready : bool) :=
  run mem_handler (Reconcile (Some (OtherStatusClient 0)) (mkName "ns" "v-engine"))
    (engine_world hash ready).
Definition published_engine (hash : string) : Engine :=
  default (scaled_engine "") (head (status_updates KEngine (engine_run hash true).1.1)).

Lemma Reconcile_engine_published_witness :
  phase_of (published_engine "00") = EnginePhaseDegraded ∧
  ∃ e0 engine, e0 ∈ reads KEngine (mkName "ns" "v-engine") (engine_run "00" true).1.1 ∧
    Forall (seen_ready e0 (engine_run "00" true).1.1) (eng_Replicas e0) ∧
    engine_at (mkName "ns" "v-engine") (engine_run "00" true).1.1 engine ∧
    published engine (engine_run "00" true).1.1 (published_engine "00").
Proof.
  split; [vm_compute; reflexivity|].
  apply (Reconcile_engine_published (Some (OtherStatusClient 0)) (mkName "ns" "v-engine")
           (engine_run "00" true).1.1 (engine_run "00" true).1.2).
  - exact (exec_of_run mem_handler _ (engine_world "00" true) _ eq_refl).
  - vm_compute. apply list_elem_of_here.
Defined.

(** An update of the engine's spec rewrites only the locality and the
    endpoint of its attachments: names, nodes and their order stay. *)
Theorem Reconcile_engine_respec `{Environ, PodImages} (c : option SidecarStatusClient)
    (req : NamespacedName) (tr : trace) (res : Reconciled) (e : Engine) :
  exec (Reconcile c req) tr res → e ∈ updates KEngine tr →
  ∃ e0 ras, e0 ∈ reads KEngine req tr ∧ e = eng_set_Replicas ras e0 ∧
    Forall2 same_replica (eng_Replicas e0) ras.
Proof.
  intros Hex. revert e. refine (exec_wp _ (λ tr _, ∀ v, _ → _) _ _ Hex _). clear.
  unfold Reconcile. ctl_step. ctl_step. destruct r as [e0|err]; cycle 1.
  { by ctl_steps; intros v Hv; cbn in Hv; apply not_elem_of_nil in Hv. }
  ctl_step. eapply wp_mono, replicaStatus_wp. intros tr1 re (_ & Hspec & _).
  set (get := ev (S:=ctl) (Get KEngine req) (Ok e0)).
  assert (∀ tr2, Forall no_respec tr2 → ∀ e, e ∈ updates KEngine ([get] ++ tr1 ++ tr2) →
    ∃ e1 ras, e1 ∈ reads KEngine req ([get] ++ tr1 ++ tr2) ∧ e = eng_set_Replicas ras e1 ∧
      Forall2 same_replica (eng_Replicas e1) ras) as Hfin.
  { intros tr2 H2 e. rw !updates_app (no_respec_updates _ H2) app_nil_r.
    intros (ras & -> & Hras)%Hspec. exists e0, ras. by split; [apply reads_self|]. }
  destruct re as [[ready engine]|err]; cycle 1.
  { intros e. rw -(app_nil_r tr1). apply (Hfin []). constructor. }
  destruct ready, (est_PodRef (eng_status engine)); cbn [negb].
  - eapply wp_mono, observe_safe. intros tr2 r [H2 _]. by apply Hfin.
  - eapply wp_mono, create_pod_safe. intros tr2 r [H2 _]. by apply Hfin.
  - ctl_step. apply Hfin. constructor.
  - ctl_step. apply Hfin. constructor.
Qed.

(** A remote replica whose export moved. *)
Definition moved_world : world :=
  put KEngine (eng_set_Replicas [newAttachment "v-replica-1" "w2"] (scaled_engine ""))
    (put KReplica (mkReplica (newMeta "v-replica-1" "ns")
       (mkReplicaSpec "v" "w2" "Remote" "1Gi" "/d" "")
       (mkReplicaStatus "Running" "aio0" "nqn.x:replica-v-1" "10.0.0.2:4421" []))
    (put KPod (running_pod "v-replica-1-pod" "ns" "replica" "10.0.0.2") empty_world)).
Definition moved_run := run mem_handler (Reconcile None (mkName "ns" "v-engine")) moved_world.
Definition moved_engine : Engine :=
  default (scaled_engine "") (head (updates KEngine moved_run.1.1)).
Lemma Reconcile_engine_respec_witness :
  (λ ra, (ra_Name ra, ra_Address ra, ra_Port ra)) <$> eng_Replicas moved_engine =
    [("v-replica-1", "10.0.0.2", "4421")] ∧
  ∃ e0 ras, e0 ∈ reads KEngine (mkName "ns" "v-engine") moved_run.1.1 ∧
    moved_engine = eng_set_Replicas ras e0 ∧ Forall2 same_replica (eng_Replicas e0) ras.
Proof.
  split; [vm_compute; reflexivity|].
  apply (Reconcile_engine_respec None (mkName "ns" "v-engine") moved_run.1.1 moved_run.1.2).
  - exact (exec_of_run mem_handler _ moved_world _ eq_refl).
  - vm_compute. apply list_elem_of_here.
Defined.

(** The event that schedules a replica's pod wakes the engine of its own
    volume, unless the volume's name itself contains the separator "-replica-" or
    ends in "-replica". *)
Theorem mapEventToEngine_replica (v ns : string) (i : Z) :
  Contains (v +:+ "-") "-replica-" = false →
  mapEventToEngine (mkEvent "Scheduled" "Pod" (ReplicaName v i +:+ "-pod") ns) =
  [mkName ns (EngineName v)].
Proof.
  intros Hv. unfold mapEventToEngine. cbn [e_Reason io_Kind io_Name io_Namespace].
  assert (HasSuffix (ReplicaName v i +:+ "-pod") "-pod" = true) as ->
    by (apply HasSuffix_spec; by eexists).
  rw !bool_decide_false; [|by intros []..]. cbn [orb negb].
  assert (Cut "-replica-" (ReplicaName v i +:+ "-pod") = Some (v, Itoa i +:+ "-pod")) as Hc.
  { unfold ReplicaName. rw !string_app_assoc. by apply replica_sep_first. }
  apply Split_head in Hc as (l & -> & Hl).
  - by destruct l.
  - unfold ReplicaName. destruct v; discriminate.
Qed.

Lemma mapEventToEngine_replica_witness :
  mapEventToEngine (mkEvent "Scheduled" "Pod" "pvc-7-replica-2-pod" "ns") =
  [mkName "ns" "pvc-7-engine"].
Proof. apply (mapEventToEngine_replica "pvc-7" "ns" 2). vm_compute. reflexivity. Defined.

(** Two consequences of the code as it is: the engine whose pod is not
    ready keeps its published phase Running, as the phase Pending is set on the
    local copy only; and the pod of a replica of volume [a-replica-b] wakes the
    engine of volume [a]. *)
Theorem engine_stale_phase :
  (engine_run "00" false).1.2 = (mkCtrlResult (2 * Second)%Z, None) ∧
  status_updates KEngine (engine_run "00" false).1.1 = [] ∧
  mapEventToEngine (mkEvent "Scheduled" "Pod" (ReplicaName "a-replica-b" 0 +:+ "-pod") "ns") =
    [mkName "ns" (EngineName "a")].
Proof. vm_compute. done. Qed.
