(* ===== verification/SnapshotController.v ===== *)
(** * internal/controller/snapshot_controller.go *)
From S2P Require Import Prelude GoStrings GoNet GoJson K8s ApiTypes Names WireTypes Client MemStore Status AgentClient.
From stdpp Require Import relations.

Definition SnapshotFinalizer := "storage.krea.to/snapshot-protection".

Fixpoint containsString (slice : list string) (s : string) : bool :=
  match slice with
  | [] => false
  | item :: slice' => if bool_decide (item = s) then true else containsString slice' s
  end.
Fixpoint removeString (slice : list string) (s : string) : list string :=
  match slice with
  | [] => []
  | item :: slice' =>
      if bool_decide (item ≠ s) then item :: removeString slice' s else removeString slice' s
  end.

(** [return ctrl.Result{}, client.IgnoreNotFound(err)] *)
Definition ignoreNotFound (e : error) : M Reconciled :=
  reconciled (if IsNotFound e then None else Some e).

Definition snap_engine_key (snap : Snapshot) : NamespacedName :=
  mkName (snap_Namespace snap) (EngineName (ss_VolumeRef (snap_spec snap))).

(** The status of a snapshot with a condition set. *)
Definition snap_condition (conds : list Condition) (st : SnapshotStatus) (snap : Snapshot)
    : Snapshot := snap_set_status (sst_set_Conditions conds st) snap.

Section controller.
(** [SnapshotURLFn], when it is set. *)
Variable SnapshotURLFn : option (string → string).

Definition snapshotURL (podIP : string) : string :=
  match SnapshotURLFn with
  | Some f => f podIP
  | None => "http://" +:+ podIP +:+ ":9810/snapshot"
  end.

(** ** startCreate *)
Definition startCreate (snap : Snapshot) : M Reconciled :=
  r ← kGet KEngine (snap_engine_key snap);
  match r with
  | Err e =>
      let st := sst_set_Phase SnapshotPhaseFailed (snap_status snap) in
      conds ← SetTrue (sst_Conditions st) SnapshotConditionCreated "EngineNotFound"
                "source volume engine not found";
      _ ← kStatusUpdate KSnapshot (snap_condition conds st snap);
      ignoreNotFound e
  | Ok engine =>
      let st := sst_set_Phase SnapshotPhaseCreating
        (sst_set_EngineNode (es_NodeID (eng_spec engine)) (snap_status snap)) in
      conds ← SetTrue (sst_Conditions st) SnapshotConditionCreated "Creating"
                "creating snapshot on engine";
      finish (kStatusUpdate KSnapshot (snap_condition conds st snap))
  end.

(** ** pollCreate *)
Definition enginePodIP (engine : Engine) : M (result string) :=
  match est_PodRef (eng_status engine) with
  | None => Ret (Ok "")
  | Some ref =>
      r ← kGet KPod (mkName (pr_Namespace ref) (pr_Name ref));
      match r with
      | Err e => Ret (IgnoreNotFound "" e)
      | Ok pod =>
          if bool_decide (pst_Phase (pod_status pod) = PodRunning)
          then Ret (Ok (pst_PodIP (pod_status pod))) else Ret (Ok "")
      end
  end.

Definition fail_status (snap : Snapshot) : SnapshotStatus :=
  sst_set_Phase SnapshotPhaseFailed (snap_status snap).

(** The sidecar has answered. *)
Definition take_answer (snap : Snapshot) (resp : http_response WantSnapshot) : M Reconciled :=
  if negb (hr_StatusCode resp =? 200)%Z then
    conds ← SetTrue (sst_Conditions (fail_status snap)) SnapshotConditionCreated "SidecarError"
              ("sidecar returned " +:+ Itoa (hr_StatusCode resp));
    finish (kStatusUpdate KSnapshot (snap_condition conds (fail_status snap) snap))
  else
    match hr_Decoded resp with
    | Err _ => finish (kStatusUpdate KSnapshot (snap_set_status (fail_status snap) snap))
    | Ok result =>
        now ← timeNow;
        let st := sst_set_Ready (sr_SnapshotPath result) (sr_SizeBytes result) now
                    (snap_status snap) in
        conds ← SetTrue (sst_Conditions st) SnapshotConditionFileReady "Ready"
                  "snapshot file is ready";
        finish (kStatusUpdate KSnapshot (snap_condition conds st snap))
    end.

Definition snapshot_payload (snap : Snapshot) : string :=
  Marshal (JObj [("snapshotID", JStr (ss_SnapshotID (snap_spec snap)))]).

Definition pollCreate (snap : Snapshot) : M Reconciled :=
  r ← kGet KEngine (snap_engine_key snap);
  match r with
  | Err _ => requeue (2 * Second)%Z
  | Ok engine =>
      ip ← enginePodIP engine;
      match ip with
      | Err _ => requeue (2 * Second)%Z
      | Ok podIP =>
          if bool_decide (podIP = "") then requeue (2 * Second)%Z
          else
            _ ←! newRequest "POST" (snapshotURL podIP);
            resp ← httpDo WantSnapshot "POST" (snapshotURL podIP) (snapshot_payload snap);
            match resp with
            | Err _ => requeue (2 * Second)%Z
            | Ok resp => take_answer snap resp
            end
      end
  end.

(** ** reconcileDelete *)
Definition has_file (snap : Snapshot) : bool :=
  bool_decide (sst_SnapshotPath (snap_status snap) ≠ "") &&
  bool_decide (sst_EngineNode (snap_status snap) ≠ "").

(** Errors of the factory and of the agent are ignored. *)
Definition delete_file (snap : Snapshot) : M unit :=
  if has_file snap then
    a ← (ask (S := ctl) (AgentFactory (sst_EngineNode (snap_status snap))) : M (result AgentClient));
    match a with
    | Ok agentClient =>
        _ ← DeleteSnapshot agentClient (mkDeleteSnapshot (sst_SnapshotPath (snap_status snap)));
        Ret tt
    | Err _ => Ret tt
    end
  else Ret tt.

Definition without_finalizer (snap : Snapshot) : Snapshot :=
  snap_set_meta (set_Finalizers (removeString (om_Finalizers (snap_meta snap)) SnapshotFinalizer)
                   (snap_meta snap)) snap.
Definition with_finalizer (snap : Snapshot) : Snapshot :=
  snap_set_meta (set_Finalizers (om_Finalizers (snap_meta snap) ++ [SnapshotFinalizer])
                   (snap_meta snap)) snap.
Definition protected (snap : Snapshot) : bool :=
  containsString (om_Finalizers (snap_meta snap)) SnapshotFinalizer.

Definition reconcileDelete (snap : Snapshot) : M Reconciled :=
  _ ← delete_file snap;
  if protected snap then
    _ ←! kUpdate KSnapshot (without_finalizer snap);
    reconciled None
  else reconciled None.

(** ** Reconcile *)
Definition advance (snap : Snapshot) : M Reconciled :=
  let phase := sst_Phase (snap_status snap) in
  if bool_decide (phase = "") then
    finish (kStatusUpdate KSnapshot
      (snap_set_status (sst_set_Phase SnapshotPhasePending (snap_status snap)) snap))
  else if bool_decide (phase = SnapshotPhasePending) then startCreate snap
  else if bool_decide (phase = SnapshotPhaseCreating) then pollCreate snap
  else reconciled None.

Definition reconcile_snapshot (snap : Snapshot) : M Reconciled :=
  if bool_decide (om_DeletionTimestamp (snap_meta snap) ≠ None) then reconcileDelete snap
  else if negb (protected snap) then
    _ ←! kUpdate KSnapshot (with_finalizer snap);
    reconciled None
  else advance snap.

Definition Reconcile (req : NamespacedName) : M Reconciled :=
  r ← kGet KSnapshot req;
  match r with
  | Err e => ignoreNotFound e
  | Ok snap => reconcile_snapshot snap
  end.
End controller.

(** ** Lemmas: finalizers *)
Lemma containsString_spec l s : containsString l s = true ↔ s ∈ l.
Proof.
  induction l as [|x l IH]; cbn [containsString]; [set_solver|].
  case_bool_decide; set_solver.
Qed.
Lemma removeString_filter l s : removeString l s = filter (λ x, x ≠ s) l.
Proof.
  induction l as [|x l IH]; [done|]. cbn [removeString]. rw filter_cons IH.
  by destruct (bool_decide_reflect (x ≠ s)), (decide (x ≠ s)).
Qed.

(** ** The phases as a state machine *)
Inductive phase_step (answered : SnapshotResponse → Prop) : SnapshotStatus → SnapshotStatus → Prop :=
  | StepPending st :
      sst_Phase st = "" → phase_step answered st (sst_set_Phase SnapshotPhasePending st)
  | StepCreating st node conds :
      sst_Phase st = SnapshotPhasePending →
      phase_step answered st (sst_set_Conditions conds
        (sst_set_Phase SnapshotPhaseCreating (sst_set_EngineNode node st)))
  | StepFailed st conds :
      sst_Phase st ∈ [SnapshotPhasePending; SnapshotPhaseCreating] →
      phase_step answered st (sst_set_Conditions conds (sst_set_Phase SnapshotPhaseFailed st))
  | StepReady st resp now conds :
      sst_Phase st = SnapshotPhaseCreating → answered resp →
      phase_step answered st (sst_set_Conditions conds
        (sst_set_Ready (sr_SnapshotPath resp) (sr_SizeBytes resp) now st)).

(** The answers of the sidecar that a trace holds. *)
Definition sidecar_answered (tr : trace) (resp : SnapshotResponse) : Prop :=
  ∃ url body (h : http_response WantSnapshot),
    ev (S:=ctl) (HttpDo WantSnapshot "POST" url body) (Ok h) ∈ tr ∧
    hr_StatusCode h = 200%Z ∧ hr_Decoded h = Ok resp.

(** What a reconcile of a snapshot publishes: at most one step of the machine,
    for a protected snapshot that is not being deleted. *)
Definition snap_post (snap : Snapshot) (tr : trace) : Prop :=
  ∀ v, v ∈ status_updates KSnapshot tr →
    phase_step (sidecar_answered tr) (snap_status snap) (snap_status v) ∧
    snap_meta v = snap_meta snap ∧ snap_spec v = snap_spec snap.

Lemma phase_step_mono (P Q : SnapshotResponse → Prop) st st' :
  (∀ r, P r → Q r) → phase_step P st st' → phase_step Q st st'.
Proof. intros HPQ []; econstructor; eauto. Qed.

Lemma sidecar_answered_app tr1 tr2 resp :
  sidecar_answered tr1 resp ∨ sidecar_answered tr2 resp → sidecar_answered (tr1 ++ tr2) resp.
Proof.
  intros [(u & b & h & Hin & Hrest)|(u & b & h & Hin & Hrest)]; exists u, b, h;
    (split; [apply elem_of_app|done]); [by left|by right].
Qed.

Lemma snap_post_app snap tr1 tr2 :
  status_updates KSnapshot tr1 = [] → snap_post snap tr2 → snap_post snap (tr1 ++ tr2).
Proof.
  intros H1 H2 v. rw status_updates_app H1. intros (Hs & ? & ?)%H2. split; [|done].
  eapply phase_step_mono, Hs. intros r Hr. apply sidecar_answered_app. by right.
Qed.
Lemma snap_post_quiet snap tr : status_updates KSnapshot tr = [] → snap_post snap tr.
Proof. intros H v. rw H. by intros ?%not_elem_of_nil. Qed.

Lemma no_status tr : read_only tr → status_updates KSnapshot tr = [].
Proof. by intros (_ & H & _)%read_only_writes. Qed.

Lemma startCreate_wp snap :
  sst_Phase (snap_status snap) = SnapshotPhasePending →
  wp (startCreate snap) (λ tr _, snap_post snap tr).
Proof.
  intros Hph. unfold startCreate. ctl_step. ctl_step. cbv zeta.
  destruct r as [engine|e].
  - ctl_step. apply wp_set. intros t. ctl_steps. intros v ->%list_elem_of_singleton.
    split_and!; [by apply StepCreating|done..].
  - ctl_step. apply wp_set. intros t. ctl_step. ctl_step. unfold ignoreNotFound. ctl_step.
    intros v ->%list_elem_of_singleton.
    split_and!; [apply StepFailed; rw Hph; set_solver|done..].
Qed.

Lemma take_answer_wp snap resp :
  sst_Phase (snap_status snap) = SnapshotPhaseCreating →
  wp (take_answer snap resp) (λ tr _, ∀ v, v ∈ status_updates KSnapshot tr →
    phase_step (λ a, hr_StatusCode resp = 200%Z ∧ hr_Decoded resp = Ok a)
      (snap_status snap) (snap_status v) ∧
    snap_meta v = snap_meta snap ∧ snap_spec v = snap_spec snap).
Proof.
  intros Hph. assert (sst_Phase (snap_status snap) ∈ [SnapshotPhasePending; SnapshotPhaseCreating])
    as Hin by (rw Hph; set_solver).
  unfold take_answer. destruct (hr_StatusCode resp =? 200)%Z eqn:Hc; cbn [negb].
  - destruct (hr_Decoded resp) as [a|e] eqn:Hd.
    + cbv zeta. ctl_step. ctl_step. ctl_step. apply wp_set. intros t2. ctl_steps.
      intros v ->%list_elem_of_singleton. split_and!; [|done..]. apply StepReady; [done|].
      split; [lia|done].
    + ctl_steps. intros v ->%list_elem_of_singleton. split_and!; [|done..].
      destruct snap as [m sp st]. by apply (StepFailed _ st (sst_Conditions st)).
  - ctl_step. apply wp_set. intros t. ctl_steps. intros v ->%list_elem_of_singleton.
    split_and!; [by apply StepFailed|done..].
Qed.

Lemma enginePodIP_wp engine : wp (enginePodIP engine) (λ tr _, read_only tr).
Proof. unfold enginePodIP. ctl_steps; by repeat constructor. Qed.

Lemma pollCreate_wp f snap :
  sst_Phase (snap_status snap) = SnapshotPhaseCreating →
  wp (pollCreate f snap) (λ tr _, snap_post snap tr).
Proof.
  intros Hph. unfold pollCreate. ctl_step. ctl_step. destruct r as [engine|e];
    [|ctl_step; by apply snap_post_quiet].
  ctl_step. eapply wp_mono, enginePodIP_wp. intros tr1 ip Hro.
  pose proof (no_status _ Hro) as H1.
  destruct ip as [podIP|e]; [|ctl_step; apply snap_post_quiet; by rw app_nil_r].
  destruct (bool_decide (podIP = "")); [ctl_step; apply snap_post_quiet; by rw app_nil_r|].
  ctl_step. ctl_step. destruct r as [[]|e]; cycle 1.
  { apply snap_post_quiet. cbn. by rw (status_updates_app KSnapshot tr1 [_]) H1. }
  ctl_step. ctl_step. destruct r as [resp|e]; cycle 1.
  { ctl_step. apply snap_post_quiet. cbn. by rw (status_updates_app KSnapshot tr1) H1. }
  eapply wp_mono, take_answer_wp; [|done]. intros tr2 res H2.
  apply (snap_post_app snap [_]); [done|]. apply snap_post_app; [done|].
  intros v Hv. destruct (H2 v Hv) as (Hs & ? & ?). split_and!; [|done..].
  eapply phase_step_mono, Hs. intros a [? ?]. eexists _, _, resp.
  split; [|done]. apply elem_of_cons. right. apply list_elem_of_here.
Qed.

(** *** Deletion *)
(** The agent of the snapshot's node was asked for and, when there is one, asked
    to delete the snapshot's file: over HTTP, by the POST with the file's path,
    as soon as the request could be built. *)
Definition agent_asked (snap : Snapshot) (tr : trace) : Prop :=
  let path := sst_SnapshotPath (snap_status snap) in
  ∃ a, ev (S:=ctl) (AgentFactory (sst_EngineNode (snap_status snap))) a ∈ tr ∧
    match a with
    | Ok (HTTPAgent base) =>
        let url := base +:+ "/snapshots/delete" in
        ∃ built, ev (S:=ctl) (HttpNewRequest "POST" url) built ∈ tr ∧
          (built = Ok tt → ∃ answer,
             ev (S:=ctl) (HttpDo WantNothing "POST" url (Marshal (path_json "path" path))) answer ∈ tr)
    | Ok (OtherAgent id) => ∃ answer,
        ev (S:=ctl) (AgentDeleteSnapshot id (mkDeleteSnapshot path)) answer ∈ tr
    | Err _ => True
    end.

(** A POST of the agent's client is made whenever its request can be built. *)
Lemma doJSON_sent baseURL path body w :
  wp (doJSON baseURL path body w) (λ tr _,
    ∃ built, ev (S:=ctl) (HttpNewRequest "POST" (baseURL +:+ path)) built ∈ tr ∧
      (built = Ok tt → ∃ answer,
         ev (S:=ctl) (HttpDo w "POST" (baseURL +:+ path) (Marshal body)) answer ∈ tr)).
Proof.
  unfold doJSON. ctl_steps; eexists; (split; [apply list_elem_of_here|]); try done;
    intros _; eexists; apply list_elem_of_further, list_elem_of_here.
Qed.

Lemma delete_file_wp snap :
  wp (delete_file snap) (λ tr _, read_only tr ∧ (has_file snap = true → agent_asked snap tr)).
Proof.
  unfold delete_file. destruct (has_file snap); [|ctl_step; by split; [constructor|]].
  set (node := sst_EngineNode _). apply wp_bind_intro. intros a.
  destruct a as [[u|id]|e]; [..|split; [by repeat constructor|intros _]].
  - ctl_steps. eapply wp_mono; [|apply wp_and; [apply DeleteSnapshot_read_only|]];
      [|exact (doJSON_sent u "/snapshots/delete" _ WantNothing)].
    intros tr r [Hro (built & Hin & Hsent)]. ctl_step. rw app_nil_r. split; [by constructor|].
    intros _. exists (Ok (HTTPAgent u)). split; [apply list_elem_of_here|]. exists built.
    split; [by apply list_elem_of_further|]. intros (answer & H)%Hsent. exists answer.
    by apply list_elem_of_further.
  - intros d. split; [by repeat constructor|]. intros _. exists (Ok (OtherAgent id)).
    split; [apply list_elem_of_here|]. exists d. apply list_elem_of_further, list_elem_of_here.
  - exists (Err e). split; [apply list_elem_of_here|done].
Qed.

(** The writes of the main resource: the finalizer, once. *)
Definition finalizer_write (snap : Snapshot) (tr : trace) : Prop :=
  ∀ e, e ∈ updates KSnapshot tr →
    status_updates KSnapshot tr = [] ∧
    if bool_decide (om_DeletionTimestamp (snap_meta snap) ≠ None) then
      protected snap = true ∧ e = without_finalizer snap ∧
      ∃ pre r, tr = pre ++ [ev (S:=ctl) (Update KSnapshot e) r] ∧ read_only pre ∧
        (has_file snap = true → agent_asked snap pre)
    else protected snap = false ∧ e = with_finalizer snap.

Lemma finalizer_write_none snap tr : updates KSnapshot tr = [] → finalizer_write snap tr.
Proof. intros H e. rw H. by intros ?%not_elem_of_nil. Qed.

Lemma reconcileDelete_wp snap :
  om_DeletionTimestamp (snap_meta snap) ≠ None →
  wp (reconcileDelete snap)
    (λ tr _, status_updates KSnapshot tr = [] ∧ finalizer_write snap tr).
Proof.
  intros Hdel. unfold reconcileDelete. ctl_step. eapply wp_mono, delete_file_wp.
  intros tr1 _ [Hro Hask].
  pose proof (read_only_writes _ Hro) as (HU & HS & _).
  destruct (protected snap) eqn:Hp; cycle 1.
  { ctl_step. rw app_nil_r. split; [done|]. by apply finalizer_write_none. }
  assert (∀ x : result Snapshot,
    let tr := tr1 ++ [ev (S:=ctl) (Update KSnapshot (without_finalizer snap)) x] in
    status_updates KSnapshot tr = [] ∧ finalizer_write snap tr) as Hw.
  { intros x tr. assert (status_updates KSnapshot tr = []) as HS'
      by (unfold tr; by rw status_updates_app HS).
    split; [done|]. intros e. unfold tr. rw updates_app HU.
    intros ->%list_elem_of_singleton. split; [done|]. rw bool_decide_true //.
    split_and!; [done..|]. by exists tr1, x. }
  ctl_steps; [rw app_nil_r|]; apply Hw.
Qed.

(** No update of the main resource happens while the phase advances. *)
Definition no_main_write (e : event ctl) : Prop := update_of KSnapshot e = None.
Lemma no_main_read e : is_read e = true → no_main_write e.
Proof. destruct e as [[] r]; done. Qed.

Lemma take_answer_safe snap resp : safe no_main_write (take_answer snap resp) (λ _, True).
Proof. unfold take_answer. cbv zeta. by pub_safe_steps. Qed.
Lemma advance_safe f snap : safe no_main_write (advance f snap) (λ _, True).
Proof.
  unfold advance, startCreate, pollCreate, ignoreNotFound. cbv zeta. pub_safe_steps; try done.
  eapply safe_mono; [|apply read_only_safe with (R := λ _, True); [apply no_main_read|]].
  2:{ eapply wp_mono, enginePodIP_wp. by intros ? ?. }
  intros ip _. pub_safe_steps; try done. apply take_answer_safe.
Qed.

Lemma reconcile_snapshot_wp f snap :
  wp (reconcile_snapshot f snap)
    (λ tr _, snap_post snap tr ∧ finalizer_write snap tr ∧
       (status_updates KSnapshot tr ≠ [] →
          om_DeletionTimestamp (snap_meta snap) = None ∧ protected snap = true)).
Proof.
  unfold reconcile_snapshot.
  destruct (bool_decide_reflect (om_DeletionTimestamp (snap_meta snap) ≠ None)) as [Hd|Hd].
  { eapply wp_mono, (reconcileDelete_wp snap Hd). intros tr r [HS HF].
    split_and!; [by apply snap_post_quiet|done|done]. }
  apply dec_stable in Hd. destruct (protected snap) eqn:Hp; cbn [negb]; cycle 1.
  { ctl_steps; (split_and!; [by apply snap_post_quiet| |done]).
    all: intros x ->%list_elem_of_singleton; rw bool_decide_false; [done|rw Hd; by intros []]. }
  assert (wp (advance f snap) (λ tr _, snap_post snap tr)) as Hadv.
  { unfold advance. destruct (bool_decide_reflect (sst_Phase (snap_status snap) = ""));
      [|destruct (bool_decide_reflect (sst_Phase (snap_status snap) = SnapshotPhasePending));
        [by apply startCreate_wp|
         destruct (bool_decide_reflect (sst_Phase (snap_status snap) = SnapshotPhaseCreating));
           [by apply pollCreate_wp|ctl_step; by apply snap_post_quiet]]].
    ctl_steps. intros v ->%list_elem_of_singleton. split_and!; [by apply StepPending|done..]. }
  eapply wp_mono; [|exact (wp_and _ _ _ Hadv (advance_safe f snap))].
  intros tr r [Hpost [Hsafe _]]. split_and!; [done| |done].
  apply finalizer_write_none, omap_nil_Forall, Hsafe.
Qed.

(** ** Properties *)

(** C5. A snapshot's published status moves by single steps of the machine
    "" → Pending → Creating → Ready or Failed (Pending may also fail), starting
    from the status that was read; a status is only published for a protected
    snapshot that is not being deleted, and Ready only with the path and size of
    an answer of the sidecar. *)
Theorem Reconcile_snapshot_step (f : option (string → string)) (req : NamespacedName)
    (tr : trace) (res : Reconciled) (v : Snapshot) :
  exec (Reconcile f req) tr res → v ∈ status_updates KSnapshot tr →
  ∃ snap, snap ∈ reads KSnapshot req tr ∧
    om_DeletionTimestamp (snap_meta snap) = None ∧ protected snap = true ∧
    phase_step (sidecar_answered tr) (snap_status snap) (snap_status v) ∧
    snap_meta v = snap_meta snap ∧ snap_spec v = snap_spec snap.
Proof.
  intros Hex. revert v. refine (exec_wp _ (λ tr _, ∀ v, _ → _) _ _ Hex _). clear.
  unfold Reconcile. ctl_step. ctl_step. destruct r as [snap|e]; cycle 1.
  { unfold ignoreNotFound. ctl_step. by intros v ?%not_elem_of_nil. }
  eapply wp_mono, reconcile_snapshot_wp. intros tr r (Hpost & _ & Hprot) v Hv.
  change (v ∈ status_updates KSnapshot tr) in Hv.
  destruct Hprot as [? ?]; [by intros E; rw E in Hv; apply not_elem_of_nil in Hv|].
  destruct (Hpost v Hv) as (Hs & ? & ?). exists snap.
  split_and!; [apply reads_self|done..| |done|done].
  eapply phase_step_mono, Hs. intros a Ha. apply (sidecar_answered_app [_] tr). by right.
Qed.

Definition sample_snapshot (phase : string) (finalizers : list string) : Snapshot :=
  mkSnapshot (set_Finalizers finalizers (newMeta "s" "ns")) (mkSnapshotSpec "v" "snap-1")
    (sst_set_Phase phase zeroSnapshotStatus).
Definition snapshot_world (s : Snapshot) : world :=
  let w := put KSnapshot s
    (put KEngine (mkEngine (newMeta "v-engine" "ns") (mkEngineSpec "v" "w1" [])
       (est_set_PodRef (Some (mkPodRef "v-engine-pod" "ns")) zeroEngineStatus))
    (put KPod (running_pod "v-engine-pod" "ns" "engine" "10.0.0.9") empty_world)) in
  mkWorld (w_objs w) (w_clock w) (w_factory w) (w_create w) (w_status w)
    (λ wt _, match wt return result (http_response wt) with
             | WantSnapshot => Ok (mkResponse (w:=WantSnapshot) 200 ""
                 (Ok (mkSnapshotResponse "/var/lib/kdfs/v/snapshot-snap-1.img" 4096)))
             | _ => Err (Errorf "no route" [])
             end) (w_told w).
Definition snapshot_run (s : Snapshot) :=
  run mem_handler (Reconcile None (mkName "ns" "s")) (snapshot_world s).
Definition creating_run := snapshot_run (sample_snapshot "Creating" [SnapshotFinalizer]).
Definition ready_snapshot : Snapshot :=
  default (sample_snapshot "" []) (head (status_updates KSnapshot creating_run.1.1)).

Lemma Reconcile_snapshot_step_witness :
  sst_Phase (snap_status ready_snapshot) = SnapshotPhaseReady ∧
  ∃ snap, snap ∈ reads KSnapshot (mkName "ns" "s") creating_run.1.1 ∧
    om_DeletionTimestamp (snap_meta snap) = None ∧ protected snap = true ∧
    phase_step (sidecar_answered creating_run.1.1) (snap_status snap) (snap_status ready_snapshot) ∧
    snap_meta ready_snapshot = snap_meta snap ∧ snap_spec ready_snapshot = snap_spec snap.
Proof.
  split; [vm_compute; reflexivity|].
  apply (Reconcile_snapshot_step None (mkName "ns" "s") creating_run.1.1 creating_run.1.2).
  - exact (exec_of_run mem_handler _
      (snapshot_world (sample_snapshot "Creating" [SnapshotFinalizer])) _ eq_refl).
  - vm_compute. apply list_elem_of_here.
Defined.

(** *** The life of a snapshot under its reconciles

    One reconcile of the stored object, and what the server may store of it:
    a status update replaces the status, an update the metadata. *)
Definition reconciled_to (f : option (string → string)) (s s' : Snapshot) : Prop :=
  ∃ tr r, exec (reconcile_snapshot f s) tr r ∧
    ((∃ v, v ∈ status_updates KSnapshot tr ∧ s' = snap_set_status (snap_status v) s) ∨
     (∃ e, e ∈ updates KSnapshot tr ∧ s' = snap_set_meta (snap_meta e) s)).

(** The statuses a snapshot can have. *)
Definition status_wf (st : SnapshotStatus) : Prop :=
  (sst_Phase st ∈ [""; SnapshotPhasePending; SnapshotPhaseFailed; SnapshotPhaseCreating] ∧
   sst_ReadyToUse st = false ∧ sst_CreationTime st = None ∧ sst_SnapshotPath st = "") ∨
  (sst_Phase st = SnapshotPhaseReady ∧ sst_ReadyToUse st = true ∧
   is_Some (sst_CreationTime st)).

(** Case analysis on the phase a status is known to have. *)
Ltac phase_cases :=
  repeat match goal with
  | H : _ ∈ _ :: _ |- _ => apply elem_of_cons in H as [H|H]
  | H : _ ∈ [] |- _ => by apply not_elem_of_nil in H
  end;
  try match goal with
  | H : sst_Phase ?s = _, H' : sst_Phase ?s = _ |- _ => by rw H in H'
  end.

Lemma phase_step_wf P st st' : status_wf st → phase_step P st st' → status_wf st'.
Proof.
  intros Hwf Hs. destruct Hs as [st Hp|st node conds Hp|st conds Hp|st resp now conds Hp _];
    destruct Hwf as [(Hin & ? & ? & ?)|(Hr & _)].
  all: try (phase_cases; fail).
  1-3: left; split_and!; [cbn; set_solver|done..].
  right. split_and!; [done..|by eexists].
Qed.

Lemma phase_step_terminal P st st' :
  phase_step P st st' → sst_Phase st ∈ [SnapshotPhaseReady; SnapshotPhaseFailed] → False.
Proof.
  intros [s Hp|s node conds Hp|s conds Hp|s resp now conds Hp _] H; phase_cases.
Qed.

(** A reconcile changes the status by a step, or leaves it. *)
Lemma reconciled_to_status f s s' :
  reconciled_to f s s' →
  snap_status s' = snap_status s ∨
  ∃ P, phase_step P (snap_status s) (snap_status s').
Proof.
  intros (tr & r & Hex & [(v & Hv & ->)|(e & He & ->)]); [right|by left].
  destruct (exec_wp _ _ _ _ Hex (reconcile_snapshot_wp f s)) as (Hpost & _).
  exists (sidecar_answered tr). apply (Hpost v Hv).
Qed.

(** C7. Over any number of reconciles from a new snapshot, with any answers,
    ReadyToUse holds exactly in the phase Ready, and then the creation time is
    set; before that no path is recorded. *)
Theorem snapshot_reachable_wf (f : option (string → string)) (s0 s : Snapshot) :
  snap_status s0 = zeroSnapshotStatus → rtc (reconciled_to f) s0 s →
  status_wf (snap_status s).
Proof.
  intros H0 Hr. assert (status_wf (snap_status s0)) as Hwf.
  { rw H0. left. split_and!; [set_solver|done..]. }
  clear H0. induction Hr as [|s0 s1 s Hs _ IH]; [done|]. apply IH.
  destruct (reconciled_to_status f s0 s1 Hs) as [->|[P Hp]]; [done|].
  by eapply phase_step_wf.
Qed.

(** Ready and Failed are final: no sequence of reconciles changes the
    status of such a snapshot again. *)
Theorem snapshot_terminal (f : option (string → string)) (s s' : Snapshot) :
  sst_Phase (snap_status s) ∈ [SnapshotPhaseReady; SnapshotPhaseFailed] →
  rtc (reconciled_to f) s s' → snap_status s' = snap_status s.
Proof.
  intros Hin Hr. induction Hr as [|s0 s1 s Hs _ IH]; [done|].
  destruct (reconciled_to_status f s0 s1 Hs) as [Heq|[P Hp]].
  - rw -Heq. apply IH. by rw Heq.
  - by apply phase_step_terminal in Hp.
Qed.

(** A first reconcile, and one of a ready snapshot that is deleted. *)
Definition fresh_snapshot : Snapshot := sample_snapshot "" [SnapshotFinalizer].
Definition pending_snapshot : Snapshot := sample_snapshot SnapshotPhasePending [SnapshotFinalizer].
Definition first_run :=
  run mem_handler (reconcile_snapshot None fresh_snapshot) (snapshot_world fresh_snapshot).

Lemma first_reconcile : reconciled_to None fresh_snapshot pending_snapshot.
Proof.
  exists first_run.1.1, first_run.1.2. split.
  - exact (exec_of_run mem_handler _ (snapshot_world fresh_snapshot) _ eq_refl).
  - left. exists pending_snapshot. split; [vm_compute; apply list_elem_of_here|].
    vm_compute. reflexivity.
Qed.

Lemma snapshot_reachable_wf_witness :
  sst_Phase (snap_status pending_snapshot) = SnapshotPhasePending ∧
  status_wf (snap_status pending_snapshot).
Proof.
  split; [vm_compute; reflexivity|].
  apply (snapshot_reachable_wf None fresh_snapshot); [vm_compute; reflexivity|].
  apply rtc_once, first_reconcile.
Defined.

Definition deleted_snapshot (finalizers : list string) : Snapshot :=
  mkSnapshot (mkMeta "s" "ns" "" "" ∅ finalizers [] (Some 7%Z)) (mkSnapshotSpec "v" "snap-1")
    (mkSnapshotStatus SnapshotPhaseReady "/p" "w1" 1 (Some 1%Z) true []).
Definition delete_run := run mem_handler
  (reconcile_snapshot None (deleted_snapshot [SnapshotFinalizer]))
  (snapshot_world (deleted_snapshot [SnapshotFinalizer])).

Lemma snapshot_terminal_witness :
  snap_status (deleted_snapshot []) = snap_status (deleted_snapshot [SnapshotFinalizer]).
Proof.
  apply (snapshot_terminal None); [cbn; set_solver|]. apply rtc_once.
  exists delete_run.1.1, delete_run.1.2. split.
  - exact (exec_of_run mem_handler _ (snapshot_world (deleted_snapshot [SnapshotFinalizer])) _ eq_refl).
  - right. exists (deleted_snapshot []). split; [vm_compute; apply list_elem_of_here|].
    vm_compute. reflexivity.
Defined.

(** C22. The finalizer protocol: the only main-resource write of a reconcile adds
    the finalizer to a snapshot that lacks it, or, for a snapshot being deleted,
    takes it away, as the last call, and when a path and a node are recorded
    only after that node's agent has been asked for and, if it was obtained, has
    been asked to delete the recorded path (over HTTP, with the POST of that path,
    unless the request itself cannot be built), whatever it answered; no status is
    written in the same pass. *)
Theorem snapshot_finalizer (f : option (string → string)) (snap : Snapshot) (tr : trace)
    (res : Reconciled) :
  exec (reconcile_snapshot f snap) tr res → finalizer_write snap tr.
Proof. intros Hex. by destruct (exec_wp _ _ _ _ Hex (reconcile_snapshot_wp f snap)) as (_ & ? & _). Qed.

Lemma snapshot_finalizer_witness :
  updates KSnapshot delete_run.1.1 = [deleted_snapshot []] ∧
  finalizer_write (deleted_snapshot [SnapshotFinalizer]) delete_run.1.1.
Proof.
  split; [vm_compute; reflexivity|].
  apply (snapshot_finalizer None _ _ delete_run.1.2).
  exact (exec_of_run mem_handler _ (snapshot_world (deleted_snapshot [SnapshotFinalizer])) _ eq_refl).
Defined.
