(* ===== verification/Agent.v ===== *)
(** * internal/agent/server.go, loop_linux.go; internal/reflink; internal/xfs

    The node agent: replica files, loop devices, cloning and formatting, as
    programs over the calls on the operating system. *)
From S2P Require Import Prelude GoStrings GoNet GoPath WireTypes Os.
From Stdlib Require Import Ascii.

(** ** internal/reflink *)
Definition CopyFile (dstPath srcPath : string) : OS (result unit) :=
  src ←? wrapping "copy open source: %w" [] (osOpen srcPath O_RDONLY 0);
  with_close src (
    dst ←? wrapping "copy open destination: %w" [] (osOpen dstPath O_CREATE_WRONLY_TRUNC 384);
    with_close dst (wrapping "copy data: %w" [] (osCopy dst src))).

Definition FileOrCopy (src dst : string) : OS (result unit) :=
  srcFd ←? wrapping "reflink open source: %w" [] (osOpen src O_RDONLY 0);
  with_close srcFd (
    dstFd ←? wrapping "reflink create destination: %w" [] (osOpen dst O_CREATE_WRONLY_EXCL 384);
    r ← osFileClone dstFd srcFd;
    match r with
    | Err _ =>
        _ ← osClose dstFd;
        _ ← osRemove dst;
        CopyFile dst src
    | Ok _ => osClose dstFd
    end).

(** ** internal/xfs *)
Definition Runner : Type := string → list string → OS (string * option error).
Definition ExecRunner : Runner := λ name args,
  osCommand name args ≫= λ r : string * option os_error, Ret (r.1, OsError <$> r.2).

Definition mkfs_args (device : string) : list string :=
  ["-f"; "-s"; "size=4096"; "-m"; "crc=0,finobt=0,rmapbt=0,reflink=0";
   "-i"; "nrext64=0,maxpct=25"; "-i"; "bigtime=0,inobtcount=0"; device].
Definition Format (device : string) (run : Runner) : OS (result unit) :=
  r ← run "mkfs.xfs" (mkfs_args device);
  match r with
  | (out, Some err) => Ret (Err (Wrapf "mkfs.xfs %s failed: %w output=%s" [device; out] err))
  | (_, None) => Ret (Ok tt)
  end.

(** Whether it formatted, and the error. *)
Definition EnsureMounted (device : string) (mount : OS (result unit)) (run : Runner)
    : OS (bool * option error) :=
  r ← mount;
  match r with
  | Ok _ => Ret (false, None)
  | Err _ =>
      f ← Format device run;
      match f with
      | Err formatErr => Ret (false, Some formatErr)
      | Ok _ =>
          r ← mount;
          match r with
          | Err mountErr => Ret (true, Some (Wrapf "mount %s after mkfs failed: %w" [device] mountErr))
          | Ok _ => Ret (true, None)
          end
      end
  end.

(** ** loop_linux.go *)
Definition S_IFBLK : Z := 24576.
Definition mode0660 : Z := 432.
Definition uint32 (z : Z) : Z := z mod 2 ^ 32.
Definition ensureLoopDeviceNode (path : string) (major minor : Z) : OS (result unit) :=
  r ← osRemove path;
  let mknod := osMknod path (Z.lor mode0660 S_IFBLK) (uint32 major) (uint32 minor) in
  match r with
  | Err err => if IsNotExist err then mknod
               else Ret (Err (Wrapf "remove stale loop device %s: %w" [path] err))
  | Ok _ => mknod
  end.

Definition dev_path (index : Z) : string := "/sys/class/block/loop" +:+ Itoa index +:+ "/dev".
Definition loopDeviceNumbers (index : Z) : OS (result (Z * Z)) :=
  data ←? wrapping "read %s: %w" [dev_path index] (osReadFile (dev_path index));
  let parts := Split (TrimSpace data) ":" in
  if negb (length parts =? 2)%nat then
    Ret (Err (Errorf "parse %s: unexpected device %q" [dev_path index; TrimSpace data]))
  else
    match Sscanf_pair (Join parts ":") with
    | None => Ret (Err (Wrapf "parse %s: %w" [dev_path index] (Errorf "fmt.Sscanf" [])))
    | Some mm => Ret (Ok mm)
    end.

Definition loop_path (index : Z) : string := "/dev/loop" +:+ Itoa index.
Definition File_name (path : string) : string := String.substring 0 64 path.

(** Once the backing file is attached, a failure detaches it before the
    descriptors are closed. *)
Definition attach_backing (loopDevice backingFile : Fd) (devicePath path : string)
    : OS (result string) :=
  _ ←? wrapping "attach backing file to %s: %w" [devicePath] (osLoopSetFd loopDevice backingFile);
  r ← osLoopSetStatus64 loopDevice (File_name path);
  match r with
  | Err err =>
      _ ← osLoopClrFd loopDevice;
      Ret (Err (Wrapf "configure %s: %w" [devicePath] err))
  | Ok _ => Ret (Ok devicePath)
  end.

Definition attachLoopDevice (path : string) : OS (result string) :=
  backingFile ←? wrapping "open backing file %q: %w" [path] (osOpen path O_RDWR 0);
  with_close backingFile (
    control ←? wrapping "open /dev/loop-control: %w" [] (osOpen "/dev/loop-control" O_RDWR 0);
    with_close control (
      index ←? wrapping "get free loop device: %w" [] (osLoopCtlGetFree control);
      mm ←? loopDeviceNumbers index;
      let '(major, minor) := mm in
      _ ←? wrapping "ensure %s: %w" [loop_path index]
             (ensureLoopDeviceNode (loop_path index) major minor);
      loopDevice ←? wrapping "open %s: %w" [loop_path index] (osOpen (loop_path index) O_RDWR 0);
      with_close loopDevice (attach_backing loopDevice backingFile (loop_path index) path))).

(** ** server.go

    A field of [Server] that is nil leaves the operation to the system. *)
Record Server := mkServer {
  srv_Runner : option Runner;
  srv_MkdirAll : option (string → Z → OS (result unit));
  srv_TruncateFile : option (string → Z → OS (result unit));
  srv_AttachLoopDevice : option (string → OS (result string));
  srv_RemoveFile : option (string → OS (result unit));
  srv_StatFile : option (string → OS (result unit));
  srv_CopyFile : option (string → string → OS (result unit)) }.
(** [&agent.Server{}], what cmd/node-agent serves. *)
Definition defaultServer : Server := mkServer None None None None None None None.

Section server.
Context (s : Server).

Definition runner : Runner := from_option id ExecRunner (srv_Runner s).
Definition mkdirAll (path : string) (perm : Z) : OS (result unit) :=
  match srv_MkdirAll s with Some f => f path perm | None => osMkdirAll path perm end.
Definition truncateFile (path : string) (size : Z) : OS (result unit) :=
  match srv_TruncateFile s with
  | Some f => f path size
  | None =>
      file ←? osOpen path O_CREATE_RDWR 384;
      with_close file (osTruncate file size)
  end.
Definition server_attachLoopDevice (path : string) : OS (result string) :=
  match srv_AttachLoopDevice s with Some f => f path | None => attachLoopDevice path end.
Definition removeFile (path : string) : OS (result unit) :=
  match srv_RemoveFile s with
  | Some f => f path
  | None =>
      r ← osRemove path;
      Ret (match r with
           | Err err => if IsNotExist err then Ok tt else Err err
           | Ok _ => Ok tt
           end)
  end.
Definition statFile (path : string) : OS (result unit) :=
  match srv_StatFile s with
  | Some f => f path
  | None => _ ←? osStat path; Ret (Ok tt)
  end.
Definition copyFile (src dst : string) : OS (result unit) :=
  match srv_CopyFile s with Some f => f src dst | None => FileOrCopy src dst end.

(** [resource.ParseQuantity(size)] and the value of the quantity. *)
Variable ParseQuantity : string → result Z.
Definition parseReplicaSize (size : string) : result Z :=
  match ParseQuantity size with
  | Err err => Err (Wrapf "parse replica size %q: %w" [size] err)
  | Ok value =>
      if (value <? 0)%Z then Err (Errorf "parse replica size %q: negative size" [size])
      else Ok value
  end.

(** The backing file: a copy of the snapshot, or a file of the given size. *)
Definition prepare_file (req : CreateReplicaRequest) : OS (result unit) :=
  if bool_decide (crr_SnapshotSource req ≠ "") then
    _ ← removeFile (crr_Path req);
    wrapping "snapshot restore: %w" [] (copyFile (crr_SnapshotSource req) (crr_Path req))
  else
    match parseReplicaSize (crr_Size req) with
    | Err err => Ret (Err err)
    | Ok size => truncateFile (crr_Path req) size
    end.

Definition CreateReplica (req : CreateReplicaRequest) : OS (result CreateReplicaResponse) :=
  _ ←? mkdirAll (Dir (crr_Path req)) 493;
  _ ←? prepare_file req;
  device ←? server_attachLoopDevice (crr_Path req);
  _ ←? Format device runner;
  Ret (Ok (mkCreateReplicaResp device ReplicaStateReady)).

Definition DeleteReplica (req : DeleteReplicaRequest) : OS (result unit) :=
  removeFile (drr_Path req).
Definition DeleteSnapshot (req : DeleteSnapshotRequest) : OS (result unit) :=
  removeFile (dsr_Path req).
Definition GetReplica (req : GetReplicaRequest) : OS (result GetReplicaResponse) :=
  r ← statFile (grr_Path req);
  match r with
  | Err _ => Ret (Ok (mkGetReplicaResp ReplicaStateMissing ""))
  | Ok _ => Ret (Ok (mkGetReplicaResp ReplicaStateReady ""))
  end.
End server.

(** ** Lemmas *)
Definition cleared_of (e : event os) : option Fd :=
  match projT1 e with LoopClrFd l => Some l | _ => None end.
Definition cleared : os_trace → list Fd := omap cleared_of.
Definition command_of (e : event os) : option (string * list string) :=
  match projT1 e with Command n args => Some (n, args) | _ => None end.
Definition commands : os_trace → list (string * list string) := omap command_of.

(** The file is the backing store of the device: both were opened, the file
    was attached and the device configured, in calls that succeeded. *)
Definition attached (path dev : string) (tr : os_trace) : Prop :=
  ∃ control i b l,
    dev = loop_path i ∧
    ev (S:=os) (LoopCtlGetFree control) (inr i) ∈ tr ∧
    ev (S:=os) (Open path O_RDWR 0) (inr b) ∈ tr ∧
    ev (S:=os) (Open dev O_RDWR 0) (inr l) ∈ tr ∧
    ev (S:=os) (LoopSetFd l b) (inr tt) ∈ tr ∧
    ev (S:=os) (LoopSetStatus64 l (File_name path)) (inr tt) ∈ tr.

(** The devices to which a file was attached. *)
Definition set_of (e : event os) : option Fd :=
  match e with
  | existT (LoopSetFd l _) (inr _) => Some l
  | _ => None
  end.
Definition attachments : os_trace → list Fd := omap set_of.

Definition attach_post (path : string) (tr : os_trace) (r : result string) : Prop :=
  balanced tr ∧ commands tr = [] ∧
  match r with
  | Ok dev => cleared tr = [] ∧ attached path dev tr
  | Err _ => cleared tr = attachments tr
  end.

Ltac events := cbn [app omap list_omap opened closed cleared commands attachments opened_of
  closed_of cleared_of command_of set_of projT1 ev].
(** Membership of a known event in a known trace. *)
Ltac in_trace := repeat (first [apply list_elem_of_here | apply list_elem_of_further]).
Ltac descriptors := unfold balanced; events; solve_Permutation.
Lemma attachLoopDevice_wp path :
  wp (attachLoopDevice path) (attach_post path).
Proof.
  unfold attachLoopDevice, loopDeviceNumbers, ensureLoopDeviceNode, attach_backing.
  os_steps.
  all: split; [descriptors|].
  all: split; [done|]; try done.
  all: split; [done|]; cbn [app].
  all: repeat match goal with u : unit |- _ => destruct u end.
  all: repeat (eexists || split); in_trace.
Qed.

(** ** The backing file *)
Definition copied (src dst : string) (tr : os_trace) : Prop :=
  ∃ s d mode perm,
    (ev (S:=os) (FileClone d s) (inr tt) ∈ tr ∨ ev (S:=os) (Copy d s) (inr tt) ∈ tr) ∧
    ev (S:=os) (Open src O_RDONLY 0) (inr s) ∈ tr ∧
    ev (S:=os) (Open dst mode perm) (inr d) ∈ tr.
(** No device is touched and no command is run. *)
Definition files_only (tr : os_trace) : Prop :=
  balanced tr ∧ commands tr = [] ∧ cleared tr = [] ∧ attachments tr = [].

Lemma FileOrCopy_wp src dst :
  wp (FileOrCopy src dst) (λ tr r,
    files_only tr ∧ (is_ok r = true → copied src dst tr)).
Proof.
  unfold FileOrCopy, CopyFile. os_steps.
  all: intros; cbn [app]; (split; [split_and!; [descriptors|done..]|]); try done.
  all: intros _; repeat match goal with u : unit |- _ => destruct u end.
  all: eexists _, _, _, _; split_and!;
    [first [left; solve [in_trace]|right; solve [in_trace]]|in_trace..].
Qed.

Lemma files_only_app tr1 tr2 : files_only tr1 → files_only tr2 → files_only (tr1 ++ tr2).
Proof.
  intros (? & Hc1 & Hl1 & Ha1) (? & Hc2 & Hl2 & Ha2). split; [by apply balanced_app|].
  unfold commands, cleared, attachments in *. by rw !omap_app Hc1 Hc2 Hl1 Hl2 Ha1 Ha2.
Qed.
Lemma copied_app_r src dst tr1 tr2 : copied src dst tr2 → copied src dst (tr1 ++ tr2).
Proof.
  intros (s & d & m & p & H1 & H2 & H3). exists s, d, m, p.
  rw !elem_of_app. tauto.
Qed.

(** The file was made as the request says. *)
Definition filled (PQ : string → result Z) (req : CreateReplicaRequest) (tr : os_trace) : Prop :=
  if bool_decide (crr_SnapshotSource req ≠ "") then
    copied (crr_SnapshotSource req) (crr_Path req) tr
  else ∃ fd size, PQ (crr_Size req) = Ok size ∧ (0 ≤ size)%Z ∧
    ev (S:=os) (Open (crr_Path req) O_CREATE_RDWR 384) (inr fd) ∈ tr ∧
    ev (S:=os) (Truncate fd size) (inr tt) ∈ tr.

Lemma parseReplicaSize_ok PQ size v :
  parseReplicaSize PQ size = Ok v → PQ size = Ok v ∧ (0 ≤ v)%Z.
Proof.
  unfold parseReplicaSize. destruct (PQ size) as [z|]; [|done].
  destruct (Z.ltb_spec z 0) as [?|Hz]; [done|]. intros [= ->]. by split.
Qed.

Lemma prepare_file_wp PQ req :
  wp (prepare_file defaultServer PQ req) (λ tr r,
    files_only tr ∧ (is_ok r = true → filled PQ req tr)).
Proof.
  unfold prepare_file, filled. case_bool_decide as Hs.
  - unfold removeFile, copyFile, defaultServer. cbn [srv_RemoveFile srv_CopyFile].
    os_steps; (eapply wp_mono; [|apply FileOrCopy_wp]); intros tr r [Hf Hok]; cbn beta.
    all: split; [apply files_only_app; [|done]; split_and!; [descriptors|done..]|].
    all: intros Hr; apply copied_app_r, Hok; by destruct r.
  - unfold truncateFile, defaultServer. cbn [srv_TruncateFile].
    destruct (parseReplicaSize PQ (crr_Size req)) as [z|e] eqn:Hp; os_steps; intros.
    all: split; [split_and!; [descriptors|done..]|]; try done.
    intros _. destruct (parseReplicaSize_ok _ _ _ Hp). destruct v0.
    eexists _, z. split_and!; [done..|in_trace|in_trace].
Qed.

(** ** CreateReplica, for the server that cmd/node-agent runs *)
Definition mkfs (dev out : string) (e : option os_error) : event os :=
  ev (S:=os) (Command "mkfs.xfs" (mkfs_args dev)) (out, e).
Definition create_post (PQ : string → result Z) (req : CreateReplicaRequest)
    (tr : os_trace) (r : result CreateReplicaResponse) : Prop :=
  balanced tr ∧
  match r with
  | Ok resp => ∃ tr0 out,
      tr = tr0 ++ [mkfs (crp_DevicePath resp) out None] ∧
      crp_State resp = ReplicaStateReady ∧ filled PQ req tr0 ∧
      attached (crr_Path req) (crp_DevicePath resp) tr0 ∧ commands tr0 = [] ∧ cleared tr0 = []
  | Err _ =>
      commands tr = [] ∧ cleared tr = attachments tr ∨
      ∃ tr0 dev out e, tr = tr0 ++ [mkfs dev out (Some e)] ∧
        attached (crr_Path req) dev tr0 ∧ cleared tr0 = []
  end.

Lemma Format_wp dev Q :
  (∀ out, Q [mkfs dev out None] (Ok tt)) →
  (∀ out e, Q [mkfs dev out (Some e)]
     (Err (Wrapf "mkfs.xfs %s failed: %w output=%s" [dev; out] (OsError e)))) →
  wp (Format dev ExecRunner) Q.
Proof. intros Hok Herr [out [e|]]; [apply Herr|apply Hok]. Qed.

Lemma commands_app tr1 tr2 : commands (tr1 ++ tr2) = commands tr1 ++ commands tr2.
Proof. apply omap_app. Qed.
Lemma cleared_app tr1 tr2 : cleared (tr1 ++ tr2) = cleared tr1 ++ cleared tr2.
Proof. apply omap_app. Qed.
Lemma attachments_app tr1 tr2 :
  attachments (tr1 ++ tr2) = attachments tr1 ++ attachments tr2.
Proof. apply omap_app. Qed.

Lemma filled_app PQ req tr1 tr2 :
  filled PQ req tr1 ∨ filled PQ req tr2 → filled PQ req (tr1 ++ tr2).
Proof.
  unfold filled, copied. case_bool_decide; setoid_rewrite elem_of_app.
  - intros [(s & d & m & p & ?)|(s & d & m & p & ?)]; exists s, d, m, p; tauto.
  - intros [(fd & z & ?)|(fd & z & ?)]; exists fd, z; tauto.
Qed.
Lemma attached_app_r path dev tr1 tr2 : attached path dev tr2 → attached path dev (tr1 ++ tr2).
Proof.
  intros (c & i & b & l & -> & ?). exists c, i, b, l. rw !elem_of_app. tauto.
Qed.

(** From a prepared file on: attach it, and format the device. *)
Lemma attach_and_format_wp PQ req pre :
  files_only pre → filled PQ req pre →
  wp (device ←? attachLoopDevice (crr_Path req);
      _ ←? Format device ExecRunner;
      Ret (Ok (mkCreateReplicaResp device ReplicaStateReady)))
     (λ tr, create_post PQ req (pre ++ tr)).
Proof.
  intros (Hb & Hc & Hl & Ha) Hfill.
  apply wp_bind_ok. eapply wp_mono; [|apply attachLoopDevice_wp].
  intros tr1 r (Hb1 & Hc1 & H1). pose proof (balanced_app _ _ Hb Hb1) as Hb2.
  destruct r as [dev|e]; cbn beta iota.
  - destruct H1 as [Hl1 Hatt].
    apply wp_bind_ok, Format_wp; [intros out|intros out e]; os_steps; rw app_nil_r || idtac;
      (split; [rw app_assoc; apply balanced_app; [done|descriptors]|]).
    + eexists (pre ++ tr1), _. rw app_assoc commands_app cleared_app Hl Hl1 Hc Hc1.
      split_and!; [done..|apply filled_app; by left|by apply attached_app_r|done|done].
    + right. eexists (pre ++ tr1), dev, _, _. rw app_assoc cleared_app Hl Hl1.
      split_and!; [done|by apply attached_app_r|done].
  - split; [done|]. left. by rw commands_app cleared_app attachments_app Hc Hc1 Hl Ha H1.
Qed.

Lemma create_replica_wp PQ req :
  wp (CreateReplica defaultServer PQ req) (create_post PQ req).
Proof.
  unfold CreateReplica, mkdirAll, server_attachLoopDevice.
  cbn [srv_MkdirAll srv_AttachLoopDevice defaultServer].
  apply wp_bind_ok, osMkdirAll_wp; [intros e; split; [descriptors|by left]|intros u].
  apply wp_bind_ok. eapply wp_mono; [|apply prepare_file_wp]. intros tr1 r1 [Hf1 Hok1].
  set (m := ev (S:=os) (MkdirAll (Dir (crr_Path req)) 493) (inr u)).
  assert (files_only ([m] ++ tr1)) as Hf.
  { apply files_only_app; [|done]. split_and!; [descriptors|done..]. }
  destruct r1 as [[]|e]; cbn beta iota.
  - eapply wp_mono; [|apply (attach_and_format_wp PQ req ([m] ++ tr1)); [done|]].
    + intros tr r H. by rw app_assoc.
    + apply filled_app. right. by apply Hok1.
  - destruct Hf as (? & ? & Hl & Ha). split; [done|]. left. by rw Hl Ha.
Qed.

(** ** Properties *)

(** What a successful [CreateReplica] did: the backing file was made as the
    request says, the device it returns was attached to that file, and the
    very last call formats the device.  In particular a file restored from a
    snapshot is formatted over. *)
Theorem CreateReplica_formats (PQ : string → result Z) (req : CreateReplicaRequest)
    (tr : os_trace) (resp : CreateReplicaResponse) :
  exec (CreateReplica defaultServer PQ req) tr (Ok resp) →
  ∃ tr0 out, tr = tr0 ++ [mkfs (crp_DevicePath resp) out None] ∧ filled PQ req tr0 ∧
    attached (crr_Path req) (crp_DevicePath resp) tr0 ∧ commands tr0 = [] ∧ cleared tr0 = [].
Proof.
  intros Hex. destruct (exec_wp _ _ _ _ Hex (create_replica_wp PQ req))
    as (_ & tr0 & out & ? & _ & ?). by exists tr0, out.
Qed.

(** C39. Resources: whatever the system answers, every descriptor that was opened
    is closed; after a failure the file is detached again from the loop device,
    unless it is [mkfs.xfs] that failed: then the device stays attached. *)
Theorem CreateReplica_resources (PQ : string → result Z) (req : CreateReplicaRequest)
    (tr : os_trace) (r : result CreateReplicaResponse) :
  exec (CreateReplica defaultServer PQ req) tr r →
  closed tr ≡ₚ opened tr ∧
  (is_ok r = false →
    commands tr = [] ∧ cleared tr = attachments tr ∨
    ∃ tr0 dev out e, tr = tr0 ++ [mkfs dev out (Some e)] ∧
      attached (crr_Path req) dev tr0 ∧ cleared tr0 = []).
Proof.
  intros Hex. destruct (exec_wp _ _ _ _ Hex (create_replica_wp PQ req)) as [Hb H].
  split; [exact Hb|]. by destruct r.
Qed.

(** A system in which every call succeeds, and one whose mkfs fails. *)
Definition os_ok (c : os_call) : os_reply c :=
  match c with
  | Stat _ => inr 0%Z
  | ReadFile _ => inr "7:0"
  | ReadDir _ => inr []
  | Open _ _ _ => inr 3
  | LoopCtlGetFree _ => inr 0%Z
  | Command _ _ => ("", None)
  | MkdirAll _ _ | WriteFile _ _ _ | Remove _ | RemoveAll _ | Close _ | Truncate _ _
  | Mknod _ _ _ _ | LoopSetFd _ _ | LoopClrFd _ | LoopSetStatus64 _ _ | FileClone _ _
  | Copy _ _ | UnixMount _ _ _ _ _ | UnixUnmount _ _ | Sleep _ => inr tt
  end.
Definition bad_status (c : os_call) : os_reply c :=
  match c with
  | LoopSetStatus64 _ _ => inl (mkOsError OtherErrno "no such device")
  | c => os_ok c
  end.
Definition quantity (s : string) : result Z :=
  match Atoi s with Some z => Ok z | None => Err (Errorf "quantity" []) end.
Definition restore_request : CreateReplicaRequest :=
  mkCreateReplica "/var/lib/kdfs/v/vol.img" "1024" "/var/lib/kdfs/u/snapshot-s.img".
Definition restore_run (f : ∀ c : os_call, os_reply c) :=
  run (snapshot_handler (S:=os) f) (CreateReplica defaultServer quantity restore_request) tt.

Lemma CreateReplica_formats_witness :
  (restore_run os_ok).1.2 = Ok (mkCreateReplicaResp "/dev/loop0" "Ready") ∧
  ∃ tr0 out, (restore_run os_ok).1.1 = tr0 ++ [mkfs "/dev/loop0" out None] ∧
    filled quantity restore_request tr0 ∧
    attached "/var/lib/kdfs/v/vol.img" "/dev/loop0" tr0 ∧ commands tr0 = [] ∧ cleared tr0 = [].
Proof.
  split; [vm_compute; reflexivity|].
  apply (CreateReplica_formats quantity restore_request (restore_run os_ok).1.1
           (mkCreateReplicaResp "/dev/loop0" "Ready")).
  exact (exec_of_run _ _ tt _ eq_refl).
Defined.

Lemma CreateReplica_resources_witness :
  is_ok (restore_run bad_status).1.2 = false ∧ cleared (restore_run bad_status).1.1 = [3] ∧
  closed (restore_run bad_status).1.1 ≡ₚ opened (restore_run bad_status).1.1.
Proof.
  split; [vm_compute; reflexivity|]. split; [vm_compute; reflexivity|].
  apply (CreateReplica_resources quantity restore_request (restore_run bad_status).1.1
           (restore_run bad_status).1.2).
  exact (exec_of_run _ _ tt _ eq_refl).
Defined.
