(* ===== verification/Spdk.v ===== *)
(** * internal/spdk: the SPDK target seen through its JSON-RPC client

    The methods of the interface [spdk.Client] are the calls of a signature;
    the client over the RPC socket implements each by RPCs, and the fake client
    answers them from its recorded error. *)
From S2P Require Import Prelude GoStrings GoJson Names.

(** ** types.go *)
Record NVMeController := mkController {
  nc_Name : string; nc_TrAddr : string; nc_TrSvcID : string;
  nc_SubNQN : string; nc_AdrFam : string }.
Record Namespace := mkNamespace { ns_BdevName : string }.
Record Listener := mkListener {
  li_TrType : string; li_AdrFam : string; li_TrAddr : string; li_TrSvcID : string }.

Inductive spdk_call :=
  | CreateTransport (trType : string)
  | CreateAIOBdev (name filename : string) (blockSize : Z)
  | AttachNVMeController (controller : NVMeController)
  | CreateMirrorBdev (name : string) (baseBdevs : list string) (stripSize : Z)
  | CreateSubsystem (nqn serial : string) (allowAnyHost : bool)
  | AddHost (nqn host : string)
  | AddNamespace (nqn : string) (namespace : Namespace)
  | AddListener (nqn : string) (listener : Listener)
  | DeleteSubsystem (nqn : string)
  | DetachNVMeController (name : string)
  | Health
  | RemoveListener (nqn : string) (listener : Listener)
  | RemoveNamespace (nqn : string) (nsID : Z)
  | DestroyRAID (name : string)
  | AddBaseBdev (raidName baseBdev : string)
  | RemoveBaseBdev (raidName baseBdev : string)
  | GetRAIDInfo (name : string).
Definition spdk_value (c : spdk_call) : Type :=
  match c with
  | AttachNVMeController _ => string
  | GetRAIDInfo _ => list (string * json)
  | _ => unit
  end.
Definition spdk : sig := Sig spdk_call (λ c, result (spdk_value c)).

#[global] Instance controller_eq_dec : EqDecision NVMeController.
Proof. solve_decision. Defined.

(** ** The RPC socket: a method, its parameters; an error text or a result *)
Inductive rpc_call := Call (method : string) (params : option json).
Definition rpc : sig := Sig rpc_call (λ _, (string + option json)%type).
Abbreviation RPC := (prog rpc).
Definition rpcCall (method : string) (params : list (string * json))
    : RPC (string + option json) := ask (S := rpc) (Call method (Some (JObj params))).
(** The error the RPC library returns, of which only the text is examined. *)
Definition rpcError (text : string) : error := Errorf text [].

(** ** client.go *)
Definition method_only (method : string) (params : list (string * json))
    : RPC (result unit) :=
  r ← rpcCall method params;
  Ret (match r with inl text => Err (rpcError text) | inr _ => Ok tt end).

(** An error whose text contains one of the phrases counts as success. *)
Definition ignoring (phrases : list string) (method : string) (params : list (string * json))
    : RPC (result unit) :=
  r ← rpcCall method params;
  Ret (match r with
       | inl text => if existsb (Contains text) phrases then Ok tt else Err (rpcError text)
       | inr _ => Ok tt
       end).

Definition aio_params (name filename : string) (blockSize : Z) : list (string * json) :=
  [("name", JStr name); ("filename", JStr filename); ("block_size", JNum blockSize)].
Definition real_CreateAIOBdev (name filename : string) (blockSize : Z) : RPC (result unit) :=
  r ← rpcCall "bdev_aio_create" (aio_params name filename blockSize);
  match r with
  | inl text =>
      if Contains text "File exists" || Contains text "already exists" then
        _ ← rpcCall "bdev_aio_delete" [("name", JStr name)];
        method_only "bdev_aio_create" (aio_params name filename blockSize)
      else Ret (Err (rpcError text))
  | inr _ => Ret (Ok tt)
  end.

Definition attachNVMeControllerParams (c : NVMeController) : list (string * json) :=
  [("name", JStr (nc_Name c)); ("trtype", JStr "tcp"); ("traddr", JStr (nc_TrAddr c));
   ("trsvcid", JStr (nc_TrSvcID c)); ("subnqn", JStr (nc_SubNQN c));
   ("adrfam", JStr (TrimSpace (nc_AdrFam c)))].

(** [ns["bdev_name"]] of the first of [m["namespaces"]], "" when it is not there. *)
Definition first_namespace (m : list (string * json)) : option json :=
  match obj_get "namespaces" m ≫= as_array with
  | Some (ns :: _) => Some ns
  | _ => None
  end.

(** The bdev name in the answer. *)
Definition attach_result (controller : NVMeController) (res : option json) : result string :=
  match res with
  | None | Some JNull => Err (Errorf "attach nvme controller returned nil result" [])
  | Some (JArr (first :: _)) =>
      Ok (match as_object first with
          | Some m =>
              if bool_decide (get_string "bdev_name" m ≠ "") then get_string "bdev_name" m
              else
                match first_namespace m ≫= as_object with
                | Some ns =>
                    if bool_decide (get_string "bdev_name" ns ≠ "")
                    then get_string "bdev_name" ns else nc_Name controller +:+ "n1"
                | None => nc_Name controller +:+ "n1"
                end
          | None => nc_Name controller +:+ "n1"
          end)
  | Some (JObj result) =>
      match first_namespace result with
      | None => Err (Errorf "no namespaces in response" [])
      | Some ns =>
          match as_object ns with
          | None => Err (Errorf "unexpected namespace type" [])
          | Some ns =>
              if bool_decide (get_string "bdev_name" ns = "")
              then Err (Errorf "no bdev_name in namespace response" [])
              else Ok (get_string "bdev_name" ns)
          end
      end
  | Some _ => Err (Errorf "unexpected result type: %T" [])
  end.

Definition real_AttachNVMeController (controller : NVMeController) : RPC (result string) :=
  let attach := rpcCall "bdev_nvme_attach_controller" (attachNVMeControllerParams controller) in
  let finish (r : string + option json) : RPC (result string) :=
    Ret (match r with
         | inl text => Err (rpcError text)
         | inr res => attach_result controller res
         end) in
  r ← attach;
  match r with
  | inl text =>
      if Contains text "already exists" then
        _ ← rpcCall "bdev_nvme_detach_controller" [("name", JStr (nc_Name controller))];
        r ← attach; finish r
      else finish r
  | inr _ => finish r
  end.

Definition listener_params (nqn : string) (l : Listener) : list (string * json) :=
  [("nqn", JStr nqn);
   ("listen_address", JObj [("trtype", JStr (li_TrType l)); ("adrfam", JStr (li_AdrFam l));
                            ("traddr", JStr (li_TrAddr l)); ("trsvcid", JStr (li_TrSvcID l))])].
Definition real_CreateSubsystem (nqn serial : string) (allowAnyHost : bool) : RPC (result unit) :=
  ignoring ["already exists"; "Unable to create"] "nvmf_create_subsystem"
    ([("nqn", JStr nqn); ("serial_number", JStr serial)]
     ++ if allowAnyHost then [("allow_any_host", JBool true)] else []).
Definition real_GetRAIDInfo (name : string) : RPC (result (list (string * json))) :=
  r ← rpcCall "bdev_raid_get_bdevs" [("name", JStr name)];
  Ret (match r with
       | inl text => Err (rpcError text)
       | inr (Some (JArr (JObj m :: _))) => Ok m
       | inr _ => Err (Errorf "RAID bdev %q not found" [name])
       end).

Section real.
Context `{Environ}.

Definition real_AddHost (nqn host : string) : RPC (result unit) :=
  if negb (IsHostNQN host) then Ret (Err (Errorf "invalid host NQN %q" [host]))
  else ignoring ["already exists"] "nvmf_subsystem_add_host"
         [("nqn", JStr nqn); ("host", JStr host)].

(** [realClient]: the RPCs of each method of the interface. *)
Definition realClient (c : spdk_call) : RPC (result (spdk_value c)) :=
  match c with
  | CreateTransport trType =>
      ignoring ["already exists"] "nvmf_create_transport" [("trtype", JStr trType)]
  | CreateAIOBdev name filename blockSize => real_CreateAIOBdev name filename blockSize
  | AttachNVMeController controller => real_AttachNVMeController controller
  | CreateMirrorBdev name baseBdevs _ =>
      method_only "bdev_raid_create"
        [("name", JStr name); ("raid_level", JStr "raid1");
         ("base_bdevs", JArr (JStr <$> baseBdevs))]
  | CreateSubsystem nqn serial allowAnyHost => real_CreateSubsystem nqn serial allowAnyHost
  | AddHost nqn host => real_AddHost nqn host
  | AddNamespace nqn namespace =>
      ignoring ["already exists"; "Invalid parameters"] "nvmf_subsystem_add_ns"
        [("nqn", JStr nqn); ("namespace", JObj [("bdev_name", JStr (ns_BdevName namespace))])]
  | AddListener nqn listener =>
      ignoring ["already exists"; "Invalid parameters"] "nvmf_subsystem_add_listener"
        (listener_params nqn listener)
  | DeleteSubsystem nqn => method_only "nvmf_delete_subsystem" [("nqn", JStr nqn)]
  | DetachNVMeController name => method_only "bdev_nvme_detach_controller" [("name", JStr name)]
  | Health =>
      r ← ask (S := rpc) (Call "spdk_get_version" None);
      Ret (match r with inl text => Err (rpcError text) | inr _ => Ok tt end)
  | RemoveListener nqn listener =>
      ignoring ["Listener was not found"] "nvmf_subsystem_remove_listener"
        (listener_params nqn listener)
  | RemoveNamespace nqn nsID =>
      ignoring ["Namespace was not found"] "nvmf_subsystem_remove_ns"
        [("nqn", JStr nqn); ("nsid", JNum nsID)]
  | DestroyRAID name => ignoring ["No such device"] "bdev_raid_delete" [("name", JStr name)]
  | AddBaseBdev raidName baseBdev =>
      method_only "bdev_raid_add_base_bdev"
        [("name", JStr raidName); ("base_bdev", JStr baseBdev)]
  | RemoveBaseBdev raidName baseBdev =>
      method_only "bdev_raid_remove_base_bdev"
        [("name", JStr raidName); ("base_bdev", JStr baseBdev)]
  | GetRAIDInfo name => real_GetRAIDInfo name
  end.
End real.

(** ** fake.go *)
Record FakeClient := mkFake { fc_Calls : list string; fc_Err : option error }.
Definition call_text (c : spdk_call) : string :=
  match c with
  | CreateTransport trType => "CreateTransport:" +:+ trType
  | CreateAIOBdev name filename _ => "CreateAIOBdev:" +:+ name +:+ ":" +:+ filename
  | AttachNVMeController c =>
      "AttachNVMeController:" +:+ nc_Name c +:+ ":" +:+ nc_SubNQN c +:+ ":" +:+ nc_AdrFam c
        +:+ ":" +:+ nc_TrAddr c
  | CreateMirrorBdev name _ _ => "CreateMirrorBdev:" +:+ name
  | CreateSubsystem nqn _ _ => "CreateSubsystem:" +:+ nqn
  | AddNamespace _ namespace => "AddNamespace:" +:+ ns_BdevName namespace
  | AddListener _ l =>
      "AddListener:" +:+ li_TrSvcID l +:+ ":" +:+ li_AdrFam l +:+ ":" +:+ li_TrAddr l
  | AddHost nqn host => "AddHost:" +:+ nqn +:+ ":" +:+ host
  | DeleteSubsystem nqn => "DeleteSubsystem:" +:+ nqn
  | DetachNVMeController name => "DetachNVMeController:" +:+ name
  | Health => "Health"
  | RemoveListener nqn _ => "RemoveListener:" +:+ nqn
  | RemoveNamespace nqn _ => "RemoveNamespace:" +:+ nqn
  | DestroyRAID name => "DestroyRAID:" +:+ name
  | AddBaseBdev raidName baseBdev => "AddBaseBdev:" +:+ raidName +:+ ":" +:+ baseBdev
  | RemoveBaseBdev raidName baseBdev => "RemoveBaseBdev:" +:+ raidName +:+ ":" +:+ baseBdev
  | GetRAIDInfo name => "GetRAIDInfo:" +:+ name
  end.
Definition record (call : string) (f : FakeClient) : FakeClient :=
  mkFake (fc_Calls f ++ [call]) (fc_Err f).
Definition fake_value (c : spdk_call) : spdk_value c :=
  match c with
  | AttachNVMeController controller => nc_Name controller +:+ "n1"
  | GetRAIDInfo _ => []
  | CreateTransport _ | CreateAIOBdev _ _ _ | CreateMirrorBdev _ _ _ | CreateSubsystem _ _ _
  | AddHost _ _ | AddNamespace _ _ | AddListener _ _ | DeleteSubsystem _
  | DetachNVMeController _ | Health | RemoveListener _ _ | RemoveNamespace _ _
  | DestroyRAID _ | AddBaseBdev _ _ | RemoveBaseBdev _ _ => tt
  end.
Definition fakeClient : handler spdk FakeClient := λ c f,
  (match fc_Err f with Some e => Err e | None => Ok (fake_value c) end, record (call_text c) f).

(** ** Lemmas *)
Lemma rpcCall_wp method params Q :
  (∀ a, Q [ev (S:=rpc) (Call method (Some (JObj params))) a] a) → wp (rpcCall method params) Q.
Proof. done. Qed.

(** What one tolerant RPC makes of its answer. *)
Definition tolerant_post (phrases : list string) (tr : list (event rpc)) (ok : bool) : Prop :=
  ∃ m params (a : string + option json), tr = [ev (S:=rpc) (Call m params) a] ∧
    ok = match a with inl text => existsb (Contains text) phrases | inr _ => true end.
Lemma ignoring_wp phrases method params :
  wp (ignoring phrases method params) (λ tr r, tolerant_post phrases tr (is_ok r)).
Proof.
  intros a. exists method, (Some (JObj params)), a. split; [done|].
  destruct a as [text|]; [|done]. by destruct (existsb _ _).
Qed.
Lemma method_only_wp method params :
  wp (method_only method params) (λ tr r, tolerant_post [] tr (is_ok r)).
Proof. intros a. exists method, (Some (JObj params)), a. by destruct a. Qed.

Section tolerance.
Context `{Environ}.
(** The phrases that a method made of a single RPC tolerates. *)
Definition tolerated (c : spdk_call) : option (list string) :=
  match c with
  | CreateTransport _ => Some ["already exists"]
  | CreateSubsystem _ _ _ => Some ["already exists"; "Unable to create"]
  | AddNamespace _ _ | AddListener _ _ => Some ["already exists"; "Invalid parameters"]
  | AddHost _ host => if IsHostNQN host then Some ["already exists"] else None
  | RemoveListener _ _ => Some ["Listener was not found"]
  | RemoveNamespace _ _ => Some ["Namespace was not found"]
  | DestroyRAID _ => Some ["No such device"]
  | CreateMirrorBdev _ _ _ | DeleteSubsystem _ | DetachNVMeController _ | Health
  | AddBaseBdev _ _ | RemoveBaseBdev _ _ => Some []
  | CreateAIOBdev _ _ _ | AttachNVMeController _ | GetRAIDInfo _ => None
  end.

Lemma realClient_wp c phrases :
  tolerated c = Some phrases →
  wp (realClient c) (λ tr r, tolerant_post phrases tr (is_ok r)).
Proof.
  destruct c; cbn [tolerated realClient]; intros Hc; simplify_eq;
    try apply ignoring_wp; try apply method_only_wp.
  - unfold real_AddHost. destruct (IsHostNQN host); [|done]. simplify_eq. apply ignoring_wp.
  - intros a. exists "spdk_get_version", None, a. by destruct a.
Qed.
End tolerance.

Lemma attach_result_name controller res b :
  attach_result controller res = Ok b → b ≠ "".
Proof.
  assert (nc_Name controller +:+ "n1" ≠ "") as Hn by (by destruct (nc_Name controller)).
  unfold attach_result. intros Hr.
  repeat (case_match; simplify_eq; try done); try (by case_bool_decide; simplify_eq).
Qed.

(** ** Properties *)

(** Every method made of a single RPC succeeds exactly when the RPC does or
    fails with a text that contains one of the phrases of that method; so
    setting up a target again, or tearing down what is gone, succeeds. *)
Theorem realClient_tolerates `{Environ} (c : spdk_call) (phrases : list string)
    (tr : list (event rpc)) (r : result (spdk_value c)) :
  tolerated c = Some phrases → exec (realClient c) tr r →
  ∃ m params (a : string + option json), tr = [ev (S:=rpc) (Call m params) a] ∧
    is_ok r = match a with inl text => existsb (Contains text) phrases | inr _ => true end.
Proof. intros Hc Hex. exact (exec_wp _ _ _ _ Hex (realClient_wp c phrases Hc)). Qed.

#[local] Instance spdk_environ : Environ := λ _, "".
Definition rpc_answers (a : string + option json) (c : rpc_call) : string + option json := a.
Definition exists_run :=
  run (snapshot_handler (S:=rpc) (rpc_answers (inl "code -17: Transport tcp already exists")))
    (realClient (CreateTransport "tcp")) tt.
Lemma realClient_tolerates_witness :
  exists_run.1.2 = Ok tt ∧
  ∃ m params (a : string + option json), exists_run.1.1 = [ev (S:=rpc) (Call m params) a] ∧
    true = match a with inl text => existsb (Contains text) ["already exists"] | inr _ => true end.
Proof.
  split; [vm_compute; reflexivity|].
  apply (realClient_tolerates (CreateTransport "tcp") ["already exists"] exists_run.1.1 (Ok tt)).
  - reflexivity.
  - exact (exec_of_run _ _ tt _ eq_refl).
Defined.

(** Attaching a controller takes at most three RPCs (a stale controller of
    the name is detached once), and the bdev name it answers is never empty.
    For SPDK's own answer, an array of names, it is not the name answered but
    the controller's name followed by n1. *)
Theorem AttachNVMeController_name `{Environ} (controller : NVMeController)
    (tr : list (event rpc)) (b : string) :
  exec (realClient (AttachNVMeController controller)) tr (Ok b) →
  length tr ≤ 3 ∧ b ≠ "" ∧
  ∃ tr0 res, tr = tr0 ++ [ev (S:=rpc) (Call "bdev_nvme_attach_controller"
                            (Some (JObj (attachNVMeControllerParams controller)))) (inr res)] ∧
    attach_result controller res = Ok b ∧
    (∀ n l, res = Some (JArr (JStr n :: l)) → b = nc_Name controller +:+ "n1").
Proof.
  intros Hex. revert Hex. generalize (eq_refl (Ok b)). generalize (Ok b) at 2 3.
  intros r Hr Hex. refine (exec_wp _ (λ tr r, Ok b = r → _) _ _ Hex _ Hr). clear.
  assert (∀ res, attach_result controller res = Ok b →
    b ≠ "" ∧ ∀ n l, res = Some (JArr (JStr n :: l)) → b = nc_Name controller +:+ "n1") as Hres.
  { intros res Hb. split; [by eapply attach_result_name|]. intros n l ->.
    by injection Hb as <-. }
  cbn [realClient]. unfold real_AttachNVMeController.
  apply wp_bind_intro, rpcCall_wp. intros [text|res]; cbn beta iota.
  - destruct (Contains text _); [|by intros ?].
    apply wp_bind_intro, rpcCall_wp. intros a.
    apply wp_bind_intro, rpcCall_wp. intros [text'|res]; [by intros ?|].
    apply wp_ret_intro. intros Hb. destruct (Hres res) as [? ?]; [done|].
    split; [cbn; lia|]. split; [done|]. eexists [_; _], res. by split_and!.
  - apply wp_ret_intro. intros Hb. destruct (Hres res) as [? ?]; [done|].
    split; [cbn; lia|]. split; [done|]. by eexists [], res.
Qed.

Definition nvme0 : NVMeController := mkController "nvme0" "10.0.0.2" "4421" "nqn" "ipv4".
Definition attach_run :=
  run (snapshot_handler (S:=rpc) (rpc_answers (inr (Some (JArr [JStr "nvme0n1"])))))
    (realClient (AttachNVMeController nvme0)) tt.
Lemma AttachNVMeController_name_witness :
  attach_run.1.2 = Ok "nvme0n1" ∧ length attach_run.1.1 ≤ 3 ∧ "nvme0n1" ≠ "".
Proof.
  split; [vm_compute; reflexivity|].
  destruct (AttachNVMeController_name nvme0 attach_run.1.1 "nvme0n1") as (? & ? & _).
  - exact (exec_of_run _ _ tt _ eq_refl).
  - done.
Defined.
