(* ===== verification/HttpServer.v ===== *)
(** * net/http handlers, as far as the program's servers use them

    A request is its method and what the JSON decoder makes of its body.  A
    response is the status code and the body that was written. *)
From S2P Require Import Prelude GoStrings GoJson.

Record Request (A : Type) := mkRequest { rq_Method : string; rq_Body : result A }.
Arguments mkRequest {A}.
Arguments rq_Method {A}.
Arguments rq_Body {A}.

(** [Text s] is what [http.Error(w, s, code)] writes, [ErrorText prefix err] the
    same with the text of [fmt.Sprintf(prefix+"%v", err)]; [Raw s] is written as
    it is, and [Encoded v] by a JSON encoder. *)
Inductive http_body :=
  | NoBody
  | Text (s : string)
  | Raw (s : string)
  | ErrorText (prefix : string) (err : error)
  | Encoded (v : json).
Record Response := mkHttp { rp_StatusCode : Z; rp_Body : http_body }.

(** A decoded POST request, or the answer to anything else; [prefix] precedes
    the decoder's error. *)
Definition decode_post {A} (notAllowed : http_body) (prefix : string) (r : Request A)
    : Response + A :=
  if negb (bool_decide (rq_Method r = "POST")) then inl (mkHttp 405 notAllowed)
  else
    match rq_Body r with
    | Err err => inl (mkHttp 400 (ErrorText prefix err))
    | Ok a => inr a
    end.

(** Exactly the decoded POST requests get through. *)
Lemma decode_post_inr {A} notAllowed prefix (r : Request A) a :
  decode_post notAllowed prefix r = inr a ↔ rq_Method r = "POST" ∧ rq_Body r = Ok a.
Proof.
  unfold decode_post. case_bool_decide; cbn; [|naive_solver].
  destruct (rq_Body r); naive_solver.
Qed.
