(* ===== verification/SidecarEngine.v ===== *)
(** * internal/sidecar/engine.go and reconfigure.go: the engine's SPDK stack

    [ConfigureEngine] builds the mirror of a volume and exports it;
    [Reconfigure] adds and removes members of the mirror.  Both are programs
    over the calls of [spdk.Client] and the sleeps. *)
From S2P Require Import Prelude GoStrings GoJson ApiTypes Names Network WireTypes Spdk HttpServer.

(** ** The calls *)
Inductive side_call := Do (c : spdk_call) | SleepFor (d : Z).
Definition side_reply (c : side_call) : Type :=
  match c with Do c => result (spdk_value c) | SleepFor _ => unit end.
Definition side : sig := Sig side_call side_reply.
Abbreviation SC := (prog side).
Abbreviation side_trace := (list (event side)).
Definition spdkDo (c : spdk_call) : SC (result (spdk_value c)) := ask (S := side) (Do c).
Definition sleepSeconds (n : Z) : SC unit := ask (S := side) (SleepFor (n * 1000000000)%Z).

(** ** engine.go *)
Record EngineConfig := mkEngineConfig {
  ec_VolumeName : string; ec_LocalPath : string; ec_Replicas : list ReplicaAttachment;
  ec_Listener : Listener; ec_Endpoint : string; ec_AllowedHosts : list string }.
Record SidecarEngine := mkSidecarEngine {
  sce_config : EngineConfig; sce_volumeName : string; sce_listener : Listener;
  sce_endpoint : string; sce_subsystemNQN : string }.

(** It never fails: an address that is not an IP counts as IPv4. *)
Definition nvmeAddressFamily (address : string) : string :=
  match AddressFamilyForAddress address FamilyAuto with
  | Err _ => "ipv4"
  | Ok family => ToLower family
  end.

Definition localBdevName := "aio0".
Definition bdev_name (i : Z) : string := "nvme" +:+ Itoa i.
Definition controller_for (i : Z) (rep : ReplicaAttachment) : NVMeController :=
  mkController (bdev_name i) (ra_Address rep) (ra_Port rep) (ra_NQN rep)
    (nvmeAddressFamily (ra_Address rep)).

(** [n] attempts, with a pause after every failed one but the last. *)
Fixpoint attach_attempts (controller : NVMeController) (pause : Z) (n : nat) : SC (option string) :=
  match n with
  | 0 => Ret None
  | S n' =>
      r ← spdkDo (AttachNVMeController controller);
      match r with
      | Ok bdev => Ret (Some bdev)
      | Err _ =>
          if bool_decide (n' = 0) then Ret None
          else _ ← sleepSeconds pause; attach_attempts controller pause n'
      end
  end.

(** Whether a replica is reached over NVMe-oF, and where is known. *)
Definition remote (rep : ReplicaAttachment) : bool :=
  negb (ra_IsLocal rep) &&
  negb (bool_decide (ra_Address rep = "") || bool_decide (ra_NQN rep = "")).

Fixpoint attach_replicas (i : Z) (reps : list ReplicaAttachment) (baseBdevs : list string)
    : SC (list string) :=
  match reps with
  | [] => Ret baseBdevs
  | rep :: reps' =>
      if remote rep then
        o ← attach_attempts (controller_for i rep) 10 5;
        match o with
        | Some bdev =>
            _ ← sleepSeconds 2;
            attach_replicas (i + 1) reps' (baseBdevs ++ [bdev])
        | None => attach_replicas (i + 1) reps' baseBdevs
        end
      else attach_replicas (i + 1) reps' baseBdevs
  end.

(** The bdev to export: a mirror when there is anything to mirror. *)
Definition export_bdev (baseBdevs : list string) : SC (result string) :=
  if (length baseBdevs <=? 1)%nat then Ret (Ok localBdevName)
  else
    _ ←? spdkDo (CreateMirrorBdev "raid0" baseBdevs 131072);
    Ret (Ok "raid0").

Section sidecar.
Context `{Environ}.

(** reconfigure.go *)
Definition NewEngine (config : EngineConfig) : SidecarEngine :=
  mkSidecarEngine config (ec_VolumeName config) (ec_Listener config) (ec_Endpoint config)
    (VolumeNQN (ec_VolumeName config)).

(** The calls after the mirror. *)
Definition export_stack (config : EngineConfig) (exportBdev : string) : SC (result SidecarEngine) :=
  let nqn := VolumeNQN (ec_VolumeName config) in
  _ ←? spdkDo (CreateSubsystem nqn "kdfs-vol" true);
  _ ←? spdkDo (AddNamespace nqn (mkNamespace exportBdev));
  _ ←? spdkDo (AddListener nqn (ec_Listener config));
  Ret (Ok (NewEngine config)).
Definition ConfigureEngine (config : EngineConfig) : SC (result SidecarEngine) :=
  _ ←? spdkDo (CreateTransport "tcp");
  _ ←? spdkDo (CreateAIOBdev localBdevName (ec_LocalPath config) 4096);
  baseBdevs ← attach_replicas 0 (ec_Replicas config) [localBdevName];
  exportBdev ←? export_bdev baseBdevs;
  export_stack config exportBdev.
End sidecar.

Definition Engine_Status (e : SidecarEngine) : SidecarStatus :=
  mkSidecarStatus "engine" (sce_endpoint e) (sce_subsystemNQN e) "".

(** ** reconfigure.go *)
Definition set_config_Replicas (reps : list ReplicaAttachment) (e : SidecarEngine) : SidecarEngine :=
  let c := sce_config e in
  mkSidecarEngine
    (mkEngineConfig (ec_VolumeName c) (ec_LocalPath c) reps (ec_Listener c) (ec_Endpoint c)
       (ec_AllowedHosts c))
    (sce_volumeName e) (sce_listener e) (sce_endpoint e) (sce_subsystemNQN e).

(** The names in [base_bdevs_list]. *)
Definition base_name (b : json) : option string :=
  match b with
  | JObj m => match obj_get "name" m with Some v => as_string v | None => None end
  | _ => None
  end.
Definition bdevs_in (info : list (string * json)) : gset string :=
  match obj_get "base_bdevs_list" info with
  | Some (JArr baseBdevs) => list_to_set (omap base_name baseBdevs)
  | _ => ∅
  end.
Definition current_bdevs : SC (gset string) :=
  r ← spdkDo (GetRAIDInfo "raid0");
  Ret (match r with Err _ => ∅ | Ok info => bdevs_in info end).

Definition still_needed (newReplicas : list ReplicaAttachment) (old : ReplicaAttachment) : bool :=
  existsb (λ new, bool_decide (ra_Name new = ra_Name old)) newReplicas.

(** Errors of the removal are only logged. *)
Fixpoint remove_replicas (current : gset string) (newReplicas : list ReplicaAttachment)
    (i : Z) (old : list ReplicaAttachment) : SC unit :=
  match old with
  | [] => Ret tt
  | oldRep :: old' =>
      if negb (ra_IsLocal oldRep) && negb (still_needed newReplicas oldRep) &&
         bool_decide (bdev_name i ∈ current)
      then
        _ ← spdkDo (RemoveBaseBdev "raid0" (bdev_name i));
        _ ← spdkDo (DetachNVMeController (bdev_name i));
        remove_replicas current newReplicas (i + 1) old'
      else remove_replicas current newReplicas (i + 1) old'
  end.

Fixpoint add_replicas (current : gset string) (i : Z) (new : list ReplicaAttachment)
    : SC (result unit) :=
  match new with
  | [] => Ret (Ok tt)
  | newRep :: new' =>
      if negb (ra_IsLocal newRep) && negb (bool_decide (bdev_name i ∈ current)) then
        o ← attach_attempts (controller_for i newRep) 5 5;
        match o with
        | None => Ret (Err (Errorf "failed to attach NVMe controller for %s" [bdev_name i]))
        | Some _ =>
            r ← spdkDo (AddBaseBdev "raid0" (bdev_name i));
            match r with
            | Err err => Ret (Err (Wrapf "add base bdev: %w" [] err))
            | Ok _ => add_replicas current (i + 1) new'
            end
        end
      else add_replicas current (i + 1) new'
  end.

(** The error, and the engine as it is then. *)
Definition Reconfigure (e : SidecarEngine) (newReplicas : list ReplicaAttachment)
    : SC (result unit * SidecarEngine) :=
  current ← current_bdevs;
  _ ← remove_replicas current newReplicas 0 (ec_Replicas (sce_config e));
  r ← add_replicas current 0 newReplicas;
  Ret (match r with
       | Err err => (Err err, e)
       | Ok _ => (Ok tt, set_config_Replicas newReplicas e)
       end).

(** The handler: the response, and the engine as it is then. *)
Definition ReconfigureHTTP (e : SidecarEngine) (r : Request (list ReplicaAttachment))
    : SC (Response * SidecarEngine) :=
  match decode_post (Text "method not allowed") "bad request: " r with
  | inl resp => Ret (resp, e)
  | inr replicas =>
      re ← Reconfigure e replicas;
      Ret (match re with
           | (Err err, e) => (mkHttp 500 (ErrorText "reconfigure failed: " err), e)
           | (Ok _, e) => (mkHttp 200 (Raw "ok"), e)
           end)
  end.

(** ** status.go *)
Definition status_json (s : SidecarStatus) : json :=
  JObj ([("role", JStr (st_Role s))] ++ omit_str "endpoint" (st_Endpoint s)
        ++ omit_str "subsystemNQN" (st_SubsystemNQN s) ++ omit_str "replicaNQN" (st_ReplicaNQN s)).
Definition WriteStatusHTTP (s : SidecarStatus) : Response := mkHttp 200 (Encoded (status_json s)).
Definition Engine_StatusHTTP (e : SidecarEngine) : Response := WriteStatusHTTP (Engine_Status e).

(** ** What a trace says *)

(** The controller for [rep], the [k]-th replica of its engine: named by the
    index, at the address, the port and the NQN of the attachment. *)
Definition controller_of (k : Z) (rep : ReplicaAttachment) (c : NVMeController) : Prop :=
  nc_Name c = bdev_name k ∧ nc_TrAddr c = ra_Address rep ∧ nc_TrSvcID c = ra_Port rep ∧
  nc_SubNQN c = ra_NQN rep ∧ nc_AdrFam c = nvmeAddressFamily (ra_Address rep).

(** The attach calls and their answers. *)
Definition attach_of (e : event side) : option (NVMeController * result string) :=
  match e with
  | existT (Do (AttachNVMeController c)) r => Some (c, r)
  | _ => None
  end.
Definition attaches : side_trace → list (NVMeController * result string) := omap attach_of.
(** The bdevs that were attached, in order. *)
Definition attached_bdev (x : NVMeController * result string) : option string :=
  match x.2 with Ok b => Some b | Err _ => None end.
Definition attached_bdevs (tr : side_trace) : list string := omap attached_bdev (attaches tr).
(** The other calls that succeeded, in order. *)
Definition ok_of (e : event side) : option spdk_call :=
  match e with
  | existT (Do (AttachNVMeController _)) _ => None
  | existT (Do c) r => if is_ok r then Some c else None
  | _ => None
  end.
Definition oks : side_trace → list spdk_call := omap ok_of.
Definition sleep_of (e : event side) : option Z :=
  match projT1 e with SleepFor d => Some d | _ => None end.
Definition slept (tr : side_trace) : Z := foldr Z.add 0%Z (omap sleep_of tr).

Definition attach_event (e : event side) : bool :=
  match projT1 e with
  | Do (AttachNVMeController _) | SleepFor _ => true
  | _ => false
  end.
Definition attach_only : side_trace → Prop := Forall (λ e, attach_event e = true).

Lemma attaches_app tr1 tr2 : attaches (tr1 ++ tr2) = attaches tr1 ++ attaches tr2.
Proof. apply omap_app. Qed.
Lemma attached_bdevs_app tr1 tr2 :
  attached_bdevs (tr1 ++ tr2) = attached_bdevs tr1 ++ attached_bdevs tr2.
Proof. unfold attached_bdevs. by rw attaches_app omap_app. Qed.
Lemma oks_app tr1 tr2 : oks (tr1 ++ tr2) = oks tr1 ++ oks tr2.
Proof. apply omap_app. Qed.
Lemma slept_app tr1 tr2 : slept (tr1 ++ tr2) = (slept tr1 + slept tr2)%Z.
Proof.
  unfold slept. rw omap_app foldr_app. generalize (omap sleep_of tr1) as l.
  intros l. induction l; cbn; lia.
Qed.
Lemma attach_only_oks tr : attach_only tr → oks tr = [].
Proof.
  induction 1 as [|[c r] tr Hc _ IH]; [done|]. destruct c as [[]|]; try done; exact IH.
Qed.

(** ** Symbolic execution *)
Lemma spdkDo_wp c Q : (∀ r, Q [ev (S:=side) (Do c) r] r) → wp (spdkDo c) Q.
Proof. done. Qed.
Lemma sleepSeconds_wp n Q :
  (∀ r, Q [ev (S:=side) (SleepFor (n * 1000000000)%Z) r] tt) → wp (sleepSeconds n) Q.
Proof. intros H []. apply H. Qed.
Lemma slept_sleep d r : slept [ev (S:=side) (SleepFor d) r] = d.
Proof. unfold slept. cbn. lia. Qed.
Lemma slept_do c r : slept [ev (S:=side) (Do c) r] = 0%Z.
Proof. done. Qed.
Ltac side_step :=
  cbn beta iota;
  lazymatch goal with
  | |- wp (spdkDo _) _ => apply spdkDo_wp; intros ?; cbn beta iota
  | |- wp (sleepSeconds _) _ => apply sleepSeconds_wp; intros ?; cbn beta iota
  | |- _ => wp_step
  end.
Ltac side_steps := repeat side_step.

(** ** Attaching *)
Definition failed (r : result string) : Prop := is_ok r = false.
(** [n] attempts with the outcome: a first success, or [n] failures. *)
Definition tried (n : nat) (rs : list (result string)) (o : option string) : Prop :=
  match o with
  | Some b => ∃ errs, rs = errs ++ [Ok b] ∧ length errs < n ∧ Forall failed errs
  | None => length rs = n ∧ Forall failed rs
  end.

Definition second : Z := 1000000000.
Lemma attach_attempts_wp c pause n :
  (0 ≤ pause)%Z → 0 < n →
  wp (attach_attempts c pause n) (λ tr o,
    attach_only tr ∧ (slept tr ≤ pause * second * (Z.of_nat n - 1))%Z ∧
    ∃ rs, attaches tr = (c,.) <$> rs ∧ tried n rs o).
Proof.
  intros Hp. induction n as [|n IH]; intros Hn; [lia|]. cbn [attach_attempts].
  side_step. side_step. destruct r as [bdev|e]; cbn beta iota.
  - side_step. cbn [app]. rw slept_do. split; [by repeat constructor|].
    split; [unfold second; nia|].
    exists [Ok bdev]. split; [done|]. exists []. split_and!; [done|cbn; lia|constructor].
  - case_bool_decide as Hz.
    + side_step. rw slept_do. split; [by repeat constructor|]. split; [unfold second; nia|].
      exists [Err e]. subst n. split; [done|]. split; [done|by repeat constructor].
    + side_step. side_step. eapply wp_mono; [|apply IH; lia].
      intros tr o (Ha & Hs & rs & Hrs & Ht).
      split; [by repeat constructor|]. split.
      { rw !slept_app slept_do slept_sleep. unfold second in *. nia. }
      exists (Err e :: rs). split; [by rw !attaches_app Hrs|]. destruct o as [b|].
      * destruct Ht as (errs & -> & Hl & Hf). exists (Err e :: errs).
        split_and!; [done|cbn; lia|by constructor].
      * destruct Ht as [Hl Hf]. split; [cbn; lia|by constructor].
Qed.

Lemma bdev_name_inj i j : bdev_name i = bdev_name j → i = j.
Proof. intros H. apply string_app_inj_l in H. by apply (inj Itoa). Qed.
Lemma failed_attached c errs : Forall failed errs → omap attached_bdev ((c,.) <$> errs) = [].
Proof. induction 1 as [|[b|e] errs He _ IH]; [done|done|exact IH]. Qed.
Lemma tried_attached c n rs o :
  tried n rs o → omap attached_bdev ((c,.) <$> rs) = option_list o.
Proof.
  destruct o as [b|]; cbn.
  - intros (errs & -> & _ & Hf). rw fmap_app omap_app failed_attached //.
  - intros [_ Hf]. by apply failed_attached.
Qed.

(** The replicas, the first of which has index [i], were handled in order: each
    remote one by attempts at its own controller, up to the first success and five
    at most. *)
Inductive attached : Z → list ReplicaAttachment → list (NVMeController * result string) → Prop :=
  | attached_none i : attached i [] []
  | attached_skip i rep reps xs :
      remote rep = false → attached (i + 1) reps xs → attached i (rep :: reps) xs
  | attached_tried i rep reps c rs o xs :
      remote rep = true → controller_of i rep c → tried 5 rs o →
      attached (i + 1) reps xs → attached i (rep :: reps) (((c,.) <$> rs) ++ xs).
(** The call is for one of the replicas. *)
Definition aimed (i : Z) (reps : list ReplicaAttachment) (x : NVMeController * result string)
    : Prop :=
  ∃ k rep, reps !! k = Some rep ∧ remote rep = true ∧ controller_of (i + Z.of_nat k) rep x.1.

Lemma aimed_cons i rep reps x : aimed (i + 1) reps x → aimed i (rep :: reps) x.
Proof.
  intros (k & rep' & Hk & Hr & Hx). exists (S k), rep'. split_and!; [done..|].
  by replace (i + Z.of_nat (S k))%Z with (i + 1 + Z.of_nat k)%Z by lia.
Qed.
Lemma attached_aimed i reps xs : attached i reps xs → Forall (aimed i reps) xs.
Proof.
  induction 1 as [|i rep reps xs _ _ IH|i rep reps c rs o xs Hr Hc _ _ IH]; [constructor|..].
  - eapply Forall_impl; [exact IH|]. apply aimed_cons.
  - apply Forall_app. split; [|eapply Forall_impl; [exact IH|]; apply aimed_cons].
    apply Forall_fmap, Forall_true. intros r. exists 0, rep. split_and!; [done..|].
    by replace (i + Z.of_nat 0)%Z with i by lia.
Qed.

Definition attach_all_post (i : Z) (reps : list ReplicaAttachment) (base : list string)
    (tr : side_trace) (bdevs : list string) : Prop :=
  attach_only tr ∧ (slept tr ≤ 42 * second * Z.of_nat (length reps))%Z ∧
  bdevs = base ++ attached_bdevs tr ∧
  attached i reps (attaches tr).
Lemma attach_all_cons i rep reps base tr1 tr2 bdevs rs o :
  remote rep = true → attach_only tr1 → (slept tr1 ≤ 42 * second)%Z →
  attaches tr1 = (controller_for i rep,.) <$> rs → tried 5 rs o →
  attach_all_post (i + 1) reps (base ++ option_list o) tr2 bdevs →
  attach_all_post i (rep :: reps) base (tr1 ++ tr2) bdevs.
Proof.
  intros Hr Ha1 Hs1 H1 Ht (Ha2 & Hs2 & -> & Hh2).
  assert (attached_bdevs tr1 = option_list o) as Hb1.
  { unfold attached_bdevs. rw H1. by eapply tried_attached. }
  split_and!.
  - by apply Forall_app.
  - rw slept_app. cbn [length]. unfold second in *. lia.
  - by rw attached_bdevs_app Hb1 app_assoc.
  - rw attaches_app H1. by eapply attached_tried.
Qed.
Lemma attach_replicas_wp reps i base :
  wp (attach_replicas i reps base) (attach_all_post i reps base).
Proof.
  revert i base. induction reps as [|rep reps IH]; intros i base; cbn [attach_replicas].
  { side_step. split_and!; [constructor|done|by rw app_nil_r|constructor]. }
  destruct (remote rep) eqn:Hr.
  - side_step. eapply wp_mono; [|apply attach_attempts_wp; lia].
    intros tr1 o (Ha1 & Hs1 & rs & H1 & Ht). destruct o as [bdev|].
    + side_step. side_step. eapply wp_mono; [|apply IH]. intros tr2 bdevs H2.
      rw app_assoc. eapply (attach_all_cons _ _ _ _ _ _ _ rs (Some bdev)); [done|..|done|done].
      * apply Forall_app. split; [done|by repeat constructor].
      * rw slept_app slept_sleep. unfold second in *. lia.
      * rw attaches_app H1. cbn. apply app_nil_r.
    + eapply wp_mono; [|apply IH]. intros tr2 bdevs H2.
      eapply (attach_all_cons _ _ _ _ _ _ _ rs None); try done.
      * unfold second in *. lia.
      * by rw app_nil_r.
  - eapply wp_mono; [|apply IH]. intros tr bdevs (Ha & Hs & -> & Hh). split_and!; [done|..].
    + cbn [length]. unfold second in *. lia.
    + done.
    + by apply attached_skip.
Qed.

(** ** ConfigureEngine *)
Section configure.
Context `{Environ}.

Definition mirrored (bdevs : list string) : list spdk_call :=
  if bool_decide (bdevs = []) then []
  else [CreateMirrorBdev "raid0" (localBdevName :: bdevs) 131072].
Definition exported_bdev (bdevs : list string) : string :=
  if bool_decide (bdevs = []) then localBdevName else "raid0".
(** The stack: transport, backing bdev, mirror, subsystem, namespace and
    listener, in this order. *)
Definition stack (config : EngineConfig) (bdevs : list string) : list spdk_call :=
  let nqn := VolumeNQN (ec_VolumeName config) in
  [CreateTransport "tcp"; CreateAIOBdev localBdevName (ec_LocalPath config) 4096]
  ++ mirrored bdevs
  ++ [CreateSubsystem nqn "kdfs-vol" true; AddNamespace nqn (mkNamespace (exported_bdev bdevs));
      AddListener nqn (ec_Listener config)].
Definition engine_post (config : EngineConfig) (tr : side_trace) (r : result SidecarEngine)
    : Prop :=
  (slept tr ≤ 42 * second * Z.of_nat (length (ec_Replicas config)))%Z ∧
  (oks tr `prefix_of` stack config (attached_bdevs tr)) ∧
  (Forall (aimed 0 (ec_Replicas config)) (attaches tr)) ∧
  match r with
  | Ok e => e = NewEngine config ∧ oks tr = stack config (attached_bdevs tr) ∧
            attached 0 (ec_Replicas config) (attaches tr)
  | Err _ => True
  end.

Lemma export_bdev_wp bdevs Q :
  (∀ tr r, slept tr = 0%Z → attaches tr = [] →
     (r = Ok (exported_bdev bdevs) ∧ oks tr = mirrored bdevs ∨
      (∃ e, r = Err e) ∧ oks tr = []) → Q tr r) →
  wp (export_bdev (localBdevName :: bdevs)) Q.
Proof.
  intros HQ. unfold export_bdev, exported_bdev, mirrored in *. destruct bdevs as [|b bdevs]; cbn [length Nat.leb].
  - side_step. apply HQ; [done..|]. by left.
  - side_step. side_step. destruct r as [[]|e]; cbn beta iota.
    + side_step. apply HQ; [done..|]. left. by rw bool_decide_false.
    + apply HQ; [done..|]. right. eauto.
Qed.

Lemma export_stack_wp config bdev :
  wp (export_stack config bdev) (λ tr r,
    slept tr = 0%Z ∧ attaches tr = [] ∧
    let calls := [CreateSubsystem (VolumeNQN (ec_VolumeName config)) "kdfs-vol" true;
                  AddNamespace (VolumeNQN (ec_VolumeName config)) (mkNamespace bdev);
                  AddListener (VolumeNQN (ec_VolumeName config)) (ec_Listener config)] in
    oks tr `prefix_of` calls ∧ (is_ok r = true → r = Ok (NewEngine config) ∧ oks tr = calls)).
Proof.
  unfold export_stack. side_steps; split_and!; try done.
  all: by eexists.
Qed.

(** The trace of the whole from its parts. *)
Lemma engine_post_parts config u1 u2 tr1 tr' r :
  let tr := ev (S:=side) (Do (CreateTransport "tcp")) (Ok u1)
    :: ev (S:=side) (Do (CreateAIOBdev localBdevName (ec_LocalPath config) 4096)) (Ok u2)
    :: tr1 ++ tr' in
  let bdevs := attached_bdevs tr1 in
  let rest := drop 2 (stack config bdevs) in
  attach_all_post 0 (ec_Replicas config) [localBdevName] tr1 (localBdevName :: bdevs) →
  slept tr' = 0%Z → attaches tr' = [] → oks tr' `prefix_of` rest →
  (∀ e, r = Ok e → e = NewEngine config ∧ oks tr' = rest) →
  engine_post config tr r.
Proof.
  intros tr bdevs rest (Ha & Hs & _ & Hh) Hs' Ha' [k Hk] Hr. apply attach_only_oks in Ha.
  assert (slept tr = slept tr1) as E1.
  { transitivity (slept (tr1 ++ tr')); [done|]. rw slept_app Hs'. lia. }
  assert (attaches tr = attaches tr1) as E2.
  { transitivity (attaches (tr1 ++ tr')); [done|]. by rw attaches_app Ha' app_nil_r. }
  assert (oks tr = take 2 (stack config bdevs) ++ oks tr') as E3.
  { transitivity (take 2 (stack config bdevs) ++ oks (tr1 ++ tr')); [done|]. by rw oks_app Ha. }
  assert (attached_bdevs tr = bdevs) as E4 by (unfold attached_bdevs; by rw E2).
  unfold engine_post. rw E1 E2 E3 E4. split_and!; [done| |by apply attached_aimed|].
  - exists k. rw -app_assoc -Hk. by rw take_drop.
  - destruct r as [e|]; [|done]. destruct (Hr e eq_refl) as [-> ->]. by split_and!; [|apply take_drop|].
Qed.

Lemma configure_engine_wp config : wp (ConfigureEngine config) (engine_post config).
Proof.
  unfold ConfigureEngine. assert (0 ≤ 42 * second * Z.of_nat (length (ec_Replicas config)))%Z
    by (unfold second; lia).
  side_step. side_step. side_step; [|by split_and!; [|eexists|constructor|]].
  side_step. side_step. side_step; [|by split_and!; [|eexists|constructor|]].
  side_step. eapply wp_mono; [|apply attach_replicas_wp].
  intros tr1 bdevs Hall. pose proof Hall as (_ & _ & -> & _). cbn [app].
  side_step. apply export_bdev_wp. intros tr2 r2 Hs2 Ha2 [[-> H2]|[[e ->] H2]]; cbn beta iota.
  - eapply wp_mono; [|apply export_stack_wp]. intros tr3 res (Hs3 & Ha3 & [k Hk] & Hok).
    apply engine_post_parts; [done|..].
    + by rw slept_app Hs2 Hs3.
    + by rw attaches_app Ha2 Ha3.
    + exists k. rw oks_app H2. unfold stack. cbn [drop app]. by rw Hk -app_assoc.
    + intros e ->. destruct (Hok eq_refl) as [[= ->] Hc]. split; [done|].
      rw oks_app H2. unfold stack. cbn [drop app]. by rw Hc.
  - apply engine_post_parts; [done..| |done]. rw H2. apply prefix_nil.
Qed.
End configure.

(** ** Reconfigure *)

(** The removals that were asked for, the members that were added, and what the
    mirror was said to consist of. *)
Definition removal_of (e : event side) : option spdk_call :=
  match projT1 e with
  | Do (RemoveBaseBdev r b) => Some (RemoveBaseBdev r b)
  | Do (DetachNVMeController n) => Some (DetachNVMeController n)
  | _ => None
  end.
Definition removals : side_trace → list spdk_call := omap removal_of.
Definition addition_of (c : spdk_call) : option (string * string) :=
  match c with AddBaseBdev r b => Some (r, b) | _ => None end.
Definition additions (tr : side_trace) : list (string * string) := omap addition_of (oks tr).
Definition info_of (e : event side) : option (gset string) :=
  match e with
  | existT (Do (GetRAIDInfo _)) r => Some (match r with Err _ => ∅ | Ok info => bdevs_in info end)
  | _ => None
  end.
Definition infos : side_trace → list (gset string) := omap info_of.

(** The attach calls and the additions, with their answers. *)
Definition join_event (e : event side) : bool :=
  match projT1 e with
  | Do (AttachNVMeController _) | Do (AddBaseBdev _ _) => true
  | _ => false
  end.
Definition joins : side_trace → side_trace := List.filter join_event.

(** The names to remove, and the replicas to add, with their indices. *)
Fixpoint doomed (current : gset string) (new : list ReplicaAttachment) (i : Z)
    (old : list ReplicaAttachment) : list string :=
  match old with
  | [] => []
  | rep :: old' =>
      (if negb (ra_IsLocal rep) && negb (still_needed new rep) && bool_decide (bdev_name i ∈ current)
       then [bdev_name i] else []) ++ doomed current new (i + 1) old'
  end.
Fixpoint missing (current : gset string) (i : Z) (new : list ReplicaAttachment)
    : list (Z * ReplicaAttachment) :=
  match new with
  | [] => []
  | rep :: new' =>
      (if negb (ra_IsLocal rep) && negb (bool_decide (bdev_name i ∈ current))
       then [(i, rep)] else []) ++ missing current (i + 1) new'
  end.
(** The replicas were joined to the mirror one after the other: each was asked
    for at its own controller until it was attached, and then added under its
    index; one that was refused five times, or could not be added, ended it. *)
Definition attach_answer (c : NVMeController) (r : result string) : event side :=
  ev (S:=side) (Do (AttachNVMeController c)) r.
Inductive joined : list (Z * ReplicaAttachment) → side_trace → result unit → Prop :=
  | joined_all : joined [] [] (Ok tt)
  | joined_next k rep c errs b u wanted tr r :
      controller_of k rep c → Forall failed errs → length errs < 5 → joined wanted tr r →
      joined ((k, rep) :: wanted)
        ((attach_answer c <$> errs) ++ attach_answer c (Ok b) ::
         ev (S:=side) (Do (AddBaseBdev "raid0" (bdev_name k))) (Ok u) :: tr) r
  | joined_unattached k rep c errs wanted :
      controller_of k rep c → Forall failed errs → length errs = 5 →
      joined ((k, rep) :: wanted) (attach_answer c <$> errs)
        (Err (Errorf "failed to attach NVMe controller for %s" [bdev_name k]))
  | joined_refused k rep c errs b e wanted :
      controller_of k rep c → Forall failed errs → length errs < 5 →
      joined ((k, rep) :: wanted)
        ((attach_answer c <$> errs) ++
         [attach_answer c (Ok b); ev (S:=side) (Do (AddBaseBdev "raid0" (bdev_name k))) (Err e)])
        (Err (Wrapf "add base bdev: %w" [] e)).

Definition removal_calls (names : list string) : list spdk_call :=
  flat_map (λ n, [RemoveBaseBdev "raid0" n; DetachNVMeController n]) names.

Lemma removals_app tr1 tr2 : removals (tr1 ++ tr2) = removals tr1 ++ removals tr2.
Proof. apply omap_app. Qed.
Lemma joins_app tr1 tr2 : joins (tr1 ++ tr2) = joins tr1 ++ joins tr2.
Proof. apply List.filter_app. Qed.
Lemma infos_app tr1 tr2 : infos (tr1 ++ tr2) = infos tr1 ++ infos tr2.
Proof. apply omap_app. Qed.
Lemma additions_app tr1 tr2 : additions (tr1 ++ tr2) = additions tr1 ++ additions tr2.
Proof. unfold additions. by rw oks_app omap_app. Qed.
(** Attaching neither removes members nor reads them. *)
Lemma attach_only_neutral tr : attach_only tr → removals tr = [] ∧ infos tr = [].
Proof. induction 1 as [|[c r] tr Hc _ IH]; [done|]. destruct c as [[]|]; try done; exact IH. Qed.
Lemma attach_only_joins tr c rs :
  attach_only tr → attaches tr = (c,.) <$> rs → joins tr = attach_answer c <$> rs.
Proof.
  intros Ha. revert rs. induction Ha as [|[c' r] tr Hc _ IH]; intros rs.
  - by destruct rs.
  - destruct c' as [[]|d]; try done.
    + destruct rs as [|r' rs]; [done|]. cbn. intros [= -> -> Hrs]. f_equal. by apply IH.
    + apply IH.
Qed.

Lemma remove_replicas_wp current new i old :
  wp (remove_replicas current new i old) (λ tr _,
    removals tr = removal_calls (doomed current new i old) ∧ joins tr = [] ∧ infos tr = []).
Proof.
  revert i. induction old as [|rep old IH]; intros i; cbn [remove_replicas doomed]; [by side_step|].
  destruct (negb (ra_IsLocal rep) && _ && _); cbn [app].
  - side_step. side_step. side_step. side_step. eapply wp_mono; [|apply IH].
    intros tr _ (H1 & H2 & H3). cbn [app]. split; [|done]. cbn. by f_equal; f_equal.
  - apply IH.
Qed.
Lemma add_replicas_wp current i new :
  wp (add_replicas current i new) (λ tr r,
    removals tr = [] ∧ infos tr = [] ∧ joined (missing current i new) (joins tr) r).
Proof.
  revert i. induction new as [|rep new IH]; intros i; cbn [add_replicas missing].
  { side_step. split_and!; [done..|constructor]. }
  destruct (negb (ra_IsLocal rep) && _); cbn [app]; [|apply IH].
  side_step. eapply wp_mono; [|apply attach_attempts_wp; lia].
  intros tr1 o (Ha & _ & rs & Hrs & Ht). apply (attach_only_joins _ _ _ Ha) in Hrs.
  destruct (attach_only_neutral _ Ha) as [Hr Hi]. destruct o as [bdev|].
  - destruct Ht as (errs & -> & Hlen & Hf). side_step. side_step. destruct r as [u|e]; cbn beta iota.
    + eapply wp_mono; [|apply IH]. intros tr2 r (H1 & H2 & H3).
      rw !removals_app !infos_app !joins_app Hr Hi Hrs H1 H2 fmap_app -app_assoc.
      split_and!; [done..|]. by apply joined_next.
    + side_step. rw app_nil_r removals_app infos_app joins_app Hr Hi Hrs fmap_app -app_assoc.
      split_and!; [done..|]. by apply joined_refused.
  - destruct Ht as [Hlen Hf]. side_step. rw app_nil_r Hr Hi Hrs. split_and!; [done..|].
    by apply joined_unattached.
Qed.

(** What is taken for the members of the mirror: none when they cannot be read. *)
Definition members (answer : result (list (string * json))) : gset string :=
  match answer with Err _ => ∅ | Ok info => bdevs_in info end.
(** The members are read once, first; then come the removals, whatever they
    answer; then the new replicas are joined. *)
Definition reconfigure_post (e : SidecarEngine) (new : list ReplicaAttachment) (tr : side_trace)
    (r : result unit * SidecarEngine) : Prop :=
  ∃ answer tr1 tr2,
    tr = ev (S:=side) (Do (GetRAIDInfo "raid0")) answer :: tr1 ++ tr2 ∧
    infos (tr1 ++ tr2) = [] ∧
    removals tr1 = removal_calls (doomed (members answer) new 0 (ec_Replicas (sce_config e))) ∧
    joins tr1 = [] ∧ removals tr2 = [] ∧
    joined (missing (members answer) 0 new) (joins tr2) r.1 ∧
    r.2 = if is_ok r.1 then set_config_Replicas new e else e.
Lemma reconfigure_wp e new : wp (Reconfigure e new) (reconfigure_post e new).
Proof.
  unfold Reconfigure, current_bdevs. side_step. side_step. side_step. side_step. side_step.
  eapply wp_mono; [|apply remove_replicas_wp]. intros tr1 [] (H1 & H2 & H3).
  side_step. eapply wp_mono; [|apply add_replicas_wp]. intros tr2 res (H4 & H5 & H6).
  side_step. exists r, tr1, tr2. rw !app_nil_r infos_app H3 H5. split_and!; [done..| |by destruct res as [[]|]].
  by destruct res as [[]|].
Qed.
(** When it succeeds, all were added. *)
Lemma joined_additions wanted tr r :
  joined wanted tr r → r = Ok tt →
  additions tr = (λ x, ("raid0", bdev_name x.1)) <$> wanted.
Proof.
  induction 1 as [|k rep c errs b u wanted tr r _ Hf _ _ IH|k rep c errs wanted|k rep c errs b e wanted];
    [done| |done..].
  intros Hr. rw additions_app. assert (additions (attach_answer c <$> errs) = []) as ->.
  { clear. by induction errs. }
  change (additions (_ :: _ :: tr)) with (("raid0", bdev_name k) :: additions tr). cbn. by rw IH.
Qed.
Lemma additions_joins tr : additions tr = additions (joins tr).
Proof.
  induction tr as [|[c r] tr IH]; [done|]. unfold additions in *. destruct c as [c|d]; [|done].
  destruct c; cbn in *; try (destruct (is_ok r); exact IH); try done.
  destruct (is_ok r); cbn; by rw IH.
Qed.
Lemma additions_none tr : joins tr = [] → additions tr = [].
Proof. intros H. by rw additions_joins H. Qed.

(** The bdev names that attaching answers (see [AttachNVMeController_name]) are
    not the names [Reconfigure] looks for. *)
Lemma attached_name_foreign i j : (0 ≤ j)%Z → bdev_name i +:+ "n1" ≠ bdev_name j.
Proof.
  unfold bdev_name. rw string_app_assoc. intros Hj H.
  apply string_app_inj_l in H. pose proof (Itoa_digits j Hj) as Hd.
  rw -H all_bytes_app in Hd. by apply andb_true_iff in Hd as [_ Hd].
Qed.
Definition from_attach (n : string) : Prop := n = localBdevName ∨ ∃ i, n = bdev_name i +:+ "n1".
Lemma current_foreign (current : gset string) j :
  set_Forall from_attach current → (0 ≤ j)%Z → bdev_name j ∉ current.
Proof.
  intros Hc Hj Hin. destruct (Hc _ Hin) as [H|[i H]]; [done|].
  by apply (attached_name_foreign i j).
Qed.
Lemma doomed_none current new i old :
  set_Forall from_attach current → (0 ≤ i)%Z → doomed current new i old = [].
Proof.
  intros Hc. revert i. induction old as [|rep old IH]; intros i Hi; cbn [doomed]; [done|].
  rw (bool_decide_false (bdev_name i ∈ current)); [|by apply current_foreign].
  rw andb_false_r. apply IH. lia.
Qed.
(** The index names of all the replicas that are not local. *)
Fixpoint remote_names (i : Z) (new : list ReplicaAttachment) : list string :=
  match new with
  | [] => []
  | rep :: new' => (if ra_IsLocal rep then [] else [bdev_name i]) ++ remote_names (i + 1) new'
  end.
Lemma missing_all current i new :
  set_Forall from_attach current → (0 ≤ i)%Z →
  (λ x, bdev_name x.1) <$> missing current i new = remote_names i new.
Proof.
  intros Hc. revert i. induction new as [|rep new IH]; intros i Hi; cbn [missing remote_names]; [done|].
  rw (bool_decide_false (bdev_name i ∈ current)); [|by apply current_foreign].
  rw andb_true_r fmap_app IH; [|lia]. by destruct (ra_IsLocal rep).
Qed.

(** ** Properties *)

(** C27. An engine that is configured has been built in full and in order: the
    calls that succeeded are the transport, the local bdev, the mirror over the
    local bdev and exactly the bdevs that were attached (no mirror when there is
    none), the subsystem, its namespace and the listener.  The replicas were gone
    through in order, and every remote one was asked for at its own address, port
    and NQN, under its index, until it was attached, or refused five times:
    replicas that cannot be reached are left out of the mirror without an error. *)
Theorem ConfigureEngine_stack `{Environ} (config : EngineConfig) (tr : side_trace)
    (e : SidecarEngine) :
  exec (ConfigureEngine config) tr (Ok e) →
  e = NewEngine config ∧ oks tr = stack config (attached_bdevs tr) ∧
  attached 0 (ec_Replicas config) (attaches tr).
Proof.
  intros Hex. by destruct (exec_wp _ _ _ _ Hex (configure_engine_wp config)) as (_ & _ & _ & ?).
Qed.

(** Whatever SPDK answers, configuring stops at the first call that fails
    (what succeeded is a prefix of the stack), asks for no controller but those
    of the remote replicas, and waits 42 seconds a replica at most. *)
Theorem ConfigureEngine_bounded `{Environ} (config : EngineConfig) (tr : side_trace)
    (r : result SidecarEngine) :
  exec (ConfigureEngine config) tr r →
  (slept tr ≤ 42 * second * Z.of_nat (length (ec_Replicas config)))%Z ∧
  oks tr `prefix_of` stack config (attached_bdevs tr) ∧
  Forall (aimed 0 (ec_Replicas config)) (attaches tr).
Proof.
  intros Hex. by destruct (exec_wp _ _ _ _ Hex (configure_engine_wp config)) as (? & ? & ? & _).
Qed.

(** C29. Reconfiguring: it reads the mirror's members once, first; it asks to
    remove and detach exactly the old remote replicas that are no longer wanted
    and whose index name is a member; then, one after the other, the new remote
    replicas whose index name is not a member are each asked for at their own
    address, port and NQN, up to five times, and added once attached; the first
    that is not attached or not added ends it with that error, and only when all
    were added does the engine take the new replicas. *)
Theorem Reconfigure_spec (e : SidecarEngine) (new : list ReplicaAttachment) (tr : side_trace)
    (r : result unit * SidecarEngine) :
  exec (Reconfigure e new) tr r → reconfigure_post e new tr r.
Proof. intros Hex. exact (exec_wp _ _ _ _ Hex (reconfigure_wp e new)). Qed.

(** The members of a mirror are named by attaching, the code looks for names
    without the n1: so, as long as the members have names that attaching
    answers, reconfiguring removes no replica, and it succeeds only when every
    remote replica, also those that are members already, was attached and added
    again. *)
Theorem Reconfigure_never_removes (e : SidecarEngine) (new : list ReplicaAttachment)
    (tr : side_trace) (r : result unit * SidecarEngine) :
  exec (Reconfigure e new) tr r → Forall (set_Forall from_attach) (infos tr) →
  removals tr = [] ∧
  (r.1 = Ok tt → additions tr = pair "raid0" <$> remote_names 0 new).
Proof.
  intros Hex Hf. destruct (exec_wp _ _ _ _ Hex (reconfigure_wp e new))
    as (answer & tr1 & tr2 & -> & Hi & Hr & Hj1 & Hr2 & Hj & _).
  assert (set_Forall from_attach (members answer)) as Hm.
  { apply (proj1 (Forall_cons _ _ _)) in Hf as [Hm _]. exact Hm. }
  split.
  - change (removals (_ :: tr1 ++ tr2)) with (removals (tr1 ++ tr2)). by rw removals_app Hr Hr2 doomed_none.
  - intros Hok. rw -(missing_all (members answer)) // -list_fmap_compose.
    apply (joined_additions _ _ _ Hj) in Hok. rw -additions_joins in Hok.
    transitivity (additions (tr1 ++ tr2)); [by destruct answer|].
    by rw additions_app (additions_none _ Hj1).
Qed.

#[local] Instance engine_environ : Environ := λ _, "".
Definition two_replicas : list ReplicaAttachment :=
  [mkAttachment "v-replica-0" "w1" true "" "" "";
   mkAttachment "v-replica-1" "w2" false "nqn.r1" "10.0.0.2" "4421";
   mkAttachment "v-replica-2" "w3" false "nqn.r2" "10.0.0.3" "4421"].
Definition sample_config : EngineConfig :=
  mkEngineConfig "v" "/data/v/vol.img" two_replicas (mkListener "TCP" "IPv4" "10.0.0.1" "4420")
    "10.0.0.1:4420" [].
(** A target on which the controller [gone] cannot be reached and the members
    of the mirror have the names that attaching answers. *)
Definition target (gone : string) (c : side_call) : side_reply c :=
  match c with
  | Do (AttachNVMeController controller) =>
      if bool_decide (nc_Name controller = gone) then Err (Errorf "connection refused" [])
      else Ok (nc_Name controller +:+ "n1")
  | Do (GetRAIDInfo _) =>
      Ok [("base_bdevs_list", JArr [JObj [("name", JStr "aio0")]; JObj [("name", JStr "nvme1n1")]])]
  | Do c => Ok (fake_value c)
  | SleepFor _ => tt
  end.
Definition configure_run (gone : string) :=
  run (snapshot_handler (S:=side) (target gone)) (ConfigureEngine sample_config) tt.
Definition reconfigure_run :=
  run (snapshot_handler (S:=side) (target "")) (Reconfigure (NewEngine sample_config)
    (take 2 two_replicas)) tt.

Lemma ConfigureEngine_stack_witness :
  (configure_run "nvme2").1.2 = Ok (NewEngine sample_config) ∧
  attached_bdevs (configure_run "nvme2").1.1 = ["nvme1n1"] ∧
  oks (configure_run "nvme2").1.1 = stack sample_config ["nvme1n1"].
Proof.
  split; [vm_compute; reflexivity|]. split; [vm_compute; reflexivity|].
  destruct (ConfigureEngine_stack sample_config (configure_run "nvme2").1.1
              (NewEngine sample_config)) as (_ & H & _).
  - exact (exec_of_run _ _ tt _ eq_refl).
  - exact H.
Defined.

Lemma ConfigureEngine_bounded_witness :
  slept (configure_run "nvme2").1.1 = (42 * second)%Z ∧
  (slept (configure_run "nvme2").1.1 ≤ 42 * second * 3)%Z.
Proof.
  split; [vm_compute; reflexivity|].
  apply (ConfigureEngine_bounded sample_config (configure_run "nvme2").1.1
           (configure_run "nvme2").1.2).
  exact (exec_of_run _ _ tt _ eq_refl).
Defined.

Lemma Reconfigure_spec_witness :
  reconfigure_run.1.2.1 = Ok tt ∧
  reconfigure_post (NewEngine sample_config) (take 2 two_replicas) reconfigure_run.1.1
    reconfigure_run.1.2.
Proof.
  split; [vm_compute; reflexivity|].
  apply (Reconfigure_spec (NewEngine sample_config)).
  exact (exec_of_run _ _ tt _ eq_refl).
Defined.

(** Scaling from three replicas to two: nothing is removed, and the replica that
    is a member is added again. *)
Lemma Reconfigure_never_removes_witness :
  reconfigure_run.1.2.1 = Ok tt ∧ removals reconfigure_run.1.1 = [] ∧
  additions reconfigure_run.1.1 = [("raid0", "nvme1")].
Proof.
  split; [vm_compute; reflexivity|].
  destruct (Reconfigure_never_removes (NewEngine sample_config) (take 2 two_replicas)
              reconfigure_run.1.1 reconfigure_run.1.2) as [Hr Ha].
  - exact (exec_of_run _ _ tt _ eq_refl).
  - assert (infos reconfigure_run.1.1 = [list_to_set ["aio0"; "nvme1n1"]]) as ->
      by (vm_compute; reflexivity).
    apply Forall_singleton. intros n Hn%elem_of_list_to_set.
    apply elem_of_cons in Hn as [->|Hn]; [by left|right; exists 1%Z].
    by apply list_elem_of_singleton in Hn.
  - split; [exact Hr|]. apply Ha. vm_compute. reflexivity.
Defined.
