(* ===== verification/SidecarReplica.v ===== *)
(** * internal/sidecar/replica.go, snapshot.go and snapshot_linux.go

    A replica's SPDK target, and the snapshots an engine's sidecar takes of the
    local file. *)
From S2P Require Import Prelude GoStrings GoNet GoJson GoPath ApiTypes Names WireTypes Os Agent Spdk K8s PodTemplates HttpServer SidecarEngine.
From Stdlib Require Import Ascii.

(** ** replica.go *)
Record ReplicaConfig := mkReplicaConfig {
  rc_VolumeName : string; rc_ReplicaIndex : Z; rc_DataPath : string;
  rc_Listener : Listener; rc_Endpoint : string }.
Record ReplicaResult := mkReplicaResult { rres_NQN : string; rres_Endpoint : string }.

(** [for _, step := range steps { if err := step(); err != nil { return err } }] *)
Fixpoint run_steps (steps : list (SC (result unit))) : SC (result unit) :=
  match steps with
  | [] => Ret (Ok tt)
  | step :: steps' => _ ←? step; run_steps steps'
  end.

Section replica.
Context `{Environ}.
Definition replica_steps (config : ReplicaConfig) : list (SC (result unit)) :=
  let nqn := ReplicaNQN (rc_VolumeName config) (rc_ReplicaIndex config) in
  [spdkDo (CreateAIOBdev "aio0" (rc_DataPath config) 4096);
   spdkDo (CreateTransport "tcp");
   spdkDo (CreateSubsystem nqn "kdfs-vol" true);
   spdkDo (AddNamespace nqn (mkNamespace "aio0"));
   spdkDo (AddListener nqn (rc_Listener config))].
Definition ConfigureReplica (config : ReplicaConfig) : SC (result ReplicaResult) :=
  _ ←? run_steps (replica_steps config);
  Ret (Ok (mkReplicaResult (ReplicaNQN (rc_VolumeName config) (rc_ReplicaIndex config))
             (rc_Endpoint config))).
End replica.

Definition Replica_Status (r : ReplicaResult) : SidecarStatus :=
  mkSidecarStatus "replica" (rres_Endpoint r) "" (rres_NQN r).
Definition Replica_StatusHTTP (r : ReplicaResult) : Response := WriteStatusHTTP (Replica_Status r).

(** ** snapshot_linux.go

    A method that dereferences a nil pointer panics. *)
Inductive outcome (A : Type) := Returns (a : A) | Panics.
Arguments Returns {A} a.
Arguments Panics {A}.

Definition snapshot_file (localPath snapshotID : string) : string :=
  PathJoin [Dir localPath; "snapshot-" +:+ snapshotID +:+ ".img"].
Definition CreateSnapshot (volumeName localPath snapshotID : string)
    : OS (outcome (result (string * Z))) :=
  let src := localPath in
  let dst := snapshot_file localPath snapshotID in
  let path := SnapshotFilePath volumeName snapshotID in
  s ← osStat src;
  match s with
  | Err err => Ret (Returns (Err (Wrapf "stat source: %w" [] err)))
  | Ok size =>
      d ← osStat dst;
      match d with
      | Ok _ =>
          d2 ← osStat dst;
          match d2 with
          | Ok size2 => Ret (Returns (Ok (path, size2)))
          | Err _ => Ret Panics
          end
      | Err _ =>
          c ← FileOrCopy src dst;
          match c with
          | Err err => Ret (Returns (Err (Wrapf "snapshot: %w" [] err)))
          | Ok _ => Ret (Returns (Ok (path, size)))
          end
      end
  end.

(** ** snapshot.go: the handler, with any snapshotter *)
Definition snapshotResp_json (path : string) (size : Z) : json :=
  JObj [("snapshotPath", JStr path); ("sizeBytes", JNum size)].
(** The connection is cut when the snapshotter panics. *)
Definition SnapshotHTTP (snapshotter : string → OS (outcome (result (string * Z))))
    (r : Request string) : OS (option Response) :=
  match decode_post (Text "method not allowed") "bad request: " r with
  | inl resp => Ret (Some resp)
  | inr snapshotID =>
      if bool_decide (snapshotID = "") then Ret (Some (mkHttp 400 (Text "snapshotID is required")))
      else
        o ← snapshotter snapshotID;
        Ret (match o with
             | Panics => None
             | Returns (Err err) => Some (mkHttp 500 (ErrorText "snapshot failed: " err))
             | Returns (Ok (path, size)) => Some (mkHttp 200 (Encoded (snapshotResp_json path size)))
             end)
  end.

(** snapshot_stub.go, on other systems *)
Definition stub_CreateSnapshot (snapshotID : string) : OS (outcome (result (string * Z))) :=
  Ret (Returns (Err (Errorf "reflink snapshots not supported on this platform" []))).

(** ** Lemmas *)

(** The calls of the steps, in order. *)
Definition replica_calls `{Environ} (config : ReplicaConfig) : list spdk_call :=
  let nqn := ReplicaNQN (rc_VolumeName config) (rc_ReplicaIndex config) in
  [CreateAIOBdev "aio0" (rc_DataPath config) 4096; CreateTransport "tcp";
   CreateSubsystem nqn "kdfs-vol" true; AddNamespace nqn (mkNamespace "aio0");
   AddListener nqn (rc_Listener config)].
Definition asked (tr : side_trace) : list side_call := projT1 <$> tr.

Lemma configure_replica_wp `{Environ} config :
  wp (ConfigureReplica config) (λ tr r,
    asked tr `prefix_of` (Do <$> replica_calls config) ∧
    match r with
    | Ok res => oks tr = replica_calls config ∧
        res = mkReplicaResult (ReplicaNQN (rc_VolumeName config) (rc_ReplicaIndex config))
                (rc_Endpoint config)
    | Err _ => length tr = S (length (oks tr))
    end).
Proof.
  unfold ConfigureReplica, replica_steps. cbn [run_steps]. side_steps.
  all: split; [by eexists|done].
Qed.

(** What a snapshot that was reported stands for: a file that was there already,
    which nothing was written to, or a copy made now. *)
Definition reported (localPath dst : string) (size : Z) (tr : os_trace) : Prop :=
  ∃ n, ev (S:=os) (Stat localPath) (inr n) ∈ tr ∧
    ((∃ n', tr = [ev (S:=os) (Stat localPath) (inr n); ev (S:=os) (Stat dst) (inr n');
                  ev (S:=os) (Stat dst) (inr size)]) ∨
     (∃ e tr', tr = [ev (S:=os) (Stat localPath) (inr n); ev (S:=os) (Stat dst) (inl e)] ++ tr' ∧
        size = n ∧ copied localPath dst tr')).
Lemma reflink_snapshot_wp v localPath id :
  let dst := snapshot_file localPath id in
  wp (CreateSnapshot v localPath id) (λ tr o,
    files_only tr ∧
    ∀ path size, o = Returns (Ok (path, size)) →
      path = SnapshotFilePath v id ∧ reported localPath dst size tr).
Proof.
  intros dst. unfold CreateSnapshot. fold dst. os_step. os_step.
  { os_step. split; [|done]. split_and!; [descriptors|done..]. }
  os_step. os_step.
  - os_step. eapply wp_mono; [|apply FileOrCopy_wp]. intros tr r [Hf Hok].
    assert (∀ tr', files_only tr' → files_only ([ev (S:=os) (Stat localPath) (inr v0)] ++
      [ev (S:=os) (Stat dst) (inl e)] ++ tr')) as Hfo.
    { intros tr' ?. apply (files_only_app [_; _]); [|done]. split_and!; [descriptors|done..]. }
    destruct r as [[]|err]; os_step; rw app_nil_r; (split; [by apply Hfo|]); [|done].
    intros path size [= <- <-]. split; [done|]. exists v0. split; [apply list_elem_of_here|].
    right. exists e, tr. split_and!; [done..|by apply Hok].
  - os_step. os_step; os_step; (split; [split_and!; [descriptors|done..]|]); [done|].
    intros path size [= <- <-]. split; [done|]. exists v0. split; [apply list_elem_of_here|].
    left. by eexists.
Qed.

Lemma no_slash_app s t : no_slash s → no_slash t → no_slash (s +:+ t).
Proof. unfold no_slash. by rw has_byte_app => -> ->. Qed.

(** The snapshot lies beside the volume's file. *)
Lemma snapshot_file_beside v id :
  plain_element v → no_slash id →
  snapshot_file ("/data/" +:+ v +:+ "/vol.img") id = "/data/" +:+ v +:+ "/snapshot-" +:+ id +:+ ".img".
Proof.
  intros Hv Hid. unfold snapshot_file.
  assert (plain_element "data") as Hd by by (split_and!; [reflexivity|done..]).
  assert (Dir ("/data/" +:+ v +:+ "/vol.img") = "/data/" +:+ v) as ->.
  { unfold Dir. rw -(string_app_assoc "/data/" v) (upto_last_slash_seg _ "vol.img") //.
    rw string_app_assoc. by apply (Clean_rooted2 "data" v). }
  unfold PathJoin. rw !filter_cons_True //. cbn [filter list_filter Join].
  rw string_app_assoc. apply (Clean_rooted3 "data" v); [done..|].
  assert (no_slash ("snapshot-" +:+ id +:+ ".img")) by (apply (no_slash_app "snapshot-"); [done|by apply no_slash_app]).
  by split_and!.
Qed.

(** ** Properties *)

(** A replica's target is set up by five calls, in order, up to the first
    that fails; when none does, the replica reports the NQN of its volume and
    index, the one of the subsystem that was created. *)
Theorem ConfigureReplica_steps `{Environ} (config : ReplicaConfig) (tr : side_trace)
    (r : result ReplicaResult) :
  exec (ConfigureReplica config) tr r →
  asked tr `prefix_of` (Do <$> replica_calls config) ∧
  match r with
  | Ok res => oks tr = replica_calls config ∧
      res = mkReplicaResult (ReplicaNQN (rc_VolumeName config) (rc_ReplicaIndex config))
              (rc_Endpoint config)
  | Err _ => length tr = S (length (oks tr))
  end.
Proof. intros Hex. exact (exec_wp _ _ _ _ Hex (configure_replica_wp config)). Qed.

(** A snapshot that is reported has the path of the volume and the id, and
    is either a copy of the volume's file made by this call, with the size the
    file had, or a file that was there already: then nothing is read or written
    and the size is the one that file has, also when an earlier copy was cut
    short.  All descriptors are closed again. *)
Theorem CreateSnapshot_reported (v localPath id path : string) (size : Z) (tr : os_trace) :
  exec (CreateSnapshot v localPath id) tr (Returns (Ok (path, size))) →
  path = SnapshotFilePath v id ∧ reported localPath (snapshot_file localPath id) size tr ∧
  closed tr ≡ₚ opened tr.
Proof.
  intros Hex. destruct (exec_wp _ _ _ _ Hex (reflink_snapshot_wp v localPath id))
    as [(Hb & _) H]. destruct (H path size eq_refl). by split_and!.
Qed.

(** The file the engine's sidecar writes and the path it reports are the
    same file of the node: seen through the data mount of the engine's pod, the
    snapshot beside the local path is [SnapshotFilePath], and the local path is
    the [DataPath] that the node agent provisions. *)
Theorem snapshot_on_host `{Environ, PodImages} (engine : Engine) (hosts : list string)
    (id : string) :
  plain_element (es_VolumeRef (eng_spec engine)) → no_slash id →
  ∃ c localPath, ps_Containers (pod_spec (EnginePodFor engine hosts)) !! 1 = Some c ∧
    env_value "KDFS_LOCAL_PATH" (c_Env c) = Some localPath ∧
    let v := es_VolumeRef (eng_spec engine) in
    host_path (EnginePodFor engine hosts) c localPath = Some (DataPath v) ∧
    host_path (EnginePodFor engine hosts) c (snapshot_file localPath id) =
      Some (SnapshotFilePath v id).
Proof.
  intros Hv Hid. eexists _, _. split; [reflexivity|]. cbn [c_Env]. split.
  { unfold engine_env. by case_bool_decide; cbn -[Marshal Join]. }
  cbn zeta. rw snapshot_file_beside //.
Qed.

#[local] Instance replica_environ : Environ := λ _, "".
#[local] Instance replica_images : PodImages := defaultPodImages.
Definition replica_config : ReplicaConfig :=
  mkReplicaConfig "v" 1 "/data/v/vol.img" (mkListener "TCP" "IPv4" "10.0.0.2" "4421") "10.0.0.2:4421".
Definition replica_run :=
  run (snapshot_handler (S:=side) (target "")) (ConfigureReplica replica_config) tt.
Lemma ConfigureReplica_steps_witness :
  replica_run.1.2 = Ok (mkReplicaResult "nqn.2026-05.krea.to:replica-v-1" "10.0.0.2:4421") ∧
  oks replica_run.1.1 = replica_calls replica_config.
Proof.
  split; [vm_compute; reflexivity|].
  apply (ConfigureReplica_steps replica_config replica_run.1.1
           (Ok (mkReplicaResult "nqn.2026-05.krea.to:replica-v-1" "10.0.0.2:4421"))).
  exact (exec_of_run _ _ tt _ eq_refl).
Defined.

(** A system in which the snapshot is not there yet. *)
Definition no_snapshot (c : os_call) : os_reply c :=
  match c with
  | Stat path => if String.eqb path "/data/v/vol.img" then inr 1024%Z
                 else inl (mkOsError ErrNotExist "no such file or directory")
  | c => os_ok c
  end.
Definition snapshot_run (f : ∀ c : os_call, os_reply c) :=
  run (snapshot_handler (S:=os) f) (CreateSnapshot "v" "/data/v/vol.img" "s") tt.
Lemma CreateSnapshot_reported_witness :
  (snapshot_run no_snapshot).1.2 = Returns (Ok ("/var/lib/kdfs/v/snapshot-s.img", 1024%Z)) ∧
  closed (snapshot_run no_snapshot).1.1 ≡ₚ opened (snapshot_run no_snapshot).1.1.
Proof.
  split; [vm_compute; reflexivity|].
  apply (CreateSnapshot_reported "v" "/data/v/vol.img" "s" "/var/lib/kdfs/v/snapshot-s.img" 1024
           (snapshot_run no_snapshot).1.1).
  exact (exec_of_run _ _ tt _ eq_refl).
Defined.

Definition plain_engine : Engine :=
  mkEngine (newMeta "v-engine" "ns") (mkEngineSpec "v" "w1" []) zeroEngineStatus.
Lemma snapshot_on_host_witness :
  ∃ c localPath, ps_Containers (pod_spec (EnginePodFor plain_engine [])) !! 1 = Some c ∧
    env_value "KDFS_LOCAL_PATH" (c_Env c) = Some localPath ∧
    host_path (EnginePodFor plain_engine []) c localPath = Some "/var/lib/kdfs/v/vol.img" ∧
    host_path (EnginePodFor plain_engine []) c (snapshot_file localPath "s") =
      Some "/var/lib/kdfs/v/snapshot-s.img".
Proof.
  apply (snapshot_on_host plain_engine [] "s"); [by split_and!|reflexivity].
Defined.
