(* ===== verification/SpdkStack.v ===== *)
(** * The engine's stack on the RPC socket

    The engine's programs (internal/sidecar/engine.go) over the JSON-RPC client
    (internal/spdk/client.go): which RPCs an engine that is configured has had
    carried out, the retries and the tolerated errors of the client included. *)
From S2P Require Import Prelude GoStrings GoJson ApiTypes Names Network WireTypes Spdk HttpServer SidecarEngine.

(** ** The client under the engine *)
Inductive pause_call := Pause (d : Z).
Definition pause : sig := Sig pause_call (λ _, unit).
Abbreviation rpc_event := (event (both rpc pause)).
Definition over_rpc `{Environ} (c : side_call) : prog (both rpc pause) (side_reply c) :=
  match c with
  | Do c => on_left (realClient c)
  | SleepFor d => on_right (ask (S:=pause) (Pause d))
  end.

(** ** What an RPC trace says *)

(** The error texts that count as success, for each method. *)
Definition forgiven_table : list (string * list string) :=
  [("nvmf_create_transport", ["already exists"]);
   ("nvmf_create_subsystem", ["already exists"; "Unable to create"]);
   ("nvmf_subsystem_add_host", ["already exists"]);
   ("nvmf_subsystem_add_ns", ["already exists"; "Invalid parameters"]);
   ("nvmf_subsystem_add_listener", ["already exists"; "Invalid parameters"]);
   ("nvmf_subsystem_remove_listener", ["Listener was not found"]);
   ("nvmf_subsystem_remove_ns", ["Namespace was not found"]);
   ("bdev_raid_delete", ["No such device"])].
Definition forgiven (method : string) : list string :=
  default [] (snd <$> find (λ p, String.eqb p.1 method) forgiven_table).
(** The methods that read, attach, or clear what is in the way. *)
Definition auxiliary (method : string) : bool :=
  existsb (String.eqb method)
    ["bdev_nvme_attach_controller"; "bdev_nvme_detach_controller"; "bdev_aio_delete";
     "bdev_raid_get_bdevs"; "spdk_get_version"].
(** The other RPCs, when they were carried out or their error is forgiven. *)
Definition settled_rpc (e : event rpc) : option rpc_call :=
  match projT1 e, projT2 e with
  | Call method params, a =>
      if auxiliary method then None
      else match a with
           | inr _ => Some (Call method params)
           | inl text => if existsb (Contains text) (forgiven method) then Some (Call method params) else None
           end
  end.
(** The bdev that an RPC attached. *)
Definition attached_rpc (e : event rpc) : option string :=
  match projT1 e, projT2 e with
  | Call method (Some (JObj params)), inr res =>
      if String.eqb method "bdev_nvme_attach_controller" then
        match attach_result (mkController (get_string "name" params) "" "" "" "") res with
        | Ok b => Some b
        | Err _ => None
        end
      else None
  | _, _ => None
  end.
Definition at_rpc {A} (f : event rpc → option A) (e : rpc_event) : option A :=
  match e with
  | existT (inl c) r => f (existT c r)
  | existT (inr _) _ => None
  end.
Definition settled : list rpc_event → list rpc_call := omap (at_rpc settled_rpc).
Definition attached : list rpc_event → list string := omap (at_rpc attached_rpc).
Definition pause_of (e : rpc_event) : option Z :=
  match projT1 e with inr (Pause d) => Some d | inl _ => None end.
Definition paused (tr : list rpc_event) : Z := foldr Z.add 0%Z (omap pause_of tr).

(** The RPC that a call comes down to. *)
Definition rpc_of (c : spdk_call) : option rpc_call :=
  let call method params := Some (Call method (Some (JObj params))) in
  match c with
  | CreateTransport trType => call "nvmf_create_transport" [("trtype", JStr trType)]
  | CreateAIOBdev name filename blockSize => call "bdev_aio_create" (aio_params name filename blockSize)
  | CreateMirrorBdev name baseBdevs _ =>
      call "bdev_raid_create"
        [("name", JStr name); ("raid_level", JStr "raid1"); ("base_bdevs", JArr (JStr <$> baseBdevs))]
  | CreateSubsystem nqn serial allowAnyHost =>
      call "nvmf_create_subsystem"
        ([("nqn", JStr nqn); ("serial_number", JStr serial)]
         ++ if allowAnyHost then [("allow_any_host", JBool true)] else [])
  | AddHost nqn host => call "nvmf_subsystem_add_host" [("nqn", JStr nqn); ("host", JStr host)]
  | AddNamespace nqn namespace =>
      call "nvmf_subsystem_add_ns"
        [("nqn", JStr nqn); ("namespace", JObj [("bdev_name", JStr (ns_BdevName namespace))])]
  | AddListener nqn listener => call "nvmf_subsystem_add_listener" (listener_params nqn listener)
  | DeleteSubsystem nqn => call "nvmf_delete_subsystem" [("nqn", JStr nqn)]
  | RemoveListener nqn listener => call "nvmf_subsystem_remove_listener" (listener_params nqn listener)
  | RemoveNamespace nqn nsID => call "nvmf_subsystem_remove_ns" [("nqn", JStr nqn); ("nsid", JNum nsID)]
  | DestroyRAID name => call "bdev_raid_delete" [("name", JStr name)]
  | AddBaseBdev raidName baseBdev =>
      call "bdev_raid_add_base_bdev" [("name", JStr raidName); ("base_bdev", JStr baseBdev)]
  | RemoveBaseBdev raidName baseBdev =>
      call "bdev_raid_remove_base_bdev" [("name", JStr raidName); ("base_bdev", JStr baseBdev)]
  | AttachNVMeController _ | DetachNVMeController _ | Health | GetRAIDInfo _ => None
  end.

(** ** One call *)
Lemma attach_result_named controller controller' res :
  nc_Name controller = nc_Name controller' → attach_result controller res = attach_result controller' res.
Proof. unfold attach_result. by intros ->. Qed.
Definition bdev_of_call (c : spdk_call) : result (spdk_value c) → option string :=
  match c with
  | AttachNVMeController _ => λ r, match r with Ok b => Some b | Err _ => None end
  | _ => λ _, None
  end.
Definition call_post (c : spdk_call) (tr : list (event rpc)) (r : result (spdk_value c)) : Prop :=
  omap settled_rpc tr = (if is_ok r then option_list (rpc_of c) else []) ∧
  omap attached_rpc tr = option_list (bdev_of_call c r).
Lemma auxiliary_attach method :
  auxiliary method = false → String.eqb method "bdev_nvme_attach_controller" = false.
Proof. unfold auxiliary. cbn [existsb]. by destruct (String.eqb method _). Qed.
Lemma omap_one {A B} (f : A → option B) x : omap f [x] = option_list (f x).
Proof. cbn. by destruct (f x). Qed.
(** An RPC that is not auxiliary attaches nothing. *)
Lemma settled_one method params (a : string + option json) :
  auxiliary method = false →
  omap settled_rpc [ev (S:=rpc) (Call method params) a] =
    (if match a with inl text => existsb (Contains text) (forgiven method) | inr _ => true end
     then [Call method params] else []) ∧
  omap attached_rpc [ev (S:=rpc) (Call method params) a] = [].
Proof.
  intros Hm. split.
  - rw omap_one. unfold settled_rpc. cbn [ev projT1 projT2]. rw Hm.
    destruct a as [text|]; [|done]. by destruct (existsb _ _).
  - rw omap_one. unfold attached_rpc. cbn [ev projT1 projT2].
    destruct params as [[]|]; try done. destruct a; [done|]. by rw auxiliary_attach.
Qed.
Lemma attached_one controller (res : option json) :
  attached_rpc (ev (S:=rpc) (Call "bdev_nvme_attach_controller"
    (Some (JObj (attachNVMeControllerParams controller)))) (inr res)) =
  match attach_result controller res with Ok b => Some b | Err _ => None end.
Proof. reflexivity. Qed.

Section calls.
Context `{Environ}.
(** A call made of a single RPC. *)
Lemma ignoring_settles phrases method params :
  auxiliary method = false → forgiven method = phrases →
  wp (ignoring phrases method params) (λ tr r,
    omap settled_rpc tr = (if is_ok r then [Call method (Some (JObj params))] else []) ∧
    omap attached_rpc tr = []).
Proof.
  intros Hm <-. apply wp_bind_intro, rpcCall_wp. intros a. apply wp_ret_intro.
  destruct (settled_one method (Some (JObj params)) a Hm) as [H1 H2].
  destruct a as [text|]; [|by split]. by destruct (existsb (Contains text) (forgiven method)).
Qed.
Lemma method_only_settles method params :
  auxiliary method = false → forgiven method = [] →
  wp (method_only method params) (λ tr r,
    omap settled_rpc tr = (if is_ok r then [Call method (Some (JObj params))] else []) ∧
    omap attached_rpc tr = []).
Proof.
  intros Hm Hf. apply wp_bind_intro, rpcCall_wp. intros a. apply wp_ret_intro.
  destruct (settled_one method (Some (JObj params)) a Hm) as [H1 H2].
  rw Hf in H1. by destruct a as [text|].
Qed.
Lemma attach_settles controller :
  wp (real_AttachNVMeController controller) (call_post (AttachNVMeController controller)).
Proof.
  assert (∀ a : string + option json,
    call_post (AttachNVMeController controller)
      [ev (S:=rpc) (Call "bdev_nvme_attach_controller" (Some (JObj (attachNVMeControllerParams controller)))) a]
      (match a with inl text => Err (rpcError text) | inr res => attach_result controller res end)) as Hone.
  { intros [text|res]; [done|]. split.
    - by destruct (is_ok _).
    - rw omap_one attached_one. cbn [bdev_of_call].
      by destruct (attach_result controller res). }
  unfold real_AttachNVMeController.
  apply wp_bind_intro, rpcCall_wp. intros [text|res]; cbn beta iota; [|by apply wp_ret_intro, Hone].
  destruct (Contains text _); [|by apply wp_ret_intro, Hone].
  apply wp_bind_intro, rpcCall_wp. intros a.
  apply wp_bind_intro, rpcCall_wp. intros a'. apply wp_ret_intro.
  destruct a; exact (Hone a').
Qed.
Lemma aio_settles name filename blockSize :
  wp (real_CreateAIOBdev name filename blockSize) (call_post (CreateAIOBdev name filename blockSize)).
Proof.
  unfold real_CreateAIOBdev.
  apply wp_bind_intro, rpcCall_wp. intros [text|res]; cbn beta iota; [|by apply wp_ret_intro].
  destruct (_ || _); [|by apply wp_ret_intro].
  apply wp_bind_intro, rpcCall_wp. intros a.
  eapply wp_mono; [|by apply method_only_settles]. intros tr r [H1 H2].
  destruct a; split; [exact H1|exact H2|exact H1|exact H2].
Qed.
Lemma realClient_settles (c : spdk_call) : wp (realClient c) (call_post c).
Proof.
  destruct c; cbn [realClient];
    try (refine (ignoring_settles _ _ _ _ _); reflexivity);
    try (refine (method_only_settles _ _ _ _); reflexivity).
  - apply aio_settles.
  - apply attach_settles.
  - unfold real_AddHost. destruct (IsHostNQN host); cbn [negb]; [|done].
    refine (ignoring_settles _ _ _ _ _); reflexivity.
  - intros a. by destruct a.
  - intros a. by destruct a.
  - intros a. unfold call_post. split; [cbn; by destruct (is_ok _)|by destruct a].
Qed.

(** ** All the calls of a program *)
Definition over_rpc_post (str : side_trace) (tr : list rpc_event) : Prop :=
  settled tr = omap rpc_of (oks str) ∧ attached tr = attached_bdevs str ∧ paused tr = slept str.
Lemma at_rpc_left {A} (f : event rpc → option A) (tr : list (event rpc)) :
  omap (at_rpc f) (left_event (T:=pause) <$> tr) = omap f tr.
Proof. induction tr as [|[c r] tr IH]; [done|]. cbn. by rw IH. Qed.
Lemma paused_app tr1 tr2 : paused (tr1 ++ tr2) = (paused tr1 + paused tr2)%Z.
Proof.
  unfold paused. rw omap_app foldr_app. generalize (omap pause_of tr1) as l.
  intros l. induction l; cbn; lia.
Qed.
Lemma paused_left (tr : list (event rpc)) : paused (left_event <$> tr) = 0%Z.
Proof. induction tr as [|e tr IH]; [done|]. exact IH. Qed.
Lemma over_rpc_call (c : side_call) (r : side_reply c) tr :
  exec (over_rpc c) tr r → over_rpc_post [ev (S:=side) c r] tr.
Proof.
  destruct c as [c|d]; cbn [over_rpc].
  - intros (rtr & -> & Hex)%exec_on_left.
    destruct (exec_wp _ _ _ _ Hex (realClient_settles c)) as [Hs Ha].
    unfold over_rpc_post, settled, attached. rw !at_rpc_left Hs Ha paused_left.
    destruct c; cbn; try (by destruct (is_ok r)); by destruct r.
  - intros (rtr & -> & (u & tr' & -> & [-> ->]))%exec_on_right. split_and!; try done.
Qed.
Lemma implements_over_rpc str tr : implements (S:=side) (T:=both rpc pause) over_rpc str tr → over_rpc_post str tr.
Proof.
  induction 1 as [|c r tr1 str tr2 Hex _ (H1 & H2 & H3)]; [done|].
  destruct (over_rpc_call c r tr1 Hex) as (G1 & G2 & G3).
  change (ev c r :: str) with ([ev (S:=side) c r] ++ str). unfold over_rpc_post.
  rw oks_app attached_bdevs_app slept_app omap_app paused_app.
  unfold settled, attached in *. rw !omap_app. by rw G1 G2 G3 H1 H2 H3.
Qed.

(** The RPCs of a stack, in full. *)
Definition stack_rpcs (config : EngineConfig) (bdevs : list string) : list rpc_call :=
  let call method params := Call method (Some (JObj params)) in
  let nqn := VolumeNQN (ec_VolumeName config) in
  let exported := if bool_decide (bdevs = []) then "aio0" else "raid0" in
  [call "nvmf_create_transport" [("trtype", JStr "tcp")];
   call "bdev_aio_create" [("name", JStr "aio0"); ("filename", JStr (ec_LocalPath config));
                           ("block_size", JNum 4096)]]
  ++ (if bool_decide (bdevs = []) then []
      else [call "bdev_raid_create"
              [("name", JStr "raid0"); ("raid_level", JStr "raid1");
               ("base_bdevs", JArr (JStr <$> "aio0" :: bdevs))]])
  ++ [call "nvmf_create_subsystem"
        [("nqn", JStr nqn); ("serial_number", JStr "kdfs-vol"); ("allow_any_host", JBool true)];
      call "nvmf_subsystem_add_ns"
        [("nqn", JStr nqn); ("namespace", JObj [("bdev_name", JStr exported)])];
      call "nvmf_subsystem_add_listener" (listener_params nqn (ec_Listener config))].
Lemma stack_rpcs_of config bdevs : omap rpc_of (stack config bdevs) = stack_rpcs config bdevs.
Proof. unfold stack, stack_rpcs, mirrored, exported_bdev. by case_bool_decide. Qed.

(** ** Properties *)

(** C28. Down to the RPC socket: whatever SPDK answers, an engine that reports
    itself configured has had exactly the RPCs of its stack carried out, in
    order, where an error that the client tolerates counts as success: the
    transport, the local bdev (made anew when it was there), the mirror over
    the local bdev and the bdevs that SPDK answered to attaching, the subsystem,
    its namespace and its listener; and it slept at most 42 seconds a replica. *)
Theorem ConfigureEngine_rpcs (config : EngineConfig) (tr : list rpc_event) (e : SidecarEngine) :
  exec (interp (S:=side) (T:=both rpc pause) over_rpc (ConfigureEngine config)) tr (Ok e) →
  settled tr = stack_rpcs config (attached tr) ∧
  (paused tr ≤ 42 * second * Z.of_nat (length (ec_Replicas config)))%Z ∧
  e = NewEngine config.
Proof.
  intros (str & Hex & (Hs & Ha & Hp)%implements_over_rpc)%interp_exec.
  destruct (exec_wp _ _ _ _ Hex (configure_engine_wp config)) as (Hw & _ & _ & He & Ho & _).
  split_and!; [|by rw Hp|done]. by rw Hs Ho Ha stack_rpcs_of.
Qed.
End calls.

(** *** Running the engine against a target *)
Definition target_answers (refused : list string) (reason : string) (c : rpc_call)
    : string + option json :=
  match c with
  | Call method _ =>
      if existsb (String.eqb method) refused then inl reason
      else if String.eqb method "bdev_nvme_attach_controller"
      then inr (Some (JArr [JObj [("bdev_name", JStr "remote")]]))
      else inr None
  end.
Definition rpc_target (refused : list string) (reason : string) (c : call (both rpc pause))
    : reply (both rpc pause) c :=
  match c with inl c => target_answers refused reason c | inr _ => tt end.
#[local] Instance stack_environ : Environ := λ _, "".
Definition stack_run (refused : list string) (reason : string) :=
  run_interp (S:=side) (T:=both rpc pause) over_rpc
    (snapshot_handler (S:=both rpc pause) (rpc_target refused reason))
    (ConfigureEngine sample_config) tt.
Lemma stack_run_exec refused reason :
  exec (interp (S:=side) (T:=both rpc pause) over_rpc (ConfigureEngine sample_config))
    (stack_run refused reason).1.1.2 (stack_run refused reason).1.2.
Proof. apply (run_interp_trace _ _ _ _ _ eq_refl). Defined.

Lemma ConfigureEngine_rpcs_witness :
  (stack_run ["nvmf_create_transport"] "already exists").1.2 = Ok (NewEngine sample_config) ∧
  settled (stack_run ["nvmf_create_transport"] "already exists").1.1.2 =
    stack_rpcs sample_config ["remote"; "remote"].
Proof.
  split; [vm_compute; reflexivity|].
  exact (proj1 (ConfigureEngine_rpcs sample_config _ (NewEngine sample_config)
    (stack_run_exec ["nvmf_create_transport"] "already exists"))).
Defined.

(** The text "Invalid parameters" is also SPDK's for a namespace or a listener
    that it cannot add: against a target that always answers so, the engine
    reports itself configured, and its subsystem has neither. *)
Theorem configured_without_namespace :
  (stack_run ["nvmf_subsystem_add_ns"; "nvmf_subsystem_add_listener"] "Invalid parameters").1.2
  = Ok (NewEngine sample_config).
Proof. vm_compute. reflexivity. Qed.
