(* ===== verification/WireJson.v ===== *)
(** * Decoding the program's messages from JSON

    [json.Unmarshal] into the program's structs, as a class of decoders with the
    law that a decoder reads back what the other side encoded. *)
From S2P Require Import Prelude GoStrings GoNet GoJson JsonParse ApiTypes Network WireTypes PodTemplates AgentClient Spdk HttpServer SidecarEngine SidecarReplica.
From Stdlib Require Import Ascii.

(** ** encoding/json on structs

    A decoder updates the value it is given and answers the first type error;
    the members after an error are decoded all the same. *)
Definition typeError : error := Errorf "json: cannot unmarshal into Go value" [].
Definition decoder (A : Type) : Type := json → A → A * option error.
Definition field (A : Type) : Type := string * decoder A.

Definition dec_string : decoder string := λ v s,
  match v with JNull => (s, None) | JStr s' => (s', None) | _ => (s, Some typeError) end.
Definition dec_bool : decoder bool := λ v b,
  match v with JNull => (b, None) | JBool b' => (b', None) | _ => (b, Some typeError) end.
Definition dec_int64 : decoder Z := λ v z,
  match v with
  | JNull => (z, None)
  | JNum z' => if in_int64 z' then (z', None) else (z, Some typeError)
  | _ => (z, Some typeError)
  end.
Definition first_error (e1 e2 : option error) : option error :=
  match e1 with Some e => Some e | None => e2 end.
(** Into a nil slice: every element starts from the zero value. *)
Definition dec_slice {B} (zero : B) (dec : decoder B) : decoder (list B) := λ v l,
  match v with
  | JNull => ([], None)
  | JArr vs =>
      foldr (λ v acc, let '(b, e) := dec v zero in (b :: acc.1, first_error e acc.2)) ([], None) vs
  | _ => (l, Some typeError)
  end.
(** A member of a struct. *)
Definition member {A B} (name : string) (get : A → B) (set : B → A → A) (dec : decoder B)
    : field A :=
  (name, λ v a, let '(b, e) := dec v (get a) in (set b a, e)).

(** Names are compared exactly, and else folded: the Kelvin sign and the long s
    fold to ASCII letters. *)
Definition upper (c : ascii) : ascii :=
  if ((97 <=? bN c) && (bN c <=? 122))%N then ascii_of_N (bN c - 32) else c.
Fixpoint fold_name (s : string) : string :=
  match s with
  | "" => ""
  | String a s1 =>
      match s1 with
      | String b s2 =>
          if ((bN a =? 197) && (bN b =? 191))%N then String "S" (fold_name s2)
          else
            match s2 with
            | String c s3 =>
                if ((bN a =? 226) && (bN b =? 132) && (bN c =? 170))%N then
                  String "K" (fold_name s3)
                else String (upper a) (fold_name s1)
            | "" => String (upper a) (fold_name s1)
            end
      | "" => String (upper a) ""
      end
  end.
Definition find_field {A} (fields : list (field A)) (key : string) : option (decoder A) :=
  match list_find (λ f, f.1 = key) fields with
  | Some (_, f) => Some f.2
  | None => (λ x, x.2.2) <$> list_find (λ f, fold_name f.1 = fold_name key) fields
  end.
Fixpoint dec_members {A} (fields : list (field A)) (ms : list (string * json)) (a : A)
    : A * option error :=
  match ms with
  | [] => (a, None)
  | (key, v) :: ms' =>
      let '(a, e) := match find_field fields key with Some dec => dec v a | None => (a, None) end in
      let '(a, e') := dec_members fields ms' a in
      (a, first_error e e')
  end.
Definition dec_struct {A} (fields : list (field A)) : decoder A := λ v a,
  match v with
  | JNull => (a, None)
  | JObj ms => dec_members fields ms a
  | _ => (a, Some typeError)
  end.

(** ** The interface of a message type *)
Class FromJson (A : Type) := { zero : A; decode : decoder A }.
Class ToJson (A : Type) := encode : A → json.
Class Codec (A : Type) `{FromJson A, ToJson A} := {
  codec_ok : A → bool;
  decode_encode a : codec_ok a = true → decode (encode a) zero = (a, None);
  encode_ok a : codec_ok a = true → json_ok (encode a) = true;
  encode_depth a : (json_depth (encode a) ≤ 10)%Z;
  encode_composite a : match encode a with JObj _ | JArr _ => True | _ => False end }.

Definition checked {A} (r : A * option error) : result A :=
  match r with (a, None) => Ok a | (_, Some e) => Err e end.
(** [json.Unmarshal(text, &a)], and [json.NewDecoder(body).Decode(&a)] *)
Definition unmarshal {A} (dec : decoder A) (text : string) (a : A) : result A :=
  match Unmarshal text with Ok v => checked (dec v a) | Err e => Err e end.
Definition decode_from {A} (dec : decoder A) (text : string) (a : A) : result A :=
  match Decode text with Ok v => checked (dec v a) | Err e => Err e end.
(** [json.NewEncoder(w).Encode(v)] ends the line. *)
Definition encoded_text (v : json) : string := Marshal v +:+ String newline "".

Section codec.
Context `{Codec A}.
Lemma unmarshal_encode (a : A) :
  codec_ok a = true → unmarshal decode (Marshal (encode a)) zero = Ok a.
Proof.
  intros Ha. unfold unmarshal. rw Unmarshal_Marshal; [|by apply encode_ok|].
  - by rw decode_encode.
  - pose proof (encode_depth a). unfold max_depth. lia.
Qed.
Lemma decode_from_encode (a : A) :
  codec_ok a = true → decode_from decode (encoded_text (encode a)) zero = Ok a ∧
    decode_from decode (Marshal (encode a)) zero = Ok a.
Proof.
  intros Ha. unfold decode_from, encoded_text.
  assert (∀ rest, delimited rest = true → Decode (Marshal (encode a) +:+ rest) = Ok (encode a)) as Hd.
  { intros rest Hrest. apply Decode_Marshal; [by apply encode_ok| |].
    - pose proof (encode_depth a). unfold max_depth. lia.
    - pose proof (encode_composite a). by destruct (encode a). }
  split; [|rw -{1}(string_app_nil_r (Marshal (encode a)))]; rw Hd // decode_encode //.
Qed.
End codec.

(** ** The messages *)
Definition attachment_fields : list (field ReplicaAttachment) :=
  [member "name" ra_Name (λ x r, mkAttachment x (ra_NodeID r) (ra_IsLocal r) (ra_NQN r) (ra_Address r) (ra_Port r)) dec_string;
   member "nodeID" ra_NodeID (λ x r, mkAttachment (ra_Name r) x (ra_IsLocal r) (ra_NQN r) (ra_Address r) (ra_Port r)) dec_string;
   member "isLocal" ra_IsLocal (λ x r, mkAttachment (ra_Name r) (ra_NodeID r) x (ra_NQN r) (ra_Address r) (ra_Port r)) dec_bool;
   member "nqn" ra_NQN (λ x r, mkAttachment (ra_Name r) (ra_NodeID r) (ra_IsLocal r) x (ra_Address r) (ra_Port r)) dec_string;
   member "address" ra_Address (λ x r, mkAttachment (ra_Name r) (ra_NodeID r) (ra_IsLocal r) (ra_NQN r) x (ra_Port r)) dec_string;
   member "port" ra_Port (λ x r, mkAttachment (ra_Name r) (ra_NodeID r) (ra_IsLocal r) (ra_NQN r) (ra_Address r) x) dec_string].
#[export] Instance attachment_from : FromJson ReplicaAttachment :=
  { zero := mkAttachment "" "" false "" "" ""; decode := dec_struct attachment_fields }.
#[export] Instance attachment_to : ToJson ReplicaAttachment := attachment_json.

#[export] Instance slice_from `{FromJson A} : FromJson (list A) :=
  { zero := []; decode := dec_slice zero decode }.
#[export] Instance slice_to `{ToJson A} : ToJson (list A) := λ l, JArr (encode <$> l).

Definition status_fields : list (field SidecarStatus) :=
  [member "role" st_Role (λ x s, mkSidecarStatus x (st_Endpoint s) (st_SubsystemNQN s) (st_ReplicaNQN s)) dec_string;
   member "endpoint" st_Endpoint (λ x s, mkSidecarStatus (st_Role s) x (st_SubsystemNQN s) (st_ReplicaNQN s)) dec_string;
   member "subsystemNQN" st_SubsystemNQN (λ x s, mkSidecarStatus (st_Role s) (st_Endpoint s) x (st_ReplicaNQN s)) dec_string;
   member "replicaNQN" st_ReplicaNQN (λ x s, mkSidecarStatus (st_Role s) (st_Endpoint s) (st_SubsystemNQN s) x) dec_string].
#[export] Instance status_from : FromJson SidecarStatus :=
  { zero := mkSidecarStatus "" "" "" ""; decode := dec_struct status_fields }.
#[export] Instance status_to : ToJson SidecarStatus := status_json.

#[export] Instance snapshot_from : FromJson SnapshotResponse :=
  { zero := mkSnapshotResponse "" 0;
    decode := dec_struct
      [member "snapshotPath" sr_SnapshotPath (λ x r, mkSnapshotResponse x (sr_SizeBytes r)) dec_string;
       member "sizeBytes" sr_SizeBytes (λ x r, mkSnapshotResponse (sr_SnapshotPath r) x) dec_int64] }.
#[export] Instance snapshot_to : ToJson SnapshotResponse :=
  λ r, snapshotResp_json (sr_SnapshotPath r) (sr_SizeBytes r).

(** The body of a reconfiguration, and of a snapshot request. *)
Record ReconfigureRequest := mkReconfigure { rq_Replicas : list ReplicaAttachment }.
#[export] Instance reconfigure_from : FromJson ReconfigureRequest :=
  { zero := mkReconfigure [];
    decode := dec_struct [member "replicas" rq_Replicas (λ x _, mkReconfigure x) decode] }.
#[export] Instance reconfigure_to : ToJson ReconfigureRequest :=
  λ r, JObj [("replicas", attachments_json (rq_Replicas r))].
Record SnapshotRequest := mkSnapshotRequest { rq_SnapshotID : string }.
#[export] Instance snapshotreq_from : FromJson SnapshotRequest :=
  { zero := mkSnapshotRequest "";
    decode := dec_struct [member "snapshotID" rq_SnapshotID (λ x _, mkSnapshotRequest x) dec_string] }.
#[export] Instance snapshotreq_to : ToJson SnapshotRequest :=
  λ r, JObj [("snapshotID", JStr (rq_SnapshotID r))].

(** The messages of the node agent; fields without a tag have their own name. *)
#[export] Instance create_from : FromJson CreateReplicaRequest :=
  { zero := mkCreateReplica "" "" "";
    decode := dec_struct
      [member "Path" crr_Path (λ x r, mkCreateReplica x (crr_Size r) (crr_SnapshotSource r)) dec_string;
       member "Size" crr_Size (λ x r, mkCreateReplica (crr_Path r) x (crr_SnapshotSource r)) dec_string;
       member "snapshotSource" crr_SnapshotSource (λ x r, mkCreateReplica (crr_Path r) (crr_Size r) x) dec_string] }.
#[export] Instance create_to : ToJson CreateReplicaRequest := createReplica_json.
#[export] Instance created_from : FromJson CreateReplicaResponse :=
  { zero := mkCreateReplicaResp "" "";
    decode := dec_struct
      [member "DevicePath" crp_DevicePath (λ x r, mkCreateReplicaResp x (crp_State r)) dec_string;
       member "State" crp_State (λ x r, mkCreateReplicaResp (crp_DevicePath r) x) dec_string] }.
#[export] Instance created_to : ToJson CreateReplicaResponse :=
  λ r, JObj [("DevicePath", JStr (crp_DevicePath r)); ("State", JStr (crp_State r))].
#[export] Instance delete_from : FromJson DeleteReplicaRequest :=
  { zero := mkDeleteReplica "";
    decode := dec_struct [member "Path" drr_Path (λ x _, mkDeleteReplica x) dec_string] }.
#[export] Instance delete_to : ToJson DeleteReplicaRequest := λ r, path_json "Path" (drr_Path r).
#[export] Instance delete_snapshot_from : FromJson DeleteSnapshotRequest :=
  { zero := mkDeleteSnapshot "";
    decode := dec_struct [member "path" dsr_Path (λ x _, mkDeleteSnapshot x) dec_string] }.
#[export] Instance delete_snapshot_to : ToJson DeleteSnapshotRequest :=
  λ r, path_json "path" (dsr_Path r).
#[export] Instance get_from : FromJson GetReplicaRequest :=
  { zero := mkGetReplica "";
    decode := dec_struct [member "Path" grr_Path (λ x _, mkGetReplica x) dec_string] }.
#[export] Instance get_to : ToJson GetReplicaRequest := λ r, path_json "Path" (grr_Path r).
#[export] Instance got_from : FromJson GetReplicaResponse :=
  { zero := mkGetReplicaResp "" "";
    decode := dec_struct
      [member "State" grp_State (λ x r, mkGetReplicaResp x (grp_Size r)) dec_string;
       member "Size" grp_Size (λ x r, mkGetReplicaResp (grp_State r) x) dec_string] }.
#[export] Instance got_to : ToJson GetReplicaResponse :=
  λ r, JObj [("State", JStr (grp_State r)); ("Size", JStr (grp_Size r))].

(** ** The laws *)
Ltac omitted := unfold omit_str, omit_bool; repeat case_bool_decide; subst.
Definition members_ok (ms : list (string * json)) : bool :=
  forallb (λ kv, utf8_ok kv.1 && json_ok kv.2) ms.
Lemma members_ok_cons k v ms :
  utf8_ok k = true → json_ok v = true → members_ok ms = true → members_ok ((k, v) :: ms) = true.
Proof. intros Hk Hv H. cbn. by rw Hk Hv. Qed.
Lemma members_ok_app ms1 ms2 :
  members_ok ms1 = true → members_ok ms2 = true → members_ok (ms1 ++ ms2) = true.
Proof. intros H1 H2. unfold members_ok in *. by rw forallb_app H1 H2. Qed.
Lemma omit_str_ok k v : utf8_ok k = true → utf8_ok v = true → members_ok (omit_str k v) = true.
Proof. intros Hk Hv. unfold omit_str. case_bool_decide; [done|]. by apply members_ok_cons. Qed.
Lemma omit_bool_ok k b : utf8_ok k = true → members_ok (omit_bool k b) = true.
Proof. intros Hk. destruct b; [|done]. by apply members_ok_cons. Qed.
(** Every member of a struct that is printed is UTF-8. *)
Ltac members :=
  repeat first [apply members_ok_app|apply members_ok_cons|apply omit_str_ok|apply omit_bool_ok];
  first [assumption|vm_compute; reflexivity].
Definition attachment_ok (r : ReplicaAttachment) : bool :=
  utf8_ok (ra_Name r) && utf8_ok (ra_NodeID r) && utf8_ok (ra_NQN r) &&
  utf8_ok (ra_Address r) && utf8_ok (ra_Port r).
#[export] Program Instance attachment_codec : Codec ReplicaAttachment :=
  { codec_ok := attachment_ok }.
Next Obligation.
  intros [name nodeID [] nqn address port] _; unfold encode, attachment_to, attachment_json; cbn.
  all: omitted; done.
Qed.
Next Obligation.
  intros [name nodeID [] nqn address port] H; unfold attachment_ok in H; cbn in H.
  all: rw !andb_true_iff in H; destruct H as [[[[H1 H2] H3] H4] H5].
  all: apply (members_ok_app [_; _]); members.
Qed.
Next Obligation. intros [name nodeID [] nqn address port]; cbn; omitted; cbn; lia. Qed.
Next Obligation. done. Qed.

Lemma dec_slice_encode `{Codec A} (l old : list A) :
  forallb codec_ok l = true → dec_slice zero decode (JArr (encode <$> l)) old = (l, None).
Proof.
  cbn [dec_slice]. induction l as [|a l IH]; [done|]. cbn [forallb fmap list_fmap foldr].
  intros [Ha Hl]%andb_prop. by rw (IH Hl) decode_encode.
Qed.
Lemma slice_json_ok `{Codec A} (l : list A) :
  forallb codec_ok l = true → json_ok (JArr (encode <$> l)) = true.
Proof.
  induction l as [|a l IH]; [done|]. cbn. intros [Ha Hl]%andb_prop.
  rw encode_ok //. by apply IH.
Qed.
Lemma slice_depth {A} (f : A → json) (l : list A) d :
  (0 ≤ d)%Z → (∀ a, json_depth (f a) ≤ d)%Z → (json_depth (JArr (f <$> l)) ≤ 1 + d)%Z.
Proof.
  intros Hd H. cbn [json_depth]. assert (foldr Z.max 0 (json_depth <$> (f <$> l)) ≤ d)%Z; [|lia].
  induction l as [|a l IH]; cbn in *; [done|]. specialize (H a). lia.
Qed.
Lemma attachment_depth r : (json_depth (attachment_json r) ≤ 1)%Z.
Proof. destruct r as [name nodeID [] nqn address port]; cbn; omitted; cbn; lia. Qed.

#[export] Program Instance attachments_codec : Codec (list ReplicaAttachment) :=
  { codec_ok := forallb attachment_ok }.
Next Obligation. intros l Hl. exact (dec_slice_encode (A:=ReplicaAttachment) l [] Hl). Qed.
Next Obligation. intros l Hl. exact (slice_json_ok (A:=ReplicaAttachment) l Hl). Qed.
Next Obligation.
  intros l. pose proof (slice_depth attachment_json l 1 ltac:(done) attachment_depth).
  change (encode l) with (JArr (attachment_json <$> l)). lia.
Qed.
Next Obligation. done. Qed.

#[export] Program Instance reconfigure_codec : Codec ReconfigureRequest :=
  { codec_ok r := forallb attachment_ok (rq_Replicas r) }.
Next Obligation.
  intros [l] Hl. change (encode (mkReconfigure l)) with (JObj [("replicas", JArr (encode <$> l))]).
  pose proof (dec_slice_encode (A:=ReplicaAttachment) l [] Hl) as H.
  cbn [decode reconfigure_from dec_struct dec_members find_field list_find].
  change (find_field _ "replicas") with (Some
    (snd (member "replicas" rq_Replicas (λ x (_ : ReconfigureRequest), mkReconfigure x)
      (dec_slice zero (decode (A:=ReplicaAttachment)))))).
  cbn [snd member rq_Replicas]. cbn [zero reconfigure_from rq_Replicas]. by rw H.
Qed.
Next Obligation.
  intros [l] Hl. cbn [encode reconfigure_to json_ok forallb fst snd rq_Replicas] in *.
  pose proof (slice_json_ok l Hl) as H. unfold attachments_json. by rw H.
Qed.
Next Obligation.
  intros [l]. pose proof (slice_depth attachment_json l 1 ltac:(done) attachment_depth) as H.
  change (encode (mkReconfigure l)) with (JObj [("replicas", JArr (attachment_json <$> l))]).
  cbn [json_depth fmap list_fmap foldr snd] in *. lia.
Qed.
Next Obligation. done. Qed.

#[export] Program Instance status_codec : Codec SidecarStatus :=
  { codec_ok s := utf8_ok (st_Role s) && utf8_ok (st_Endpoint s) &&
                  utf8_ok (st_SubsystemNQN s) && utf8_ok (st_ReplicaNQN s) }.
Next Obligation. intros [r e s n] _; unfold encode, status_to, status_json; cbn; omitted; done. Qed.
Next Obligation.
  intros [r e s n] H; cbn in H. rw !andb_true_iff in H. destruct H as [[[H1 H2] H3] H4].
  apply (members_ok_app [_]); members.
Qed.
Next Obligation. intros [r e s n]; cbn; omitted; cbn; lia. Qed.
Next Obligation. done. Qed.

#[export] Program Instance snapshot_codec : Codec SnapshotResponse :=
  { codec_ok r := utf8_ok (sr_SnapshotPath r) && in_int64 (sr_SizeBytes r) }.
Next Obligation.
  intros [p z] H. apply andb_prop in H as [_ Hz]. cbn [sr_SizeBytes] in Hz.
  assert (∀ old, dec_int64 (JNum z) old = (z, None)) as Hd by (intros old; cbn; by rw Hz).
  lazy -[dec_int64]. by rw Hd.
Qed.
Next Obligation. intros [p z] H. cbn in H. apply andb_prop in H as [Hp _].
  apply (members_ok_cons _ _ [_]); members.
Qed.
Next Obligation. intros [p z]. cbn. lia. Qed.
Next Obligation. done. Qed.

#[export] Program Instance snapshotreq_codec : Codec SnapshotRequest :=
  { codec_ok r := utf8_ok (rq_SnapshotID r) }.
Next Obligation. by intros []. Qed.
Next Obligation. intros [s] H. apply (members_ok_cons _ _ []); members. Qed.
Next Obligation. intros []. cbn. lia. Qed.
Next Obligation. done. Qed.

#[export] Program Instance create_codec : Codec CreateReplicaRequest :=
  { codec_ok r := utf8_ok (crr_Path r) && utf8_ok (crr_Size r) && utf8_ok (crr_SnapshotSource r) }.
Next Obligation.
  intros [p s n] _; unfold encode, create_to, createReplica_json; cbn; omitted; done.
Qed.
Next Obligation.
  intros [p s n] H; cbn in H. rw !andb_true_iff in H. destruct H as [[H1 H2] H3].
  apply (members_ok_app [_; _]); members.
Qed.
Next Obligation. intros [p s n]; cbn; omitted; cbn; lia. Qed.
Next Obligation. done. Qed.

#[export] Program Instance created_codec : Codec CreateReplicaResponse :=
  { codec_ok r := utf8_ok (crp_DevicePath r) && utf8_ok (crp_State r) }.
Next Obligation. by intros []. Qed.
Next Obligation. intros [p z] H. cbn in H. apply andb_prop in H as [Hp Hz].
  apply (members_ok_cons _ _ [_]); members.
Qed.
Next Obligation. intros []. cbn. lia. Qed.
Next Obligation. done. Qed.
#[export] Program Instance delete_codec : Codec DeleteReplicaRequest :=
  { codec_ok r := utf8_ok (drr_Path r) }.
Next Obligation. by intros []. Qed.
Next Obligation. intros [s] H. apply (members_ok_cons _ _ []); members. Qed.
Next Obligation. intros []. cbn. lia. Qed.
Next Obligation. done. Qed.
#[export] Program Instance delete_snapshot_codec : Codec DeleteSnapshotRequest :=
  { codec_ok r := utf8_ok (dsr_Path r) }.
Next Obligation. by intros []. Qed.
Next Obligation. intros [s] H. apply (members_ok_cons _ _ []); members. Qed.
Next Obligation. intros []. cbn. lia. Qed.
Next Obligation. done. Qed.
#[export] Program Instance get_codec : Codec GetReplicaRequest :=
  { codec_ok r := utf8_ok (grr_Path r) }.
Next Obligation. by intros []. Qed.
Next Obligation. intros [s] H. apply (members_ok_cons _ _ []); members. Qed.
Next Obligation. intros []. cbn. lia. Qed.
Next Obligation. done. Qed.
#[export] Program Instance got_codec : Codec GetReplicaResponse :=
  { codec_ok r := utf8_ok (grp_State r) && utf8_ok (grp_Size r) }.
Next Obligation. by intros []. Qed.
Next Obligation. intros [p z] H. cbn in H. apply andb_prop in H as [Hp Hz].
  apply (members_ok_cons _ _ [_]); members.
Qed.
Next Obligation. intros []. cbn. lia. Qed.
Next Obligation. done. Qed.
