(* ===== verification/HttpWire.v ===== *)
(** * The HTTP exchange between the program's clients and its servers

    A server's mux, the bytes of its answers, and the composition of a client
    with the servers it calls: the client's [HttpDo] is carried by a network that
    may lose the request or the response and, once it has arrived, by the server's
    handler; every other call stays a call. *)
From S2P Require Import Prelude GoStrings GoJson JsonParse ApiTypes WireTypes Client AgentClient HttpServer WireJson.

(** ** The server's side *)
Record HttpRequest := mkHttpRequest {
  hq_Method : string; hq_Path : string; hq_Body : string }.
(** The method, and what [json.NewDecoder(r.Body).Decode(&req)] makes of the
    body. *)
Definition posted `{FromJson A} (r : HttpRequest) : Request A :=
  mkRequest (hq_Method r) (decode_from decode (hq_Body r) zero).
Definition request_map {A B} (f : A → B) (r : Request A) : Request B :=
  mkRequest (rq_Method r) (match rq_Body r with Ok a => Ok (f a) | Err e => Err e end).

(** A handler answers, or panics: then the connection is cut. *)
Definition HandlerFunc (S : sig) : Type := HttpRequest → prog S (option Response).
(** [http.ServeMux] with patterns that are whole paths; the path of a request is
    clean, as the clients' are.  Handlers may answer more than a response. *)
Definition mux {S A} (other : Response → A) (patterns : list (string * (HttpRequest → prog S A)))
    (r : HttpRequest) : prog S A :=
  match list_find (λ x, x.1 = hq_Path r) patterns with
  | Some (_, x) => x.2 r
  | None => Ret (other (mkHttp 404 (Text "404 page not found")))
  end.
Definition ServeMux {S} : list (string * HandlerFunc S) → HandlerFunc S := mux Some.

(** ** The bytes of an answer *)
Section wire.
(** The text of an error. *)
Variable render : error → string.

Definition body_text (b : http_body) : string :=
  match b with
  | NoBody => ""
  | Text s => s +:+ String newline ""
  | Raw s => s
  | ErrorText prefix err => prefix +:+ render err +:+ String newline ""
  | Encoded v => encoded_text v
  end.
Definition decode_wanted (w : want) (text : string) : result (decoded w) :=
  match w return result (decoded w) with
  | WantNothing => Ok tt
  | WantStatus => decode_from decode text zero
  | WantSnapshot => decode_from decode text zero
  | WantCreateReplica => decode_from decode text zero
  | WantGetReplica => decode_from decode text zero
  end.
Definition connectionCut : error := Errorf "EOF" [].
Definition received (w : want) (o : option Response) : result (http_response w) :=
  match o with
  | None => Err connectionCut
  | Some resp =>
      let text := body_text (rp_Body resp) in
      Ok (mkResponse (rp_StatusCode resp) text (decode_wanted w text))
  end.

(** ** Delivery

    The network between a client and a server.  A request may not reach the
    server (no route, connection refused, the client's time-out before it is
    sent whole); a request that has reached it is handled to the end, but the
    response may be lost (a broken connection, the client's time-out, the
    server's [WriteTimeout]) or break off within the body.  A response that
    breaks off after the last byte its reader asks for counts as [Arrived].
    [http.Transport] does not send a POST twice once the server may have seen
    it. *)
Inductive arrival := Arrived | CutShort (n : nat) (err : error) | Lost (err : error).
Inductive net_call := Dispatch (url : string) | Deliver (url : string).
Definition net : sig := Sig net_call (λ c,
  match c with Dispatch _ => result unit | Deliver _ => arrival end).

(** What [client.Do] and the reading of the body make of a response of which
    this much arrives. *)
Definition cut_decoded (w : want) (err : error) : result (decoded w) :=
  match w return result (decoded w) with WantNothing => Ok tt | _ => Err err end.
Definition delivered (w : want) (o : option Response) (back : arrival) : result (http_response w) :=
  match back with
  | Arrived => received w o
  | Lost err => Err err
  | CutShort n err =>
      match o with
      | None => Err connectionCut
      | Some resp => Ok (mkResponse (rp_StatusCode resp)
          (String.substring 0 n (body_text (rp_Body resp))) (cut_decoded w err))
      end
  end.

(** ** The composition

    The calls are the client's and, beside them, the network's and the
    server's. *)
Context {T : sig}.
Definition remote : sig := both ctl (both net T).
Definition net_event (e : event net) : event remote := right_event (left_event e).
Definition served_event (e : event T) : event remote := right_event (right_event e).

(** The server at a URL, and the path it is asked for. *)
Context (locate : string → option (string * HandlerFunc T)).
Definition wire (c : ctl_call) : prog remote (ctl_reply c) :=
  match c return prog remote (ctl_reply c) with
  | HttpDo w method url body =>
      match locate url with
      | Some (path, server) =>
          d ← on_right (on_left (ask (S:=net) (Dispatch url)));
          match d with
          | Err err => Ret (Err err)
          | Ok _ =>
              o ← on_right (on_right (server (mkHttpRequest method path body)));
              back ← on_right (on_left (ask (S:=net) (Deliver url)));
              Ret (delivered w o back)
          end
      | None => ask (S:=remote) (inl (HttpDo w method url body))
      end
  | c => ask (S:=remote) (inl c)
  end.

(** A request that did not reach the server. *)
Definition unreached {A} (wrap : error → error) (url : string) (tr : list (event remote))
    (r : result A) : Prop :=
  ∃ err, tr = [net_event (ev (S:=net) (Dispatch url) (Err err))] ∧ r = Err (wrap err).
(** A request that the server handled, once, by [answer], and how the response
    fared. *)
Definition handled {B} (url : string) (answer : prog T B) (tr : list (event remote))
    (o : B) (back : arrival) : Prop :=
  ∃ ttr, tr = net_event (ev (S:=net) (Dispatch url) (Ok tt)) :: (served_event <$> ttr)
                ++ [net_event (ev (S:=net) (Deliver url) back)] ∧
    exec answer ttr o.
Definition carriage (w : want) (url : string) (answer : prog T (option Response))
    (tr : list (event remote)) (r : result (http_response w)) : Prop :=
  unreached id url tr r ∨
  ∃ o back, handled url answer tr o back ∧ r = delivered w o back.

Lemma wire_carriage w method url body path server tr r :
  locate url = Some (path, server) →
  exec (wire (HttpDo w method url body)) tr r →
  carriage w url (server (mkHttpRequest method path body)) tr r.
Proof.
  intros Hl Hex. cbn [wire] in Hex. rw Hl in Hex.
  destruct Hex as (d & tr1 & -> & Hex). destruct d as [[]|err].
  - right. cbn beta iota in Hex. cbn [on_left on_right ask mbind prog_bind] in Hex.
    apply exec_bind in Hex as (tr2 & tr3 & o & -> & Hex & Hback).
    destruct Hback as (back & tr4 & -> & [-> ->]).
    apply exec_on_right in Hex as (tr5 & -> & Hex). apply exec_on_right in Hex as (ttr & -> & Hex).
    exists o, back. split; [|done]. exists ttr. split; [|done]. unfold served_event.
    by rw -list_fmap_compose.
  - left. destruct Hex as [-> ->]. by exists err.
Qed.

(** A request that could not be built. *)
Definition unsent {A} (wrap : error → error) (method url : string)
    (tr : list (event remote)) (r : result A) : Prop :=
  ∃ e, tr = [left_event (ev (S:=ctl) (HttpNewRequest method url) (Err e))] ∧ r = Err (wrap e).
Definition built (method url : string) : event remote :=
  left_event (ev (S:=ctl) (HttpNewRequest method url) (Ok tt)).
(** A client that stops when the request cannot be built, and else goes on with
    the response. *)
Lemma exchange_inv {A} (w : want) (method url body path : string) server
    (f : result unit → M (result A)) (k : result (http_response w) → M (result A))
    (wrap : error → error) (next : result (http_response w) → result A) tr r :
  locate url = Some (path, server) →
  (∀ e, f (Err e) = Ret (Err (wrap e))) →
  f (Ok tt) = httpDo w method url body ≫= k → (∀ resp, k resp = Ret (next resp)) →
  exec (interp (S:=ctl) (T:=remote) wire (newRequest method url ≫= f)) tr r →
  unsent wrap method url tr r ∨
  ∃ ntr resp, tr = built method url :: ntr ∧
    carriage w url (server (mkHttpRequest method path body)) ntr resp ∧ r = next resp.
Proof.
  intros Hl Herr Hok Hk (q & tr' & -> & Hex). destruct q as [[]|e].
  - right. cbn [mbind prog_bind newRequest ask interp] in Hex. rw Hok in Hex.
    cbn [mbind prog_bind httpDo ask interp] in Hex.
    apply exec_bind in Hex as (tr1 & tr2 & resp & -> & Hex & H2).
    rw Hk in H2. destruct H2 as [-> ->]. rw app_nil_r. exists tr1, resp.
    split_and!; [done|by eapply wire_carriage|done].
  - left. exists e. cbn [mbind prog_bind newRequest ask interp] in Hex. rw Herr in Hex. by destruct Hex as [-> ->].
Qed.
End wire.
Arguments remote T : clear implicits.

(** One server, below a base URL. *)
Definition serves {T} (base : string) (server : HandlerFunc T) (url : string)
    : option (string * HandlerFunc T) :=
  (λ path, (path, server)) <$> strip_prefix base url.
Lemma serves_below {T} base (server : HandlerFunc T) path :
  serves base server (base +:+ path) = Some (path, server).
Proof. unfold serves. by rw strip_prefix_app. Qed.
(** A network that delivers. *)
Definition net_ok (c : call net) : reply net c :=
  match c return reply net c with Dispatch _ => Ok tt | Deliver _ => Arrived end.

(** A controller whose requests can be built, and nothing else. *)
Definition ctl_answer (c : ctl_call) : ctl_reply c :=
  match c return ctl_reply c with
  | HttpNewRequest _ _ => Ok tt
  | TimeNow => 0%Z
  | Get _ _ | List _ _ _ | Create _ _ | Update _ _ | StatusUpdate _ _ | Delete _ _
  | AgentFactory _ | AgentCreateReplica _ _ | AgentDeleteReplica _ _ | AgentGetReplica _ _
  | AgentDeleteSnapshot _ _ | StatusClientGet _ _ | HttpDo _ _ _ _ => Err (Errorf "not served" [])
  end.
