(* ===== verification/NodeAgent.v ===== *)
(** * cmd/node-agent/main.go: the node agent's HTTP server

    The handlers, their mux and the server's settings; and the theorem that a
    call through [agent.Client] is the call of the server behind it. *)
From S2P Require Import Prelude GoStrings GoNet GoJson JsonParse K8s ApiTypes Names WireTypes PodTemplates Os Client AgentClient Agent HttpServer WireJson HttpWire.

(** ** The interface [replicaServer]: over any calls *)
Record replicaServer (S : sig) := mkReplicaServer {
  rs_CreateReplica : CreateReplicaRequest → prog S (result CreateReplicaResponse);
  rs_DeleteReplica : DeleteReplicaRequest → prog S (result unit);
  rs_GetReplica : GetReplicaRequest → prog S (result GetReplicaResponse);
  rs_DeleteSnapshot : DeleteSnapshotRequest → prog S (result unit) }.
Arguments mkReplicaServer {S}.
Arguments rs_CreateReplica {S}.
Arguments rs_DeleteReplica {S}.
Arguments rs_GetReplica {S}.
Arguments rs_DeleteSnapshot {S}.

(** The server itself, and the client as seen by the controllers. *)
Definition agent_server (PQ : string → result Z) (s : Server) : replicaServer os :=
  mkReplicaServer (Agent.CreateReplica s PQ) (Agent.DeleteReplica s) (Agent.GetReplica s)
    (Agent.DeleteSnapshot s).
Definition agent_client (a : AgentClient) : replicaServer ctl :=
  mkReplicaServer (AgentClient.CreateReplica a) (AgentClient.DeleteReplica a)
    (AgentClient.GetReplica a) (AgentClient.DeleteSnapshot a).

(** ** The handlers *)
Section handler.
Context {S : sig} (server : replicaServer S).

(** The answer with a result, and the one without. *)
Definition answer_json `{ToJson A} (r : result A) : option Response :=
  Some (match r with
        | Err err => mkHttp 500 (ErrorText "" err)
        | Ok resp => mkHttp 200 (Encoded (encode resp))
        end).
Definition answer_empty (r : result unit) : option Response :=
  Some (match r with
        | Err err => mkHttp 500 (ErrorText "" err)
        | Ok _ => mkHttp 204 NoBody
        end).

Definition createReplicaHandler : HandlerFunc S := λ r,
  match decode_post NoBody "" (posted r) with
  | inl resp => Ret (Some resp)
  | inr req => resp ← rs_CreateReplica server req; Ret (answer_json resp)
  end.
Definition deleteReplicaHandler : HandlerFunc S := λ r,
  match decode_post NoBody "" (posted r) with
  | inl resp => Ret (Some resp)
  | inr req => resp ← rs_DeleteReplica server req; Ret (answer_empty resp)
  end.
Definition deleteSnapshotHandler : HandlerFunc S := λ r,
  match decode_post NoBody "" (posted r) with
  | inl resp => Ret (Some resp)
  | inr req => resp ← rs_DeleteSnapshot server req; Ret (answer_empty resp)
  end.
Definition getReplicaHandler : HandlerFunc S := λ r,
  match decode_post NoBody "" (posted r) with
  | inl resp => Ret (Some resp)
  | inr req => resp ← rs_GetReplica server req; Ret (answer_json resp)
  end.

Definition handler_patterns : list (string * HandlerFunc S) :=
  [("/healthz", λ _, Ret (Some (mkHttp 200 NoBody)));
   ("/replicas/create", createReplicaHandler);
   ("/replicas/delete", deleteReplicaHandler);
   ("/replicas/get", getReplicaHandler);
   ("/snapshots/delete", deleteSnapshotHandler)].
Definition handler : HandlerFunc S := ServeMux handler_patterns.
End handler.

(** ** Start-up *)

(** server_linux.go, and server_stub.go on other systems *)
Definition newReplicaServer (PQ : string → result Z) (linux : bool) : result (replicaServer os) :=
  if linux then Ok (agent_server PQ defaultServer)
  else Err (Errorf "node-agent is only supported on Linux" []).

(** What [http.Server] is given; the durations are in seconds. *)
Record HttpServerConfig (S : sig) := mkHttpServer {
  hs_Addr : string; hs_Handler : HandlerFunc S; hs_ReadHeaderTimeout : Z; hs_ReadTimeout : Z;
  hs_WriteTimeout : Z; hs_IdleTimeout : Z }.
Arguments mkHttpServer {S}.
Arguments hs_Addr {S}.
Arguments hs_Handler {S}.

(** The server that [main] runs, or the fatal error. *)
Definition node_agent_main `{Environ} (PQ : string → result Z) (linux : bool)
    : result (HttpServerConfig os) :=
  let addr := Getenv "KDFS_NODE_AGENT_ADDR" in
  let addr := if bool_decide (addr = "") then ":9808" else addr in
  match newReplicaServer PQ linux with
  | Err err => Err err
  | Ok server => Ok (mkHttpServer addr (handler server) 5 10 10 30)
  end.

(** ** Lemmas *)
Lemma utf8_ok_ascii s : all_bytes (λ c, bN c <? 128)%N s = true → utf8_ok s = true.
Proof.
  induction s as [|c s IH]; [done|]. cbn. destruct (bN c <? 128)%N; [apply IH|done].
Qed.
Lemma utf8_ok_ascii_app pre s :
  all_bytes (λ c, bN c <? 128)%N pre = true → all_bytes (λ c, bN c <? 128)%N s = true →
  utf8_ok (pre +:+ s) = true.
Proof. intros Hp Hs. apply utf8_ok_ascii. by rw all_bytes_app Hp Hs. Qed.
Lemma num_char_ascii s : all_bytes num_char s = true → all_bytes (λ c, bN c <? 128)%N s = true.
Proof.
  induction s as [|c s IH]; [done|]. cbn. intros [Hc Hs]%andb_prop. rw (IH Hs) andb_true_r.
  clear -Hc. by destruct c as [[] [] [] [] [] [] [] []].
Qed.

(** A POST of an encoded request reaches the server with that request. *)
Lemma decode_posted `{Codec A} (v : json) notAllowed prefix path (a : A) :
  codec_ok a = true → v = encode a →
  decode_post notAllowed prefix (posted (mkHttpRequest "POST" path (Marshal v))) = inr a.
Proof.
  intros Ha ->. apply decode_post_inr. split; [done|]. cbn. by apply decode_from_encode.
Qed.

(** The error a client reports when the server's operation failed. *)
Definition remoteError (render : error → string) (path : string) (e : error) : error :=
  Errorf "request %s failed with status %d: %s"
    [path; "500"; TrimSpace (body_text render (ErrorText "" e))].
(** The client did what the server does.  Either the request could not be built,
    or it did not reach the server: then nothing is done and the client reports
    the error.  Or the server ran the operation, once: then the client returns
    the operation's result, an error as its text, if the response arrives; an
    error if it is lost; and if it breaks off, a success only if the operation
    had that result. *)
Definition performError (path : string) : error → error :=
  Wrapf "perform request for %s: %w" [path].
Definition carried_out {A} (render : error → string) (base : string)
    (server : HandlerFunc os) (path : string) (client : M (result A)) (op : OS (result A)) : Prop :=
  let url := base +:+ path in
  ∀ tr r,
  exec (interp (S:=ctl) (T:=remote os) (wire render (serves base server)) client) tr r →
  unsent (Wrapf "build request for %s: %w" [path]) "POST" url tr r ∨
  ∃ ntr, tr = built "POST" url :: ntr ∧
    (unreached (performError path) url ntr r ∨
     ∃ r' back, handled url op ntr r' back ∧
       match back with
       | Arrived => r = match r' with Ok a => Ok a | Err e => Err (remoteError render path e) end
       | Lost e => r = Err (performError path e)
       | CutShort _ _ => ∀ a, r = Ok a → r' = Ok a
       end).

Section served.
Context (render : error → string) (base : string) (server : replicaServer os).

(** What the client makes of a response. *)
Definition client_result (w : want) (path : string) (r : result (http_response w))
    : result (decoded w) :=
  match r with
  | Err e => Err (performError path e)
  | Ok resp =>
      if (hr_StatusCode resp <? 200)%Z || (hr_StatusCode resp >=? 300)%Z then
        Err (Errorf "request %s failed with status %d: %s"
               [path; Itoa (hr_StatusCode resp); TrimSpace (hr_Body resp)])
      else decode_body w path resp
  end.
Lemma carried_out_doJSON (w : want) (path : string) (body : json) (op : OS (result (decoded w)))
    (answer : result (decoded w) → option Response) :
  handler server (mkHttpRequest "POST" path (Marshal body)) = (op ≫= λ r, Ret (answer r)) →
  wp op (λ _ r, client_result w path (received render w (answer r)) =
      match r with Ok a => Ok a | Err e => Err (remoteError render path e) end) →
  (∀ r n e a, client_result w path (delivered render w (answer r) (CutShort n e)) = Ok a → r = Ok a) →
  carried_out render base (handler server) path (doJSON base path body w) op.
Proof.
  intros Hserve Hop Hcut. unfold carried_out. set (url := base +:+ path).
  intros tr r Hex.
  eapply (exchange_inv render _ w "POST" url (Marshal body) path (handler server)) in Hex;
    [|apply serves_below|intros e; reflexivity|reflexivity|];
    [|intros resp; instantiate (1 := client_result w path); destruct resp as [resp|e]; [|done];
      unfold client_result; by destruct (_ || _)].
  destruct Hex as [Hex|(ntr & resp & -> & Hc & ->)]; [by left|right]. exists ntr. split; [done|].
  destruct Hc as [(e & -> & ->)|(o & back & (otr & -> & Hs) & ->)]; [left; by exists e|right].
  rw Hserve in Hs. apply exec_bind in Hs as (otr1 & otr2 & r' & -> & Hex & [-> ->]).
  exists r', back. rw app_nil_r. split; [by exists otr1|].
  destruct back as [|n e|e]; [exact (exec_wp _ _ _ _ Hex Hop)|by apply Hcut|done].
Qed.

(** The four calls of the client. *)
Lemma create_carried_out req :
  codec_ok req = true →
  wp (rs_CreateReplica server req) (λ _ r, ∀ resp, r = Ok resp → codec_ok resp = true) →
  carried_out render base (handler server) "/replicas/create"
    (AgentClient.CreateReplica (HTTPAgent base) req) (rs_CreateReplica server req).
Proof.
  intros Hreq Hresp. eapply (carried_out_doJSON WantCreateReplica _ _ _ answer_json).
  - unfold handler, ServeMux, mux.
    change (list_find _ _) with (Some (1, ("/replicas/create", createReplicaHandler server))).
    cbn [snd]. unfold createReplicaHandler.
    by rw (decode_posted (createReplica_json req) NoBody "" "/replicas/create" req Hreq eq_refl).
  - eapply wp_mono, Hresp. intros tr [resp|e] H; [|done]. cbn.
    by rw (proj1 (decode_from_encode resp (H resp eq_refl))).
  - by intros [resp|e].
Qed.
Lemma get_carried_out req :
  codec_ok req = true →
  wp (rs_GetReplica server req) (λ _ r, ∀ resp, r = Ok resp → codec_ok resp = true) →
  carried_out render base (handler server) "/replicas/get"
    (AgentClient.GetReplica (HTTPAgent base) req) (rs_GetReplica server req).
Proof.
  intros Hreq Hresp. eapply (carried_out_doJSON WantGetReplica _ _ _ answer_json).
  - unfold handler, ServeMux, mux.
    change (list_find _ _) with (Some (3, ("/replicas/get", getReplicaHandler server))).
    cbn [snd]. unfold getReplicaHandler.
    by rw (decode_posted (path_json "Path" (grr_Path req)) NoBody "" "/replicas/get" req Hreq eq_refl).
  - eapply wp_mono, Hresp. intros tr [resp|e] H; [|done]. cbn.
    by rw (proj1 (decode_from_encode resp (H resp eq_refl))).
  - by intros [resp|e].
Qed.
Lemma delete_carried_out req :
  codec_ok req = true →
  carried_out render base (handler server) "/replicas/delete"
    (AgentClient.DeleteReplica (HTTPAgent base) req) (rs_DeleteReplica server req).
Proof.
  intros Hreq. eapply (carried_out_doJSON WantNothing _ _ _ answer_empty).
  - unfold handler, ServeMux, mux.
    change (list_find _ _) with (Some (2, ("/replicas/delete", deleteReplicaHandler server))).
    cbn [snd]. unfold deleteReplicaHandler.
    by rw (decode_posted (path_json "Path" (drr_Path req)) NoBody "" "/replicas/delete" req Hreq eq_refl).
  - apply wp_true. by intros tr [[]|e].
  - by intros [[]|e] n e' [].
Qed.
Lemma delete_snapshot_carried_out req :
  codec_ok req = true →
  carried_out render base (handler server) "/snapshots/delete"
    (AgentClient.DeleteSnapshot (HTTPAgent base) req) (rs_DeleteSnapshot server req).
Proof.
  intros Hreq. eapply (carried_out_doJSON WantNothing _ _ _ answer_empty).
  - unfold handler, ServeMux, mux.
    change (list_find _ _) with (Some (4, ("/snapshots/delete", deleteSnapshotHandler server))).
    cbn [snd]. unfold deleteSnapshotHandler.
    by rw (decode_posted (path_json "path" (dsr_Path req)) NoBody "" "/snapshots/delete" req Hreq eq_refl).
  - apply wp_true. by intros tr [[]|e].
  - by intros [[]|e] n e' [].
Qed.
End served.

(** What the server that is run answers can be encoded. *)
Lemma loop_path_utf8 i : utf8_ok (loop_path i) = true.
Proof. apply utf8_ok_ascii_app; [done|]. by apply num_char_ascii, number_ok_Itoa. Qed.
Lemma created_codec_ok PQ req :
  wp (Agent.CreateReplica defaultServer PQ req)
    (λ _ r, ∀ resp, r = Ok resp → codec_ok resp = true).
Proof.
  eapply wp_mono, create_replica_wp. intros tr r [_ H] [dev state] ->.
  destruct H as (tr0 & out & _ & Hs & _ & (c & i & b & l & Hd & _) & _). cbn in *.
  by rw Hs Hd loop_path_utf8.
Qed.
Lemma got_codec_ok req :
  wp (Agent.GetReplica defaultServer req) (λ _ r, ∀ resp, r = Ok resp → codec_ok resp = true).
Proof.
  unfold Agent.GetReplica, statFile. cbn [srv_StatFile defaultServer].
  os_steps; by intros resp [= <-].
Qed.

(** ** Properties *)

(** C14. The node agent behind its HTTP client is the node agent, up to what the
    network loses.  A call of [agent.Client] with a request in UTF-8 fails with
    nothing done when the request cannot be built or does not reach the server.
    Otherwise the server's operation runs on exactly that request, once, on the
    node's system.  If the response arrives, the client returns the operation's
    result, an error as its text: the mux, the handlers, the JSON of both
    directions and the status codes in between change nothing.  If the response
    is lost, as by the ten-second limits of the client and of the server's
    writing, the client reports an error whatever the operation did; if it breaks
    off, a success that the client reports is still the operation's. *)
Theorem agent_over_http (render : error → string) (PQ : string → result Z) (base : string) :
  let node := agent_server PQ defaultServer in
  let client := agent_client (HTTPAgent base) in
  let exact {A} path := carried_out (A:=A) render base (handler node) path in
  (∀ req, codec_ok req = true →
    exact "/replicas/create" (rs_CreateReplica client req) (rs_CreateReplica node req)) ∧
  (∀ req, codec_ok req = true →
    exact "/replicas/delete" (rs_DeleteReplica client req) (rs_DeleteReplica node req)) ∧
  (∀ req, codec_ok req = true →
    exact "/replicas/get" (rs_GetReplica client req) (rs_GetReplica node req)) ∧
  (∀ req, codec_ok req = true →
    exact "/snapshots/delete" (rs_DeleteSnapshot client req) (rs_DeleteSnapshot node req)).
Proof.
  split_and!; intros req Hreq.
  - apply create_carried_out; [done|]. apply created_codec_ok.
  - by apply delete_carried_out.
  - apply get_carried_out; [done|]. apply got_codec_ok.
  - by apply delete_snapshot_carried_out.
Qed.

(** A node on which every call succeeds, a network that delivers, and requests
    that can be built; and a network that loses every response. *)
Definition node_answer (c : call (remote os)) : reply (remote os) c :=
  match c return reply (remote os) c with
  | inl c => ctl_answer c
  | inr (inl c) => net_ok c
  | inr (inr c) => os_ok c
  end.
Definition lossy_answer (c : call (remote os)) : reply (remote os) c :=
  match c return reply (remote os) c with
  | inr (inl (Deliver _)) => Lost (Errorf "context deadline exceeded" [])
  | c => node_answer c
  end.
Definition over_http (answers : ∀ c : call (remote os), reply (remote os) c) :=
  run (snapshot_handler (S:=remote os) answers)
    (interp (S:=ctl) (T:=remote os)
       (wire (λ _, "error") (serves "http://10.0.0.1:9808" (handler (agent_server quantity defaultServer))))
       (AgentClient.CreateReplica (HTTPAgent "http://10.0.0.1:9808") restore_request)) tt.
(** The replica that is made although the client is told of a time-out. *)
Example over_http_lost :
  is_ok (over_http lossy_answer).1.2 = false ∧
  length (over_http lossy_answer).1.1 = length (over_http node_answer).1.1.
Proof. split; vm_compute; reflexivity. Qed.
Lemma agent_over_http_witness :
  (over_http node_answer).1.2 = Ok (mkCreateReplicaResp "/dev/loop0" "Ready") ∧
  let url := "http://10.0.0.1:9808/replicas/create" in
  let '(tr, r, _) := over_http node_answer in
  unsent (Wrapf "build request for %s: %w" ["/replicas/create"]) "POST" url tr r ∨
  ∃ ntr, tr = built "POST" url :: ntr ∧
    (unreached (performError "/replicas/create") url ntr r ∨
     ∃ r' back, handled url (Agent.CreateReplica defaultServer quantity restore_request) ntr r' back ∧
       match back with
       | Arrived => r = match r' with
           | Ok a => Ok a | Err e => Err (remoteError (λ _, "error") "/replicas/create" e) end
       | Lost e => r = Err (performError "/replicas/create" e)
       | CutShort _ _ => ∀ a, r = Ok a → r' = Ok a
       end).
Proof.
  split; [vm_compute; reflexivity|].
  pose proof (exec_of_run (snapshot_handler (S:=remote os) node_answer) _ tt _ (eq_refl (over_http node_answer))) as Hex.
  destruct (over_http node_answer) as [[tr r] u]. cbn [fst snd] in Hex.
  exact (proj1 (agent_over_http (λ _, "error") quantity "http://10.0.0.1:9808") restore_request eq_refl tr r Hex).
Defined.
