(* ===== verification/SidecarMain.v ===== *)
(** * cmd/sidecar/main.go: the sidecar's configuration from its environment

    What [main] makes of the environment the pod templates give it.  Its
    loops and its server are in SidecarServe.v; a fatal exit is an error. *)
From S2P Require Import Prelude GoStrings GoNet GoJson GoPath K8s ApiTypes Names Network WireTypes Os Agent Spdk PodTemplates SidecarClient HttpServer SidecarEngine SidecarReplica JsonParse WireJson.
From Stdlib Require Import Ascii.

Definition defaultNetworkPolicies : RolePolicies :=
  mkRolePolicies (mkPolicy "podIP" "podIP" "" FamilyAuto) (mkPolicy "" "" "4420" "")
    (mkPolicy "" "" "4421" "").

Definition ensureDataFile (path : string) (size : Z) : OS (result unit) :=
  s ← osStat path;
  match s with
  | Ok _ => Ret (Ok tt)
  | Err err =>
      if negb (ErrorsIs err ErrNotExist) then Ret (Err err)
      else
        file ←? osOpen path O_CREATE_RDWR 384;
        with_close file (osTruncate file size)
  end.

(** [json.Unmarshal] into the policies keeps the members that are not in the
    text. *)
Definition policy_fields : list (field Policy) :=
  [member "bindAddress" BindAddress (λ x p, mkPolicy x (AdvertiseAddress p) (Port p) (PreferredFamily p)) dec_string;
   member "advertiseAddress" AdvertiseAddress (λ x p, mkPolicy (BindAddress p) x (Port p) (PreferredFamily p)) dec_string;
   member "port" Port (λ x p, mkPolicy (BindAddress p) (AdvertiseAddress p) x (PreferredFamily p)) dec_string;
   member "preferredFamily" PreferredFamily (λ x p, mkPolicy (BindAddress p) (AdvertiseAddress p) (Port p) x) dec_string].
Definition role_fields : list (field RolePolicies) :=
  [member "default" rp_Default (λ x p, mkRolePolicies x (rp_Engine p) (rp_Replica p)) (dec_struct policy_fields);
   member "engine" rp_Engine (λ x p, mkRolePolicies (rp_Default p) x (rp_Replica p)) (dec_struct policy_fields);
   member "replica" rp_Replica (λ x p, mkRolePolicies (rp_Default p) (rp_Engine p) x) (dec_struct policy_fields)].

Section main.
Context `{Environ}.

Definition runtimeValues : RuntimeValues :=
  mkRuntime (Getenv "KDFS_POD_IP") (Getenv "KDFS_HOST_IP") (Getenv "KDFS_NODE_NAME").
Definition policies : result RolePolicies :=
  let rawPolicy := Getenv "KDFS_NETWORK_POLICY" in
  if bool_decide (rawPolicy ≠ "") then
    unmarshal (dec_struct role_fields) rawPolicy defaultNetworkPolicies
  else Ok defaultNetworkPolicies.
Definition resolved (role : string) : result ResolvedPolicy :=
  match policies with
  | Err err => Err err
  | Ok policies => ResolvePolicy role policies runtimeValues
  end.
Definition listener_of (p : ResolvedPolicy) : Listener :=
  mkListener "TCP" (r_AdrFam p) (r_BindAddress p) (r_Port p).
Definition endpoint_of (p : ResolvedPolicy) : string :=
  JoinEndpoint (r_AdvertiseAddress p) (r_Port p).
Definition dataSize : Z := 1073741824.

(** The directory is created when it can be; the file must exist. *)
Definition prepare_path (path : string) : OS (result unit) :=
  _ ← osMkdirAll (Dir path) 493;
  ensureDataFile path dataSize.

Definition replicas_of_env : result (list ReplicaAttachment) :=
  let replicasJSON := Getenv "KDFS_REPLICAS" in
  if bool_decide (replicasJSON ≠ "") then unmarshal decode replicasJSON [] else Ok [].
Definition allowed_hosts_of_env : list string :=
  let raw := Getenv "KDFS_ALLOWED_HOSTS" in
  if bool_decide (raw ≠ "") then Split raw "," else [].

Definition engine_config : OS (result EngineConfig) :=
  match resolved "engine" with
  | Err err => Ret (Err err)
  | Ok p =>
      let localPath := Getenv "KDFS_LOCAL_PATH" in
      _ ←? prepare_path localPath;
      match replicas_of_env with
      | Err err => Ret (Err err)
      | Ok replicas =>
          Ret (Ok (mkEngineConfig (Getenv "KDFS_VOLUME_NAME") localPath replicas (listener_of p)
                     (endpoint_of p) allowed_hosts_of_env))
      end
  end.

(** An index that does not parse counts as zero. *)
Definition index_of_env : Z :=
  let s := Getenv "KDFS_REPLICA_INDEX" in
  if bool_decide (s ≠ "") then default 0%Z (Atoi s) else 0%Z.
Definition replica_config_of_env : OS (result ReplicaConfig) :=
  match resolved "replica" with
  | Err err => Ret (Err err)
  | Ok p =>
      let dataPath := Getenv "KDFS_DATA_PATH" in
      _ ←? prepare_path dataPath;
      Ret (Ok (mkReplicaConfig (Getenv "KDFS_VOLUME_NAME") index_of_env dataPath (listener_of p)
                 (endpoint_of p)))
  end.
End main.

(** ** Lemmas *)
Lemma all_visible_blank s : all_bytes visible s = true → s ≠ "" → TrimSpace s ≠ "".
Proof. intros Hs. by rw TrimSpace_visible. Qed.
Lemma validateEndpoint_join host port :
  plain host = true → all_bytes visible host = true → host ≠ "" →
  plain port = true → has_byte ":" port = false → all_bytes visible port = true → port ≠ "" →
  validateEndpoint (JoinEndpoint host port) = None.
Proof.
  intros Hh Hvh Hnh Hp Hc Hvp Hnp. apply validateEndpoint_spec. split.
  - apply all_visible_blank; unfold JoinEndpoint, JoinHostPort; destruct (has_byte ":" host).
    + rw !all_bytes_app Hvh Hvp. done.
    + rw !all_bytes_app Hvh Hvp. done.
    + done.
    + by destruct host.
  - exists host, port. unfold SplitEndpoint, JoinEndpoint. rw Split_Join //.
    split_and!; [done|by apply all_visible_blank..].
Qed.

(** A resolved policy whose address and port can be advertised. *)
Record usable (p : ResolvedPolicy) : Prop := {
  us_host : plain (r_AdvertiseAddress p) = true;
  us_host_visible : all_bytes visible (r_AdvertiseAddress p) = true;
  us_host_some : r_AdvertiseAddress p ≠ "";
  us_port : plain (r_Port p) = true;
  us_port_colon : has_byte ":" (r_Port p) = false;
  us_port_visible : all_bytes visible (r_Port p) = true;
  us_port_some : r_Port p ≠ "" }.
Lemma endpoint_accepted p : usable p → validateEndpoint (endpoint_of p) = None.
Proof. intros []. by apply validateEndpoint_join. Qed.

Lemma env_agrees_replica `{Environ, PodImages} replica c :
  ps_Containers (pod_spec (ReplicaPodFor replica)) !! 1 = Some c →
  let v := rs_VolumeRef (rep_spec replica) in
  env_value "KDFS_VOLUME_NAME" (c_Env c) = Some v ∧
  env_value "KDFS_DATA_PATH" (c_Env c) = Some ("/data/" +:+ v +:+ "/vol.img") ∧
  env_value "KDFS_REPLICA_INDEX" (c_Env c) = Some (Itoa (replica_index replica)).
Proof. intros [= <-]. by split_and!. Qed.

Lemma env_agrees_engine `{Environ, PodImages} engine hosts c :
  ps_Containers (pod_spec (EnginePodFor engine hosts)) !! 1 = Some c →
  let v := es_VolumeRef (eng_spec engine) in
  env_value "KDFS_VOLUME_NAME" (c_Env c) = Some v ∧
  env_value "KDFS_LOCAL_PATH" (c_Env c) = Some ("/data/" +:+ v +:+ "/vol.img") ∧
  env_value "KDFS_REPLICAS" (c_Env c) = Some (Marshal (attachments_json (eng_Replicas engine))) ∧
  ∀ path, host_path (EnginePodFor engine hosts) c ("/data/" +:+ path) =
    Some ("/var/lib/kdfs/" +:+ path).
Proof.
  intros [= <-]. unfold engine_env. case_bool_decide; by split_and!.
Qed.
Lemma Marshal_nonempty v : json_ok v = true → Marshal v ≠ "".
Proof.
  intros Hok Hn. pose proof (lex_Marshal v "" Hok eq_refl) as H. rw Hn in H. cbn in H.
  by destruct v as [|[]| | | | |].
Qed.
Lemma Itoa_nonempty i : (0 ≤ i)%Z → in_int64 i = true → Itoa i ≠ "".
Proof. intros Hi Hr Hn. assert (Atoi (Itoa i) = Some i) as Ha by by rw Atoi_Itoa. by rw Hn in Ha.
Qed.

(** The sizes that files were set to. *)
Definition truncation_of (e : event os) : option Z :=
  match projT1 e with Truncate _ size => Some size | _ => None end.
Definition truncations : os_trace → list Z := omap truncation_of.

(** ** Properties *)

(** An existing data file is never truncated: the sidecar sets a size only
    after the system said that the file does not exist, and then the given one;
    the file is closed again. *)
Theorem ensureDataFile_keeps (path : string) (size : Z) (tr : os_trace) (r : result unit) :
  exec (ensureDataFile path size) tr r →
  closed tr ≡ₚ opened tr ∧
  (truncations tr = [] ∨
   truncations tr = [size] ∧
   ∃ e, oe_reason e = ErrNotExist ∧ ev (S:=os) (Stat path) (inl e) ∈ tr).
Proof.
  intros Hex. refine (exec_wp _ (λ tr _, closed tr ≡ₚ opened tr ∧ _) _ _ Hex _).
  clear. unfold ensureDataFile. os_steps.
  all: intros; cbn [app]; split; [descriptors|]; try by left.
  all: right; split; [done|]; exists e; split; [|in_trace].
  all: by apply negb_false_iff, bool_decide_eq_true in Heqb.
Qed.

Definition missing_file (c : os_call) : os_reply c :=
  match c with
  | Stat _ => inl (mkOsError ErrNotExist "no such file or directory")
  | c => os_ok c
  end.
Definition ensure_run :=
  run (snapshot_handler (S:=os) missing_file) (ensureDataFile "/data/v/vol.img" dataSize) tt.
Lemma ensureDataFile_keeps_witness :
  ensure_run.1.2 = Ok tt ∧ truncations ensure_run.1.1 = [1073741824%Z] ∧
  closed ensure_run.1.1 ≡ₚ opened ensure_run.1.1.
Proof.
  split; [vm_compute; reflexivity|]. split; [vm_compute; reflexivity|].
  apply (ensureDataFile_keeps "/data/v/vol.img" dataSize ensure_run.1.1 ensure_run.1.2).
  exact (exec_of_run _ _ tt _ eq_refl).
Defined.

(** C32. From the controller's pod to the target's NQN: when the process sees the
    literal values of its container's environment, the replica's sidecar
    configures the volume and index of the replica's name and the file the
    node agent provisions, so the NQN it reports is the one of that replica. *)
Theorem replica_identity `{Env : Environ, PodImages} (process : Environ) (replica : Replica) (v : string) (i : Z)
    (c : Container) (tr : os_trace) (config : ReplicaConfig) (str : side_trace)
    (res : ReplicaResult) :
  rs_VolumeRef (rep_spec replica) = v → rep_Name replica = ReplicaName v i →
  (0 ≤ i)%Z → in_int64 i = true →
  ps_Containers (pod_spec (ReplicaPodFor replica)) !! 1 = Some c →
  (∀ n val, env_value n (c_Env c) = Some val → process n = val) →
  exec (@replica_config_of_env process) tr (Ok config) →
  exec (@ConfigureReplica process config) str (Ok res) →
  rc_VolumeName config = v ∧ rc_ReplicaIndex config = i ∧
  host_path (ReplicaPodFor replica) c (rc_DataPath config) = Some (DataPath v) ∧
  rres_NQN res = @ReplicaNQN process v i.
Proof.
  intros Hv Hn Hi Hr Hc Henv Hex Hst.
  destruct (env_agrees_replica replica c Hc) as (E1 & E2 & E3).
  assert (replica_index replica = i) as Hidx.
  { unfold replica_index. rw Hv Hn. unfold ReplicaName.
    by rw -(string_app_assoc v "-replica-") Sscanf_decimal_Itoa. }
  apply Henv in E1, E2, E3. rw Hidx in E3. rw Hv in E1 E2.
  assert (rc_VolumeName config = v ∧ rc_ReplicaIndex config = i ∧
          rc_DataPath config = "/data/" +:+ v +:+ "/vol.img") as (H1 & H2 & H3).
  { refine (exec_wp _ (λ _ r, ∀ config, r = Ok config → _) _ _ Hex _ _ eq_refl). clear Hex Hst.
    unfold replica_config_of_env, Getenv, index_of_env, Getenv.
    rw E1 E2 E3. destruct (resolved "replica") as [p|]; [|by intros ?].
    apply wp_bind_ok. apply wp_true. intros _ [[]|]; [|by intros ?].
    intros ? [= <-]. cbn. rw bool_decide_true; [|by apply Itoa_nonempty].
    by rw Atoi_Itoa. }
  destruct (exec_wp _ _ _ _ Hst (configure_replica_wp config)) as (_ & _ & ->).
  rw H3 H1 H2. injection Hc as <-. by split_and!.
Qed.

(** C31. The same for an engine: its sidecar configures the engine's volume, the
    file that the node agent provisions, and exactly the attachments of the
    engine's spec, read back from the JSON in the pod's environment. *)
Theorem engine_identity `{Env : Environ, PodImages} (process : Environ) (engine : Engine)
    (hosts : list string) (c : Container) (tr : os_trace) (config : EngineConfig) :
  forallb attachment_ok (eng_Replicas engine) = true →
  ps_Containers (pod_spec (EnginePodFor engine hosts)) !! 1 = Some c →
  (∀ n val, env_value n (c_Env c) = Some val → process n = val) →
  exec (@engine_config process) tr (Ok config) →
  ec_VolumeName config = es_VolumeRef (eng_spec engine) ∧
  ec_Replicas config = eng_Replicas engine ∧
  host_path (EnginePodFor engine hosts) c (ec_LocalPath config) =
    Some (DataPath (es_VolumeRef (eng_spec engine))).
Proof.
  intros Hok Hc Henv Hex. set (v := es_VolumeRef (eng_spec engine)).
  destruct (env_agrees_engine engine hosts c Hc) as (E1 & E2 & E3 & Hpath).
  apply Henv in E1, E2, E3. fold v in E1, E2.
  assert (ec_VolumeName config = v ∧ ec_Replicas config = eng_Replicas engine ∧
          ec_LocalPath config = "/data/" +:+ v +:+ "/vol.img") as (-> & -> & ->).
  { refine (exec_wp _ (λ _ r, ∀ config, r = Ok config → _) _ _ Hex _ _ eq_refl). clear Hex.
    assert (@replicas_of_env process = Ok (eng_Replicas engine)) as Hreps.
    { unfold replicas_of_env, Getenv. rw E3.
      pose proof (encode_ok (A:=list ReplicaAttachment) (eng_Replicas engine) Hok) as Hjson.
      rw bool_decide_true; [|exact (Marshal_nonempty _ Hjson)].
      exact (unmarshal_encode (A:=list ReplicaAttachment) (eng_Replicas engine) Hok). }
    unfold engine_config. rw Hreps. unfold Getenv. rw E1 E2.
    destruct (resolved "engine") as [p|]; [|by intros ?].
    apply wp_bind_ok, wp_true. intros _ [[]|]; [|by intros ?]. by intros ? [= <-]. }
  split_and!; [done..|]. exact (Hpath (v +:+ "/vol.img")).
Qed.

(** The pod of replica 1 of volume v, and the process the kubelet starts in it. *)
#[local] Instance main_environ : Environ := λ _, "".
#[local] Instance main_images : PodImages := defaultPodImages.
Definition pod_replica : Replica :=
  mkReplica (newMeta (ReplicaName "v" 1) "ns")
    (mkReplicaSpec "v" "w2" "Remote" "1Gi" "/d" "") zeroReplicaStatus.
Definition sidecar_container : Container :=
  default (mkContainer "" "" [] [] [] None)
    (ps_Containers (pod_spec (ReplicaPodFor pod_replica)) !! 1).
Definition started : Environ := λ n,
  default (if String.eqb n "KDFS_POD_IP" then "10.0.0.2" else "")
    (env_value n (c_Env sidecar_container)).
Definition pod_config : ReplicaConfig :=
  mkReplicaConfig "v" 1 "/data/v/vol.img" (mkListener "TCP" "IPv4" "10.0.0.2" "4421") "10.0.0.2:4421".
Definition config_run := run (snapshot_handler (S:=os) os_ok) (@replica_config_of_env started) tt.
Definition target_run :=
  run (snapshot_handler (S:=side) (target "")) (@ConfigureReplica started pod_config) tt.
Lemma replica_identity_witness :
  config_run.1.2 = Ok pod_config ∧
  "nqn.2026-05.krea.to:replica-v-1" = @ReplicaNQN started "v" 1.
Proof.
  split; [vm_compute; reflexivity|].
  apply (replica_identity started pod_replica "v" 1 sidecar_container
           config_run.1.1 pod_config target_run.1.1
           (mkReplicaResult "nqn.2026-05.krea.to:replica-v-1" "10.0.0.2:4421")).
  - reflexivity.
  - reflexivity.
  - lia.
  - reflexivity.
  - reflexivity.
  - intros n val Hn. unfold started. by rw Hn.
  - exact (exec_of_run _ _ tt _ eq_refl).
  - exact (exec_of_run _ _ tt _ eq_refl).
Defined.

Definition pod_engine : Engine :=
  mkEngine (newMeta "v-engine" "ns") (mkEngineSpec "v" "w1" two_replicas) zeroEngineStatus.
Definition engine_container : Container :=
  default (mkContainer "" "" [] [] [] None)
    (ps_Containers (pod_spec (EnginePodFor pod_engine [])) !! 1).
Definition engine_started : Environ := λ n,
  default (if String.eqb n "KDFS_POD_IP" then "10.0.0.1" else "")
    (env_value n (c_Env engine_container)).
Definition engine_run := run (snapshot_handler (S:=os) os_ok) (@engine_config engine_started) tt.
Lemma engine_identity_witness :
  ∃ config, engine_run.1.2 = Ok config ∧ ec_Replicas config = two_replicas.
Proof.
  eexists. split; [vm_compute; reflexivity|].
  eapply (engine_identity engine_started pod_engine [] engine_container engine_run.1.1).
  - reflexivity.
  - reflexivity.
  - intros n val Hn. unfold engine_started. by rw Hn.
  - exact (exec_of_run _ _ tt _ eq_refl).
Defined.

(** C40. The contract with the controllers: with a usable policy and visible
    names, the statuses that the configured sidecars serve pass the
    controllers' validation, and the advertised address and port are read back
    from the endpoint. *)
Theorem statuses_accepted `{Environ} (p : ResolvedPolicy) (ec : EngineConfig) (rc : ReplicaConfig) :
  usable p → all_bytes visible authority = true →
  all_bytes visible (ec_VolumeName ec) = true → all_bytes visible (rc_VolumeName rc) = true →
  (0 ≤ rc_ReplicaIndex rc)%Z →
  ec_Endpoint ec = endpoint_of p → rc_Endpoint rc = endpoint_of p →
  validateEngineSidecarStatus (Engine_Status (NewEngine ec)) = None ∧
  validateReplicaSidecarStatus (Replica_Status
    (mkReplicaResult (ReplicaNQN (rc_VolumeName rc) (rc_ReplicaIndex rc)) (rc_Endpoint rc))) = None ∧
  SplitEndpoint (endpoint_of p) = Ok (r_AdvertiseAddress p, r_Port p).
Proof.
  intros Hu Ha Hv Hr Hi He Hre. pose proof (endpoint_accepted p Hu) as Hend.
  pose proof Hend as [Hblank Hok]%validateEndpoint_spec.
  split_and!.
  - apply validateEngine_spec. cbn. rw He. split_and!; [done| |done|done].
    apply all_visible_blank; unfold VolumeNQN.
    + by rw !all_bytes_app Ha Hv.
    + by destruct authority.
  - apply validateReplica_spec. cbn. rw Hre. split_and!; [done| |done|done].
    apply all_visible_blank; unfold ReplicaNQN.
    + rw !all_bytes_app Ha Hr. cbn -[Itoa]. eapply all_bytes_impl; [|by apply Itoa_digits].
      intros x. unfold is_digit, visible, bN. intros [?%N.leb_le ?%N.leb_le]%andb_true_iff.
      apply andb_true_iff. split; apply N.ltb_lt; lia.
    + by destruct authority.
  - destruct Hu. unfold SplitEndpoint, endpoint_of, JoinEndpoint. by rw Split_Join.
Qed.

Definition sample_policy : ResolvedPolicy := mkResolved "10.0.0.2" "10.0.0.2" "4421" FamilyAuto "IPv4".
Lemma statuses_accepted_witness :
  validateReplicaSidecarStatus (Replica_Status
    (mkReplicaResult (ReplicaNQN "v" 1) "10.0.0.2:4421")) = None.
Proof.
  apply (statuses_accepted sample_policy
           (mkEngineConfig "v" "" [] (mkListener "" "" "" "") "10.0.0.2:4421" []) pod_config);
    try reflexivity; [by split|by vm_compute].
Defined.
