(* ===== verification/SidecarServe.v ===== *)
(** * cmd/sidecar/main.go: start-up and the HTTP server of a sidecar

    [main] as a program over the node, the RPC socket and SPDK; the loops that
    run for ever take fuel, which [main] never uses up once SPDK answers.  The
    server's handlers, and the theorems that the controllers' calls through HTTP
    are the sidecar's operations. *)
From S2P Require Import Prelude GoStrings GoNet GoJson GoPath K8s ApiTypes Names Network WireTypes Client Os Agent Spdk PodTemplates AgentClient SidecarClient EngineController SnapshotController HttpServer SidecarEngine SidecarReplica JsonParse WireJson HttpWire SidecarMain.

(** ** The calls of [main]: on the node, on the RPC socket, on SPDK *)
Definition sock : sig := Sig string (λ _, result unit).
Definition boot : sig := both os (both sock side).
Abbreviation Boot := (prog boot).
Definition node {A} (p : OS A) : Boot A := on_left p.
Definition spdk_side {A} (p : SC A) : Boot A := on_right (on_right p).
(** [spdkrpc.CreateClientWithJsonCodec(spdkrpc.Unix, socketPath)] *)
Definition createClient (socketPath : string) : Boot (result unit) :=
  on_right (on_left (ask (S:=sock) socketPath)).
Definition NewUnixClient (socketPath : string) : Boot (result unit) :=
  r ← createClient socketPath;
  Ret (match r with
       | Err err => Err (Wrapf "spdk rpc: create client: %w" [] err)
       | Ok _ => Ok tt
       end).

(** ** Start-up

    [Fatal] ends the process, [Waiting] is a loop whose fuel is used up. *)
Inductive boots (A : Type) := Fatal (e : error) | Waiting | Started (a : A).
Arguments Fatal {A} e.
Arguments Waiting {A}.
Arguments Started {A} a.

(** [n] attempts, with a pause after every failed one. *)
Fixpoint connect_spdk (n : nat) : Boot bool :=
  match n with
  | 0 => Ret false
  | S n' =>
      c ← NewUnixClient "/var/tmp/spdk.sock";
      match c with
      | Ok _ => Ret true
      | Err _ => _ ← spdk_side (sleepSeconds 2); connect_spdk n'
      end
  end.
Fixpoint await_ready (fuel : nat) : Boot bool :=
  match fuel with
  | 0 => Ret false
  | S fuel' =>
      r ← spdk_side (spdkDo Health);
      match r with
      | Ok _ => Ret true
      | Err _ => _ ← spdk_side (sleepSeconds 2); await_ready fuel'
      end
  end.

(** What a sidecar serves once it is configured. *)
Inductive Running :=
  | RunEngine (engine : SidecarEngine) (volumeName localPath : string)
  | RunReplica (replica : ReplicaResult).

Section main.
Context `{Environ}.

Definition start_engine : Boot (boots Running) :=
  c ← node engine_config;
  match c with
  | Err err => Ret (Fatal err)
  | Ok config =>
      r ← spdk_side (ConfigureEngine config);
      Ret (match r with
           | Err err => Fatal err
           | Ok engine => Started (RunEngine engine (ec_VolumeName config) (ec_LocalPath config))
           end)
  end.

Fixpoint configure_replica (fuel : nat) (config : ReplicaConfig) : Boot (boots Running) :=
  match fuel with
  | 0 => Ret Waiting
  | S fuel' =>
      r ← spdk_side (ConfigureReplica config);
      match r with
      | Err _ => _ ← spdk_side (sleepSeconds 5); configure_replica fuel' config
      | Ok result => Ret (Started (RunReplica result))
      end
  end.
Definition start_replica (fuel : nat) : Boot (boots Running) :=
  c ← node replica_config_of_env;
  match c with
  | Err err => Ret (Fatal err)
  | Ok config => configure_replica fuel config
  end.

Definition fatal (msg : string) : Boot (boots Running) := Ret (Fatal (Errorf msg [])).
Definition sidecar_main (fuel : nat) (mode : string) : Boot (boots Running) :=
  if bool_decide (mode ≠ "engine") && bool_decide (mode ≠ "replica") then
    fatal "unsupported sidecar mode"
  else if bool_decide (Getenv "KDFS_VOLUME_NAME" = "") then fatal "KDFS_VOLUME_NAME not set"
  else
    match policies with
    | Err err => Ret (Fatal err)
    | Ok _ =>
        connected ← connect_spdk 30;
        if negb connected then fatal "failed to connect to SPDK after 30 attempts"
        else
          ready ← await_ready fuel;
          if negb ready then Ret Waiting
          else if bool_decide (mode = "engine") then start_engine
          else start_replica fuel
    end.
End main.

(** ** Serving

    Before the stack is configured only /healthz is registered.  A handler
    answers and leaves what is served from then on. *)
Definition SidecarHandler : Type := HttpRequest → Boot (option Response * option Running).
Definition healthz (running : option Running) : SidecarHandler := λ _,
  Ret (Some (if bool_decide (is_Some running) then mkHttp 200 (Raw "ready")
             else mkHttp 503 (Raw "not ready")), running).
Definition sidecar_patterns (running : option Running) : list (string * SidecarHandler) :=
  ("/healthz", healthz running) ::
  match running with
  | None => []
  | Some (RunEngine engine volumeName localPath) =>
      [("/reconfigure", λ r,
          re ← spdk_side (ReconfigureHTTP engine (request_map rq_Replicas (posted r)));
          Ret (Some re.1, Some (RunEngine re.2 volumeName localPath)));
       ("/status", λ _, Ret (Some (Engine_StatusHTTP engine), running));
       ("/snapshot", λ r,
          o ← node (SnapshotHTTP (CreateSnapshot volumeName localPath)
                (request_map rq_SnapshotID (posted r)));
          Ret (o, running))]
  | Some (RunReplica replica) =>
      [("/status", λ _, Ret (Some (Replica_StatusHTTP replica), running))]
  end.
Definition serve (running : option Running) : SidecarHandler :=
  mux (λ resp, (Some resp, running)) (sidecar_patterns running).

(** ** Lemmas: start-up *)

(** The calls that SPDK refused. *)
Definition side_refused (e : event side) : bool :=
  match e with existT (Do _) r => negb (is_ok r) | _ => false end.
Definition side_refusals (tr : side_trace) : nat := length (List.filter side_refused tr).
Definition refused (e : event boot) : bool :=
  match e with existT (inr (inr (Do c))) r => side_refused (ev (S:=side) (Do c) r) | _ => false end.
Definition refusals (tr : list (event boot)) : nat := length (List.filter refused tr).

Lemma refusals_app tr1 tr2 : refusals (tr1 ++ tr2) = refusals tr1 + refusals tr2.
Proof. unfold refusals. by rw List.filter_app length_app. Qed.
Lemma refusals_side (str : side_trace) :
  refusals (right_event <$> (right_event <$> str)) = side_refusals str.
Proof.
  unfold refusals, side_refusals. induction str as [|[[c|d] r] str IH]; [done| |exact IH].
  cbn in *. destruct (is_ok r); cbn; [done|by f_equal].
Qed.
Lemma wp_spdk_side {A} (p : SC A) (Q : list (event boot) → A → Prop) :
  wp p (λ tr, Q (right_event <$> (right_event <$> tr))) → wp (spdk_side p) Q.
Proof. intros H. by apply wp_on_right, wp_on_right. Qed.

Lemma replica_refused `{Environ} config :
  wp (ConfigureReplica config) (λ tr r, is_ok r = false → 0 < side_refusals tr).
Proof.
  unfold ConfigureReplica, replica_steps. cbn [run_steps]. side_steps; try done; intros _.
  all: unfold side_refusals; cbn; lia.
Qed.

(** [q] has every execution of [p] whose result satisfies [P]. *)
Definition extends {S A} (P : A → Prop) (p q : prog S A) : Prop :=
  ∀ tr a, exec p tr a → P a → exec q tr a.
Lemma extends_refl {S A} (P : A → Prop) (p : prog S A) : extends P p p.
Proof. by intros tr a. Qed.
Lemma extends_bind {S A B} (P : B → Prop) (p : prog S A) (f g : A → prog S B) :
  (∀ a, extends P (f a) (g a)) → extends P (p ≫= f) (p ≫= g).
Proof.
  intros H tr b (tr1 & tr2 & a & -> & H1 & H2)%exec_bind HP. apply exec_bind.
  exists tr1, tr2, a. split_and!; [done..|by apply H].
Qed.
Lemma extends_ret {S A} (P : A → Prop) a (q : prog S A) : ¬ P a → extends P (Ret a) q.
Proof. by intros Ha tr b [-> ->]. Qed.

Definition settled {A} (r : boots A) : Prop := r ≠ Waiting.
Lemma await_extends fuel fuel' :
  fuel ≤ fuel' → extends (λ b, b = true) (await_ready fuel) (await_ready fuel').
Proof.
  revert fuel'. induction fuel as [|fuel IH]; intros fuel' Hle; [by apply extends_ret|].
  destruct fuel' as [|fuel']; [lia|]. cbn [await_ready].
  apply extends_bind. intros [[]|e]; [apply extends_refl|].
  apply extends_bind. intros _. apply IH. lia.
Qed.
Lemma configure_extends `{Environ} fuel fuel' config :
  fuel ≤ fuel' → extends settled (configure_replica fuel config) (configure_replica fuel' config).
Proof.
  revert fuel'. induction fuel as [|fuel IH]; intros fuel' Hle.
  { apply extends_ret. intros Hs. by apply Hs. }
  destruct fuel' as [|fuel']; [lia|]. cbn [configure_replica].
  apply extends_bind. intros [res|e]; [apply extends_refl|].
  apply extends_bind. intros _. apply IH. lia.
Qed.
Lemma main_extends `{Environ} fuel fuel' mode :
  fuel ≤ fuel' → extends settled (sidecar_main fuel mode) (sidecar_main fuel' mode).
Proof.
  intros Hle. unfold sidecar_main.
  destruct (_ && _); [apply extends_refl|]. destruct (bool_decide _); [apply extends_refl|].
  destruct policies; [|apply extends_refl].
  apply extends_bind. intros []; cbn [negb]; [|apply extends_refl].
  intros tr r (tr1 & tr2 & ready & -> & H1 & H2)%exec_bind Hs. apply exec_bind.
  destruct ready; cbn [negb] in *; [|by destruct H2 as [_ ->]].
  exists tr1, tr2, true. split_and!; [done|by eapply await_extends|].
  case_bool_decide; [done|]. revert H2 Hs. apply extends_bind. intros [config|e]; [|apply extends_refl].
  by apply configure_extends.
Qed.

(** A loop that uses up its fuel was refused that often. *)
Lemma await_refused fuel :
  wp (await_ready fuel) (λ tr b, b = false → fuel ≤ refusals tr).
Proof.
  induction fuel as [|fuel IH]; [intros _; cbn; lia|]. cbn [await_ready].
  apply wp_bind, wp_spdk_side, spdkDo_wp. intros [[]|e]; [by wp_steps|].
  apply wp_bind, wp_spdk_side, sleepSeconds_wp. intros u. eapply wp_mono, IH.
  intros tr b Hb Hf. rw !refusals_app !refusals_side. specialize (Hb Hf).
  unfold side_refusals. cbn. lia.
Qed.
Lemma configure_refused `{Environ} fuel config :
  wp (configure_replica fuel config) (λ tr r, r = Waiting → fuel ≤ refusals tr).
Proof.
  induction fuel as [|fuel IH]; [intros _; cbn; lia|]. cbn [configure_replica].
  apply wp_bind, wp_spdk_side. eapply wp_mono, replica_refused.
  intros str [res|e] Hr; [by wp_steps|]. specialize (Hr eq_refl).
  apply wp_bind, wp_spdk_side, sleepSeconds_wp. intros u. eapply wp_mono, IH.
  intros tr b Hb Hf. rw !refusals_app !refusals_side. specialize (Hb Hf). lia.
Qed.
Lemma refused_later {A} (fuel : nat) (p : Boot (boots A)) tr0 :
  wp p (λ tr r, r = Waiting → fuel ≤ refusals tr) →
  wp p (λ tr r, r = Waiting → fuel ≤ refusals (tr0 ++ tr)).
Proof.
  apply wp_mono. intros tr r H Hw. rw refusals_app. specialize (H Hw). lia.
Qed.
Lemma main_refused `{Environ} fuel mode :
  wp (sidecar_main fuel mode) (λ tr r, r = Waiting → fuel ≤ refusals tr).
Proof.
  unfold sidecar_main, fatal.
  destruct (_ && _); [by wp_steps|]. destruct (bool_decide _); [by wp_steps|].
  destruct policies; [|by wp_steps].
  apply wp_bind, wp_true. intros tr1 []; cbn [negb]; [|by wp_steps]. apply refused_later.
  apply wp_bind. eapply wp_mono, await_refused. intros tr2 [] Hr; cbn [negb].
  - apply refused_later. case_bool_decide.
    + unfold start_engine. apply wp_bind, wp_true. intros tr3 [config|e]; [|by wp_steps].
      apply wp_bind, wp_true. intros tr4 [x|e]; by wp_steps.
    + unfold start_replica. apply wp_bind, wp_true. intros tr3 [config|e]; [|by wp_steps].
      apply refused_later, configure_refused.
  - apply wp_ret_intro. rw app_nil_r. auto.
Qed.

(** ** Lemmas: the controllers' calls over HTTP *)
Definition sidecar_base (podIP : string) : string :=
  "http://" +:+ escape_host (JoinEndpoint podIP sidecarPort).
Lemma sidecar_url podIP path : HTTPURL "http" podIP sidecarPort path = sidecar_base podIP +:+ path.
Proof. unfold HTTPURL, URLString, sidecar_base. by rw !string_app_assoc. Qed.

(** The sidecars of a cluster, at their pods' addresses. *)
Definition sites : Type := list (string * option Running).
Definition sidecar_server (running : option Running) : HandlerFunc boot :=
  λ r, x ← serve running r; Ret x.1.
Fixpoint site_at (s : sites) (url : string) : option (string * HandlerFunc boot) :=
  match s with
  | [] => None
  | (podIP, running) :: s =>
      match serves (sidecar_base podIP) (sidecar_server running) url with
      | Some site => Some site
      | None => site_at s url
      end
  end.
Definition sidecar_wire (render : error → string) (s : sites)
    : ∀ c : call ctl, prog (remote boot) (reply ctl c) := wire render (site_at s).
(** A client of one sidecar. *)
Definition remotely (render : error → string) (podIP : string) (running : option Running) {A}
    (client : M A) : prog (remote boot) A :=
  interp (sidecar_wire render [(podIP, running)]) client.
Lemma site_at_one podIP running path :
  site_at [(podIP, running)] (sidecar_base podIP +:+ path) = Some (path, sidecar_server running).
Proof. cbn [site_at]. by rw serves_below. Qed.

(** The status that is served, if any is. *)
Definition status_of (running : option Running) : option SidecarStatus :=
  match running with
  | None => None
  | Some (RunEngine engine _ _) => Some (Engine_Status engine)
  | Some (RunReplica replica) => Some (Replica_Status replica)
  end.
Definition get_status_result (resp : result (http_response WantStatus)) : result SidecarStatus :=
  match resp with
  | Err e => Err e
  | Ok resp =>
      if negb (hr_StatusCode resp =? 200)%Z then
        Err (Errorf "sidecar status returned %d" [Itoa (hr_StatusCode resp)])
      else hr_Decoded resp
  end.

(** ** Properties *)

(** C26. Start-up ends: when SPDK refuses fewer calls than the fuel, however
    often that is and whatever else happens, [main] does not wait for ever, and
    more fuel changes nothing: the calls and the outcome are the ones of the
    unbounded loops. *)
Theorem sidecar_starts `{Environ} (fuel : nat) (mode : string) (tr : list (event boot))
    (r : boots Running) :
  exec (sidecar_main fuel mode) tr r → refusals tr < fuel →
  r ≠ Waiting ∧ ∀ fuel', fuel ≤ fuel' → exec (sidecar_main fuel' mode) tr r.
Proof.
  intros Hex Hlt.
  assert (settled r) as Hs.
  { intros ->. pose proof (exec_wp _ _ _ _ Hex (main_refused fuel mode) eq_refl). lia. }
  split; [done|]. intros fuel' Hle. by eapply main_extends.
Qed.

(** Asking a sidecar for its status over HTTP yields the status of the
    engine or the replica that it runs, or an error: always an error as long as
    the sidecar is not configured, and the status whenever request and response
    arrive. *)
Theorem status_over_http (render : error → string) (podIP : string) (running : option Running)
    (tr : list (event (remote boot))) (r : result SidecarStatus) :
  from_option codec_ok true (status_of running) = true →
  exec (remotely render podIP running (http_GetStatus podIP)) tr r →
  (∀ status, r = Ok status → status_of running = Some status) ∧
  (∀ url, net_event (ev (S:=net) (Deliver url) Arrived) ∈ tr →
     r = match status_of running with
         | Some status => Ok status
         | None => Err (Errorf "sidecar status returned %d" ["404"])
         end).
Proof.
  intros Hok Hex. unfold http_GetStatus, statusURL in Hex. rw !sidecar_url in Hex.
  eapply (exchange_inv render _ WantStatus "GET" _ "" "/status" (sidecar_server running) _ _ id get_status_result) in Hex;
    [|apply site_at_one|done|reflexivity|by intros [resp|e]; [cbn; destruct (negb _)|]].
  destruct Hex as [(e & -> & ->)|(ntr & resp & -> & Hc & ->)].
  { split; [done|]. by intros url [?|?%not_elem_of_nil]%elem_of_cons. }
  destruct Hc as [(e & -> & ->)|(o & back & (btr & -> & Hs) & ->)].
  { split; [done|]. by intros url [?|[?|?%not_elem_of_nil]%elem_of_cons]%elem_of_cons. }
  assert (∀ s, codec_ok s = true →
    get_status_result (received render WantStatus (Some (WriteStatusHTTP s))) = Ok s) as Hserved.
  { intros s Hs'. cbn. exact (proj1 (decode_from_encode s Hs')). }
  assert (get_status_result (received render WantStatus o) =
    match status_of running with
    | Some status => Ok status
    | None => Err (Errorf "sidecar status returned %d" ["404"])
    end ∧ ∀ n e, is_ok (get_status_result (delivered render WantStatus o (CutShort n e))) = false) as [Hr Hcut].
  { destruct running as [[e v p|res]|]; cbn in Hok |- *.
    - destruct Hs as [_ ->]. split; [by apply Hserved|done].
    - destruct Hs as [_ ->]. split; [by apply Hserved|done].
    - by destruct Hs as [_ ->]. }
  split.
  - intros status. destruct back as [|n e|e]; [|by intros Hx; specialize (Hcut n e); rw Hx in Hcut|done].
    cbn [delivered]. rw Hr. destruct (status_of running); [by intros [= <-]|done].
  - intros url [?|[?|[(x & ? & ?)%list_elem_of_fmap|Heq%list_elem_of_singleton]%elem_of_app]%elem_of_cons]%elem_of_cons; [done..|].
    assert (back = Arrived) as ->; [|exact Hr].
    by apply (f_equal (λ e : event (remote boot),
      match e with existT (inr (inl (Deliver _))) b => Some b | _ => None end)) in Heq as [= ->].
Qed.

(** A node and an SPDK on which every call succeeds; one that refuses the first
    [n] health checks. *)
Definition boot_answer (c : call boot) : reply boot c :=
  match c return reply boot c with
  | inl c => os_ok c
  | inr (inl _) => Ok tt
  | inr (inr c) => target "" c
  end.
Definition booting (c : call boot) (n : nat) : reply boot c * nat :=
  match c, n return reply boot c * nat with
  | inr (inr (Do Health)), S n' => (Err (Errorf "connection refused" []), n')
  | c, _ => (boot_answer c, n)
  end.
Definition boot_run :=
  run (S:=boot) booting (@sidecar_main engine_started 4 "engine") 3.
Lemma sidecar_starts_witness :
  (∃ x, boot_run.1.2 = Started x) ∧ refusals boot_run.1.1 = 3 ∧
  ∀ fuel', 4 ≤ fuel' → exec (@sidecar_main engine_started fuel' "engine") boot_run.1.1 boot_run.1.2.
Proof.
  split; [eexists; vm_compute; reflexivity|]. split; [vm_compute; reflexivity|].
  apply (@sidecar_starts engine_started 4 "engine" boot_run.1.1 boot_run.1.2).
  - exact (exec_of_run _ _ 3 _ eq_refl).
  - vm_compute. repeat constructor.
Defined.

Definition net_answer (c : call (remote boot)) : reply (remote boot) c :=
  match c return reply (remote boot) c with
  | inl c => ctl_answer c
  | inr (inl c) => net_ok c
  | inr (inr c) => boot_answer c
  end.
#[local] Instance serve_environ : Environ := λ _, "".
Definition sample_engine : SidecarEngine := NewEngine sample_config.
Definition status_run :=
  run (snapshot_handler (S:=remote boot) net_answer)
    (remotely (λ _, "error") "10.0.0.1" (Some (RunEngine sample_engine "v" "/data/v/vol.img"))
       (http_GetStatus "10.0.0.1")) tt.
Lemma status_over_http_witness : status_run.1.2 = Ok (Engine_Status sample_engine).
Proof.
  apply (status_over_http (λ _, "error") "10.0.0.1"
           (Some (RunEngine sample_engine "v" "/data/v/vol.img")) status_run.1.1)
    with (url := sidecar_base "10.0.0.1" +:+ "/status").
  - vm_compute. reflexivity.
  - exact (exec_of_run _ _ tt _ eq_refl).
  - vm_compute. apply list_elem_of_further, list_elem_of_further, list_elem_of_here.
Defined.
