(* ===== verification/SidecarCalls.v ===== *)
(** * Reconfigurations and snapshots, from the controller to the node

    The engine and snapshot controllers' calls over HTTP, composed with the
    sidecar that serves them. *)
From Stdlib Require Import Ascii.
From S2P Require Import Prelude GoStrings GoNet GoJson GoPath K8s ApiTypes Names Network WireTypes Client Os Agent Spdk PodTemplates AgentClient SidecarClient MemStore EngineController SnapshotController HttpServer SidecarEngine SidecarReplica JsonParse WireJson HttpWire SidecarMain SidecarServe.

(** ** Lemmas: texts *)
Lemma utf8_ok_app s t : utf8_ok s = true → utf8_ok t = true → utf8_ok (s +:+ t) = true.
Proof.
  intros Hs Ht. revert s Hs. apply utf8_ind.
  - by rw string_app_nil_l.
  - intros a s Ha IH. rw string_app_cons. cbn [utf8_ok]. by rw Ha.
  - intros a b s Ha Hb IH. rw !string_app_cons. cbn [utf8_ok]. by rw Ha Hb.
  - intros a b c s Ha Hb Hc IH. rw !string_app_cons. cbn [utf8_ok]. by rw Ha Hb Hc.
  - intros a b c d s Ha Hb Hc Hd IH. rw !string_app_cons. cbn [utf8_ok]. by rw Ha Hb Hc Hd.
Qed.
Lemma snapshot_path_utf8 v id :
  utf8_ok v = true → utf8_ok id = true → utf8_ok (SnapshotFilePath v id) = true.
Proof.
  intros Hv Hid. unfold SnapshotFilePath. repeat apply utf8_ok_app; done.
Qed.
(** What is decoded from an answer is what was answered: a size that does not
    fit is an error. *)
Lemma snapshot_decoded path size (resp : SnapshotResponse) :
  utf8_ok path = true →
  decode_from decode (encoded_text (snapshotResp_json path size)) zero = Ok resp →
  resp = mkSnapshotResponse path size.
Proof.
  intros Hp. destruct (in_int64 size) eqn:Hs.
  - pose proof (proj1 (decode_from_encode (mkSnapshotResponse path size)
      (andb_true_intro (conj Hp Hs)))) as H.
    change (encode (mkSnapshotResponse path size)) with (snapshotResp_json path size) in H.
    rw H. by intros [= <-].
  - unfold decode_from, encoded_text. rw Decode_Marshal; [|by apply (members_ok_cons _ _ [_]); members|done..].
    assert (∀ old, dec_int64 (JNum size) old = (old, Some typeError)) as Hd
      by (intros old; cbn; by rw Hs).
    lazy -[dec_int64]. by rw Hd.
Qed.

(** An address of digits and dots. *)
Definition ipv4 (s : string) : bool := all_bytes (λ c, is_digit c || Ascii.eqb c ".") s.
Lemma ipv4_safe s : ipv4 s = true → escape_host s = s ∧ has_byte ":" s = false.
Proof.
  induction s as [|c s IH]; [done|]. cbn. intros [Hc Hs]%andb_prop.
  destruct (IH Hs) as [H1 H2].
  assert (host_safe c = true ∧ Ascii.eqb c ":" = false) as [-> ->].
  { clear -Hc. by destruct c as [[] [] [] [] [] [] [] []]. }
  by rw H1 H2.
Qed.
Lemma ipv4_base podIP : ipv4 podIP = true → sidecar_base podIP = "http://" +:+ podIP +:+ ":9810".
Proof.
  intros H. unfold sidecar_base, JoinEndpoint, JoinHostPort.
  rw (proj2 (ipv4_safe _ H)). do 1 f_equal.
  assert (∀ s t, escape_host (s +:+ t) = escape_host s +:+ escape_host t) as Happ.
  { intros s t. induction s as [|c s IH]; [done|]. rw string_app_cons. cbn. rw IH.
    by destruct (host_safe c). }
  by rw Happ (proj1 (ipv4_safe _ H)).
Qed.

(** An address followed by the port ends there: no address is a prefix of
    another. *)
Lemma ipv4_site_apart ip ip' rest t t' :
  ipv4 ip = true → ipv4 ip' = true → ip +:+ String ":" t = ip' +:+ String ":" t' +:+ rest → ip = ip'.
Proof.
  revert ip'. induction ip as [|c ip IH]; intros [|c' ip'] H H'; [done|..].
  - rw string_app_nil_l string_app_cons. intros [= <- _]. cbn in H'. done.
  - rw string_app_nil_l string_app_cons. intros [= -> _]. cbn in H. done.
  - cbn in H, H'. apply andb_prop in H as [_ H], H' as [_ H'].
    rw !string_app_cons. intros [= -> Heq]. f_equal. by apply IH.
Qed.
Lemma sidecar_base_apart ip ip' path :
  ipv4 ip = true → ipv4 ip' = true → ip ≠ ip' →
  strip_prefix (sidecar_base ip') (sidecar_base ip +:+ path) = None.
Proof.
  intros H H' Hne. destruct (strip_prefix _ _) as [rest|] eqn:E; [|done]. exfalso.
  apply strip_prefix_Some in E. rw !ipv4_base // !string_app_assoc in E.
  assert (ip +:+ String ":" ("9810" +:+ path) = ip' +:+ String ":" "9810" +:+ rest) as E'.
  { by injection E. }
  by apply ipv4_site_apart in E'.
Qed.

(** ** Lemmas: the sidecars of a cluster *)
Lemma site_at_ip (s : sites) ip running path :
  Forall (λ x, ipv4 x.1 = true) s → NoDup s.*1 → (ip, running) ∈ s →
  site_at s (sidecar_base ip +:+ path) = Some (path, sidecar_server running).
Proof.
  induction s as [|[ip' running'] s IH]; intros Hip Hnd Hin; [by apply not_elem_of_nil in Hin|].
  apply Forall_cons in Hip as [Hip' Hip]. apply NoDup_cons in Hnd as [Hnew Hnd]. cbn in Hip', Hnew.
  cbn [site_at]. apply elem_of_cons in Hin as [[= -> ->]|Hin]; [by rw serves_below|].
  assert ((ip, running).1 ∈ s.*1) as Hf by by apply list_elem_of_fmap_2.
  assert (ipv4 ip = true) as Hi by exact (proj1 (Forall_forall _ _) Hip _ Hin).
  unfold serves. rw sidecar_base_apart //; [by apply IH|by intros ->].
Qed.
(** A response of a sidecar, unless it came cut or not at all. *)
Lemma request_served render (s : sites) str btr w method ip running path body h :
  implements (sidecar_wire render s) str btr →
  site_at s (sidecar_base ip +:+ path) = Some (path, sidecar_server running) →
  ev (S:=ctl) (HttpDo w method (sidecar_base ip +:+ path) body) (Ok h) ∈ str →
  ∃ tr0 ttr tr2 o back running',
    btr = tr0 ++ (net_event (ev (S:=net) (Dispatch (sidecar_base ip +:+ path)) (Ok tt))
      :: (served_event <$> ttr) ++ [net_event (ev (S:=net) (Deliver (sidecar_base ip +:+ path)) back)]) ++ tr2 ∧
    exec (serve running (mkHttpRequest method path body)) ttr (o, running') ∧
    delivered render w o back = Ok h.
Proof.
  intros Himpl Hsite Hin. destruct (implements_in _ _ _ _ Himpl Hin) as (tr0 & tr1 & tr2 & -> & Hex).
  cbn [projT1 projT2 ev] in Hex. unfold sidecar_wire in Hex.
  apply (wire_carriage _ _ _ _ _ _ path (sidecar_server running)) in Hex; [|done].
  destruct Hex as [(e & _ & ?)|(o & back & (ttr & -> & Hs) & Hh)]; [done|].
  unfold sidecar_server in Hs. apply exec_bind in Hs as (tr5 & tr6 & [o' running'] & -> & Hs & [-> ->]).
  exists tr0, tr5, tr2, o', back, running'. by rw app_nil_r.
Qed.

(** ** The snapshot controller *)

(** What is published as Ready was answered, with 200, by the address of the pod
    of the snapshot's engine, both as they were read, to a request for this
    snapshot. *)
Definition asked_sidecar (snap w : Snapshot) (tr : trace) : Prop :=
  ∃ e ref pod h resp,
    ev (S:=ctl) (Get KEngine (snap_engine_key snap)) (Ok e) ∈ tr ∧
    est_PodRef (eng_status e) = Some ref ∧
    ev (S:=ctl) (Get KPod (mkName (pr_Namespace ref) (pr_Name ref))) (Ok pod) ∈ tr ∧
    pst_PodIP (pod_status pod) ≠ "" ∧
    ev (S:=ctl) (HttpDo WantSnapshot "POST" (snapshotURL None (pst_PodIP (pod_status pod)))
      (snapshot_payload snap)) (Ok h) ∈ tr ∧
    hr_StatusCode h = 200%Z ∧ hr_Decoded h = Ok resp ∧
    sst_SnapshotPath (snap_status w) = sr_SnapshotPath resp ∧
    sst_SizeBytes (snap_status w) = sr_SizeBytes resp.
Lemma take_answer_ready snap resp :
  sst_Phase (snap_status snap) = SnapshotPhaseCreating →
  wp (take_answer snap resp) (λ tr _, ∀ w, w ∈ status_updates KSnapshot tr →
    sst_Phase (snap_status w) = SnapshotPhaseReady →
    ∃ a, hr_StatusCode resp = 200%Z ∧ hr_Decoded resp = Ok a ∧
      sst_SnapshotPath (snap_status w) = sr_SnapshotPath a ∧
      sst_SizeBytes (snap_status w) = sr_SizeBytes a).
Proof.
  intros Hph. eapply wp_mono, take_answer_wp; [|done].
  intros tr r H w Hw Hready. destruct (H w Hw) as [Hstep _]. revert Hready.
  inversion Hstep as [| | |st a now conds Hc [Ha1 Ha2] Heq1 Heq2]; [done|done|done|].
  intros _. by exists a.
Qed.
Lemma enginePodIP_asked engine :
  wp (enginePodIP engine) (λ tr r, read_only tr ∧ ∀ podIP, r = Ok podIP → podIP ≠ "" →
    ∃ ref pod, est_PodRef (eng_status engine) = Some ref ∧
      ev (S:=ctl) (Get KPod (mkName (pr_Namespace ref) (pr_Name ref))) (Ok pod) ∈ tr ∧
      podIP = pst_PodIP (pod_status pod)).
Proof.
  unfold enginePodIP, IgnoreNotFound. ctl_steps; (split; [by repeat constructor|]); try done.
  all: intros podIP Hr Hne; try destruct (IsNotFound _); try done; injection Hr as <-; try done.
  eexists _, _. split; [done|]. split; [apply list_elem_of_here|done].
Qed.
Lemma pollCreate_asked snap :
  sst_Phase (snap_status snap) = SnapshotPhaseCreating →
  wp (pollCreate None snap) (λ tr _, ∀ w, w ∈ status_updates KSnapshot tr →
    sst_Phase (snap_status w) = SnapshotPhaseReady → asked_sidecar snap w tr).
Proof.
  intros Hph. unfold pollCreate. ctl_step. ctl_step. destruct r as [engine|e];
    [|ctl_step; by intros w ?%not_elem_of_nil].
  ctl_step. eapply wp_mono, enginePodIP_asked. intros tr1 ip [Hro Hip].
  pose proof (no_status _ Hro) as H1.
  destruct ip as [podIP|e]; [|ctl_step; rw app_nil_r; cbn; rw H1; by intros w ?%not_elem_of_nil].
  case_bool_decide as Hne; [ctl_step; rw app_nil_r; cbn; rw H1; by intros w ?%not_elem_of_nil|].
  destruct (Hip podIP eq_refl Hne) as (ref & pod & Href & Hpod & ->).
  ctl_step. ctl_step. destruct r as [[]|e]; cycle 1.
  { cbn. rw status_updates_app H1. by intros w ?%not_elem_of_nil. }
  ctl_step. ctl_step. destruct r as [resp|e]; cycle 1.
  { ctl_step. cbn. rw status_updates_app H1. by intros w ?%not_elem_of_nil. }
  eapply wp_mono, take_answer_ready; [|done]. intros tr2 res H2 w Hw Hready.
  cbn in Hw. rw status_updates_app H1 in Hw. destruct (H2 w Hw Hready) as (a & ? & ? & ? & ?).
  exists engine, ref, pod, resp, a. split_and!; [apply list_elem_of_here|done| |done| |done..].
  - apply elem_of_cons. right. apply elem_of_app. by left.
  - apply elem_of_cons. right. apply elem_of_app. right. apply list_elem_of_further, list_elem_of_here.
Qed.

Lemma snapshot_http_ok (snapshotter : string → OS (outcome (result (string * Z)))) id otr o :
  exec (SnapshotHTTP snapshotter (mkRequest "POST" (Ok id))) otr (Some o) →
  rp_StatusCode o = 200%Z →
  ∃ path size, exec (snapshotter id) otr (Returns (Ok (path, size))) ∧
    o = mkHttp 200 (Encoded (snapshotResp_json path size)).
Proof.
  unfold SnapshotHTTP. change (decode_post _ _ _) with (@inr Response string id). cbn beta iota.
  destruct (bool_decide (id = "")); [intros [_ Ho]; by injection Ho as ->|].
  intros (tr1 & tr2 & out & -> & Hex & [-> Ho])%exec_bind Hc. rw app_nil_r.
  destruct out as [[[path size]|e]|]; [|by injection Ho as ->|done].
  injection Ho as ->. by exists path, size.
Qed.
Lemma snapshot_served engine v localPath snap btr o running' :
  utf8_ok (ss_SnapshotID (snap_spec snap)) = true →
  exec (serve (Some (RunEngine engine v localPath))
    (mkHttpRequest "POST" "/snapshot" (snapshot_payload snap))) btr (o, running') →
  ∃ otr, btr = left_event <$> otr ∧
    exec (SnapshotHTTP (CreateSnapshot v localPath)
      (mkRequest "POST" (Ok (ss_SnapshotID (snap_spec snap))))) otr o.
Proof.
  intros Hid Hex. unfold serve, mux in Hex.
  change (list_find _ _) with (Some (3, ("/snapshot", λ r : HttpRequest,
    o ← node (SnapshotHTTP (CreateSnapshot v localPath) (request_map rq_SnapshotID (posted r)));
    Ret (o, Some (RunEngine engine v localPath))))) in Hex.
  cbn [snd] in Hex. apply exec_bind in Hex as (tr1 & tr2 & o' & -> & Hex & [-> [= -> ->]]).
  apply exec_on_left in Hex as (otr & -> & Hex). exists otr. rw app_nil_r. split; [done|].
  unfold posted, request_map in Hex. cbn [rq_Method rq_Body hq_Method hq_Body] in Hex.
  unfold snapshot_payload in Hex.
  assert (decode_from decode (Marshal (encode (mkSnapshotRequest (ss_SnapshotID (snap_spec snap)))))
    zero = Ok (mkSnapshotRequest (ss_SnapshotID (snap_spec snap)))) as Hd
    by by apply decode_from_encode.
  change (encode (mkSnapshotRequest _)) with
    (JObj [("snapshotID", JStr (ss_SnapshotID (snap_spec snap)))]) in Hd.
  by rw Hd in Hex.
Qed.

(** ** The engine controller *)
Definition reconfigure_request (reps : list ReplicaAttachment) : HttpRequest :=
  mkHttpRequest "POST" "/reconfigure" (Marshal (JObj [("replicas", attachments_json reps)])).
Lemma reconfigure_served engine v localPath reps btr o running' :
  forallb attachment_ok reps = true →
  exec (serve (Some (RunEngine engine v localPath)) (reconfigure_request reps)) btr (o, running') →
  ∃ str r' engine', btr = right_event <$> (right_event <$> str) ∧
    exec (Reconfigure engine reps) str (r', engine') ∧
    running' = Some (RunEngine engine' v localPath) ∧
    o = Some (match r' with
              | Ok _ => mkHttp 200 (Raw "ok")
              | Err err => mkHttp 500 (ErrorText "reconfigure failed: " err)
              end).
Proof.
  intros Hreps Hex. unfold serve, mux in Hex.
  change (list_find _ _) with (Some (1, ("/reconfigure", λ r : HttpRequest,
    re ← spdk_side (ReconfigureHTTP engine (request_map rq_Replicas (posted r)));
    Ret (Some re.1, Some (RunEngine re.2 v localPath))))) in Hex.
  cbn [snd] in Hex. apply exec_bind in Hex as (tr1 & tr2 & re & -> & Hex & [-> [= -> ->]]).
  apply exec_on_right in Hex as (tr3 & -> & Hex). apply exec_on_right in Hex as (str & -> & Hex).
  assert (posted (reconfigure_request reps) = mkRequest "POST" (Ok (mkReconfigure reps))) as Hd.
  { unfold posted. cbn [reconfigure_request hq_Body hq_Method]. f_equal.
    exact (proj2 (decode_from_encode (mkReconfigure reps) Hreps)). }
  rw Hd in Hex. unfold ReconfigureHTTP in Hex.
  change (decode_post _ _ _) with (@inr Response (list ReplicaAttachment) reps) in Hex.
  cbn beta iota in Hex. apply exec_bind in Hex as (str1 & str2 & [r' engine'] & -> & Hex & [-> ->]).
  exists str1, r', engine'. rw !app_nil_r. split_and!; [done..|by destruct r'|by destruct r'].
Qed.
Definition reconfigure_result (resp : result (http_response WantNothing)) : result unit :=
  match resp with
  | Err e => Err e
  | Ok resp =>
      if negb (hr_StatusCode resp =? 200)%Z then
        Err (Errorf "reconfigure returned %d" [Itoa (hr_StatusCode resp)])
      else Ok tt
  end.

(** The pods of a cluster, with their addresses and what their sidecars run, as
    the API server tells of them: an engine's status refers to the engine's own
    pod, every pod has an address of its own, and the sidecar in the pod of a
    volume's engine, once it is configured, runs that volume's engine. *)
Definition EnginePodName (v : string) : string := EngineName v +:+ "-pod".
Definition pods : Type := list (NamespacedName * (string * option Running)).
Record deployed (c : pods) (tr : trace) : Prop := mk_deployed {
  dep_podref : ∀ key v e ref, ev (S:=ctl) (Get KEngine key) (Ok e) ∈ tr →
    nn_Name key = EngineName v → est_PodRef (eng_status e) = Some ref →
    ref = mkPodRef (EnginePodName v) (nn_Namespace key);
  dep_address : ∀ key pod, ev (S:=ctl) (Get KPod key) (Ok pod) ∈ tr →
    pst_PodIP (pod_status pod) ≠ "" → ∃ running, (key, (pst_PodIP (pod_status pod), running)) ∈ c;
  dep_ipv4 : Forall (λ x, ipv4 x.1 = true) c.*2;
  dep_apart : NoDup c.*2.*1;
  dep_engine : ∀ key v ip running, (key, (ip, Some running)) ∈ c → nn_Name key = EnginePodName v →
    ∃ engine localPath, running = RunEngine engine v localPath }.

(** ** Properties *)

(** C30. Reconfiguring over HTTP is reconfiguring, up to what the network loses.
    When the request cannot be built or does not reach the sidecar, nothing is
    done and the controller is told of an error.  Otherwise the engine's sidecar
    runs [Reconfigure], once, with exactly the attachments that the controller
    sent, and serves the engine that results; the controller learns whether it
    failed if the status line of the response arrives, and is told of an error if
    it is lost, as by the client's limit of thirty seconds, even though the
    engine may have been reconfigured. *)
Theorem reconfigure_over_http (render : error → string) (podIP : string) (engine : SidecarEngine)
    (v localPath : string) (reps : list ReplicaAttachment) (tr : list (event (remote boot)))
    (r : result unit) :
  let url := sidecar_base podIP +:+ "/reconfigure" in
  forallb attachment_ok reps = true →
  exec (remotely render podIP (Some (RunEngine engine v localPath))
    (triggerReconfigure podIP reps)) tr r →
  unsent id "POST" url tr r ∨
  ∃ ntr, tr = built "POST" url :: ntr ∧
    (unreached id url ntr r ∨
     ∃ str r' engine' back,
       ntr = net_event (ev (S:=net) (Dispatch url) (Ok tt)) ::
               (served_event <$> (right_event <$> (right_event <$> str))) ++
               [net_event (ev (S:=net) (Deliver url) back)] ∧
       exec (Reconfigure engine reps) str (r', engine') ∧
       (∃ resp, exec (serve (Some (RunEngine engine v localPath)) (reconfigure_request reps))
          (right_event <$> (right_event <$> str)) (resp, Some (RunEngine engine' v localPath))) ∧
       match back with
       | Arrived | CutShort _ _ =>
           r = match r' with
               | Ok _ => Ok tt
               | Err _ => Err (Errorf "reconfigure returned %d" ["500"])
               end
       | Lost err => r = Err err
       end).
Proof.
  intros url Hreps Hex. unfold triggerReconfigure, reconfigureURL in Hex. rw !sidecar_url in Hex.
  eapply (exchange_inv render _ WantNothing "POST" _ _ "/reconfigure"
    (sidecar_server (Some (RunEngine engine v localPath))) _ _ id reconfigure_result) in Hex;
    [|apply site_at_one|done|reflexivity|by intros [resp|e]; [cbn; destruct (negb _)|]].
  destruct Hex as [Hex|(ntr & resp & -> & Hc & ->)]; [by left|right]. exists ntr. split; [done|].
  destruct Hc as [(e & -> & ->)|(o & back & (btr & -> & Hs) & ->)]; [left; by exists e|right].
  unfold sidecar_server in Hs.
  apply exec_bind in Hs as (btr1 & btr2 & [o' running'] & -> & Hs & [-> ->]). cbn [fst].
  pose proof Hs as Hserve. apply (reconfigure_served _ _ _ _ _ _ _ Hreps) in Hs
    as (str & r' & engine' & -> & Hr & -> & ->).
  exists str, r', engine', back. rw app_nil_r. split_and!; [done..|by eexists|].
  by destruct back, r'.
Qed.


Definition reconfiguring :=
  run (snapshot_handler (S:=remote boot) net_answer)
    (remotely (λ _, "error") "10.0.0.1" (Some (RunEngine sample_engine "v" "/data/v/vol.img"))
       (triggerReconfigure "10.0.0.1" (take 2 two_replicas))) tt.
Lemma reconfigure_over_http_witness :
  reconfiguring.1.2 = Ok tt ∧
  let url := sidecar_base "10.0.0.1" +:+ "/reconfigure" in
  let '(tr, r, _) := reconfiguring in
  unsent id "POST" url tr r ∨
  ∃ ntr, tr = built "POST" url :: ntr ∧
    (unreached id url ntr r ∨ ∃ str r' engine', exec (Reconfigure sample_engine (take 2 two_replicas)) str (r', engine')).
Proof.
  split; [vm_compute; reflexivity|].
  pose proof (exec_of_run (snapshot_handler (S:=remote boot) net_answer) _ tt _ (eq_refl reconfiguring)) as Hex.
  destruct reconfiguring as [[tr r] u]. cbn [fst snd] in Hex.
  destruct (reconfigure_over_http (λ _, "error") "10.0.0.1" sample_engine "v" "/data/v/vol.img"
    (take 2 two_replicas) tr r eq_refl Hex) as [H|(ntr & -> & [H|(str & r' & e' & back & _ & H1 & _)])].
  - by left.
  - right. exists ntr. split; [done|by left].
  - right. exists ntr. split; [done|]. right. by exists str, r', e'.
Defined.

(** The API server holds the snapshot, the engine and its pod; the node, its
    sidecar; the network delivers. *)
Definition net_handler (c : call (remote boot)) (w : world) : reply (remote boot) c * world :=
  match c return reply (remote boot) c * world with
  | inl c => mem_handler c w
  | inr (inl c) => (net_ok c, w)
  | inr (inr c) => (boot_answer c, w)
  end.
Definition creating_snapshot : Snapshot := sample_snapshot "Creating" [SnapshotFinalizer].
Definition sample_pods : pods :=
  [(mkName "ns" "v-engine-pod", ("10.0.0.9", Some (RunEngine sample_engine "v" "/data/v/vol.img")))].
Definition end_to_end :=
  run_interp (S:=ctl) (T:=remote boot) (sidecar_wire (λ _, "error") sample_pods.*2)
    net_handler (pollCreate None creating_snapshot) (snapshot_world creating_snapshot).
Definition taken_snapshot : Snapshot :=
  default creating_snapshot (head (status_updates KSnapshot end_to_end.1.1.1)).
(** Its reads are of this engine and this pod. *)
Definition read_here (e : event ctl) : Prop :=
  match e with
  | existT (Get KEngine key) (Ok o) =>
      key = mkName "ns" "v-engine" ∧
      est_PodRef (eng_status o) = Some (mkPodRef "v-engine-pod" "ns")
  | existT (Get KPod key) (Ok o) =>
      key = mkName "ns" "v-engine-pod" ∧ pst_PodIP (pod_status o) = "10.0.0.9"
  | _ => True
  end.
Lemma sample_deployed tr : Forall read_here tr → deployed sample_pods tr.
Proof.
  intros Hall. split.
  - intros key v e ref [Hk He]%(proj1 (Forall_forall _ _) Hall) Hn Href.
    rw He in Href. injection Href as <-. subst key. cbn in *.
    by apply (inj EngineName "v") in Hn as <-.
  - intros key pod [-> Hip]%(proj1 (Forall_forall _ _) Hall) _. rw Hip. eexists. apply list_elem_of_here.
  - by repeat constructor.
  - cbn. apply NoDup_singleton.
  - intros key v ip running [= -> -> ->]%list_elem_of_singleton Hn. cbn in Hn.
    apply (string_app_inj_r "v-engine"), (inj EngineName "v") in Hn as <-. by eexists _, _.
Qed.
