(* ===== verification/CsiController.v ===== *)
(** * internal/csi/controller.go, snapshot.go and driver.go: the CSI controller

    The messages of the CSI protocol are records of the fields the driver uses;
    a message that may be absent is an option, and the getters on an absent
    message answer the zero value, as the generated code's do. *)
From S2P Require Import Prelude GoStrings GoNet K8s ApiTypes Names Network WireTypes Client MemStore.

(** ** Messages *)
Inductive AccessMode :=
  | UNKNOWN | SINGLE_NODE_WRITER | SINGLE_NODE_READER_ONLY | MULTI_NODE_READER_ONLY
  | MULTI_NODE_SINGLE_WRITER | MULTI_NODE_MULTI_WRITER | SINGLE_NODE_SINGLE_WRITER
  | SINGLE_NODE_MULTI_WRITER.
#[global] Instance access_mode_eq_dec : EqDecision AccessMode.
Proof. solve_decision. Defined.
Record VolumeCapability := mkCapability { vc_AccessMode : option AccessMode }.
Definition Topology := gmap string string.  (* Segments *)
Record TopologyRequirement := mkTopologyRequirement {
  tr_Requisite : list Topology; tr_Preferred : list Topology }.
(** [Type] of a content source: a snapshot's id, or something else. *)
Inductive VolumeContentSource := FromSnapshot (SnapshotId : string) | FromOther.
Record CreateVolumeRequest := mkCreateVolume {
  cv_Name : string; cv_RequiredBytes : Z; cv_VolumeCapabilities : list (option VolumeCapability);
  cv_Parameters : gmap string string; cv_VolumeContentSource : option VolumeContentSource;
  cv_AccessibilityRequirements : option TopologyRequirement }.
Record CsiVolume := mkCsiVolume {
  v_VolumeId : string; v_CapacityBytes : Z; v_AccessibleTopology : list Topology }.
Record PublishRequest := mkPublish { pb_VolumeId : string; pb_Capability : option VolumeCapability }.
Record CreateSnapshotRequest := mkCreateSnapshot {
  cs_SourceVolumeId : string; cs_Name : string; cs_Parameters : gmap string string }.
Record CsiSnapshot := mkCsiSnapshot {
  s_SnapshotId : string; s_SourceVolumeId : string; s_ReadyToUse : bool; s_SizeBytes : Z;
  s_CreationTime : option Time }.

(** ** driver.go *)
Definition DriverName := "storage.krea.to".
Definition DriverVersion := "0.1.0".
Record Driver := mkDriver { d_Namespace : string; d_NodeID : string }.
Record PluginInfo := mkPluginInfo { pi_Name : string; pi_VendorVersion : string }.
Definition GetPluginInfo (d : Driver) : PluginInfo := mkPluginInfo DriverName DriverVersion.
Inductive PluginCapability := CONTROLLER_SERVICE | VOLUME_ACCESSIBILITY_CONSTRAINTS.
Definition GetPluginCapabilities (d : Driver) : list PluginCapability :=
  [CONTROLLER_SERVICE; VOLUME_ACCESSIBILITY_CONSTRAINTS].
Definition Probe (d : Driver) : bool := true.
Inductive ControllerCapability :=
  | CREATE_DELETE_VOLUME | PUBLISH_UNPUBLISH_VOLUME | CREATE_DELETE_SNAPSHOT | LIST_SNAPSHOTS.
Definition ControllerGetCapabilities (d : Driver) : list ControllerCapability :=
  [CREATE_DELETE_VOLUME; PUBLISH_UNPUBLISH_VOLUME; CREATE_DELETE_SNAPSHOT; LIST_SNAPSHOTS].
Inductive NodeCapability := STAGE_UNSTAGE_VOLUME.
Definition NodeGetCapabilities (d : Driver) : list NodeCapability := [STAGE_UNSTAGE_VOLUME].
Definition hostnameKey := "topology.storage.krea.to/hostname".
Record NodeInfo := mkNodeInfo {
  ni_NodeId : string; ni_MaxVolumesPerNode : Z; ni_AccessibleTopology : Topology }.
Definition NodeGetInfo (d : Driver) : NodeInfo :=
  mkNodeInfo (d_NodeID d) 64 {[ hostnameKey := d_NodeID d ]}.

(** ** controller.go *)
Definition multi_node (c : option VolumeCapability) : bool :=
  match c with
  | Some (mkCapability (Some mode)) =>
      bool_decide (mode = MULTI_NODE_READER_ONLY) || bool_decide (mode = MULTI_NODE_MULTI_WRITER)
  | _ => false
  end.
Definition isMultiNodeAccess (caps : list (option VolumeCapability)) : bool :=
  existsb multi_node caps.

(** The first hostname that is not empty. *)
Fixpoint first_node (ts : list Topology) : option string :=
  match ts with
  | [] => None
  | t :: ts' =>
      match t !! hostnameKey with
      | Some node => if bool_decide (node ≠ "") then Some node else first_node ts'
      | None => first_node ts'
      end
  end.
Definition chosen_node (d : Driver) (req : CreateVolumeRequest) : string :=
  match cv_AccessibilityRequirements req with
  | None => d_NodeID d
  | Some topology =>
      let nodeID := default (d_NodeID d) (first_node (tr_Requisite topology)) in
      if bool_decide (nodeID = "") then default nodeID (first_node (tr_Preferred topology))
      else nodeID
  end.

(** The volume to create, at a node, from a snapshot or not. *)
Definition csi_volume (d : Driver) (req : CreateVolumeRequest) (nodeID : string)
    (snapshot : option string) : Volume :=
  mkVolume (newMeta (cv_Name req) (d_Namespace d))
    (mkVolumeSpec (Itoa (cv_RequiredBytes req))
       (default "" (cv_Parameters req !! "storageClassName")) nodeID "" snapshot)
    zeroVolumeStatus.

Definition volume_for (d : Driver) (req : CreateVolumeRequest) : M (result Volume) :=
  match cv_VolumeContentSource req with
  | None => Ret (Ok (csi_volume d req (chosen_node d req) None))
  | Some FromOther => Ret (Err (Errorf "unsupported volume content source" []))
  | Some (FromSnapshot SnapshotId) =>
      r ← kGet KSnapshot (mkName (d_Namespace d) SnapshotId);
      match r with
      | Err err => Ret (Err (Wrapf "snapshot not found: %w" [] err))
      | Ok snap =>
          if negb (sst_ReadyToUse (snap_status snap)) then
            Ret (Err (Errorf "snapshot %s is not ready to use" [SnapshotId]))
          else Ret (Ok (csi_volume d req (sst_EngineNode (snap_status snap)) (Some SnapshotId)))
      end
  end.

Definition created_volume (d : Driver) (req : CreateVolumeRequest) : CsiVolume :=
  mkCsiVolume (cv_Name req) (cv_RequiredBytes req)
    (if isMultiNodeAccess (cv_VolumeCapabilities req) then []
     else [{[ hostnameKey := chosen_node d req ]}]).

(** A volume that is there already counts as created. *)
Definition create_volume (d : Driver) (req : CreateVolumeRequest) (volume : Volume)
    : M (result CsiVolume) :=
  r ← kCreate KVolume volume;
  match r with
  | Err err => if IsAlreadyExists err then Ret (Ok (created_volume d req)) else Ret (Err err)
  | Ok _ => Ret (Ok (created_volume d req))
  end.
Definition CreateVolume (d : Driver) (req : CreateVolumeRequest) : M (result CsiVolume) :=
  if bool_decide (cv_Name req = "") then Ret (Err (Errorf "volume name is required" []))
  else
    volume ←? volume_for d req;
    create_volume d req volume.

Definition delete_if_exists (k : kind) (key : NamespacedName) : M (result unit) :=
  r ← kDelete k key;
  match r with
  | Err err => if IsNotFound err then Ret (Ok tt) else Ret (Err err)
  | Ok _ => Ret (Ok tt)
  end.
Definition DeleteVolume (d : Driver) (VolumeId : string) : M (result unit) :=
  delete_if_exists KVolume (mkName (d_Namespace d) VolumeId).

Definition access_mode (req : PublishRequest) : AccessMode :=
  default UNKNOWN (c ← pb_Capability req; vc_AccessMode c).
Definition nvme_context (volumeId : string) (engine : Engine) : gmap string string :=
  {[ "volumeId" := volumeId; "endpoint" := est_Endpoint (eng_status engine);
     "nqn" := est_SubsystemNQN (eng_status engine) ]}.
Definition nfs_context (volumeId host : string) : gmap string string :=
  {[ "volumeId" := volumeId; "protocol" := "nfs"; "server" := host; "export" := "/" ]}.
Definition publish_context (req : PublishRequest) (engine : Engine)
    : result (gmap string string) :=
  match access_mode req with
  | SINGLE_NODE_WRITER | SINGLE_NODE_MULTI_WRITER | MULTI_NODE_READER_ONLY =>
      Ok (nvme_context (pb_VolumeId req) engine)
  | MULTI_NODE_MULTI_WRITER =>
      match SplitEndpoint (est_Endpoint (eng_status engine)) with
      | Err err => Err err
      | Ok (host, _) => Ok (nfs_context (pb_VolumeId req) host)
      end
  | _ => Err (Errorf "unsupported access mode: %v" [])
  end.
Definition ControllerPublishVolume (d : Driver) (req : PublishRequest)
    : M (result (gmap string string)) :=
  engine ←? kGet KEngine (mkName (d_Namespace d) (EngineName (pb_VolumeId req)));
  if bool_decide (est_Phase (eng_status engine) ≠ EnginePhaseRunning) then
    Ret (Err (Errorf "engine %s is not running" [eng_Name engine]))
  else Ret (publish_context req engine).
Definition ControllerUnpublishVolume (d : Driver) : M (result unit) := Ret (Ok tt).

(** ** snapshot.go *)
Definition volumeSnapshotNamespaceParam := "csi.storage.k8s.io/volumesnapshot/namespace".
Definition internal_name (req : CreateSnapshotRequest) : string :=
  let snapNS := default "" (cs_Parameters req !! volumeSnapshotNamespaceParam) in
  if bool_decide (snapNS ≠ "") then snapNS +:+ "--" +:+ cs_Name req else cs_Name req.
Definition csi_snapshot (snap : Snapshot) : CsiSnapshot :=
  mkCsiSnapshot (ss_SnapshotID (snap_spec snap)) (ss_VolumeRef (snap_spec snap))
    (sst_ReadyToUse (snap_status snap)) (sst_SizeBytes (snap_status snap))
    (sst_CreationTime (snap_status snap)).
Definition new_snapshot (d : Driver) (req : CreateSnapshotRequest) : Snapshot :=
  mkSnapshot (newMeta (internal_name req) (d_Namespace d))
    (mkSnapshotSpec (cs_SourceVolumeId req) (internal_name req)) zeroSnapshotStatus.

Definition CreateSnapshot (d : Driver) (req : CreateSnapshotRequest) : M (result CsiSnapshot) :=
  if bool_decide (cs_Name req = "") then Ret (Err (Errorf "snapshot name is required" []))
  else if bool_decide (cs_SourceVolumeId req = "") then
    Ret (Err (Errorf "source volume ID is required" []))
  else
    r ← kCreate KSnapshot (new_snapshot d req);
    match r with
    | Ok snap => Ret (Ok (csi_snapshot snap))
    | Err err =>
        if negb (IsAlreadyExists err) then Ret (Err err)
        else
          snap ←? kGet KSnapshot (mkName (d_Namespace d) (internal_name req));
          if bool_decide (ss_VolumeRef (snap_spec snap) ≠ cs_SourceVolumeId req) then
            Ret (Err (Errorf "snapshot %s exists for different volume %s"
                        [internal_name req; ss_VolumeRef (snap_spec snap)]))
          else Ret (Ok (csi_snapshot snap))
    end.
Definition DeleteSnapshot (d : Driver) (SnapshotId : string) : M (result unit) :=
  delete_if_exists KSnapshot (mkName (d_Namespace d) SnapshotId).

(** The snapshots of a volume, or all when none is named. *)
Definition of_volume (SourceVolumeId : string) (items : list Snapshot) : list Snapshot :=
  if bool_decide (SourceVolumeId ≠ "")
  then filter (λ s, ss_VolumeRef (snap_spec s) = SourceVolumeId) items else items.
(** The response, and the error. *)
Definition ListResponse : Type := option (list CsiSnapshot) * option error.
Definition ListSnapshots (d : Driver) (SnapshotId SourceVolumeId : string) : M ListResponse :=
  if bool_decide (SnapshotId ≠ "") then
    kGet KSnapshot (mkName (d_Namespace d) SnapshotId) ≫= λ r : result Snapshot,
    Ret (match r with
         | Err err => (Some [], err_of (IgnoreNotFound tt err))
         | Ok snap => (Some [csi_snapshot snap], None)
         end : ListResponse)
  else
    kList KSnapshot (Some (d_Namespace d)) ∅ ≫= λ r : result (list Snapshot),
    Ret (match r with
         | Err err => (None, Some err)
         | Ok items => (Some (csi_snapshot <$> of_volume SourceVolumeId items), None)
         end : ListResponse).

(** ** Lemmas *)

(** The volume that a request asks for: at the node chosen from the topology,
    or at the node of the ready snapshot it is restored from. *)
Definition requested (d : Driver) (req : CreateVolumeRequest) (tr : trace) (v : Volume) : Prop :=
  match cv_VolumeContentSource req with
  | None => v = csi_volume d req (chosen_node d req) None
  | Some FromOther => False
  | Some (FromSnapshot id) => ∃ snap : Snapshot,
      snap ∈ reads KSnapshot (mkName (d_Namespace d) id) tr ∧
      sst_ReadyToUse (snap_status snap) = true ∧
      v = csi_volume d req (sst_EngineNode (snap_status snap)) (Some id)
  end.

Lemma volume_for_wp d req :
  wp (volume_for d req) (λ tr r,
    read_only tr ∧ existing KVolume tr = [] ∧ ∀ v, r = Ok v → requested d req tr v).
Proof.
  unfold volume_for, requested. destruct (cv_VolumeContentSource req) as [[id|]|].
  - ctl_steps; (split; [by repeat constructor|]); (split; [done|]); try done.
    intros v [= <-]. eexists. split; [apply reads_self|]. split; [|done].
    by apply negb_false_iff in Heqb.
  - ctl_step. split; [by repeat constructor|]. by split.
  - ctl_step. split; [by repeat constructor|]. split; [done|]. by intros v [= <-].
Qed.

Lemma create_volume_wp d req :
  wp (CreateVolume d req) (λ tr r, ∀ resp, r = Ok resp →
    resp = created_volume d req ∧
    ∃ v, creates KVolume tr = [v] ∧ existing KVolume tr = [v] ∧ requested d req tr v).
Proof.
  unfold CreateVolume. ctl_step; [by ctl_step|]. ctl_step.
  eapply wp_mono; [|apply volume_for_wp]. intros tr1 r1 (Hro & Hex & Hreq).
  destruct r1 as [v|e]; cbn beta iota; [|done].
  assert (∀ r, creates KVolume (tr1 ++ [ev (S:=ctl) (Create KVolume v) r]) = [v] ∧
               requested d req (tr1 ++ [ev (S:=ctl) (Create KVolume v) r]) v) as H.
  { intros r. split.
    - rw creates_app. destruct (read_only_writes tr1 Hro) as (_ & _ & -> & _). done.
    - specialize (Hreq v eq_refl). unfold requested in *.
      destruct (cv_VolumeContentSource req) as [[id|]|]; [|done..].
      destruct Hreq as (snap & Hs & ?). exists snap. split; [|done]. rw reads_app.
      apply elem_of_app. by left. }
  unfold create_volume. ctl_steps; intros resp Hr; simplify_eq; (split; [done|]); exists v.
  all: rw ?app_nil_r; (split; [apply H|split; [|apply H]]).
  - by rw existing_app Hex.
  - rw existing_app Hex. cbn. by rw Heqb0.
Qed.

(** ** Against the store: a call that succeeded can be repeated *)
Definition store_run {A} (p : M (result A)) (w : world) : result A * world :=
  let '(_, r, w') := run mem_handler p w in (r, w').
Definition repeatable {A} (p : M (result A)) : Prop :=
  ∀ w a w', store_run p w = (Ok a, w') → store_run p w' = (Ok a, w').

Lemma run_bind {A B W} (h : handler ctl W) (p : M A) (f : A → M B) w :
  run h (p ≫= f) w =
    let '(tr1, a, w1) := run h p w in
    let '(tr2, b, w2) := run h (f a) w1 in (tr1 ++ tr2, b, w2).
Proof.
  revert w. induction p as [a|c k IH]; intros w; cbn.
  - by destruct (run h (f a) w) as [[? ?] ?].
  - destruct (h c w) as [r w1]. rw IH. destruct (run h (k r) w1) as [[tr1 a] w2].
    by destruct (run h (f a) w2) as [[? ?] ?].
Qed.

Lemma create_volume_store d req v w :
  vol_meta v = newMeta (cv_Name req) (d_Namespace d) →
  ∃ w', store_run (create_volume d req v) w = (Ok (created_volume d req), w') ∧
    w_objs w' KSnapshot = w_objs w KSnapshot ∧
    is_Some (w_objs w' KVolume !! (d_Namespace d, cv_Name req)) ∧
    (is_Some (w_objs w KVolume !! (d_Namespace d, cv_Name req)) → w' = w).
Proof.
  intros Hm. unfold store_run, create_volume. cbn. rw Hm. unfold meta_okey. cbn.
  destruct (w_objs w KVolume !! (d_Namespace d, cv_Name req)) as [v'|] eqn:Hv; cbn.
  - exists w. by rw Hv.
  - rw Hv. cbn. eexists. split; [reflexivity|]. split; [done|]. cbn. rw lookup_insert_eq.
    split; [done|]. by intros [? ?].
Qed.
Ltac destruct_lookup kd :=
  lazymatch goal with
  | |- context [@lookup ?K ?V ?M ?I ?k (w_objs ?w kd)] =>
      destruct (@lookup K V M I k (w_objs w kd))
  end.
Lemma volume_for_meta d req w tr v w' :
  run mem_handler (volume_for d req) w = (tr, Ok v, w') →
  w' = w ∧ vol_meta v = newMeta (cv_Name req) (d_Namespace d).
Proof.
  unfold volume_for. destruct (cv_VolumeContentSource req) as [[id|]|]; cbn; [|done|].
  - unfold okey_of. cbn. destruct_lookup KSnapshot; cbn; [|done].
    destruct (sst_ReadyToUse _); cbn; [|done]. intros [= <- <- <-]. done.
  - intros [= <- <- <-]. done.
Qed.
Lemma volume_for_same d req w w1 tr v :
  w_objs w1 KSnapshot = w_objs w KSnapshot →
  run mem_handler (volume_for d req) w = (tr, Ok v, w) →
  ∃ tr', run mem_handler (volume_for d req) w1 = (tr', Ok v, w1).
Proof.
  intros Hs. unfold volume_for. destruct (cv_VolumeContentSource req) as [[id|]|]; cbn; [|done|].
  - unfold okey_of. cbn. rw Hs. destruct_lookup KSnapshot; cbn; [|done].
    destruct (sst_ReadyToUse _); cbn; [|done]. intros [= _ <-]. by eexists.
  - intros [= _ <-]. by eexists.
Qed.
Lemma create_volume_repeatable d req : repeatable (CreateVolume d req).
Proof.
  intros w a w'. unfold store_run, CreateVolume. case_bool_decide; [done|].
  unfold bind_ok. rw !run_bind.
  destruct (run mem_handler (volume_for d req) w) as [[tr1 [v|e]] w1] eqn:H1; [|done].
  destruct (volume_for_meta _ _ _ _ _ _ H1) as [-> Hm].
  destruct (create_volume_store d req v w Hm) as (w2 & H2 & Hs & Hsome & _).
  destruct (create_volume_store d req v w2 Hm) as (w3 & H3 & _ & _ & Hw3).
  rw (Hw3 Hsome) in H3. unfold store_run in H2, H3.
  destruct (run mem_handler (create_volume d req v) w) as [[tr2 r2] w2']. simplify_eq.
  intros [= <- <-]. destruct (volume_for_same d req w w2 tr1 v Hs H1) as [tr1' ->].
  destruct (run mem_handler (create_volume d req v) w2) as [[tr3 r3] w3']. by simplify_eq.
Qed.

(** What a published volume can be reached by, per access mode. *)
Definition reachable (req : PublishRequest) (engine : Engine) (ctx : gmap string string) : Prop :=
  match access_mode req with
  | SINGLE_NODE_WRITER | SINGLE_NODE_MULTI_WRITER | MULTI_NODE_READER_ONLY =>
      ctx !! "endpoint" = Some (est_Endpoint (eng_status engine)) ∧
      ctx !! "nqn" = Some (est_SubsystemNQN (eng_status engine)) ∧ ctx !! "protocol" = None
  | MULTI_NODE_MULTI_WRITER =>
      ctx !! "protocol" = Some "nfs" ∧ ctx !! "export" = Some "/" ∧ ctx !! "nqn" = None ∧
      ∃ host port, SplitEndpoint (est_Endpoint (eng_status engine)) = Ok (host, port) ∧
        ctx !! "server" = Some host
  | _ => False
  end.
Lemma publish_context_ok req engine ctx :
  publish_context req engine = Ok ctx →
  ctx !! "volumeId" = Some (pb_VolumeId req) ∧ reachable req engine ctx.
Proof.
  unfold publish_context, reachable. destruct (access_mode req); try done.
  1,2,4: intros [= <-]; by split_and!.
  destruct (SplitEndpoint _) as [[host port]|]; [|done]. intros [= <-].
  split_and!; [done..|]. by exists host, port.
Qed.

Lemma create_snapshot_wp d req :
  wp (CreateSnapshot d req) (λ tr r, ∀ resp, r = Ok resp →
    cs_Name req ≠ "" ∧ cs_SourceVolumeId req ≠ "" ∧
    creates KSnapshot tr = [new_snapshot d req] ∧
    ∃ snap, resp = csi_snapshot snap ∧
      (ev (S:=ctl) (Create KSnapshot (new_snapshot d req)) (Ok snap) ∈ tr ∨
       snap ∈ reads KSnapshot (mkName (d_Namespace d) (internal_name req)) tr ∧
       ss_VolumeRef (snap_spec snap) = cs_SourceVolumeId req)).
Proof.
  unfold CreateSnapshot. case_bool_decide; [by ctl_step|]. case_bool_decide; [by ctl_step|].
  ctl_steps; intros resp Hr; simplify_eq; (split_and!; [done..|]).
  - eexists. split; [done|]. left. apply list_elem_of_here.
  - eexists. split; [done|]. right. split.
    + rw app_nil_r reads_app. apply elem_of_app. right. apply (reads_self KSnapshot).
    + apply bool_decide_eq_false in Heqb0. by apply dec_stable.
Qed.

(** ** Properties *)

(** A volume that CreateVolume reports was created by this call, or was
    there under its name: with the size in bytes as its decimal text, at the
    node chosen from the topology, or, restored from a snapshot that was ready,
    at the node of the snapshot's engine.  The topology that is answered, for a
    volume of single-node access, is the chosen node in both cases. *)
Theorem CreateVolume_created (d : Driver) (req : CreateVolumeRequest) (tr : trace)
    (resp : CsiVolume) :
  exec (CreateVolume d req) tr (Ok resp) →
  resp = created_volume d req ∧
  ∃ v, creates KVolume tr = [v] ∧ existing KVolume tr = [v] ∧ requested d req tr v.
Proof.
  intros Hex. exact (exec_wp _ _ _ _ Hex (create_volume_wp d req) resp eq_refl).
Qed.

(** CreateVolume is idempotent: against the API server's store, repeating a
    call that succeeded answers the same and changes nothing. *)
Theorem CreateVolume_repeatable (d : Driver) (req : CreateVolumeRequest) (w w' : world)
    (resp : CsiVolume) :
  store_run (CreateVolume d req) w = (Ok resp, w') →
  store_run (CreateVolume d req) w' = (Ok resp, w').
Proof. apply create_volume_repeatable. Qed.

(** A volume is published only while its engine is running, and the context
    is that of the access mode: the NVMe-oF endpoint and NQN of the engine for
    the single-node writers and the readers of many nodes, the NFS server at the
    endpoint's host for the writers of many nodes, and nothing for the others. *)
Theorem ControllerPublish_context (d : Driver) (req : PublishRequest) (tr : trace)
    (ctx : gmap string string) :
  exec (ControllerPublishVolume d req) tr (Ok ctx) →
  ctx !! "volumeId" = Some (pb_VolumeId req) ∧
  ∃ engine : Engine, engine ∈ reads KEngine (mkName (d_Namespace d) (EngineName (pb_VolumeId req))) tr ∧
    est_Phase (eng_status engine) = EnginePhaseRunning ∧ reachable req engine ctx.
Proof.
  intros Hex. refine (exec_wp _ (λ tr r, ∀ ctx, r = Ok ctx → _) _ _ Hex _ ctx eq_refl).
  clear. unfold ControllerPublishVolume. ctl_steps; intros ctx Hc; try done.
  destruct (publish_context_ok _ _ _ Hc) as [Hid Hr]. split; [done|].
  eexists. split; [rw app_nil_r; apply (reads_self KEngine)|]. split; [|done].
  apply bool_decide_eq_false in Heqb. by apply dec_stable.
Qed.

(** A snapshot that CreateSnapshot reports was created by this call under
    the request's internal name, or was there under that name for the same
    volume: a name taken by a snapshot of another volume is an error. *)
Theorem CreateSnapshot_named (d : Driver) (req : CreateSnapshotRequest) (tr : trace)
    (resp : CsiSnapshot) :
  exec (CreateSnapshot d req) tr (Ok resp) →
  cs_Name req ≠ "" ∧ cs_SourceVolumeId req ≠ "" ∧
  creates KSnapshot tr = [new_snapshot d req] ∧
  ∃ snap, resp = csi_snapshot snap ∧
    (ev (S:=ctl) (Create KSnapshot (new_snapshot d req)) (Ok snap) ∈ tr ∨
     snap ∈ reads KSnapshot (mkName (d_Namespace d) (internal_name req)) tr ∧
     ss_VolumeRef (snap_spec snap) = cs_SourceVolumeId req).
Proof.
  intros Hex. exact (exec_wp _ _ _ _ Hex (create_snapshot_wp d req) resp eq_refl).
Qed.

(** ** Witnesses *)
Definition driver : Driver := mkDriver "kdfs" "w1".
Definition writer : option VolumeCapability := Some (mkCapability (Some SINGLE_NODE_WRITER)).
Definition restore_volume : CreateVolumeRequest :=
  mkCreateVolume "pvc-1" 1073741824 [writer] ∅ (Some (FromSnapshot "s")) None.
Definition ready_snapshot_s : Snapshot :=
  mkSnapshot (newMeta "s" "kdfs") (mkSnapshotSpec "v" "s")
    (mkSnapshotStatus "Ready" "/var/lib/kdfs/v/snapshot-s.img" "w2" 1024 None true []).
Definition csi_world : world := put KSnapshot ready_snapshot_s empty_world.
Definition restore_csi_run := run mem_handler (CreateVolume driver restore_volume) csi_world.
Definition restored_volume : CsiVolume :=
  mkCsiVolume "pvc-1" 1073741824 [{[ hostnameKey := "w1" ]}].
(** The snapshot's engine is on node w2, the topology answered is that of w1. *)
Lemma CreateVolume_created_witness :
  restore_csi_run.1.2 = Ok restored_volume ∧
  (vs_NodeID ∘ vol_spec) <$> creates KVolume restore_csi_run.1.1 = ["w2"] ∧
  restored_volume = created_volume driver restore_volume.
Proof.
  split; [vm_compute; reflexivity|]. split; [vm_compute; reflexivity|].
  apply (CreateVolume_created driver restore_volume restore_csi_run.1.1 restored_volume).
  exact (exec_of_run mem_handler _ csi_world _ eq_refl).
Defined.

Lemma CreateVolume_repeatable_witness :
  (store_run (CreateVolume driver restore_volume)
     (store_run (CreateVolume driver restore_volume) csi_world).2).1 = Ok restored_volume.
Proof.
  rw (CreateVolume_repeatable driver restore_volume csi_world
        (store_run (CreateVolume driver restore_volume) csi_world).2 restored_volume).
  - reflexivity.
  - apply injective_projections; [vm_compute; reflexivity|reflexivity].
Defined.

Definition published : Engine :=
  mkEngine (newMeta "v-engine" "kdfs") (mkEngineSpec "v" "w1" [])
    (mkEngineStatus "Running" None "10.0.0.1:4420" "nqn:volume-v" "" "" "" []).
Definition publish_world : world := put KEngine published empty_world.
Definition publish_request (mode : AccessMode) : PublishRequest :=
  mkPublish "v" (Some (mkCapability (Some mode))).
Definition publish_run := run mem_handler
  (ControllerPublishVolume driver (publish_request MULTI_NODE_MULTI_WRITER)) publish_world.
Lemma ControllerPublish_context_witness :
  publish_run.1.2 = Ok (nfs_context "v" "10.0.0.1") ∧
  nfs_context "v" "10.0.0.1" !! "volumeId" = Some "v".
Proof.
  split; [vm_compute; reflexivity|].
  apply (ControllerPublish_context driver (publish_request MULTI_NODE_MULTI_WRITER)
           publish_run.1.1 (nfs_context "v" "10.0.0.1")).
  exact (exec_of_run mem_handler _ publish_world _ eq_refl).
Defined.

Definition snapshot_request (ns name : string) : CreateSnapshotRequest :=
  mkCreateSnapshot "v" name {[ volumeSnapshotNamespaceParam := ns ]}.
Definition csi_snapshot_run := run mem_handler
  (CreateSnapshot driver (snapshot_request "" "s")) csi_world.
Lemma CreateSnapshot_named_witness :
  csi_snapshot_run.1.2 = Ok (csi_snapshot ready_snapshot_s) ∧
  creates KSnapshot csi_snapshot_run.1.1 = [new_snapshot driver (snapshot_request "" "s")].
Proof.
  split; [vm_compute; reflexivity|].
  apply (CreateSnapshot_named driver (snapshot_request "" "s") csi_snapshot_run.1.1
           (csi_snapshot ready_snapshot_s)).
  exact (exec_of_run mem_handler _ csi_world _ eq_refl).
Defined.

(** Two snapshots of different namespaces share an internal name. *)
Example internal_name_collision :
  internal_name (snapshot_request "a" "b--c") = internal_name (snapshot_request "a--b" "c").
Proof. reflexivity. Qed.
