(* ===== verification/CsiNode.v ===== *)
(** * internal/csi/node.go and mount.go: the CSI node service

    Staging a volume connects the host to the engine's NVMe-oF subsystem and
    mounts the device, or mounts the engine's NFS export. *)
From S2P Require Import Prelude GoStrings GoNet GoPath K8s Names Network Os Agent CsiController.
From Stdlib Require Import Ascii.

(** ** mount.go *)
Record Mounter := mkMounter {
  mt_Mount : string → string → string → list string → OS (result unit);
  mt_BindMount : string → string → bool → OS (result unit);
  mt_Unmount : string → OS (result unit) }.

Definition mountCommand (name : string) (args : list string) : OS (string * option os_error) :=
  osCommand name args.
Definition mountNFSViaHelper (source target fsType : string) (options : list string)
    : OS (result unit) :=
  mountCommand "mount" ["-t"; fsType; "-o"; Join options ","; source; target]
    ≫= λ r : string * option os_error,
  Ret (match r with
       | (out, Some err) => Err (Wrapf "%s: %w" [TrimSpace out] (OsError err))
       | (_, None) => Ok tt
       end).
Definition exec_Mount (source target fsType : string) (options : list string) : OS (result unit) :=
  _ ←? osMkdirAll target 493;
  if bool_decide (fsType = "nfs") || bool_decide (fsType = "nfs4") then
    mountNFSViaHelper source target fsType options
  else osUnixMount source target fsType 0 (Join options ",").
Definition MS_RDONLY : Z := 1.
Definition MS_BIND : Z := 4096.
Definition exec_BindMount (source target : string) (readonly : bool) : OS (result unit) :=
  _ ←? osMkdirAll target 493;
  osUnixMount source target "" (if readonly then Z.lor MS_BIND MS_RDONLY else MS_BIND) "".
Definition exec_Unmount (target : string) : OS (result unit) := osUnixUnmount target 0.
Definition ExecMounter : Mounter := mkMounter exec_Mount exec_BindMount exec_Unmount.
(** The driver's own mounter, when it was given one. *)
Definition mounter (field : option Mounter) : Mounter := default ExecMounter field.

(** ** node.go: requests *)
Record StageRequest := mkStage {
  sg_StagingTargetPath : string; sg_PublishContext : gmap string string;
  sg_VolumeCapability : option VolumeCapability }.
Record NodePublishRequest := mkNodePublish {
  np_StagingTargetPath : string; np_TargetPath : string;
  np_PublishContext : gmap string string; np_VolumeCapability : option VolumeCapability;
  np_Readonly : bool }.
Definition ctx_get (key : string) (ctx : gmap string string) : string := default "" (ctx !! key).

Definition stageReadonly (cap : option VolumeCapability) : bool :=
  match cap with
  | Some (mkCapability (Some mode)) => bool_decide (mode = MULTI_NODE_READER_ONLY)
  | _ => false
  end.
Definition mountOptions (readonly : bool) : list string :=
  if readonly then ["ro"; "nouuid"] else [].
Definition nfsSource (server export : string) : string :=
  match ParseIP server with
  | Some ip =>
      if bool_decide (To4 ip = None) then "[" +:+ server +:+ "]:" +:+ export
      else server +:+ ":" +:+ export
  | None => server +:+ ":" +:+ export
  end.
Definition nfs_options : list string :=
  ["nfsvers=3"; "port=2049"; "mountport=2049"; "proto=tcp"; "hard"; "nolock"; "noresvport";
   "timeo=10"; "retrans=2"].

(** ** The NVMe subsystems in sysfs *)
Definition subsystems := "/sys/devices/virtual/nvme-subsystem".
Definition fabrics := "/dev/nvme-fabrics".
(** The directory entries nvme0, nvme1 are controllers, nvme0n1 is a namespace. *)
Definition is_controller (name : string) : bool :=
  match strip_prefix "nvme" name with Some rest => negb (Contains rest "n") | None => false end.
Definition is_namespace (name : string) : bool :=
  match strip_prefix "nvme" name with Some rest => Contains rest "n" | None => false end.

(** The NQN of a subsystem directory, when it can be read. *)
Definition subsystem_nqn (entry : string) : OS (option string) :=
  r ← osReadFile (PathJoin [subsystems; entry; "subsysnqn"]);
  Ret (match r with Ok s => Some (TrimSpace s) | Err _ => None end).

Fixpoint controller_live (entry : string) (names : list string) : OS bool :=
  match names with
  | [] => Ret false
  | ns :: names' =>
      if is_controller ns then
        r ← osReadFile (PathJoin [subsystems; entry; ns; "state"]);
        match r with
        | Ok state =>
            if bool_decide (TrimSpace state = "live") then Ret true
            else controller_live entry names'
        | Err _ => controller_live entry names'
        end
      else controller_live entry names'
  end.

Definition ensureBlockDeviceNode (devPath : string) (major minor : Z) : OS (result unit) :=
  let mknod := osMknod devPath (Z.lor mode0660 S_IFBLK) (uint32 major) (uint32 minor) in
  r ← osRemove devPath;
  match r with
  | Ok _ => mknod
  | Err err =>
      if IsNotExist err then mknod
      else if ErrorsIs err ErrPermission || ErrorsIs err ErrInvalid then Ret (Err err)
      else
        _ ←? osRemoveAll devPath;
        mknod
  end.

(** [strconv.Atoi] whose error is ignored: zero when the text is not a number,
    the nearest bound when it does not fit (the scan stops at the overflow). *)
Fixpoint uint_value (s : string) (acc : Z) : option Z :=
  match s with
  | "" => Some acc
  | String c s' =>
      if is_digit c then
        let acc := (acc * 10 + digit_val c)%Z in
        if (2 ^ 64 - 1 <? acc)%Z then Some (2 ^ 64 - 1)%Z else uint_value s' acc
      else None
  end.
Definition atoi_or_bound (s : string) : Z :=
  let clamp sign (s : string) :=
    match s with
    | "" => 0%Z
    | _ => match uint_value s 0 with
           | Some n => Z.max min_int64 (Z.min max_int64 (sign * n))
           | None => 0%Z
           end
    end in
  match s with
  | String "-" s' => clamp (-1)%Z s'
  | String "+" s' => clamp 1%Z s'
  | _ => clamp 1%Z s
  end.
(** [strings.SplitN(s, ":", 2)] *)
Definition split_colon (s : string) : option (string * string) := cut_byte ":" s.

(** The first namespace whose numbers can be read gets its device node. *)
Fixpoint namespace_device (entry : string) (names : list string) : OS (result (option string)) :=
  match names with
  | [] => Ret (Ok None)
  | ns :: names' =>
      if is_namespace ns then
        r ← osReadFile (PathJoin [subsystems; entry; ns; "dev"]);
        match r with
        | Err _ => namespace_device entry names'
        | Ok majMin =>
            match split_colon (TrimSpace majMin) with
            | None => namespace_device entry names'
            | Some (major, minor) =>
                _ ←? ensureBlockDeviceNode (PathJoin ["/dev"; ns]) (atoi_or_bound major)
                       (atoi_or_bound minor);
                Ret (Ok (Some (PathJoin ["/dev"; ns])))
            end
        end
      else namespace_device entry names'
  end.

(** [findExistingNVMEDevice]: the first subsystem of the NQN decides, unless
    its directory cannot be read or it has no namespace. *)
Fixpoint find_device (nqn : string) (entries : list string) : OS (result string) :=
  match entries with
  | [] => Ret (Err (Errorf "no existing NVMe device for NQN %s" [nqn]))
  | entry :: entries' =>
      o ← subsystem_nqn entry;
      if bool_decide (o = Some nqn) then
        r ← osReadDir (PathJoin [subsystems; entry]);
        match r with
        | Err _ => find_device nqn entries'
        | Ok nsEntries =>
            live ← controller_live entry nsEntries;
            if negb (live : bool) then
              Ret (Err (Errorf "NVMe controller for %s is not live" [nqn]))
            else
              d ←? namespace_device entry nsEntries;
              match d with
              | Some devPath => Ret (Ok devPath)
              | None => find_device nqn entries'
              end
        end
      else find_device nqn entries'
  end.
Definition findExistingNVMEDevice (nqn : string) : OS (result string) :=
  entries ←? osReadDir subsystems;
  find_device nqn entries.

(** [clearNVMeSubsystem]: every controller of every subsystem of the NQN. *)
Fixpoint delete_controllers (entry : string) (names : list string) : OS unit :=
  match names with
  | [] => Ret tt
  | ns :: names' =>
      if is_controller ns then
        _ ← osWriteFile (PathJoin [subsystems; entry; ns; "delete_controller"]) "1" 128;
        delete_controllers entry names'
      else delete_controllers entry names'
  end.
Fixpoint clear_subsystems (nqn : string) (entries : list string) : OS unit :=
  match entries with
  | [] => Ret tt
  | entry :: entries' =>
      o ← subsystem_nqn entry;
      if bool_decide (o = Some nqn) then
        r ← osReadDir (PathJoin [subsystems; entry]);
        match r with
        | Err _ => clear_subsystems nqn entries'
        | Ok nsEntries =>
            _ ← delete_controllers entry nsEntries;
            clear_subsystems nqn entries'
        end
      else clear_subsystems nqn entries'
  end.
Definition clearNVMeSubsystem (nqn : string) : OS unit :=
  r ← osReadDir subsystems;
  match r with
  | Err _ => Ret tt
  | Ok entries => clear_subsystems nqn entries
  end.

(** ** Staging over NVMe-oF *)
Definition sleep_seconds (n : Z) : OS unit := osSleep (n * 1000000000)%Z.

(** A fresh connection, while an old one is being cleaned up: three attempts. *)
Definition in_progress (err : error) : bool :=
  match err with OsError e => Contains (oe_text e) "operation already in progress" | _ => false end.
Fixpoint connect (nqn connStr : string) (n : nat) : OS (result unit) :=
  match n with
  | 0 => Ret (Ok tt)
  | S n' =>
      r ← osWriteFile fabrics connStr 384;
      match r with
      | Ok _ => Ret (Ok tt)
      | Err err =>
          if in_progress err && (0 <? n')%nat then
            _ ← clearNVMeSubsystem nqn;
            _ ← sleep_seconds 3;
            connect nqn connStr n'
          else Ret (Err (Wrapf "write to /dev/nvme-fabrics: %w" [] err))
      end
  end.
(** The device of the NQN, looked for once a second; [""] when it never came. *)
Fixpoint await_device (nqn : string) (n : nat) : OS string :=
  match n with
  | 0 => Ret ""
  | S n' =>
      r ← findExistingNVMEDevice nqn;
      match r with
      | Ok dev => Ret dev
      | Err _ => _ ← sleep_seconds 1; await_device nqn n'
      end
  end.

Definition connString (addr port nqn : string) : string :=
  "transport=tcp,traddr=" +:+ addr +:+ ",trsvcid=" +:+ port +:+ ",nqn=" +:+ nqn.

Section staging.
Context `{Environ} (m : Mounter) (d : Driver).

Definition ensureNVMeHostNQN : OS (result unit) :=
  if bool_decide (TrimSpace (d_NodeID d) = "") then Ret (Err (Errorf "node ID is required" []))
  else osWriteFile "/etc/nvme/hostnqn" (HostNQN (d_NodeID d) +:+ String newline "") 420.

Definition mount_device (device targetPath : string) (readonly : bool) : OS (result unit) :=
  mt_Mount m device targetPath "xfs" (mountOptions readonly).

(** The device is there: mount it, formatting it when it may be written. *)
Definition mount_new (device targetPath : string) (readonly : bool) : OS (result unit) :=
  _ ← mt_Unmount m targetPath;
  _ ← osRemoveAll targetPath;
  if readonly then mount_device device targetPath readonly
  else
    EnsureMounted device (mount_device device targetPath readonly) ExecRunner
      ≫= λ f : bool * option error,
    Ret (match f.2 with Some err => Err err | None => Ok tt end).

Definition connect_and_mount (targetPath addr port nqn : string) (readonly : bool)
    : OS (result unit) :=
  _ ←? connect nqn (connString addr port nqn) 3;
  device ← await_device nqn 30;
  _ ←? wrapping "nvme device %s did not appear after connect: %w" [device] (osStat device);
  mount_new device targetPath readonly.

Definition ensureNVMeStaged (targetPath endpoint nqn : string) (readonly : bool)
    : OS (result unit) :=
  match SplitEndpoint endpoint with
  | Err err => Ret (Err (Wrapf "invalid endpoint %q: %w" [endpoint] err))
  | Ok (addr, port) =>
      if negb (HasPrefix nqn "nqn") then
        Ret (Err (Errorf "invalid NQN: must start with nqn" []))
      else
        _ ←? wrapping "NVMe-oF not available: /dev/nvme-fabrics missing: %w" [] (osStat fabrics);
        _ ←? wrapping "ensure host NQN: %w" [] ensureNVMeHostNQN;
        e ← findExistingNVMEDevice nqn;
        match e with
        | Ok device =>
            r ← mount_device device targetPath readonly;
            match r with
            | Ok _ => Ret (Ok tt)
            | Err _ =>
                _ ← clearNVMeSubsystem nqn;
                _ ← sleep_seconds 3;
                connect_and_mount targetPath addr port nqn readonly
            end
        | Err _ => connect_and_mount targetPath addr port nqn readonly
        end
  end.

(** ** The requests *)
Definition stageNFS (req : StageRequest) : OS (result unit) :=
  let server := ctx_get "server" (sg_PublishContext req) in
  let export := ctx_get "export" (sg_PublishContext req) in
  if bool_decide (server = "") then Ret (Err (Errorf "publish context requires server" []))
  else
    _ ← osMkdirAll (sg_StagingTargetPath req) 493;
    wrapping "mount nfs: %w" []
      (mt_Mount m (nfsSource server export) (sg_StagingTargetPath req) "nfs" nfs_options).
Definition stageNVMe (req : StageRequest) : OS (result unit) :=
  let endpoint := ctx_get "endpoint" (sg_PublishContext req) in
  let nqn := ctx_get "nqn" (sg_PublishContext req) in
  if bool_decide (endpoint = "") || bool_decide (nqn = "") then
    Ret (Err (Errorf "publish context requires endpoint and nqn" []))
  else
    wrapping "stage: %w" []
      (ensureNVMeStaged (sg_StagingTargetPath req) endpoint nqn
         (stageReadonly (sg_VolumeCapability req))).
Definition NodeStageVolume (req : StageRequest) : OS (result unit) :=
  if bool_decide (ctx_get "protocol" (sg_PublishContext req) = "nfs") then stageNFS req
  else stageNVMe req.

Definition NodePublishVolume (req : NodePublishRequest) : OS (result unit) :=
  let endpoint := ctx_get "endpoint" (np_PublishContext req) in
  let nqn := ctx_get "nqn" (np_PublishContext req) in
  let bind := mt_BindMount m (np_StagingTargetPath req) (np_TargetPath req) (np_Readonly req) in
  if bool_decide (endpoint ≠ "") && bool_decide (nqn ≠ "") then
    _ ←? wrapping "publish: ensureNVMeStaged failed: %w" []
           (ensureNVMeStaged (np_StagingTargetPath req) endpoint nqn
              (np_Readonly req || stageReadonly (np_VolumeCapability req)));
    bind
  else bind.
(** A failing unmount is only logged. *)
Definition NodeUnpublishVolume (TargetPath : string) : OS (result unit) :=
  _ ← mt_Unmount m TargetPath; Ret (Ok tt).
Definition NodeUnstageVolume (StagingTargetPath : string) : OS (result unit) :=
  _ ← mt_Unmount m StagingTargetPath; Ret (Ok tt).
End staging.

(** ** Lemmas *)

(** A call that runs no command, does not sleep, touches no mount and does not
    connect. *)
Definition connect_of (e : event os) : option string :=
  match projT1 e with
  | WriteFile path data perm =>
      if bool_decide (path = fabrics) && (perm =? 384)%Z then Some data else None
  | _ => None
  end.
Definition connects : os_trace → list string := omap connect_of.
Definition inert (e : event os) : bool :=
  match projT1 e with
  | Command _ _ | Sleep _ | UnixMount _ _ _ _ _ | UnixUnmount _ _ => false
  | WriteFile _ _ perm => negb (perm =? 384)%Z
  | _ => true
  end.
Definition all_inert {A} (p : OS A) : Prop := safe (λ e, inert e = true) p (λ _, True).

Lemma all_inert_ret {A} (a : A) : all_inert (Ret a).
Proof. by apply safe_ret. Qed.
Lemma all_inert_bind {A B} (p : OS A) (f : A → OS B) :
  all_inert p → (∀ a, all_inert (f a)) → all_inert (p ≫= f).
Proof. intros Hp Hf. apply safe_bind. eapply safe_mono; [|exact Hp]. intros a _. apply Hf. Qed.
Lemma all_inert_bind_ok {A B} (p : OS (result A)) (f : A → OS (result B)) :
  all_inert p → (∀ a, all_inert (f a)) → all_inert (bind_ok p f).
Proof.
  intros Hp Hf. apply all_inert_bind; [done|]. intros [a|e]; [apply Hf|apply all_inert_ret].
Qed.
Lemma all_inert_ask c : (∀ r, inert (ev (S:=os) c r) = true) → all_inert (ask (S:=os) c).
Proof. intros H r. split; [by repeat constructor|done]. Qed.

Ltac inert_step :=
  lazymatch goal with
  | |- all_inert (Ret _) => apply all_inert_ret
  | |- all_inert (ask _) => apply all_inert_ask; done
  | |- all_inert (mbind _ _) => apply all_inert_bind; [|intros ?]
  | |- all_inert (bind_ok _ _) => apply all_inert_bind_ok; [|intros ?]
  | |- all_inert (match ?x with _ => _ end) => destruct x
  | |- all_inert (osReadFile _) => unfold osReadFile
  | |- all_inert (osReadDir _) => unfold osReadDir
  | |- all_inert (osWriteFile _ _ _) => unfold osWriteFile
  | |- all_inert (osRemove _) => unfold osRemove
  | |- all_inert (osRemoveAll _) => unfold osRemoveAll
  | |- all_inert (osMknod _ _ _ _) => unfold osMknod
  | |- all_inert (osStat _) => unfold osStat
  | |- _ => auto
  end.
Lemma controller_live_inert entry names : all_inert (controller_live entry names).
Proof. induction names; cbn [controller_live]; repeat inert_step. Qed.
Lemma namespace_device_inert entry names : all_inert (namespace_device entry names).
Proof.
  induction names; cbn [namespace_device]; unfold ensureBlockDeviceNode; cbv zeta.
  all: repeat inert_step.
Qed.
Lemma subsystem_nqn_inert entry : all_inert (subsystem_nqn entry).
Proof. unfold subsystem_nqn. repeat inert_step. Qed.
Lemma find_inert nqn : all_inert (findExistingNVMEDevice nqn).
Proof.
  unfold findExistingNVMEDevice. inert_step; [repeat inert_step|]. rename a into entries.
  induction entries as [|entry entries IH]; cbn [find_device]; [repeat inert_step|].
  inert_step; [apply subsystem_nqn_inert|]. inert_step; [|done].
  inert_step; [repeat inert_step|]. inert_step; [|done].
  inert_step; [apply controller_live_inert|]. inert_step; [repeat inert_step|].
  inert_step; [apply namespace_device_inert|]. by repeat inert_step.
Qed.
Lemma clear_inert nqn : all_inert (clearNVMeSubsystem nqn).
Proof.
  unfold clearNVMeSubsystem. inert_step; [repeat inert_step|].
  destruct a as [entries|err]; [|repeat inert_step].
  induction entries as [|entry entries IH]; cbn [clear_subsystems]; [repeat inert_step|].
  inert_step; [apply subsystem_nqn_inert|]. inert_step; [|done].
  inert_step; [repeat inert_step|].
  match goal with |- all_inert (match ?x with _ => _ end) => destruct x as [names|err] end; [|done].
  inert_step; [|done].
  induction names; cbn [delete_controllers]; repeat inert_step.
Qed.

Definition os_sleep_of (e : event os) : option Z :=
  match projT1 e with Sleep d => Some d | _ => None end.
Definition os_slept (tr : os_trace) : Z := foldr Z.add 0%Z (omap os_sleep_of tr).
Definition mount_of (e : event os) : option (string * string) :=
  match projT1 e with UnixMount source target _ _ _ => Some (source, target) | _ => None end.
Definition mounts : os_trace → list (string * string) := omap mount_of.
Lemma os_slept_app tr1 tr2 : os_slept (tr1 ++ tr2) = (os_slept tr1 + os_slept tr2)%Z.
Proof.
  unfold os_slept. rw omap_app foldr_app. generalize (omap os_sleep_of tr1) as l.
  intros l. induction l; cbn; lia.
Qed.
Lemma mounts_app tr1 tr2 : mounts (tr1 ++ tr2) = mounts tr1 ++ mounts tr2.
Proof. apply omap_app. Qed.
Lemma connects_app tr1 tr2 : connects (tr1 ++ tr2) = connects tr1 ++ connects tr2.
Proof. apply omap_app. Qed.

(** Nothing but waiting, at most for [z] seconds, and the connections [cs]. *)
Definition waits (z : Z) (cs : list string) (tr : os_trace) : Prop :=
  commands tr = [] ∧ mounts tr = [] ∧ (os_slept tr ≤ z * 1000000000)%Z ∧ connects tr = cs.
Lemma waits_app z1 z2 cs1 cs2 tr1 tr2 :
  waits z1 cs1 tr1 → waits z2 cs2 tr2 → waits (z1 + z2) (cs1 ++ cs2) (tr1 ++ tr2).
Proof.
  intros (Hc1 & Hm1 & Hs1 & <-) (Hc2 & Hm2 & Hs2 & <-). unfold waits.
  rw commands_app mounts_app os_slept_app connects_app Hc1 Hc2 Hm1 Hm2. split_and!; [done..|lia|done].
Qed.
Lemma waits_mono z z' cs tr : (z ≤ z')%Z → waits z cs tr → waits z' cs tr.
Proof. intros Hz (? & ? & ? & ?). split_and!; [done..|lia|done]. Qed.
Lemma inert_waits tr : Forall (λ e, inert e = true) tr → waits 0 [] tr.
Proof.
  induction 1 as [|[c r] tr Hc _ (H1 & H2 & H3 & H4)]; [done|].
  unfold waits, commands, mounts, os_slept, connects in *. destruct c; try done.
  cbn in *. apply negb_true_iff in Hc. unfold connect_of. cbn. rw Hc andb_false_r. by split_and!.
Qed.
Lemma all_inert_wp {A} (p : OS A) : all_inert p → wp p (λ tr _, waits 0 [] tr).
Proof. intros H. eapply wp_mono; [|exact H]. intros tr a [Hf _]. by apply inert_waits. Qed.
Lemma sleep_seconds_wp n Q :
  (∀ tr, waits n [] tr → Q tr tt) → wp (sleep_seconds n) Q.
Proof. intros H. apply osSleep_wp. intros r. apply H. split_and!; [done..| |done]. cbn. lia. Qed.

(** Connecting is tried at most [n] times, three seconds apart. *)
Lemma connect_wp nqn connStr n :
  wp (connect nqn connStr n) (λ tr r,
    ∃ k, (k ≤ n)%nat ∧ waits (3 * (Z.of_nat n - 1) `max` 0) (replicate k connStr) tr ∧
    (is_ok r = true → n ≠ 0%nat → ev (S:=os) (WriteFile fabrics connStr 384) (inr tt) ∈ tr)).
Proof.
  induction n as [|n IH]; cbn [connect].
  { os_steps. exists 0%nat. by split_and!. }
  assert (∀ r, waits 0 [connStr] [ev (S:=os) (WriteFile fabrics connStr 384) r]) as Hw by done.
  apply wp_bind_intro, osWriteFile_wp; [intros e|intros []]; cbn beta iota.
  - case_match eqn:Hin.
    + apply andb_prop in Hin as [_ Hn%Nat.ltb_lt].
      apply wp_bind_intro. eapply wp_mono; [|apply all_inert_wp, clear_inert].
      intros tr1 [] H1. apply wp_bind_intro, sleep_seconds_wp. intros tr2 H2.
      eapply wp_mono; [|exact IH]. intros tr3 r (k & Hk & H3 & Hok).
      exists (S k). split; [lia|]. split.
      * eapply waits_mono; [|exact (waits_app _ _ _ _ _ _ (Hw _)
          (waits_app _ _ _ _ _ _ H1 (waits_app _ _ _ _ _ _ H2 H3)))]. lia.
      * intros Hr _. rw !elem_of_app. right; right; right. apply Hok; [done|lia].
    + os_steps. exists 1%nat. split; [lia|]. split; [|done].
      eapply waits_mono; [|apply Hw]. lia.
  - os_steps. exists 1%nat. split; [lia|]. split; [|intros; in_trace].
    eapply waits_mono; [|apply Hw]. lia.
Qed.

(** ** What was found *)

(** One of the names is a controller of the subsystem, and was read to be live. *)
Definition live_in (entry : string) (names : list string) (tr : os_trace) : Prop :=
  ∃ ctl state, ctl ∈ names ∧ is_controller ctl = true ∧
    ev (S:=os) (ReadFile (PathJoin [subsystems; entry; ctl; "state"])) (inr state) ∈ tr ∧
    TrimSpace state = "live".
(** The device is that of a namespace among the names: its node was made as a
    block device with the numbers that the subsystem gives for that namespace. *)
Definition node_of (entry : string) (names : list string) (dev : string) (tr : os_trace) : Prop :=
  ∃ ns text major minor, ns ∈ names ∧ is_namespace ns = true ∧ dev = PathJoin ["/dev"; ns] ∧
    ev (S:=os) (ReadFile (PathJoin [subsystems; entry; ns; "dev"])) (inr text) ∈ tr ∧
    split_colon (TrimSpace text) = Some (major, minor) ∧
    ev (S:=os) (Mknod dev (Z.lor mode0660 S_IFBLK) (uint32 (atoi_or_bound major)) (uint32 (atoi_or_bound minor)))
      (inr tt) ∈ tr.
(** The device [dev] is that of a namespace of a subsystem whose NQN is [nqn] and
    of which a controller is live. *)
Definition found (nqn dev : string) (tr : os_trace) : Prop :=
  ∃ entry text names,
    ev (S:=os) (ReadFile (PathJoin [subsystems; entry; "subsysnqn"])) (inr text) ∈ tr ∧
    TrimSpace text = nqn ∧
    ev (S:=os) (ReadDir (PathJoin [subsystems; entry])) (inr names) ∈ tr ∧
    live_in entry names tr ∧ node_of entry names dev tr.
Lemma live_in_app entry names tr1 tr2 :
  live_in entry names tr1 ∨ live_in entry names tr2 → live_in entry names (tr1 ++ tr2).
Proof. intros [(a & b & H)|(a & b & H)]; exists a, b; rw !elem_of_app; tauto. Qed.
Lemma live_in_sub entry names names' tr : names ⊆ names' → live_in entry names tr → live_in entry names' tr.
Proof. intros Hs (a & b & Ha & H). exists a, b. split; [set_solver|done]. Qed.
Lemma node_of_app entry names dev tr1 tr2 :
  node_of entry names dev tr1 ∨ node_of entry names dev tr2 → node_of entry names dev (tr1 ++ tr2).
Proof. intros [(a & b & c & d & H)|(a & b & c & d & H)]; exists a, b, c, d; rw !elem_of_app; tauto. Qed.
Lemma node_of_sub entry names names' dev tr : names ⊆ names' → node_of entry names dev tr → node_of entry names' dev tr.
Proof. intros Hs (a & b & c & d & Ha & H). exists a, b, c, d. split; [set_solver|done]. Qed.
Lemma found_app nqn dev tr1 tr2 :
  found nqn dev tr1 ∨ found nqn dev tr2 → found nqn dev (tr1 ++ tr2).
Proof.
  intros [(a & b & c & H1 & H2 & H3 & H4 & H5)|(a & b & c & H1 & H2 & H3 & H4 & H5)]; exists a, b, c;
    rw !elem_of_app; split_and!; auto using live_in_app, node_of_app.
Qed.

Lemma controller_live_wp entry names :
  wp (controller_live entry names) (λ tr b, b = true → live_in entry names tr).
Proof.
  induction names as [|ns names IH]; cbn [controller_live]; [by os_steps|].
  assert (∀ tr0, wp (controller_live entry names) (λ tr b, b = true → live_in entry (ns :: names) (tr0 ++ tr))) as IH'.
  { intros tr0. eapply wp_mono; [|exact IH]. intros tr b H Hb. apply live_in_app. right.
    apply (live_in_sub entry names); [set_solver|auto]. }
  destruct (is_controller ns) eqn:Hc; [|exact (IH' [])].
  apply wp_bind_intro, osReadFile_wp; [intros e; apply IH'|intros state]; cbn beta iota.
  case_bool_decide; [|apply IH']. os_steps. intros _.
  eexists ns, state. split; [set_solver|]. split; [done|]. split; [in_trace|done].
Qed.
Lemma namespace_device_wp entry names :
  wp (namespace_device entry names) (λ tr r, ∀ dev, r = Ok (Some dev) → node_of entry names dev tr).
Proof.
  induction names as [|ns names IH]; cbn [namespace_device]; [by os_steps|].
  assert (∀ tr0, wp (namespace_device entry names) (λ tr r, ∀ dev, r = Ok (Some dev) →
    node_of entry (ns :: names) dev (tr0 ++ tr))) as IH'.
  { intros tr0. eapply wp_mono; [|exact IH]. intros tr r H dev Hr. apply node_of_app. right.
    apply (node_of_sub entry names); [set_solver|auto]. }
  destruct (is_namespace ns) eqn:Hn; [|exact (IH' [])].
  apply wp_bind_intro, osReadFile_wp; [intros e; apply IH'|intros text]; cbn beta iota.
  destruct (split_colon (TrimSpace text)) as [[major minor]|] eqn:Hsplit; [|apply IH'].
  unfold ensureBlockDeviceNode. cbv zeta.
  os_steps; try done; intros dev [= <-];
    repeat match goal with u : unit |- _ => destruct u end;
    exists ns, text, major, minor; (split; [set_solver|]); (split; [done|]); (split; [done|]); cbn [app];
    (split; [in_trace|]); (split; [done|]); in_trace.
Qed.

Lemma find_device_wp nqn entries :
  wp (find_device nqn entries) (λ tr r, ∀ dev, r = Ok dev → found nqn dev tr).
Proof.
  induction entries as [|entry entries IH]; cbn [find_device]; [by os_steps|].
  assert (∀ tr0, wp (find_device nqn entries) (λ tr r, ∀ dev, r = Ok dev →
    found nqn dev (tr0 ++ tr))) as IH'.
  { intros tr0. eapply wp_mono; [|exact IH]. intros tr r H dev Hr. apply found_app. auto. }
  unfold subsystem_nqn.
  apply wp_bind_intro, wp_bind_intro, osReadFile_wp; [intros e; exact (IH' [_])|intros text].
  apply wp_ret_intro. case_bool_decide as Hnqn; [|exact (IH' [_])]. injection Hnqn as Hnqn.
  apply wp_bind_intro, osReadDir_wp; [intros e; exact (IH' [_; _])|intros names]; cbn beta iota.
  apply wp_bind_intro. eapply wp_mono; [|apply controller_live_wp]. intros tr1 live Hlive.
  destruct live; cbn [negb]; [|by os_steps].
  apply wp_bind_ok. eapply wp_mono; [|apply namespace_device_wp]. intros tr2 r Hr.
  destruct r as [[dev|]|e]; cbn beta iota; [|eapply wp_mono; [|exact IH]|done].
  - os_steps. intros dev' [= <-]. exists entry, text, names. split; [in_trace|]. split; [done|]. split; [in_trace|].
    split; [do 2 (apply live_in_app; right)|do 3 (apply node_of_app; right)]; [apply live_in_app; left; auto|].
    rw ?app_nil_r. auto.
  - intros tr r H dev Hdev. do 4 (apply found_app; right). auto.
Qed.
Lemma find_wp nqn :
  wp (findExistingNVMEDevice nqn) (λ tr r,
    waits 0 [] tr ∧ ∀ dev, r = Ok dev → found nqn dev tr).
Proof.
  apply wp_and; [apply all_inert_wp, find_inert|]. unfold findExistingNVMEDevice.
  apply wp_bind_ok, osReadDir_wp; [done|intros entries]. cbn beta iota.
  eapply wp_mono; [|apply find_device_wp]. intros tr r H dev Hr. apply found_app. auto.
Qed.

Lemma await_device_wp nqn n :
  wp (await_device nqn n) (λ tr dev,
    waits (Z.of_nat n) [] tr ∧ (dev = "" ∨ found nqn dev tr)).
Proof.
  induction n as [|n IH]; cbn [await_device]; [os_steps; split; [done|by left]|].
  apply wp_bind_intro. eapply wp_mono; [|apply find_wp]. intros tr1 r [H1 Hf].
  destruct r as [dev|e].
  - os_steps. rw app_nil_r. split; [|auto]. eapply waits_mono; [|exact H1]. lia.
  - apply wp_bind_intro, sleep_seconds_wp. intros tr2 H2.
    eapply wp_mono; [|exact IH]. intros tr3 dev [H3 Hdev]. split.
    + eapply waits_mono; [|exact (waits_app _ _ _ _ _ _ H1 (waits_app _ _ _ _ _ _ H2 H3))]. lia.
    + destruct Hdev; [by left|]. right. do 2 (apply found_app; right). done.
Qed.

(** ** Mounting *)
Definition mount_dir (target : string) (r : os_error + unit) : event os :=
  ev (S:=os) (MkdirAll target 493) r.
Definition mount_xfs (dev target : string) (readonly : bool) (r : os_error + unit) : event os :=
  ev (S:=os) (UnixMount dev target "xfs" 0 (Join (mountOptions readonly) ",")) r.
(** One attempt to mount the device, with the error it met. *)
Inductive attempt (dev target : string) (readonly : bool) : os_trace → result unit → Prop :=
  | attempt_no_target e :
      attempt dev target readonly [mount_dir target (inl e)] (Err (OsError e))
  | attempt_refused e :
      attempt dev target readonly
        [mount_dir target (inr tt); mount_xfs dev target readonly (inl e)] (Err (OsError e))
  | attempt_mounted :
      attempt dev target readonly
        [mount_dir target (inr tt); mount_xfs dev target readonly (inr tt)] (Ok tt).
(** The attempts at mounting a device: for writing, the device is formatted
    between a first attempt that failed and a second one. *)
Inductive mounting (dev target : string) (readonly : bool) : os_trace → result unit → Prop :=
  | mounting_once tr r :
      readonly = true ∨ is_ok r = true →
      attempt dev target readonly tr r → mounting dev target readonly tr r
  | mounting_unformatted tr err out e :
      readonly = false → attempt dev target readonly tr (Err err) →
      mounting dev target readonly (tr ++ [mkfs dev out (Some e)])
        (Err (Wrapf "mkfs.xfs %s failed: %w output=%s" [dev; out] (OsError e)))
  | mounting_formatted tr1 err out tr2 r :
      readonly = false → attempt dev target readonly tr1 (Err err) →
      attempt dev target readonly tr2 r →
      mounting dev target readonly (tr1 ++ mkfs dev out None :: tr2)
        (match r with
         | Ok _ => Ok tt
         | Err e => Err (Wrapf "mount %s after mkfs failed: %w" [dev] e)
         end).

Lemma mount_device_wp dev target readonly :
  wp (mount_device ExecMounter dev target readonly) (attempt dev target readonly).
Proof.
  unfold mount_device, ExecMounter, exec_Mount. cbn [mt_Mount].
  apply wp_bind_ok, osMkdirAll_wp; [intros e; constructor|intros []].
  cbn beta iota. rw !bool_decide_eq_false_2; [|done..]. cbn [orb].
  apply osUnixMount_wp; [intros e|intros []]; constructor.
Qed.
(** The target is unmounted and removed, then the device is mounted. *)
Definition cleanup (target : string) (u v : os_error + unit) : os_trace :=
  [ev (S:=os) (UnixUnmount target 0) u; ev (S:=os) (RemoveAll target) v].
Lemma mount_new_wp dev target readonly :
  wp (mount_new ExecMounter dev target readonly) (λ tr r,
    ∃ u v tr', tr = cleanup target u v ++ tr' ∧ mounting dev target readonly tr' r).
Proof.
  unfold mount_new, ExecMounter at 1, exec_Unmount. cbn [mt_Unmount].
  assert (∀ u v p, wp p (mounting dev target readonly) →
    wp p (λ tr r, ∃ u0 v0 tr', cleanup target u v ++ tr = cleanup target u0 v0 ++ tr' ∧
      mounting dev target readonly tr' r)) as Hpost.
  { intros u v p. apply wp_mono. intros tr r H. by exists u, v, tr. }
  assert (wp (if readonly then mount_device ExecMounter dev target readonly
    else EnsureMounted dev (mount_device ExecMounter dev target readonly) ExecRunner
      ≫= λ f : bool * option error,
    Ret (match f.2 with Some err => Err err | None => Ok tt end)) (mounting dev target readonly))
    as Hm.
  { destruct readonly.
    - eapply wp_mono; [|apply mount_device_wp]. intros tr r H. constructor; auto.
    - apply wp_bind_intro. unfold EnsureMounted.
      apply wp_bind_intro. eapply wp_mono; [|apply mount_device_wp]. intros tr1 r1 H1.
      destruct r1 as [[]|err]; cbn beta iota.
      { do 2 apply wp_ret_intro. rw !app_nil_r. constructor; auto. }
      apply wp_bind_intro, Format_wp; [intros out|intros out e]; cbn beta iota.
      + apply wp_bind_intro. eapply wp_mono; [|apply mount_device_wp]. intros tr2 r2 H2.
        pose proof (mounting_formatted _ _ _ tr1 err out tr2 r2 eq_refl H1 H2) as Hm.
        destruct r2 as [[]|e2]; cbn beta iota; do 2 apply wp_ret_intro; by rw !app_nil_r.
      + do 2 apply wp_ret_intro. rw !app_nil_r. by eapply mounting_unformatted. }
  apply wp_bind_intro, osUnixUnmount_wp; [intros eu|intros []]; cbn beta iota;
    apply wp_bind_intro, osRemoveAll_wp; [intros ev|intros []|intros ev|intros []]; cbn beta iota;
    apply (Hpost _ _ _ Hm).
Qed.

(** ** Staging *)

(** What connecting anew and mounting does: it waits for the device at most 36
    seconds, connecting with one connection string, up to three times; then
    it mounts a device that was found. *)
Definition connected (target addr port nqn : string) (readonly : bool)
    (tr : os_trace) (r : result unit) : Prop :=
  ∃ k tr1, (k ≤ 3)%nat ∧ waits 36 (replicate k (connString addr port nqn)) tr1 ∧
    (tr = tr1 ∧ is_ok r = false ∨
     ∃ dev u v tr2 z, tr = tr1 ++ cleanup target u v ++ tr2 ∧
       (dev = "" ∨ found nqn dev tr1) ∧ ev (S:=os) (Stat dev) (inr z) ∈ tr1 ∧
       mounting dev target readonly tr2 r).
Lemma connect_and_mount_wp target addr port nqn readonly :
  wp (connect_and_mount ExecMounter target addr port nqn readonly)
     (connected target addr port nqn readonly).
Proof.
  unfold connect_and_mount.
  apply wp_bind_ok. eapply wp_mono; [|apply connect_wp]. intros tr1 r (k & Hk & H1 & _).
  destruct r as [[]|e]; cbn beta iota.
  - apply wp_bind_intro. eapply wp_mono; [|apply await_device_wp]. intros tr2 dev [H2 Hdev].
    pose proof (waits_app _ _ _ _ _ _ H1 H2) as H12. rw app_nil_r in H12.
    apply wp_bind_ok, wrapping_wp, osStat_wp; [intros e|intros z]; cbn beta iota.
    + exists k, ((tr1 ++ tr2) ++ [ev (S:=os) (Stat dev) (inl e)]). split; [done|].
      split; [|left; by rw app_assoc].
      pose proof (waits_app _ 0 _ [] _ [ev (S:=os) (Stat dev) (inl e)] H12) as Hw.
      rw app_nil_r in Hw. by apply Hw.
    + eapply wp_mono; [|apply mount_new_wp]. intros tr r (u & v & tr' & -> & Hm).
      exists k, ((tr1 ++ tr2) ++ [ev (S:=os) (Stat dev) (inr z)]). split; [done|]. split.
      { pose proof (waits_app _ 0 _ [] _ [ev (S:=os) (Stat dev) (inr z)] H12) as Hw.
        rw app_nil_r in Hw. by apply Hw. }
      right. exists dev, u, v, tr', z. rw !app_assoc. split; [done|].
      split; [destruct Hdev; [by left|right; apply found_app; left; apply found_app; by right]|].
      split; [|done]. rw !elem_of_app. right. in_trace.
  - exists k, tr1. split; [done|]. split; [|by left].
    eapply waits_mono; [|exact H1]. lia.
Qed.


Section stage_specs.
Context `{Environ} (d : Driver).

(** The host NQN of the node was written. *)
Definition hostnqn (r : os_error + unit) : event os :=
  ev (S:=os) (WriteFile "/etc/nvme/hostnqn" (HostNQN (d_NodeID d) +:+ String newline "") 420) r.

(** The three courses staging can take: it gives up before anything happened;
    the volume is connected already and is mounted; or it is connected (again,
    after a mount that failed) and mounted. *)
Inductive staging (target addr port nqn : string) (readonly : bool)
    : os_trace → result unit → Prop :=
  | staging_refused tr err :
      waits 0 [] tr → staging target addr port nqn readonly tr (Err err)
  | staging_existing z tr1 dev tr2 :
      waits 0 [] tr1 → found nqn dev tr1 → attempt dev target readonly tr2 (Ok tt) →
      staging target addr port nqn readonly
        (ev (S:=os) (Stat fabrics) (inr z) :: hostnqn (inr tt) :: tr1 ++ tr2) (Ok tt)
  | staging_connected z tr1 tr2 r :
      waits 0 [] tr1 → connected target addr port nqn readonly tr2 r →
      staging target addr port nqn readonly
        (ev (S:=os) (Stat fabrics) (inr z) :: hostnqn (inr tt) :: tr1 ++ tr2) r
  | staging_reconnected z tr1 dev trf err trw tr2 r :
      waits 0 [] tr1 → found nqn dev tr1 → attempt dev target readonly trf (Err err) →
      waits 3 [] trw → connected target addr port nqn readonly tr2 r →
      staging target addr port nqn readonly
        (ev (S:=os) (Stat fabrics) (inr z) :: hostnqn (inr tt) :: tr1 ++ trf ++ trw ++ tr2) r.

Lemma ensureNVMeStaged_wp target endpoint addr port nqn readonly :
  SplitEndpoint endpoint = Ok (addr, port) →
  wp (ensureNVMeStaged ExecMounter d target endpoint nqn readonly)
     (staging target addr port nqn readonly).
Proof.
  intros Hep. unfold ensureNVMeStaged, ensureNVMeHostNQN. rw Hep.
  case_match eqn:Hnqn; [apply wp_ret_intro; by constructor|].
  apply wp_bind_ok, wrapping_wp, osStat_wp; [intros e; by constructor|intros z]; cbn beta iota.
  apply wp_bind_ok, wrapping_wp.
  case_bool_decide as Hid; [apply wp_ret_intro; by constructor|].
  apply osWriteFile_wp; [intros e; by constructor|intros []]; cbn beta iota.
  apply wp_bind_intro. eapply wp_mono; [|apply find_wp]. intros tr1 r1 [H1 Hf].
  destruct r1 as [dev|e]; cbn beta iota.
  - apply wp_bind_intro. eapply wp_mono; [|apply mount_device_wp]. intros trf rf Ha.
    destruct rf as [[]|err]; cbn beta iota.
    + apply wp_ret_intro. rw app_nil_r. by apply (staging_existing _ _ _ _ _ z tr1 dev trf); auto.
    + apply wp_bind_intro. eapply wp_mono; [|apply all_inert_wp, clear_inert].
      intros trc [] Hc. apply wp_bind_intro, sleep_seconds_wp. intros trs Hs.
      eapply wp_mono; [|apply connect_and_mount_wp]. intros tr2 r Hconn.
      pose proof (waits_app _ _ _ _ _ _ Hc Hs) as Hw.
      pose proof (staging_reconnected _ _ _ _ _ z tr1 dev trf err _ tr2 r H1 (Hf dev eq_refl) Ha
        Hw Hconn) as Hst.
      by rw -app_assoc in Hst.
  - eapply wp_mono; [|apply connect_and_mount_wp]. intros tr2 r Hconn.
    exact (staging_connected _ _ _ _ _ z tr1 tr2 r H1 Hconn).
Qed.
End stage_specs.

(** ** What the courses have in common *)
Definition quiet_mounts (target : string) (n : nat) (tr : os_trace) : Prop :=
  (os_slept tr ≤ 0)%Z ∧ connects tr = [] ∧
  (length (mounts tr) ≤ n)%nat ∧ Forall (λ st, st.2 = target) (mounts tr).
Lemma quiet_mounts_app target n1 n2 tr1 tr2 :
  quiet_mounts target n1 tr1 → quiet_mounts target n2 tr2 →
  quiet_mounts target (n1 + n2) (tr1 ++ tr2).
Proof.
  intros (Hs1 & Hc1 & Hl1 & Hf1) (Hs2 & Hc2 & Hl2 & Hf2). unfold quiet_mounts.
  rw os_slept_app connects_app mounts_app Hc1 Hc2 length_app Forall_app.
  split_and!; [lia|done|lia|done..].
Qed.
Lemma attempt_quiet dev target readonly tr r :
  attempt dev target readonly tr r → commands tr = [] ∧ quiet_mounts target 1 tr.
Proof.
  intros Ha. destruct Ha; (split; [done|]); (split_and!; [done..|cbn; lia|]);
    repeat constructor.
Qed.
Lemma mkfs_quiet dev target out e : quiet_mounts target 0 [mkfs dev out e].
Proof. split_and!; [done..|constructor]. Qed.
Lemma cleanup_quiet target u v : commands (cleanup target u v) = [] ∧
  quiet_mounts target 0 (cleanup target u v).
Proof. split; [done|]. split_and!; [done..|constructor]. Qed.

(** The only command is one [mkfs.xfs], right after an attempt at mounting the
    same device that failed, and never for a read-only volume. *)
Definition formats_guarded (target : string) (readonly : bool) (tr : os_trace) : Prop :=
  commands tr = [] ∨
  readonly = false ∧ ∃ tr0 dev att err out e tr2,
    tr = tr0 ++ att ++ mkfs dev out e :: tr2 ∧ attempt dev target false att (Err err) ∧
    commands tr0 = [] ∧ commands tr2 = [].
Lemma formats_guarded_app_l target readonly tr1 tr2 :
  commands tr1 = [] → formats_guarded target readonly tr2 →
  formats_guarded target readonly (tr1 ++ tr2).
Proof.
  intros H1 [H2|(Hr & tr0 & dev & att & err & out & e & tr3 & -> & Ha & Hc0 & Hc3)].
  - left. by rw commands_app H1 H2.
  - right. split; [done|]. exists (tr1 ++ tr0), dev, att, err, out, e, tr3.
    rw -app_assoc commands_app H1 Hc0. by split_and!.
Qed.
Lemma mounting_facts dev target readonly tr r :
  mounting dev target readonly tr r →
  formats_guarded target readonly tr ∧ quiet_mounts target 2 tr ∧
  (is_ok r = true → ∃ tr0, tr = tr0 ++ [mount_dir target (inr tt);
     mount_xfs dev target readonly (inr tt)]).
Proof.
  assert (∀ tr r, attempt dev target readonly tr r → is_ok r = true →
    tr = [mount_dir target (inr tt); mount_xfs dev target readonly (inr tt)]) as Hok.
  { intros t x Ha. by destruct Ha. }
  intros Hm. destruct Hm as [tr r _ Ha|tr err out e -> Ha|tr1 err out tr2 r -> Ha1 Ha2].
  - destruct (attempt_quiet _ _ _ _ _ Ha) as [Hc (? & ? & ? & ?)].
    split; [by left|]. split; [split_and!; [done..|lia|done]|].
    intros Hr. exists []. by apply (Hok tr r).
  - destruct (attempt_quiet _ _ _ _ _ Ha) as [Hc Hq]. split; [|split; [|done]].
    + right. split; [done|]. exists [], dev, tr, err, out, (Some e), []. by split_and!.
    + pose proof (quiet_mounts_app _ _ _ _ _ Hq (mkfs_quiet dev target out (Some e))) as (?&?&?&?).
      split_and!; [done..|lia|done].
  - destruct (attempt_quiet _ _ _ _ _ Ha1) as [Hc1 Hq1].
    destruct (attempt_quiet _ _ _ _ _ Ha2) as [Hc2 Hq2]. split; [|split].
    + right. split; [done|]. exists [], dev, tr1, err, out, None, tr2. by split_and!.
    + exact (quiet_mounts_app _ _ _ _ _ Hq1
        (quiet_mounts_app _ _ _ _ _ (mkfs_quiet dev target out None) Hq2)).
    + intros Hr. exists (tr1 ++ [mkfs dev out None]). rw -app_assoc.
      do 2 f_equal. apply (Hok tr2 r); [done|]. by destruct r.
Qed.

(** Waiting [z] seconds at most, the connection string written [k] times, at
    most [n] mounts, all of the target. *)
Definition bounded (target cs : string) (z : Z) (k n : nat) (tr : os_trace) : Prop :=
  (os_slept tr ≤ z * 1000000000)%Z ∧ (∃ j, (j ≤ k)%nat ∧ connects tr = replicate j cs) ∧
  (length (mounts tr) ≤ n)%nat ∧ Forall (λ st, st.2 = target) (mounts tr).
Lemma bounded_app target cs z1 z2 k1 k2 n1 n2 tr1 tr2 :
  bounded target cs z1 k1 n1 tr1 → bounded target cs z2 k2 n2 tr2 →
  bounded target cs (z1 + z2) (k1 + k2) (n1 + n2) (tr1 ++ tr2).
Proof.
  intros (Hs1 & (j1 & Hj1 & Hc1) & Hl1 & Hf1) (Hs2 & (j2 & Hj2 & Hc2) & Hl2 & Hf2).
  unfold bounded. rw os_slept_app connects_app mounts_app Hc1 Hc2 length_app Forall_app.
  split_and!; [lia| |lia|done..]. exists (j1 + j2)%nat. rw replicate_add. split; [lia|done].
Qed.
Lemma bounded_mono target cs z1 z2 k1 k2 n1 n2 tr :
  (z1 ≤ z2)%Z → (k1 ≤ k2)%nat → (n1 ≤ n2)%nat →
  bounded target cs z1 k1 n1 tr → bounded target cs z2 k2 n2 tr.
Proof.
  intros Hz Hk Hn (Hs & (j & Hj & Hc) & Hl & Hf).
  split_and!; [lia| |lia|done]. exists j. split; [lia|done].
Qed.
Lemma waits_bounded target cs z j tr :
  waits z (replicate j cs) tr → bounded target cs z j 0 tr.
Proof.
  intros (_ & Hm & Hs & Hc). split_and!; [done|by exists j|by rw Hm|rw Hm; constructor].
Qed.
Lemma quiet_bounded target cs n tr : quiet_mounts target n tr → bounded target cs 0 0 n tr.
Proof. intros (Hs & Hc & Hl & Hf). split_and!; [lia|by exists 0%nat|done..]. Qed.

(** The volume was mounted by the last two calls. *)
Definition ends_mounted (dev target : string) (readonly : bool) (tr : os_trace) : Prop :=
  ∃ tr0, tr = tr0 ++ [mount_dir target (inr tt); mount_xfs dev target readonly (inr tt)].
Lemma ends_mounted_app dev target readonly tr1 tr2 :
  ends_mounted dev target readonly tr2 → ends_mounted dev target readonly (tr1 ++ tr2).
Proof. intros [tr0 ->]. exists (tr1 ++ tr0). by rw app_assoc. Qed.
(** The device was found, or the empty path was. *)
Definition located (nqn dev : string) (tr : os_trace) : Prop :=
  found nqn dev tr ∨ dev = "" ∧ ∃ z, ev (S:=os) (Stat "") (inr z) ∈ tr.
Lemma located_app nqn dev tr1 tr2 :
  located nqn dev tr1 ∨ located nqn dev tr2 → located nqn dev (tr1 ++ tr2).
Proof.
  unfold located. setoid_rewrite elem_of_app.
  intros [[H|(? & z & ?)]|[H|(? & z & ?)]]; [left|right|left|right].
  - apply found_app. by left.
  - split; [done|]. exists z. by left.
  - apply found_app. by right.
  - split; [done|]. exists z. by right.
Qed.

Definition course (target cs nqn : string) (readonly : bool) (z : Z) (n : nat)
    (tr : os_trace) (r : result unit) : Prop :=
  formats_guarded target readonly tr ∧ bounded target cs z 3 n tr ∧
  (is_ok r = true → ∃ dev, located nqn dev tr ∧ ends_mounted dev target readonly tr).

Lemma connected_course target addr port nqn readonly tr r :
  connected target addr port nqn readonly tr r →
  course target (connString addr port nqn) nqn readonly 36 2 tr r.
Proof.
  set (cs := connString addr port nqn).
  intros (k & tr1 & Hk & Hw & [[-> Hr]|(dev & u & v & tr2 & z & -> & Hdev & Hst & Hm)]).
  - split; [left; apply Hw|]. split; [|by rw Hr].
    eapply bounded_mono; [| | |exact (waits_bounded target _ _ _ _ Hw)]; lia.
  - destruct (mounting_facts _ _ _ _ _ Hm) as (Hf & Hq & Hok).
    destruct (cleanup_quiet target u v) as [Hcc Hcq]. split; [|split].
    + apply formats_guarded_app_l; [apply Hw|]. by apply formats_guarded_app_l.
    + pose proof (waits_bounded target _ _ _ _ Hw) as B1.
      pose proof (quiet_bounded _ cs _ _ (quiet_mounts_app _ _ _ _ _ Hcq Hq)) as B2.
      eapply bounded_mono; [| | |exact (bounded_app _ _ _ _ _ _ _ _ _ _ B1 B2)]; lia.
    + intros [tr0 Htr0]%Hok. exists dev. split.
      * apply located_app. left. destruct Hdev as [->|Hdev]; [|by left].
        right. split; [done|]. by exists z.
      * do 2 apply ends_mounted_app. by exists tr0.
Qed.

Lemma course_prefix target cs nqn readonly z1 z2 n1 n2 tr1 tr2 r :
  commands tr1 = [] → bounded target cs z1 0 n1 tr1 →
  course target cs nqn readonly z2 n2 tr2 r →
  course target cs nqn readonly (z1 + z2) (n1 + n2) (tr1 ++ tr2) r.
Proof.
  intros Hc HB (Hf & HB2 & Hok). split; [by apply formats_guarded_app_l|]. split.
  - exact (bounded_app _ _ _ _ _ _ _ _ _ _ HB HB2).
  - intros (dev & Hl & He)%Hok. exists dev. split; [apply located_app; by right|].
    by apply ends_mounted_app.
Qed.

(** Nothing is connected, mounted or run before the host NQN is in place. *)
Definition host_first `{Environ} (d : Driver) (tr : os_trace) : Prop :=
  waits 0 [] tr ∨ ∃ z tr', tr = ev (S:=os) (Stat fabrics) (inr z) :: hostnqn d (inr tt) :: tr'.

Section course.
Context `{Environ} (d : Driver).

Lemma preamble_bounded target cs z tr :
  waits 0 [] tr →
  commands (ev (S:=os) (Stat fabrics) (inr z) :: hostnqn d (inr tt) :: tr) = [] ∧
  bounded target cs 0 0 0 (ev (S:=os) (Stat fabrics) (inr z) :: hostnqn d (inr tt) :: tr).
Proof.
  intros Hw. assert (waits 0 [] (ev (S:=os) (Stat fabrics) (inr z) :: hostnqn d (inr tt) :: tr)) as H1.
  { exact (waits_app 0 0 [] [] [ev (S:=os) (Stat fabrics) (inr z); hostnqn d (inr tt)] tr
      ltac:(done) Hw). }
  split; [apply H1|]. by apply (waits_bounded target cs 0 0).
Qed.
Lemma attempt_bounded dev target cs readonly tr r :
  attempt dev target readonly tr r → commands tr = [] ∧ bounded target cs 0 0 1 tr.
Proof.
  intros [? Hq]%attempt_quiet. split; [done|]. by apply quiet_bounded.
Qed.

Lemma staging_course target addr port nqn readonly tr r :
  staging d target addr port nqn readonly tr r →
  course target (connString addr port nqn) nqn readonly 39 3 tr r ∧ host_first d tr.
Proof.
  set (cs := connString addr port nqn).
  assert (∀ z n, (z ≤ 39)%Z → (n ≤ 3)%nat → ∀ tr r,
    course target cs nqn readonly z n tr r → course target cs nqn readonly 39 3 tr r) as Hmono.
  { intros z n Hz Hn t x (? & HB & ?). split; [done|]. split; [|done].
    eapply bounded_mono; [| | |exact HB]; lia. }
  intros Hs. destruct Hs as [tr err Hw|z tr1 dev tr2 Hw Hf Ha|z tr1 tr2 r Hw Hc
    |z tr1 dev trf err trw tr2 r Hw Hf Ha Hw3 Hc]; (split; [|first [by left|right; eauto]]).
  - split; [left; apply Hw|]. split; [|done].
    eapply bounded_mono; [| | |exact (waits_bounded target cs 0 0 _ Hw)]; lia.
  - destruct (preamble_bounded target cs z _ Hw) as [Hpc Hpb].
    destruct (attempt_bounded _ _ cs _ _ _ Ha) as [Hac Hab].
    rw 2!app_comm_cons. split; [left; by rw commands_app Hpc Hac|]. split.
    { eapply bounded_mono; [| | |exact (bounded_app _ _ _ _ _ _ _ _ _ _ Hpb Hab)]; lia. }
    intros _. exists dev. split; [apply located_app; left; left|].
    + apply (found_app _ _ [_; _]). by right.
    + apply ends_mounted_app. exists []. by inversion Ha.
  - destruct (preamble_bounded target cs z _ Hw) as [Hpc Hpb]. rw 2!app_comm_cons.
    apply (Hmono (0 + 36)%Z (0 + 2)%nat); [lia..|].
    apply course_prefix; [done..|]. by apply connected_course.
  - destruct (preamble_bounded target cs z _ Hw) as [Hpc Hpb].
    destruct (attempt_bounded _ _ cs _ _ _ Ha) as [Hac Hab].
    rw 2!app_comm_cons. apply (Hmono (0 + (0 + (3 + 36)))%Z (0 + (1 + (0 + 2)))%nat); [lia..|].
    apply course_prefix; [done..|]. apply course_prefix; [done..|].
    apply course_prefix; [apply Hw3|by apply (waits_bounded target cs 3 0)|].
    by apply connected_course.
Qed.
Lemma staged_course target endpoint nqn readonly tr r addr port :
  SplitEndpoint endpoint = Ok (addr, port) →
  exec (ensureNVMeStaged ExecMounter d target endpoint nqn readonly) tr r →
  course target (connString addr port nqn) nqn readonly 39 3 tr r ∧ host_first d tr.
Proof.
  intros Hep Hex. apply staging_course.
  exact (exec_wp _ _ _ _ Hex (ensureNVMeStaged_wp d target endpoint addr port nqn readonly Hep)).
Qed.
End course.

(** ** Properties *)

(** C23. What staging promises: when [ensureNVMeStaged] reports success, its last
    call mounted, with the options of the access asked for, a device that was
    found: the node of a namespace of a subsystem that has the volume's NQN and
    a live controller, made with the numbers that this subsystem gives for the
    namespace.  It is assumed that no file is found under the empty path, which
    is what the code looks at when the device never came. *)
Theorem ensureNVMeStaged_mounted `{Environ} (d : Driver)
    (target endpoint nqn addr port : string) (readonly : bool) (tr : os_trace) :
  SplitEndpoint endpoint = Ok (addr, port) →
  (∀ z, ev (S:=os) (Stat "") (inr z) ∉ tr) →
  exec (ensureNVMeStaged ExecMounter d target endpoint nqn readonly) tr (Ok tt) →
  ∃ dev, found nqn dev tr ∧ ends_mounted dev target readonly tr.
Proof.
  intros Hep Hempty Hex. destruct (staged_course d _ _ _ _ _ _ _ _ Hep Hex) as [(_ & _ & Hok) _].
  destruct (Hok eq_refl) as (dev & [Hf|(_ & z & Hz)] & He); [by exists dev|].
  by destruct (Hempty z).
Qed.

(** C24. What staging may destroy: whatever the system answers, the only command
    staging runs is one [mkfs.xfs], right after an attempt to mount the very
    same device that failed; a volume staged read-only is never formatted. *)
Theorem ensureNVMeStaged_formats `{Environ} (d : Driver)
    (target endpoint nqn addr port : string) (readonly : bool) (tr : os_trace) (r : result unit) :
  SplitEndpoint endpoint = Ok (addr, port) →
  exec (ensureNVMeStaged ExecMounter d target endpoint nqn readonly) tr r →
  commands tr = [] ∨
  readonly = false ∧ ∃ tr0 dev att err out e tr2,
    tr = tr0 ++ att ++ mkfs dev out e :: tr2 ∧ attempt dev target false att (Err err) ∧
    commands tr0 = [] ∧ commands tr2 = [].
Proof. intros Hep Hex. apply (staged_course d _ _ _ _ _ _ _ _ Hep Hex). Qed.

(** C25. Staging ends: it waits at most 39 seconds in all, writes the connection
    string of the volume's engine at most three times, and tries at most three
    mounts, all at the staging path; nothing of this happens before the host
    NQN has been written. *)
Theorem ensureNVMeStaged_bounded `{Environ} (d : Driver)
    (target endpoint nqn addr port : string) (readonly : bool) (tr : os_trace) (r : result unit) :
  SplitEndpoint endpoint = Ok (addr, port) →
  exec (ensureNVMeStaged ExecMounter d target endpoint nqn readonly) tr r →
  (os_slept tr ≤ 39 * 1000000000)%Z ∧
  (∃ k, k ≤ 3 ∧ connects tr = replicate k (connString addr port nqn)) ∧
  length (mounts tr) ≤ 3 ∧ Forall (λ st, st.2 = target) (mounts tr) ∧ host_first d tr.
Proof.
  intros Hep Hex.
  destruct (staged_course d _ _ _ _ _ _ _ _ Hep Hex) as [(_ & (? & ? & ? & ?) & _) ?].
  by split_and!.
Qed.

(** A node on which the engine of the volume can be reached: what is connected
    and mounted, and whether the device holds a file system. *)
Record node := mkNode { nd_connected : bool; nd_mounted : bool; nd_blank : bool }.
Definition volume_nqn := "nqn.2026-05.krea.to:volume-v".
Definition subsys := PathJoin [subsystems; "nvme-subsys0"].
Definition node_files : list (string * string) :=
  [(PathJoin [subsys; "subsysnqn"], volume_nqn +:+ String newline "");
   (PathJoin [subsys; "nvme0"; "state"], "live" +:+ String newline "");
   (PathJoin [subsys; "nvme0n1"; "dev"], "259:0" +:+ String newline "")].
Definition enoent : os_error := mkOsError ErrNotExist "no such file or directory".
Definition node_file (path : string) : option string :=
  (λ x, x.2.2) <$> list_find (λ f : string * string, f.1 = path) node_files.
Definition node_handler (c : os_call) (w : node) : os_reply c * node :=
  match c with
  | Stat path => (if bool_decide (path = "") then inl enoent else inr 0%Z, w)
  | ReadFile path =>
      (match node_file path with Some text => inr text | None => inl enoent end, w)
  | ReadDir path =>
      (inr (if negb (nd_connected w) then []
            else if bool_decide (path = subsystems) then ["nvme-subsys0"]
            else ["nvme0"; "nvme0n1"; "subsysnqn"]), w)
  | WriteFile path data perm =>
      (inr tt, if bool_decide (path = fabrics) then mkNode true (nd_mounted w) (nd_blank w)
               else if HasSuffix path "delete_controller" then
                 mkNode false (nd_mounted w) (nd_blank w)
               else w)
  | UnixMount source target fsType flags data =>
      if negb (HasPrefix source "/dev/") then (inr tt, w)
      else if nd_mounted w then (inl (mkOsError OtherErrno "device or resource busy"), w)
      else if nd_blank w then (inl (mkOsError ErrInvalid "invalid argument"), w)
      else (inr tt, mkNode (nd_connected w) true false)
  | UnixUnmount target flags => (inr tt, mkNode (nd_connected w) false (nd_blank w))
  | Command name args => (("", None), mkNode (nd_connected w) (nd_mounted w) false)
  | c => (os_ok c, w)
  end.
#[local] Instance node_environ : Environ := λ _, "".
Definition node_driver : Driver := mkDriver "kdfs" "worker-1".
Definition stage_run (w : node) : os_trace * result unit * node :=
  run (S:=os) node_handler
    (ensureNVMeStaged ExecMounter node_driver "/staging" "10.0.0.7:4420" volume_nqn false) w.
(** A volume that was never written: it is connected, formatted and mounted. *)
Definition first_run := stage_run (mkNode false false true).
Lemma first_run_trace : exec
  (ensureNVMeStaged ExecMounter node_driver "/staging" "10.0.0.7:4420" volume_nqn false)
  first_run.1.1 first_run.1.2.
Proof. exact (exec_of_run _ _ (mkNode false false true) _ eq_refl). Defined.

Definition stats_empty (e : event os) : bool :=
  match projT1 e with Stat path => bool_decide (path = "") | _ => false end.
Lemma never_empty tr :
  existsb stats_empty tr = false → ∀ z, ev (S:=os) (Stat "") (inr z) ∉ tr.
Proof.
  intros H z Hin. assert (existsb stats_empty tr = true) as H'; [|by rw H in H'].
  apply existsb_exists. eexists. by split; [apply list_elem_of_In, Hin|].
Qed.
Lemma ensureNVMeStaged_mounted_witness :
  first_run.1.2 = Ok tt ∧
  ∃ dev, found volume_nqn dev first_run.1.1 ∧ ends_mounted dev "/staging" false first_run.1.1.
Proof.
  split; [vm_compute; reflexivity|].
  apply (ensureNVMeStaged_mounted node_driver "/staging" "10.0.0.7:4420" volume_nqn
    "10.0.0.7" "4420" false first_run.1.1).
  - vm_compute. reflexivity.
  - apply never_empty. vm_compute. reflexivity.
  - exact first_run_trace.
Defined.

Lemma ensureNVMeStaged_formats_witness :
  commands first_run.1.1 = [("mkfs.xfs", mkfs_args "/dev/nvme0n1")] ∧
  (commands first_run.1.1 = [] ∨
   false = false ∧ ∃ tr0 dev att err out e tr2,
     first_run.1.1 = tr0 ++ att ++ mkfs dev out e :: tr2 ∧
     attempt dev "/staging" false att (Err err) ∧ commands tr0 = [] ∧ commands tr2 = []).
Proof.
  split; [vm_compute; reflexivity|].
  apply (ensureNVMeStaged_formats node_driver "/staging" "10.0.0.7:4420" volume_nqn
    "10.0.0.7" "4420" false first_run.1.1 first_run.1.2).
  - vm_compute. reflexivity.
  - exact first_run_trace.
Defined.

(** Publishing a volume that is staged connects it anew. *)
Definition publish_request : NodePublishRequest :=
  mkNodePublish "/staging" "/target"
    {["endpoint" := "10.0.0.7:4420"; "nqn" := volume_nqn]} None false.
Definition publish_run :=
  run (S:=os) node_handler (NodePublishVolume ExecMounter node_driver publish_request)
    (mkNode true true false).
Example publish_reconnects :
  publish_run.1.2 = Ok tt ∧
  ev (S:=os) (WriteFile (PathJoin [subsys; "nvme0"; "delete_controller"]) "1" 128) (inr tt)
    ∈ publish_run.1.1 ∧
  os_slept publish_run.1.1 = 3000000000%Z.
Proof.
  split; [vm_compute; reflexivity|]. split; [|vm_compute; reflexivity].
  apply list_elem_of_lookup. exists 14. vm_compute. reflexivity.
Qed.
Lemma ensureNVMeStaged_bounded_witness :
  (os_slept (stage_run (mkNode true true false)).1.1 ≤ 39 * 1000000000)%Z ∧
  (∃ k, k ≤ 3 ∧ connects (stage_run (mkNode true true false)).1.1 =
     replicate k (connString "10.0.0.7" "4420" volume_nqn)).
Proof.
  destruct (ensureNVMeStaged_bounded node_driver "/staging" "10.0.0.7:4420" volume_nqn
    "10.0.0.7" "4420" false (stage_run (mkNode true true false)).1.1
    (stage_run (mkNode true true false)).1.2) as (? & ? & _).
  - vm_compute. reflexivity.
  - exact (exec_of_run _ _ (mkNode true true false) _ eq_refl).
  - by split.
Defined.
