(* ===== verification/ControllerManager.v ===== *)
(** * cmd/controller-manager/main.go: the manager's configuration

    The config map the manager makes sure of, the addresses of the node agents,
    its namespace and the images of the pods; and that the sidecars read the
    configuration back. *)
From Stdlib Require Import Ascii.
From S2P Require Import Prelude GoStrings GoNet GoJson K8s ApiTypes Names Network WireTypes Client MemStore Os PodTemplates AgentClient Agent JsonParse WireJson SidecarMain.

(** ** Constants *)
Definition kdfsNamespace := "kdfs".
Definition kdfsConfigMapName := "kdfs-config".
Definition nqnAuthorityKey := "nqnAuthority".
Definition networkPolicyKey := "networkPolicy".
Definition spdkImageEnvKey := "KDFS_SPDK_IMAGE".
Definition sidecarImageEnvKey := "KDFS_SIDECAR_IMAGE".
Definition nfsImageEnvKey := "KDFS_NFS_SIDECAR_IMAGE".
Definition serviceAccountNamespacePath := "/var/run/secrets/kubernetes.io/serviceaccount/namespace".

(** ** The network policy in JSON: structs are never empty for [omitempty] *)
Definition policy_json (p : Policy) : json :=
  JObj (omit_str "bindAddress" (BindAddress p) ++ omit_str "advertiseAddress" (AdvertiseAddress p)
        ++ omit_str "port" (Port p) ++ omit_str "preferredFamily" (PreferredFamily p)).
Definition role_policies_json (p : RolePolicies) : json :=
  JObj [("default", policy_json (rp_Default p)); ("engine", policy_json (rp_Engine p));
        ("replica", policy_json (rp_Replica p))].
Definition defaultNetworkPolicyJSON : string :=
  Marshal (role_policies_json
    (mkRolePolicies (mkPolicy "podIP" "podIP" "" FamilyAuto) (mkPolicy "" "" "4420" "")
       (mkPolicy "" "" "4421" ""))).

(** ** ensureNQNConfig *)
Definition default_config (namespace : string) : ConfigMap :=
  mkConfigMap (newMeta kdfsConfigMapName namespace)
    {[ nqnAuthorityKey := defaultNQNAuthority; networkPolicyKey := defaultNetworkPolicyJSON ]}.
(** [cm.Data[key]], which is empty for a key that is missing. *)
Definition data_get (key : string) (data : gmap string string) : string :=
  default "" (data !! key).
(** A blank entry gets a value: the data, and whether it was updated. *)
Definition fill_blank (key value : string) (x : gmap string string * bool)
    : gmap string string * bool :=
  if bool_decide (TrimSpace (data_get key x.1) = "") then (<[key := value]> x.1, true) else x.
Definition completed (data : gmap string string) : gmap string string * bool :=
  fill_blank networkPolicyKey defaultNetworkPolicyJSON
    (fill_blank nqnAuthorityKey defaultNQNAuthority (data, false)).
Definition ensureNQNConfig (namespace : string) : M (result unit) :=
  r ← kGet KConfigMap (mkName namespace kdfsConfigMapName);
  match r with
  | Err err =>
      if negb (IsNotFound err) then Ret (Err err)
      else _ ←? kCreate KConfigMap (default_config namespace); Ret (Ok tt)
  | Ok cm =>
      let '(data, updated) := completed (cm_Data cm) in
      if negb updated then Ret (Ok tt)
      else _ ←? kUpdate KConfigMap (mkConfigMap (cm_meta cm) data); Ret (Ok tt)
  end.

(** ** nodeAgentBaseURL *)
Definition agent_pod (nodeName : string) (pod : Pod) : bool :=
  bool_decide (data_get "app" (om_Labels (pod_meta pod)) = "kdfs-node-agent") &&
  bool_decide (ps_NodeName (pod_spec pod) = nodeName) &&
  bool_decide (pst_Phase (pod_status pod) = PodRunning) &&
  negb (bool_decide (TrimSpace (pst_PodIP (pod_status pod)) = "")).
Definition agentPort := "9808".
Definition nodeAgentBaseURL (namespace nodeName : string) : M (result string) :=
  pods ←? kList KPod (Some namespace) ∅;
  match list_find (λ pod, agent_pod nodeName pod = true) pods with
  | Some (_, pod) => Ret (Ok (HTTPURL "http" (pst_PodIP (pod_status pod)) agentPort ""))
  | None => Ret (Err (Errorf "node-agent pod for node %s not found" [nodeName]))
  end.
(** The [AgentFactory] of the replica and snapshot reconcilers. *)
Definition replicaAgentFactory (namespace nodeName : string) : M (result AgentClient) :=
  baseURL ←? nodeAgentBaseURL namespace nodeName;
  Ret (Ok (NewHTTPClient baseURL)).
(** A reconciler of the manager asks that factory. *)
Definition managed {A} (namespace : string) (p : M A) : M A :=
  interp (S:=ctl) (T:=ctl)
    (λ c, match c return M (ctl_reply c) with
          | AgentFactory nodeName => replicaAgentFactory namespace nodeName
          | c => ask (S:=ctl) c
          end) p.

(** ** The namespace and the images *)
Section environment.
Context `{Environ}.
Definition runtimeNamespace : OS string :=
  let namespace := TrimSpace (Getenv "POD_NAMESPACE") in
  if bool_decide (namespace ≠ "") then Ret namespace
  else
    data ← osReadFile serviceAccountNamespacePath;
    Ret (match data with
         | Ok data => if bool_decide (TrimSpace data ≠ "") then TrimSpace data else kdfsNamespace
         | Err _ => kdfsNamespace
         end).
Definition image_or (key image : string) : string :=
  if bool_decide (TrimSpace (Getenv key) ≠ "") then TrimSpace (Getenv key) else image.
Definition configureControllerPodImages (images : Images) : Images :=
  mkImages (image_or spdkImageEnvKey (SPDK images)) (image_or sidecarImageEnvKey (Sidecar images))
    (image_or nfsImageEnvKey (NFSSidecar images)).
End environment.

(** ** Lemmas *)

(** Both entries are there. *)
Definition configured (data : gmap string string) : Prop :=
  TrimSpace (data_get nqnAuthorityKey data) ≠ "" ∧ TrimSpace (data_get networkPolicyKey data) ≠ "".
(** What was there is still there, and what is new has its default. *)
Definition keeps (data data' : gmap string string) : Prop :=
  ∀ key, TrimSpace (data_get key data) ≠ "" → data' !! key = data !! key.
Definition defaulted (data data' : gmap string string) : Prop :=
  ∀ key value, data' !! key = Some value → data !! key = Some value ∨
    (key, value) ∈ [(nqnAuthorityKey, defaultNQNAuthority); (networkPolicyKey, defaultNetworkPolicyJSON)].
Lemma fill_blank_spec key value data u :
  TrimSpace value ≠ "" →
  let x := fill_blank key value (data, u) in
  TrimSpace (data_get key x.1) ≠ "" ∧ keeps data x.1 ∧
  (∀ k v, x.1 !! k = Some v → data !! k = Some v ∨ (k, v) = (key, value)) ∧
  (x.2 = false ↔ u = false ∧ TrimSpace (data_get key data) ≠ "") ∧ (x.2 = false → x.1 = data).
Proof.
  intros Hv. unfold fill_blank. cbn [fst]. case_bool_decide as Hb; cbn [fst snd].
  - split_and!; [|intros k Hk|intros k v|naive_solver|done].
    + unfold data_get. by rw lookup_insert_eq.
    + rw lookup_insert_ne //. by intros <-.
    + intros [[<- <-]|[_ H]]%lookup_insert_Some; [by right|by left].
  - split_and!; [done|by intros k|by left|naive_solver|done].
Qed.
Lemma keeps_get key data data' :
  keeps data data' → TrimSpace (data_get key data) ≠ "" → TrimSpace (data_get key data') ≠ "".
Proof. intros Hk H. unfold data_get. by rw Hk. Qed.
Lemma completed_spec data :
  let '(data', updated) := completed data in
  configured data' ∧ keeps data data' ∧ defaulted data data' ∧
  (updated = false ↔ configured data) ∧ (updated = false → data' = data).
Proof.
  unfold completed.
  destruct (fill_blank_spec nqnAuthorityKey defaultNQNAuthority data false) as (A1 & A2 & A3 & A4 & A5);
    [by vm_compute|].
  destruct (fill_blank _ _ (data, false)) as [d1 u1]. cbn [fst snd] in *.
  destruct (fill_blank_spec networkPolicyKey defaultNetworkPolicyJSON d1 u1) as (B1 & B2 & B3 & B4 & B5);
    [by vm_compute|].
  destruct (fill_blank _ _ (d1, u1)) as [d2 u2]. cbn [fst snd] in *. split_and!.
  - split; [by eapply keeps_get|done].
  - intros key Hk. rw B2; [by apply A2|by eapply keeps_get].
  - intros key value [Hd1|[= -> ->]]%B3; [|right; set_solver].
    apply A3 in Hd1 as [?|[= -> ->]]; [by left|right; set_solver].
  - unfold configured. rw B4 A4. split.
    + intros [[_ Ha] Hb]. split; [done|]. by rw -A5 // A4.
    + intros [Ha Hb]. split; [done|]. by eapply keeps_get.
  - intros Hu. pose proof Hu as [Hu1 _]%B4. by rw B5 // A5.
Qed.
Lemma NewHTTPClient_port host :
  TrimRightSlash (HTTPURL "http" host agentPort "") = HTTPURL "http" host agentPort "".
Proof.
  unfold HTTPURL, URLString. rw string_app_nil_r.
  assert (∃ s, "http" +:+ "://" +:+ escape_host (JoinEndpoint host agentPort) = s +:+ "8") as [s ->].
  { assert (∀ s, escape_host (s +:+ "8") = escape_host s +:+ "8") as He.
    { induction s as [|c s IH]; [done|]. rw string_app_cons. cbn. rw IH. by destruct (host_safe c). }
    assert (∃ s, JoinEndpoint host agentPort = s +:+ "8") as [s ->].
    { unfold JoinEndpoint, JoinHostPort, agentPort. destruct (has_byte ":" host).
      - exists ("[" +:+ host +:+ "]:" +:+ "980"). by rw !string_app_assoc.
      - exists (host +:+ ":" +:+ "980"). by rw !string_app_assoc. }
    exists ("http" +:+ "://" +:+ escape_host s). by rw He !string_app_assoc. }
  unfold TrimRightSlash. rw string_rev_app. cbn [string_rev].
  change (string_rev "8" +:+ string_rev s) with (String "8" (string_rev s)).
  cbn [drop_slashes]. change (String "8" (string_rev s)) with (string_rev "8" +:+ string_rev s).
  by rw -string_rev_app string_rev_involutive.
Qed.
Lemma base_url_wp namespace nodeName :
  wp (nodeAgentBaseURL namespace nodeName) (λ tr r, ∀ url, r = Ok url →
    ∃ pods i pod, tr = [ev (S:=ctl) (List KPod (Some namespace) ∅) (Ok pods)] ∧
      pods !! i = Some pod ∧ agent_pod nodeName pod = true ∧
      Forall (λ pod', agent_pod nodeName pod' = false) (take i pods) ∧
      url = HTTPURL "http" (pst_PodIP (pod_status pod)) agentPort "").
Proof.
  unfold nodeAgentBaseURL. apply wp_bind_ok, (wp_ask_intro (S:=ctl)). intros [pods|e]; [|by intros url].
  destruct (list_find (λ pod : Pod, agent_pod nodeName pod = true) pods) as [[i pod]|] eqn:Hf;
    apply wp_ret_intro; intros url; [|done]. intros [= <-].
  apply list_find_Some in Hf as (Hi & Hp & Hbefore).
  exists pods, i, pod. split_and!; [done..| |done].
  apply Forall_lookup. intros j pod' [Hj Hlt]%lookup_take_Some.
  apply not_true_is_false. by eapply Hbefore.
Qed.

(** ** Properties *)

(** The calls of a start that succeeded: the map was complete; or it was updated,
    to a complete one; or there was none, and one was made. *)
Definition config_outcome (namespace : string) (tr : trace) : Prop :=
  let key := mkName namespace kdfsConfigMapName in
  (∃ cm, tr = [ev (S:=ctl) (Get KConfigMap key) (Ok cm)] ∧ configured (cm_Data cm)) ∨
  (∃ cm data r, tr = [ev (S:=ctl) (Get KConfigMap key) (Ok cm);
                      ev (S:=ctl) (Update KConfigMap (mkConfigMap (cm_meta cm) data)) (Ok r)] ∧
     ¬ configured (cm_Data cm) ∧ configured data ∧ keeps (cm_Data cm) data ∧
     defaulted (cm_Data cm) data) ∨
  (∃ e r, tr = [ev (S:=ctl) (Get KConfigMap key) (Err e);
                ev (S:=ctl) (Create KConfigMap (default_config namespace)) (Ok r)] ∧
     IsNotFound e = true ∧ configured (cm_Data (default_config namespace))).
(** The config map after a start of the manager: when [ensureNQNConfig]
    succeeds, the map it read, wrote or made has both entries; whatever entry
    was there is kept, a new one has its default; and a map that is complete is
    not written. *)
Theorem ensureNQNConfig_spec (namespace : string) (tr : trace) :
  exec (ensureNQNConfig namespace) tr (Ok tt) → config_outcome namespace tr.
Proof.
  intros Hex. unfold ensureNQNConfig in Hex. destruct Hex as (r & tr' & -> & Hex).
  destruct r as [cm|e]; cbn [mbind prog_bind] in Hex.
  - pose proof (completed_spec (cm_Data cm)) as Hc.
    destruct (completed (cm_Data cm)) as [data updated]. destruct Hc as (H1 & H2 & H3 & H4 & _).
    destruct updated; cbn [negb bind_ok mbind prog_bind kUpdate ask] in Hex.
    + destruct Hex as (r2 & tr2 & -> & Hex). destruct r2 as [cm2|e2]; [|by destruct Hex].
      destruct Hex as [-> _]. right. left. exists cm, data, cm2. split_and!; try done.
      by intros ?%H4.
    + destruct Hex as [-> _]. left. exists cm. split; [done|]. by apply H4.
  - destruct (IsNotFound e) eqn:Hn; cbn [negb bind_ok mbind prog_bind kCreate ask] in Hex;
      [|by destruct Hex].
    destruct Hex as (r2 & tr2 & -> & Hex). destruct r2 as [cm2|e2]; [|by destruct Hex].
    destruct Hex as [-> _]. right. right. exists e, cm2. split_and!; [done..|].
    split; vm_compute; discriminate.
Qed.

(** The kubelet gives a variable that refers to a key of the config map the
    entry of the map. *)
Definition injected (data : gmap string string) (process : Environ) (e : EnvVar) : Prop :=
  match env_ValueFrom e with
  | Some (ConfigMapKeyRef name key _) =>
      name = kdfsConfigMapName → ∀ value, data !! key = Some value → process (env_Name e) = value
  | _ => True
  end.
(** What decoding a policy's text leaves: the members it has, over the ones the
    sidecar starts from. *)
Definition policy_ok (p : Policy) : bool :=
  utf8_ok (BindAddress p) && utf8_ok (AdvertiseAddress p) && utf8_ok (Port p) &&
  utf8_ok (PreferredFamily p).
Definition policies_ok (ps : RolePolicies) : bool :=
  policy_ok (rp_Default ps) && policy_ok (rp_Engine ps) && policy_ok (rp_Replica ps).
Definition over_defaults (ps : RolePolicies) : RolePolicies :=
  mkRolePolicies (mergePolicy (rp_Default defaultNetworkPolicies) (rp_Default ps))
    (mergePolicy (rp_Engine defaultNetworkPolicies) (rp_Engine ps))
    (mergePolicy (rp_Replica defaultNetworkPolicies) (rp_Replica ps)).
Lemma policy_json_ok p : policy_ok p = true → json_ok (policy_json p) = true.
Proof.
  unfold policy_ok. rw !andb_true_iff. intros [[[H1 H2] H3] H4].
  change (members_ok (omit_str "bindAddress" (BindAddress p) ++ omit_str "advertiseAddress" (AdvertiseAddress p)
    ++ omit_str "port" (Port p) ++ omit_str "preferredFamily" (PreferredFamily p)) = true). members.
Qed.
Lemma policy_depth p : (json_depth (policy_json p) ≤ 1)%Z.
Proof. unfold policy_json. omitted; cbn; lia. Qed.
Lemma policy_decoded base p : dec_struct policy_fields (policy_json p) base = (mergePolicy base p, None).
Proof.
  destruct p as [b a po f], base as [b0 a0 p0 f0]. unfold policy_json, mergePolicy, override_, omit_str.
  cbn [BindAddress AdvertiseAddress Port PreferredFamily].
  destruct (bool_decide_reflect (b = "")) as [->|Hb], (bool_decide_reflect (a = "")) as [->|Ha],
    (bool_decide_reflect (po = "")) as [->|Hp], (bool_decide_reflect (@eq string f "")) as [->|Hf].
  all: repeat match goal with
  | |- context [bool_decide ("" ≠ "")] => rewrite (bool_decide_false ("" ≠ "")); [|by intros []]
  | |- context [bool_decide (?x ≠ "")] => rewrite (bool_decide_true (x ≠ "")); [|done]
  end; reflexivity.
Qed.
Lemma dec_members_cons {A} (fields : list (field A)) key v ms a dec a' :
  find_field fields key = Some dec → dec v a = (a', None) →
  dec_members fields ((key, v) :: ms) a = dec_members fields ms a'.
Proof. intros Hf Hd. cbn. rw Hf Hd. by destruct (dec_members fields ms a'). Qed.
Lemma member_dec {A B} name (get : A → B) (set : B → A → A) (dec : decoder B) v a b :
  dec v (get a) = (b, None) → (member name get set dec).2 v a = (set b a, None).
Proof. intros Hd. cbn. by rw Hd. Qed.
Lemma policies_decoded ps :
  policies_ok ps = true →
  unmarshal (dec_struct role_fields) (Marshal (role_policies_json ps)) defaultNetworkPolicies =
    Ok (over_defaults ps).
Proof.
  unfold policies_ok. intros [[H1 H2]%andb_prop H3]%andb_prop. unfold unmarshal.
  rw Unmarshal_Marshal.
  - assert (dec_struct role_fields (role_policies_json ps) defaultNetworkPolicies = (over_defaults ps, None)) as ->; [|done].
    unfold role_policies_json, over_defaults. cbn [dec_struct].
    do 3 (erewrite dec_members_cons; [|reflexivity|apply member_dec, policy_decoded]). reflexivity.
  - change (members_ok [("default", policy_json (rp_Default ps)); ("engine", policy_json (rp_Engine ps));
      ("replica", policy_json (rp_Replica ps))] = true).
    repeat (apply members_ok_cons; [done|by apply policy_json_ok|]). done.
  - pose proof (policy_depth (rp_Default ps)). pose proof (policy_depth (rp_Engine ps)).
    pose proof (policy_depth (rp_Replica ps)). unfold max_depth. cbn in *. lia.
Qed.
(** Both sidecars get both variables from the config map. *)
Lemma sidecar_variables `{Environ, PodImages} pod c :
  ((∃ engine hosts, pod = EnginePodFor engine hosts) ∨ (∃ replica, pod = ReplicaPodFor replica)) →
  ps_Containers (pod_spec pod) !! 1 = Some c →
  nqnAuthorityEnv ∈ c_Env c ∧ envFrom "KDFS_NETWORK_POLICY"
    (ConfigMapKeyRef "kdfs-config" "networkPolicy" (Some true)) ∈ c_Env c.
Proof.
  intros [(engine & hosts & ->)|[replica ->]] Hc; injection Hc as <-; cbn [c_Env].
  - unfold engine_env, runtimeEnv. split; repeat (rw elem_of_app || rw elem_of_cons); tauto.
  - unfold replica_env, runtimeEnv. split; repeat (rw elem_of_app || rw elem_of_cons); tauto.
Qed.

(** C38. The configuration reaches the sidecars: whatever network policies, in
    UTF-8, and whatever NQN authority the config map holds, the policies as JSON,
    a process that the kubelet starts in the sidecar of an engine or a replica pod
    works with exactly these policies, member by member over the sidecar's own
    defaults where a member is empty, and with that authority, without the blanks
    around it, or with the default one if it is blank. *)
Theorem config_reaches_sidecars `{Environ, PodImages} (process : Environ) (data : gmap string string)
    (ps : RolePolicies) (auth : string) (pod : Pod) (c : Container) :
  ((∃ engine hosts, pod = EnginePodFor engine hosts) ∨ (∃ replica, pod = ReplicaPodFor replica)) →
  ps_Containers (pod_spec pod) !! 1 = Some c →
  policies_ok ps = true →
  data !! networkPolicyKey = Some (Marshal (role_policies_json ps)) →
  data !! nqnAuthorityKey = Some auth →
  Forall (injected data process) (c_Env c) →
  @policies process = Ok (over_defaults ps) ∧
  @authority process =
    (if bool_decide (TrimSpace auth = "") then defaultNQNAuthority else TrimSpace auth).
Proof.
  intros Hpod Hc Hok Hps Hauth Henv. destruct (sidecar_variables pod c Hpod Hc) as [Ha Hp].
  assert (process "NQN_AUTHORITY" = auth) as H1
    by exact (proj1 (Forall_forall _ _) Henv _ Ha eq_refl _ Hauth).
  assert (process "KDFS_NETWORK_POLICY" = Marshal (role_policies_json ps)) as H2
    by exact (proj1 (Forall_forall _ _) Henv _ Hp eq_refl _ Hps).
  split.
  - unfold policies, Getenv. rw H2 bool_decide_true; [by apply policies_decoded|]. done.
  - unfold authority, Getenv. by rw H1.
Qed.
(** The config map that the manager makes holds the sidecar's defaults. *)
Lemma default_config_policies namespace :
  cm_Data (default_config namespace) !! networkPolicyKey =
    Some (Marshal (role_policies_json defaultNetworkPolicies)) ∧
  over_defaults defaultNetworkPolicies = defaultNetworkPolicies.
Proof. split; vm_compute; reflexivity. Qed.

(** The agent that the manager's factory hands out for a node is the first
    pod of its namespace that is labelled as a node agent, runs on that node and
    has an address: calls go to that address, at the agents' port. *)
Theorem replicaAgentFactory_node (namespace nodeName : string) (tr : trace) (a : AgentClient) :
  exec (replicaAgentFactory namespace nodeName) tr (Ok a) →
  ∃ pods i pod, tr = [ev (S:=ctl) (List KPod (Some namespace) ∅) (Ok pods)] ∧
    pods !! i = Some pod ∧ agent_pod nodeName pod = true ∧
    Forall (λ pod', agent_pod nodeName pod' = false) (take i pods) ∧
    a = HTTPAgent (HTTPURL "http" (pst_PodIP (pod_status pod)) agentPort "").
Proof.
  intros Hex. refine (exec_wp _ (λ tr r, ∀ a, r = Ok a → _) _ _ Hex _ _ eq_refl). clear.
  unfold replicaAgentFactory. apply wp_bind_ok. eapply wp_mono, base_url_wp.
  intros tr [url|e] Hurl; [|done]. apply wp_ret_intro. intros a [= <-]. rw app_nil_r.
  destruct (Hurl url eq_refl) as (pods & i & pod & -> & ? & ? & ? & ->).
  exists pods, i, pod. unfold NewHTTPClient. rw NewHTTPClient_port. by split_and!.
Qed.

(** A cluster without the config map, and one with two node agents. *)
Definition config_run := run mem_handler (ensureNQNConfig "kdfs") empty_world.
Lemma ensureNQNConfig_spec_witness :
  config_run.1.2 = Ok tt ∧
  creates KConfigMap config_run.1.1 = [default_config "kdfs"] ∧
  config_outcome "kdfs" config_run.1.1.
Proof.
  split; [vm_compute; reflexivity|]. split; [vm_compute; reflexivity|].
  apply ensureNQNConfig_spec. exact (exec_of_run mem_handler _ empty_world _ eq_refl).
Defined.

#[local] Instance manager_environ : Environ := λ _, "".
#[local] Instance manager_images : PodImages := defaultPodImages.
(** A config map with other ports and another authority. *)
Definition other_policies : RolePolicies :=
  mkRolePolicies (mkPolicy "hostIP" "" "" "IPv6") (mkPolicy "" "" "5520" "") (mkPolicy "" "nodeName" "" "").
Definition other_data : gmap string string :=
  {[ networkPolicyKey := Marshal (role_policies_json other_policies);
     nqnAuthorityKey := " nqn.2027-01.org.example " ]}.
Definition configured_process : Environ := λ n,
  if String.eqb n "KDFS_NETWORK_POLICY" then data_get networkPolicyKey other_data
  else if String.eqb n "NQN_AUTHORITY" then data_get nqnAuthorityKey other_data else "".
Lemma config_reaches_sidecars_witness :
  @policies configured_process = Ok (over_defaults other_policies) ∧
  over_defaults other_policies =
    mkRolePolicies (mkPolicy "hostIP" "podIP" "" "IPv6") (mkPolicy "" "" "5520" "")
      (mkPolicy "" "nodeName" "4421" "") ∧
  @authority configured_process = "nqn.2027-01.org.example".
Proof.
  destruct (config_reaches_sidecars configured_process other_data other_policies " nqn.2027-01.org.example "
    (EnginePodFor pod_engine [])
    (default (mkContainer "" "" [] [] [] None) (ps_Containers (pod_spec (EnginePodFor pod_engine [])) !! 1)))
    as [H1 H2].
  - left. by exists pod_engine, [].
  - reflexivity.
  - vm_compute. reflexivity.
  - vm_compute. reflexivity.
  - vm_compute. reflexivity.
  - repeat constructor; intros _ value Hv; vm_compute in Hv; injection Hv as <-; vm_compute; reflexivity.
  - split; [exact H1|]. split; [vm_compute; reflexivity|]. rw H2. vm_compute. reflexivity.
Defined.

Definition agent_at (name nodeName ip : string) : Pod :=
  mkPod (mkMeta name "kdfs" "" "" {[ "app" := "kdfs-node-agent" ]} [] [] None)
    (mkPodSpec nodeName "Always" [] []) (mkPodStatus PodRunning ip []).
Definition agents_answer (c : call ctl) : reply ctl c :=
  match c return ctl_reply c with
  | List KPod _ _ => Ok [agent_at "a" "w1" "10.0.0.1"; agent_at "b" "w2" "10.0.0.2"]
  | c => (mem_handler c empty_world).1
  end.
Definition factory_run :=
  run (snapshot_handler (S:=ctl) agents_answer) (replicaAgentFactory "kdfs" "w2") tt.
Lemma replicaAgentFactory_node_witness :
  factory_run.1.2 = Ok (HTTPAgent "http://10.0.0.2:9808") ∧
  ∃ (pods : list Pod) (i : nat) (pod : Pod), pods !! i = Some pod ∧ agent_pod "w2" pod = true ∧
    HTTPAgent "http://10.0.0.2:9808" = HTTPAgent (HTTPURL "http" (pst_PodIP (pod_status pod)) agentPort "").
Proof.
  split; [vm_compute; reflexivity|].
  destruct (replicaAgentFactory_node "kdfs" "w2" factory_run.1.1 (HTTPAgent "http://10.0.0.2:9808"))
    as (pods & i & pod & _ & H1 & H2 & _ & H3); [|by exists pods, i, pod].
  exact (exec_of_run _ _ tt _ eq_refl).
Defined.
