(* ===== verification/CsiPlugin.v ===== *)
(** * cmd/csi-plugin/main.go: the endpoint of the CSI plugin *)
From S2P Require Import Prelude GoStrings Os SidecarReplica.

(** [len(ep) >= 6 && ep[:7] == prefix]: slicing beyond the length panics. *)
Definition parseEndpoint (ep : string) : outcome (string * string) :=
  let len := String.length ep in
  if (6 <=? len)%nat && (len <? 7)%nat then Panics
  else if (6 <=? len)%nat && bool_decide (String.substring 0 7 ep = "unix://") then
    Returns ("unix", String.substring 7 (len - 7) ep)
  else if (5 <=? len)%nat && bool_decide (String.substring 0 5 ep = "tcp://") then
    Returns ("tcp", String.substring 5 (len - 5) ep)
  else Returns ("", "").

(** The stale socket is removed before the plugin listens at the address. *)
Definition clear_socket (proto addr : string) : OS unit :=
  if bool_decide (proto = "unix") then _ ← osRemove addr; Ret tt else Ret tt.

(** What the parser does of every endpoint: it panics on six bytes, knows
    socket paths, and takes nothing for TCP, whatever it says. *)
Lemma substring_length n s : String.length (String.substring 0 n s) = Nat.min n (String.length s).
Proof. revert s. induction n as [|n IH]; intros [|c s]; cbn; [done..|]. by rw IH. Qed.
Lemma substring_drop pre s :
  String.substring (String.length pre) (String.length s) (pre +:+ s) = s.
Proof.
  induction pre as [|c pre IH]; [|exact IH]. rw string_app_nil_l. cbn [String.length].
  induction s as [|c s IH]; [done|]. cbn. by rw IH.
Qed.
Theorem parseEndpoint_spec (ep : string) :
  parseEndpoint ep =
    if (String.length ep =? 6)%nat then Panics
    else match strip_prefix "unix://" ep with
         | Some path => Returns ("unix", path)
         | None => Returns ("", "")
         end.
Proof.
  unfold parseEndpoint. destruct (Nat.eqb_spec (String.length ep) 6) as [->|Hne]; [done|].
  assert ((6 <=? String.length ep)%nat && (String.length ep <? 7)%nat = false) as ->.
  { destruct (Nat.leb_spec 6 (String.length ep)), (Nat.ltb_spec (String.length ep) 7); try done. lia. }
  assert (bool_decide (String.substring 0 5 ep = "tcp://") = false) as ->.
  { apply bool_decide_false. intros Heq. apply (f_equal String.length) in Heq.
    rw substring_length in Heq. change (String.length "tcp://") with 6 in Heq. lia. }
  rw andb_false_r. destruct (strip_prefix "unix://" ep) as [path|] eqn:Hs.
  - apply strip_prefix_Some in Hs as ->.
    change (String.length ("unix://" +:+ path)) with (7 + String.length path).
    replace (7 + String.length path - 7) with (String.length path) by lia.
    rw (substring_drop "unix://" path) bool_decide_true; [done|by destruct path].
  - destruct (6 <=? String.length ep)%nat; [|done]. cbn [andb].
    rw bool_decide_false; [done|]. intros Heq.
    destruct ep as [|c1 [|c2 [|c3 [|c4 [|c5 [|c6 [|c7 s]]]]]]]; cbn in Heq; try discriminate.
    injection Heq as -> -> -> -> -> -> ->. done.
Qed.
