(* ===== verification/GoFloat.v ===== *)
(** * Floating-point numbers: float64, strconv.ParseFloat, %.1f

    The arithmetic is that of [SpecFloat], the specification of IEEE 754 in the
    standard library, at the width of float64. *)
From Stdlib Require Import Ascii SpecFloat.
From S2P Require Import Prelude GoStrings.

Abbreviation float64 := spec_float.
Definition f_add : float64 → float64 → float64 := SFadd 53 1024.
Definition f_mul : float64 → float64 → float64 := SFmul 53 1024.
Definition f_div : float64 → float64 → float64 := SFdiv 53 1024.
(** [float64(z)] for an integer *)
Definition of_int (z : Z) : float64 := binary_normalize 53 1024 z 0 false.
Definition f_zero : float64 := S754_zero false.

(** [math.Round]: halves away from zero *)
Definition math_Round (x : float64) : float64 :=
  match x with
  | S754_finite s m (Zneg k as e) =>
      match ((2 * Zpos m + 2 ^ Zpos k) / (2 * 2 ^ Zpos k))%Z with
      | Zpos n => binary_round 53 1024 s n 0
      | _ => S754_zero s
      end
  | x => x
  end.

(** [int(x)] of a float in range: towards zero *)
Definition trunc (x : float64) : Z :=
  match x with
  | S754_finite s m e =>
      let n := if (0 <=? e)%Z then (Zpos m * 2 ^ e)%Z else (Zpos m / 2 ^ (- e))%Z in
      if s then (- n)%Z else n
  | _ => 0%Z
  end.
(** [Duration.Seconds], [Minutes] and [Hours]: whole units, and the rest *)
Definition units (unit d : Z) : float64 :=
  f_add (of_int (Z.quot d unit)) (f_div (of_int (Z.rem d unit)) (of_int unit)).

(** ** strconv.ParseFloat *)

(** A mantissa as it is read: its digits, how many of them follow the point. *)
Record mantissa := mkMantissa {
  mt_value : Z; mt_frac : Z; mt_dot : bool; mt_digits : bool; mt_underscores : bool }.
Definition hex_letter (c : ascii) : bool :=
  let n := bN (lower_ascii c) in (97 <=? n)%N && (n <=? 102)%N.
Definition add_digit (base d : Z) (x : mantissa) : mantissa :=
  mkMantissa (mt_value x * base + d) (if mt_dot x then mt_frac x + 1 else mt_frac x)%Z (mt_dot x)
    true (mt_underscores x).
Fixpoint read_mantissa (hex : bool) (s : string) (x : mantissa) : mantissa * string :=
  match s with
  | "" => (x, "")
  | String c s' =>
      let base := if hex then 16%Z else 10%Z in
      if Ascii.eqb c "_" then
        read_mantissa hex s' (mkMantissa (mt_value x) (mt_frac x) (mt_dot x) (mt_digits x) true)
      else if Ascii.eqb c "." then
        if mt_dot x then (x, s)
        else read_mantissa hex s' (mkMantissa (mt_value x) (mt_frac x) true (mt_digits x) (mt_underscores x))
      else if is_digit c then read_mantissa hex s' (add_digit base (digit_val c) x)
      else if hex && hex_letter c then
        read_mantissa hex s' (add_digit base (Z.of_N (bN (lower_ascii c)) - 87) x)
      else (x, s)
  end.

(** The digits of an exponent, which stops growing at 10000: its value, whether
    there was an underscore, and what follows. *)
Fixpoint read_exponent (s : string) (e : Z) (underscores : bool) : Z * bool * string :=
  match s with
  | "" => (e, underscores, "")
  | String c s' =>
      if Ascii.eqb c "_" then read_exponent s' e true
      else if is_digit c then
        read_exponent s' (if (e <? 10000)%Z then e * 10 + digit_val c else e)%Z underscores
      else (e, underscores, s)
  end.
Definition signed (s : string) : bool * string :=
  match s with
  | String "+" s' => (false, s')
  | String "-" s' => (true, s')
  | _ => (false, s)
  end%char.
(** What follows the exponent's letter. *)
Definition exponent (s : string) : option (Z * bool * string) :=
  let '(negative, s) := signed s in
  match s with
  | String c _ =>
      if is_digit c then
        let '(e, underscores, rest) := read_exponent s 0 false in
        Some ((if negative then - e else e)%Z, underscores, rest)
      else None
  | "" => None
  end.

(** [underscoreOK]: the last byte seen *)
Inductive saw := SawStart | SawDigit | SawUnderscore | SawOther.
Fixpoint underscores_ok (hex : bool) (s : string) (last : saw) : bool :=
  match s with
  | "" => match last with SawUnderscore => false | _ => true end
  | String c s' =>
      if is_digit c || hex && hex_letter c then underscores_ok hex s' SawDigit
      else if Ascii.eqb c "_" then
        match last with SawDigit => underscores_ok hex s' SawUnderscore | _ => false end
      else match last with SawUnderscore => false | _ => underscores_ok hex s' SawOther end
  end.
Definition underscoreOK (s : string) : bool :=
  let s := (signed s).2 in
  match s with
  | String "0" (String c s') =>
      let c := lower_ascii c in
      if Ascii.eqb c "b" || Ascii.eqb c "o" || Ascii.eqb c "x"
      then underscores_ok (Ascii.eqb c "x") s' SawDigit
      else underscores_ok false s SawStart
  | _ => underscores_ok false s SawStart
  end%char.

(** The exact value that was read: [m] times the power of the base, and what
    follows. *)
Record float_text := mkFloatText {
  ft_negative : bool; ft_hex : bool; ft_mantissa : Z; ft_exponent : Z; ft_rest : string }.
Definition hex_prefix (s : string) : option string :=
  match s with
  | String "0" (String x (String _ _ as s')) =>
      if Ascii.eqb (lower_ascii x) "x" then Some s' else None
  | _ => None
  end%char.
Definition readFloat (text : string) : option float_text :=
  let '(negative, s) := signed text in
  let '(hex, s) := match hex_prefix s with Some s' => (true, s') | None => (false, s) end in
  let '(x, rest) := read_mantissa hex s (mkMantissa 0 0 false false false) in
  if negb (mt_digits x) then None
  else
    let shift := (if hex then - 4 * mt_frac x else - mt_frac x)%Z in
    let finish (e : Z) (underscores : bool) (rest : string) :=
      let consumed := String.substring 0 (String.length text - String.length rest) text in
      if (mt_underscores x || underscores) && negb (underscoreOK consumed) then None
      else Some (mkFloatText negative hex (mt_value x) (shift + e) rest) in
    match rest with
    | String c rest' =>
        if Ascii.eqb (lower_ascii c) (if hex then "p" else "e")%char then
          match exponent rest' with
          | Some (e, underscores, rest) => finish e underscores rest
          | None => None
          end
        else if hex then None else finish 0%Z false rest
    | "" => if hex then None else finish 0%Z false rest
    end.

(** The nearest float64, ties to even; infinite when it is too large. *)
Definition round_binary (negative : bool) (m e : Z) : float64 :=
  match m with Zpos m => binary_round 53 1024 negative m e | _ => S754_zero negative end.
Definition round_decimal (negative : bool) (m e : Z) : float64 :=
  match m with
  | Zpos p =>
      if (0 <=? e)%Z then round_binary negative (Zpos p * 10 ^ e) 0
      else f_div (S754_finite negative p 0) (S754_finite false (Z.to_pos (10 ^ (- e))) 0)
  | _ => S754_zero negative
  end.
Definition float_value (x : float_text) : float64 :=
  (if ft_hex x then round_binary else round_decimal) (ft_negative x) (ft_mantissa x) (ft_exponent x).

(** [special]: the infinities and NaN *)
Definition special (s : string) : option float64 :=
  let '(negative, t) := signed s in
  let t := ToLower t in
  if bool_decide (t = "inf") || bool_decide (t = "infinity") then Some (S754_infinity negative)
  else if bool_decide (ToLower s = "nan") then Some S754_nan
  else None.

(** The value that [strconv.ParseFloat(s, 64)] answers, which is zero for a text
    that is no number, next to the error, which is ignored. *)
Definition ParseFloat (s : string) : float64 :=
  match special s with
  | Some x => x
  | None =>
      match readFloat s with
      | Some x => if bool_decide (ft_rest x = "") then float_value x else f_zero
      | None => f_zero
      end
  end.

(** ** fmt.Sprintf("%.1f", x): the exact value, rounded half to even *)
Definition half_even (n d : Z) : Z :=
  let q := (n / d)%Z in
  match (2 * (n mod d) ?= d)%Z with
  | Lt => q
  | Eq => if Z.even q then q else (q + 1)%Z
  | Gt => (q + 1)%Z
  end.
Definition tenths (m e : Z) : Z :=
  if (0 <=? e)%Z then (m * 2 ^ e * 10)%Z else half_even (m * 10) (2 ^ (- e)).
Definition minus (negative : bool) : string := if negative then "-" else "".
Definition Sprintf_1f (x : float64) : string :=
  match x with
  | S754_nan => "NaN"
  | S754_infinity negative => if negative then "-Inf" else "+Inf"
  | S754_zero negative => minus negative +:+ "0.0"
  | S754_finite negative m e =>
      let t := tenths (Zpos m) e in
      minus negative +:+ Itoa (t / 10) +:+ "." +:+ Itoa (t mod 10)
  end.

(** Some texts and their values. *)
Example parse_texts :
  Sprintf_1f ∘ ParseFloat <$>
    ["10"; "+0.25"; "0.35"; "-2.5e-1"; "1_000"; "1__0"; "0x1.8p1"; "0x10"; "inf"; "-Infinity"; "nan";
     "1e400"; "ten"; ""; "5."; ".5"; "1e"; "9007199254740993"]
  = ["10.0"; "0.2"; "0.3"; "-0.2"; "1000.0"; "0.0"; "3.0"; "0.0"; "+Inf"; "-Inf"; "NaN";
     "+Inf"; "0.0"; "0.0"; "5.0"; "0.5"; "0.0"; "9007199254740992.0"].
Proof. vm_compute. reflexivity. Qed.

(** ** Integers below 2^53 are exact

    [is_int x n]: the float has the value [n], and no fewer bits than it. *)
Definition is_int (x : float64) (n : Z) : Prop :=
  n = 0%Z ∧ x = f_zero ∨
  ∃ m e, x = S754_finite false m e ∧ (e ≤ 0)%Z ∧ (0 < n)%Z ∧ Zpos m = (n * 2 ^ (- e))%Z.

Lemma digits2_log2 m : Zpos (digits2_pos m) = (Z.log2 (Zpos m) + 1)%Z.
Proof.
  induction m as [m IH|m IH|]; cbn [digits2_pos]; [| |done]; rw Pos2Z.inj_succ IH.
  - rw (Pos2Z.inj_xI m) Z.log2_succ_double; lia.
  - rw (Pos2Z.inj_xO m) Z.log2_double; lia.
Qed.
Lemma iter_xO m d : Zpos (Pos.iter xO m d) = (Zpos m * 2 ^ Zpos d)%Z.
Proof.
  induction d as [|d IH] using Pos.peano_ind; [cbn; lia|].
  rw Pos.iter_succ Pos2Z.inj_succ Z.pow_succ_r; [|lia]. rw Pos2Z.inj_xO IH. lia.
Qed.
Lemma shl_align_spec m e e' : (e' ≤ e)%Z →
  (shl_align m e e').2 = e' ∧ Zpos (shl_align m e e').1 = (Zpos m * 2 ^ (e - e'))%Z.
Proof.
  intros He. unfold shl_align. destruct (e' - e)%Z as [|p|p] eqn:E; [|lia|]; cbn.
  - replace (e - e')%Z with 0%Z by lia. lia.
  - rw iter_xO. split; [done|]. by replace (e - e')%Z with (Zpos p) by lia.
Qed.
Lemma shl_align_none m e e' : (e ≤ e')%Z → shl_align m e e' = (m, e).
Proof. intros He. unfold shl_align. by destruct (e' - e)%Z eqn:E; [| |lia]. Qed.
Definition exactly (m : Z) : shr_record := {| shr_m := m; shr_r := false; shr_s := false |}.
Lemma shr_1_double m : (0 < m)%Z → shr_1 (exactly (2 * m)) = exactly m.
Proof. by destruct m. Qed.
Lemma iter_shr p m : (0 < m)%Z → SpecFloat.iter_pos shr_1 p (exactly (m * 2 ^ Zpos p)) = exactly m.
Proof.
  revert m. induction p as [p IH|p IH|]; intros m Hm; cbn [SpecFloat.iter_pos].
  - replace (m * 2 ^ Zpos p~1)%Z with (2 * (m * 2 ^ Zpos p * 2 ^ Zpos p))%Z.
    + rw shr_1_double; [|lia]. by rw !IH; [|lia..].
    + rw (Pos2Z.inj_xI p). rw Z.pow_add_r; [|lia..]. rw Z.pow_twice_r. lia.
  - replace (m * 2 ^ Zpos p~0)%Z with (m * 2 ^ Zpos p * 2 ^ Zpos p)%Z.
    + by rw !IH; [|lia..].
    + rw (Pos2Z.inj_xO p) Z.pow_twice_r. lia.
  - replace (m * 2 ^ 1)%Z with (2 * m)%Z by lia. by apply shr_1_double.
Qed.
Lemma shr_exact m e k : (0 ≤ k)%Z → (0 < m)%Z → shr (exactly (m * 2 ^ k)) e k = (exactly m, (e + k)%Z).
Proof.
  intros Hk Hm. unfold shr. destruct k as [|p|p]; [|by rw iter_shr|lia].
  f_equal; [|lia]. f_equal. lia.
Qed.

(** An integer at a scale keeps its value when it is normalised. *)
Lemma binary_round_exact n M k :
  (0 < n < 2 ^ 53)%Z → (0 ≤ k)%Z → Zpos M = (n * 2 ^ k)%Z →
  is_int (binary_round 53 1024 false M (- k)) n.
Proof.
  intros Hn Hk HM. set (f := (Z.log2 n - 52)%Z).
  assert (0 ≤ Z.log2 n ≤ 52)%Z as Hlog.
  { split; [apply Z.log2_nonneg|]. apply Z.lt_succ_r, Z.log2_lt_pow2; lia. }
  assert (∀ j : Z, (0 ≤ j)%Z → (fexp 53 1024 (Z.log2 (n * 2 ^ j) + 1 + - j) = f)%Z) as Hfexp.
  { intros j Hj. rw Z.log2_mul_pow2; [|lia..]. unfold fexp, emin, f. lia. }
  assert (∃ mz ez, shl_align M (- k) f = (mz, ez) ∧ (ez ≤ f)%Z ∧ Zpos mz = (n * 2 ^ (- ez))%Z)
    as (mz & ez & Hshl & Hez & Hmz).
  { destruct (decide (f ≤ - k)%Z) as [Hf|Hf].
    - destruct (shl_align_spec M _ _ Hf) as [H1 H2]. destruct (shl_align M (- k) f) as [mz ez].
      cbn in H1, H2. subst ez. exists mz, f. split_and!; [done|lia|]. rw H2 HM.
      rewrite <-Z.mul_assoc, <-Z.pow_add_r by lia. do 2 f_equal. lia.
    - exists M, (- k)%Z. rw shl_align_none; [|lia]. split_and!; [done|lia|]. rw HM. do 2 f_equal. lia. }
  unfold binary_round. rw digits2_log2 HM Hfexp; [|done]. rw Hshl.
  assert (∀ e, (e ≤ 0)%Z → shr_fexp 53 1024 (n * 2 ^ (- e)) e loc_Exact =
    shr (exactly (n * 2 ^ (- e))) e (f - e)) as Hshr.
  { intros e He. unfold shr_fexp. do 2 f_equal. change (Zdigits2 ?z) with (Zdigits2 z).
    destruct (n * 2 ^ (- e))%Z as [|p|p] eqn:E; [lia| |lia]. cbn [Zdigits2]. rw digits2_log2 -E.
    rw -{2}(Z.opp_involutive e). apply Hfexp. lia. }
  unfold binary_round_aux. rw Hmz Hshr; [|lia].
  assert (n * 2 ^ (- ez) = n * 2 ^ (- f) * 2 ^ (f - ez))%Z as ->.
  { rewrite <-Z.mul_assoc, <-Z.pow_add_r by lia. do 2 f_equal. lia. }
  assert (0 < n * 2 ^ (- f))%Z as Hpos by lia.
  rw shr_exact; [|lia..]. replace (ez + (f - ez))%Z with f by lia. cbn [shr_m exactly loc_of_shr_record round_nearest_even].
  rw Hshr; [|lia]. rw Z.sub_diag. cbn [shr]. cbn [shr_m exactly].
  destruct (n * 2 ^ (- f))%Z as [|m|m] eqn:E; [lia| |lia].
  right. exists m, f. destruct (Z.leb_spec f (1024 - 53)); [|lia].
  split_and!; [done|lia|lia|by rw E].
Qed.

Lemma of_int_exact n : (0 ≤ n < 2 ^ 53)%Z → is_int (of_int n) n.
Proof.
  intros Hn. unfold of_int. destruct n as [|p|p]; [by left| |lia]. cbn [binary_normalize].
  apply (binary_round_exact (Zpos p) p 0); lia.
Qed.
Lemma is_int_nonneg x n : is_int x n → (0 ≤ n)%Z.
Proof. intros [[-> _]|(m & e & _ & _ & ? & _)]; lia. Qed.
(** Aligning two integers to a common scale. *)
Lemma align_int n m e ez :
  (ez ≤ e ≤ 0)%Z → Zpos m = (n * 2 ^ (- e))%Z → Zpos (shl_align m e ez).1 = (n * 2 ^ (- ez))%Z.
Proof.
  intros He Hm. destruct (shl_align_spec m e ez) as [_ ->]; [lia|]. rw Hm.
  rewrite <-Z.mul_assoc, <-Z.pow_add_r by lia. do 2 f_equal. lia.
Qed.
Lemma f_add_exact x y a b :
  is_int x a → is_int y b → (a + b < 2 ^ 53)%Z → is_int (f_add x y) (a + b).
Proof.
  intros [[-> ->]|(m1 & e1 & -> & He1 & Ha & Hm1)] [[-> ->]|(m2 & e2 & -> & He2 & Hb & Hm2)] Hab.
  - by left.
  - right. by exists m2, e2.
  - right. exists m1, e1. rw Z.add_0_r. done.
  - unfold f_add. cbn [SFadd cond_Zopp]. set (ez := Z.min e1 e2).
    rw (align_int a m1 e1 ez ltac:(lia) Hm1) (align_int b m2 e2 ez ltac:(lia) Hm2).
    replace (a * 2 ^ (- ez) + b * 2 ^ (- ez))%Z with ((a + b) * 2 ^ (- ez))%Z by lia.
    destruct ((a + b) * 2 ^ (- ez))%Z as [|M|M] eqn:E; [lia| |lia]. cbn [binary_normalize].
    replace ez with (- - ez)%Z by lia. apply binary_round_exact; [lia|lia|done].
Qed.

(** *** Printing and parsing them *)
Lemma Sprintf_1f_exact x n : is_int x n → Sprintf_1f x = Itoa n +:+ ".0".
Proof.
  intros [[-> ->]|(m & e & -> & He & Hn & Hm)]; [vm_compute; reflexivity|].
  assert (tenths (Zpos m) e = n * 10)%Z as Ht.
  { unfold tenths. destruct (Z.leb_spec 0 e).
    - assert (e = 0)%Z as -> by lia. change (2 ^ (- 0))%Z with 1%Z in Hm. change (2 ^ 0)%Z with 1%Z. lia.
    - unfold half_even. rw Hm. set (d := (2 ^ (- e))%Z). assert (0 < d)%Z by (unfold d; lia).
      replace (n * d * 10)%Z with (n * 10 * d)%Z by lia.
      rw Z.mod_mul; [|lia]. rw Z.div_mul; [|lia]. by destruct (Z.compare_spec (2 * 0) d); [lia| |lia]. }
  cbn [Sprintf_1f]. rw Ht Z.mod_mul; [|lia]. rw Z.div_mul; [|lia]. done.
Qed.
Lemma read_mantissa_digits s acc v d u :
  all_bytes is_digit s = true → parse_digits s acc = Some v →
  read_mantissa false s (mkMantissa acc 0 false d u) =
    (mkMantissa v 0 false (d || negb (bool_decide (s = ""))) u, "").
Proof.
  revert acc d. induction s as [|c s IH]; intros acc d; cbn [all_bytes parse_digits read_mantissa].
  - intros _ [= ->]. by rw bool_decide_true // orb_false_r.
  - intros [Hc Hs]%andb_true_iff. rw Hc. intros Hv.
    assert (Ascii.eqb c "_" = false ∧ Ascii.eqb c "." = false)%char as [-> ->].
    { split; apply Ascii.eqb_neq; by intros ->. }
    unfold add_digit. cbn [mt_value mt_dot mt_frac mt_underscores]. rw (IH _ _ Hs Hv).
    by rw (bool_decide_false (String c s = "")) // orb_true_r.
Qed.
Lemma digits_plain c s : all_bytes is_digit (String c s) = true →
  special (String c s) = None ∧ signed (String c s) = (false, String c s) ∧ hex_prefix (String c s) = None.
Proof.
  cbn. intros [Hc Hs]%andb_true_iff. split_and!.
  - destruct c as [[] [] [] [] [] [] [] []]; try done.
  - destruct c as [[] [] [] [] [] [] [] []]; done.
  - destruct s as [|x [|y s]]; [by destruct c as [[] [] [] [] [] [] [] []]..|].
    cbn in Hs. apply andb_true_iff in Hs as [Hx _].
    assert (Ascii.eqb (lower_ascii x) "x" = false) as Hl.
    { clear -Hx. destruct x as [[] [] [] [] [] [] [] []]; done. }
    unfold hex_prefix. rw Hl. by destruct c as [[] [] [] [] [] [] [] []].
Qed.
Lemma ParseFloat_Itoa n : (0 ≤ n < 2 ^ 53)%Z → is_int (ParseFloat (Itoa n)) n.
Proof.
  intros Hn. pose proof (Itoa_digits n ltac:(lia)) as Hd.
  assert (parse_unsigned (Itoa n) = Some n) as Hp.
  { rw Itoa_nonneg; [|lia]. rw pretty_N_parse. f_equal. lia. }
  destruct (Itoa n) as [|c s] eqn:E; [done|]. cbn [parse_unsigned] in Hp.
  destruct (digits_plain c s Hd) as (H1 & H2 & H3).
  unfold ParseFloat. rw H1. unfold readFloat. rw H2 H3 (read_mantissa_digits _ 0 n false false Hd Hp).
  rw (bool_decide_false (String c s = "")) //. cbn.
  unfold float_value. cbn. unfold round_decimal, round_binary. destruct n as [|p|p]; [by left| |lia].
  cbn. apply (binary_round_exact (Zpos p) _ 0); lia.
Qed.
