(* ===== verification/DashStats.v ===== *)
(** * internal/dashboard/handler.go: the statistics of the list page

    [computeStats] and [parseSizeToGi], over the floating-point numbers of
    GoFloat.v. *)
From Stdlib Require Import Ascii SpecFloat.
From S2P Require Import Prelude GoStrings K8s ApiTypes Names WireTypes Client GoFloat.

(** What the page uses of a claim: its class, and [Value()] of the storage it
    requests, an int64. *)
Record PersistentVolumeClaim := mkClaim {
  pvc_StorageClassName : option string; pvc_StorageRequest : option Z }.

Record nodeStat := mkNodeStat { nst_Name : string; nst_ReplicaCount : Z; nst_SizeGi : string }.
Record statsData := mkStats {
  sd_TotalVolumes : Z; sd_ReadyVolumes : Z; sd_TotalSizeGi : string; sd_TotalPVCCount : Z;
  sd_TotalPVCUsageGi : string; sd_NodeCount : Z; sd_Nodes : list nodeStat }.

(** ** parseSizeToGi *)
Definition TrimSuffix (s suf : string) : string :=
  match strip_prefix (string_rev suf) (string_rev s) with Some r => string_rev r | None => s end.
Definition parseSizeToGi (s : string) : float64 :=
  let s := TrimSpace s in
  if bool_decide (s = "") then f_zero
  else if HasSuffix s "Gi" then ParseFloat (TrimSuffix s "Gi")
  else if HasSuffix s "Mi" then f_div (ParseFloat (TrimSuffix s "Mi")) (of_int 1024)
  else if HasSuffix s "Ki" then f_div (ParseFloat (TrimSuffix s "Ki")) (of_int (1024 * 1024))
  else f_div (math_Round (f_mul (f_div (ParseFloat s) (of_int (1024 * 1024 * 1024))) (of_int 10)))
         (of_int 10).

(** ** computeStats *)
Definition size_of (v : Volume) : float64 := parseSizeToGi (vs_Size (vol_spec v)).
Definition gi (x : float64) : string := Sprintf_1f x +:+ " Gi".
Definition sizeTotal (volumes : list Volume) : float64 :=
  foldl (λ total v, f_add total (size_of v)) f_zero volumes.
Definition volumeSizes (volumes : list Volume) : gmap string float64 :=
  foldl (λ sizes v, <[vol_Name v := size_of v]> sizes) ∅ volumes.

(** [nodeReplicas] and [nodeReplicaSize], which have the same keys. *)
Definition node_totals : Type := gmap string (Z * float64).
Definition count_replica (size : float64) (totals : node_totals) (rep : ReplicaAttachment)
    : node_totals :=
  let '(count, total) := default (0%Z, f_zero) (totals !! ra_NodeID rep) in
  <[ra_NodeID rep := ((count + 1)%Z, f_add total size)]> totals.
Definition count_engine (sizes : gmap string float64) (totals : node_totals) (e : Engine)
    : node_totals :=
  foldl (count_replica (default f_zero (sizes !! es_VolumeRef (eng_spec e)))) totals (eng_Replicas e).
Definition nodeReplicas (sizes : gmap string float64) (engines : list Engine) : node_totals :=
  foldl (count_engine sizes) ∅ engines.
Definition node_stat (x : string * (Z * float64)) : nodeStat :=
  mkNodeStat x.1 x.2.1 (gi x.2.2).

(** The claims of the class, their number and what they request. *)
Definition kdfs_claim (p : PersistentVolumeClaim) : bool :=
  bool_decide (pvc_StorageClassName p = Some "kdfs").
Definition usage_of (p : PersistentVolumeClaim) : float64 → float64 :=
  match pvc_StorageRequest p with
  | Some qty => λ usage, f_add usage (f_div (of_int qty) (of_int (1024 * 1024 * 1024)))
  | None => λ usage, usage
  end.
Definition pvcUsage (claims : list PersistentVolumeClaim) : float64 :=
  foldl (λ usage p, usage_of p usage) f_zero claims.

Definition ready_volume (v : Volume) : bool := bool_decide (vst_Phase (vol_status v) = "Ready").
Definition count_if {A} (P : A → bool) (l : list A) : Z :=
  Z.of_nat (length (List.filter P l)).

Section stats.
(** The order in which a [range] goes through a map, which is any. *)
Variable range : node_totals → list (string * (Z * float64)).
Definition computeStats (volumes : list Volume) (engines : list Engine)
    (claims : list PersistentVolumeClaim) (nodes : list Node) : statsData :=
  let claims := List.filter kdfs_claim claims in
  mkStats (Z.of_nat (length volumes)) (count_if ready_volume volumes) (gi (sizeTotal volumes))
    (Z.of_nat (length claims)) (gi (pvcUsage claims)) (Z.of_nat (length nodes))
    (node_stat <$> range (nodeReplicas (volumeSizes volumes) engines)).
End stats.

(** ** template.go: the functions that the templates call *)
Definition Minute : Z := (60 * Second)%Z.
Definition Hour : Z := (60 * Minute)%Z.
Definition ago_text (d : Z) : string :=
  if (d <? Minute)%Z then Itoa (trunc (units Second d)) +:+ "s"
  else if (d <? Hour)%Z then Itoa (trunc (units Minute d)) +:+ "m"
  else if (d <? 24 * Hour)%Z then Itoa (trunc (units Hour d)) +:+ "h"
  else Itoa (trunc (f_div (units Hour d) (of_int 24))) +:+ "d".
Definition ago (t : Time) : M string := d ← Since t; Ret (ago_text d).
Definition phaseColor (s : string) : string :=
  if bool_decide (s ∈ ["Ready"; "Running"]) then "green"
  else if bool_decide (s ∈ ["Creating"; "Pending"]) then "yellow"
  else if bool_decide (s ∈ ["Failed"; "Error"]) then "red"
  else "grey".

(** ** Lemmas *)

(** The number of attachments on a node: a reference for the counts. *)
Definition on_node (node : string) (engines : list Engine) : Z :=
  count_if (λ ra, bool_decide (ra_NodeID ra = node)) (concat (eng_Replicas <$> engines)).
Definition counted (totals : node_totals) (node : string) : Z := (default (0%Z, f_zero) (totals !! node)).1.
(** Every node that is listed has a replica. *)
Definition populated (totals : node_totals) : Prop :=
  map_Forall (λ _ (x : Z * float64), (0 < x.1)%Z) totals.

Lemma count_if_cons {A} (P : A → bool) x l :
  count_if P (x :: l) = ((if P x then 1 else 0) + count_if P l)%Z.
Proof. unfold count_if. cbn. destruct (P x); cbn; lia. Qed.
Lemma count_if_app {A} (P : A → bool) l1 l2 :
  count_if P (l1 ++ l2) = (count_if P l1 + count_if P l2)%Z.
Proof. unfold count_if. rw List.filter_app length_app. lia. Qed.
Lemma count_replicas size reps totals :
  populated totals →
  populated (foldl (count_replica size) totals reps) ∧
  ∀ node, counted (foldl (count_replica size) totals reps) node =
    (counted totals node + count_if (λ ra, bool_decide (ra_NodeID ra = node)) reps)%Z.
Proof.
  revert totals. induction reps as [|rep reps IH]; intros totals Hpop; cbn [foldl].
  - split; [done|]. intros node. unfold count_if. cbn. lia.
  - unfold count_replica at 2 4. destruct (default _ _) as [c t] eqn:E.
    assert (0 ≤ c)%Z as Hc.
    { destruct (totals !! ra_NodeID rep) as [x|] eqn:Hx; cbn in E; [|by injection E as <- <-; lia].
      specialize (Hpop _ _ Hx). subst x. cbn in Hpop. lia. }
    destruct (IH (<[ra_NodeID rep := ((c + 1)%Z, f_add t size)]> totals)) as [Hp Hcount].
    { apply map_Forall_insert_2; [cbn; lia|done]. }
    split; [done|]. intros node. rw Hcount count_if_cons. unfold counted.
    destruct (bool_decide_reflect (ra_NodeID rep = node)) as [<-|Hne].
    + rw lookup_insert_eq E. cbn. lia.
    + by rw lookup_insert_ne.
Qed.
Lemma count_engines sizes engines totals :
  populated totals →
  populated (foldl (count_engine sizes) totals engines) ∧
  ∀ node, counted (foldl (count_engine sizes) totals engines) node =
    (counted totals node + on_node node engines)%Z.
Proof.
  revert totals. induction engines as [|e engines IH]; intros totals Hpop; cbn [foldl].
  - split; [done|]. intros node. unfold on_node, count_if. cbn. lia.
  - destruct (count_replicas (default f_zero (sizes !! es_VolumeRef (eng_spec e)))
      (eng_Replicas e) totals Hpop) as [Hp Hc].
    destruct (IH _ Hp) as [Hp' Hc']. split; [done|]. intros node. rw Hc'.
    rw Hc. unfold on_node. rw fmap_cons. cbn [concat]. rw count_if_app. lia.
Qed.

Lemma TrimSuffix_app s suf : TrimSuffix (s +:+ suf) suf = s.
Proof.
  unfold TrimSuffix. rw string_rev_app strip_prefix_app. apply string_rev_involutive.
Qed.
(** The size of a volume made by the dashboard is read back. *)
Lemma parse_gi n : (0 ≤ n < 2 ^ 53)%Z → is_int (parseSizeToGi (Itoa n +:+ "Gi")) n.
Proof.
  intros Hn. pose proof (Itoa_digits n ltac:(lia)) as Hd. unfold parseSizeToGi.
  rw TrimSpace_visible.
  - rw bool_decide_false; [|by destruct (Itoa n)].
    assert (HasSuffix (Itoa n +:+ "Gi") "Gi" = true) as -> by (apply HasSuffix_spec; by eexists).
    rw TrimSuffix_app. by apply ParseFloat_Itoa.
  - rw all_bytes_app andb_true_r. eapply all_bytes_impl; [|exact Hd].
    intros c. unfold is_digit, visible, bN. rw !andb_true_iff !N.leb_le !N.ltb_lt. lia.
Qed.
Definition sum_Z (l : list Z) : Z := foldr Z.add 0%Z l.
Lemma sum_sizes volumes ns total n :
  Forall2 (λ v n, vs_Size (vol_spec v) = Itoa n +:+ "Gi") volumes ns →
  Forall (λ n, 0 ≤ n)%Z ns → is_int total n → (n + sum_Z ns < 2 ^ 53)%Z →
  is_int (foldl (λ total v, f_add total (size_of v)) total volumes) (n + sum_Z ns).
Proof.
  intros Hsizes. revert total n. induction Hsizes as [|v m volumes ns Hv _ IH]; intros total n Hpos Ht Hsum.
  - cbn. by rw Z.add_0_r.
  - apply Forall_cons in Hpos as [Hm Hpos]. cbn [foldl sum_Z foldr] in *.
    assert (0 ≤ sum_Z ns)%Z as Hns by (clear -Hpos; induction Hpos; unfold sum_Z in *; cbn; [done|lia]).
    fold (sum_Z ns) in *. rw Z.add_assoc. apply IH; [done| |lia].
    apply f_add_exact; [done| |lia]. unfold size_of. rw Hv. apply parse_gi.
    pose proof (is_int_nonneg _ _ Ht). lia.
Qed.

(** ** Properties *)

(** Two volumes, the first with replicas on two nodes. *)
Definition listed_volume (name size : string) : Volume :=
  mkVolume (newMeta name "kdfs") (mkVolumeSpec size "" "" "auto" None) zeroVolumeStatus.
Definition listed_engine (name : string) (nodes : list string) : Engine :=
  mkEngine (newMeta (EngineName name) "kdfs")
    (mkEngineSpec name "w1" (imap (λ i node, newAttachment (ReplicaName name (Z.of_nat i)) node) nodes))
    zeroEngineStatus.
Definition listed_stats : statsData :=
  computeStats map_to_list [listed_volume "a" "10Gi"; listed_volume "b" "7Gi"]
    [listed_engine "a" ["w1"; "w2"]; listed_engine "b" ["w1"]] [mkClaim (Some "kdfs") (Some 536870912%Z)] [].

(** The nodes of the statistics, in whatever order the map is gone through:
    each is listed once, exactly the nodes that some engine has attached a
    replica on, with the number of these attachments over all engines. *)
Theorem computeStats_nodes (range : node_totals → list (string * (Z * float64)))
    (volumes : list Volume) (engines : list Engine) (claims : list PersistentVolumeClaim)
    (nodes : list Node) :
  (∀ totals, range totals ≡ₚ map_to_list totals) →
  let listed := sd_Nodes (computeStats range volumes engines claims nodes) in
  NoDup (nst_Name <$> listed) ∧
  ∀ node count,
    (node, count) ∈ ((λ s, (nst_Name s, nst_ReplicaCount s)) <$> listed) ↔
    count = on_node node engines ∧ (0 < count)%Z.
Proof.
  intros Hrange. cbn [sd_Nodes computeStats]. cbv zeta.
  destruct (count_engines (volumeSizes volumes) engines ∅ (map_Forall_empty _)) as [Hpop Hcount].
  change (foldl _ ∅ engines) with (nodeReplicas (volumeSizes volumes) engines) in Hpop, Hcount.
  revert Hpop Hcount. generalize (nodeReplicas (volumeSizes volumes) engines). intros totals Hpop Hcount.
  rw -!list_fmap_compose. split.
  - change (nst_Name ∘ node_stat) with (fst : string * (Z * float64) → string).
    rw (fmap_Permutation fst _ _ (Hrange totals)). apply NoDup_fst_map_to_list.
  - intros node count. rw list_elem_of_fmap. unfold counted in Hcount. specialize (Hcount node).
    rw lookup_empty in Hcount. cbn in Hcount. split.
    + intros ([k [c t]] & [= -> ->] & Hin). rw Hrange in Hin. apply elem_of_map_to_list in Hin.
      rw Hin in Hcount. cbn in Hcount. split; [lia|]. exact (Hpop _ _ Hin).
    + intros [Hc Hpos]. destruct (totals !! node) as [[c t]|] eqn:E; cbn in Hcount; [|lia].
      exists (node, (c, t)). split; [cbn; f_equal; lia|]. rw Hrange. by apply elem_of_map_to_list.
Qed.
Lemma computeStats_nodes_witness :
  ("w1", 2%Z) ∈ ((λ s, (nst_Name s, nst_ReplicaCount s)) <$> sd_Nodes listed_stats).
Proof.
  apply (computeStats_nodes map_to_list [listed_volume "a" "10Gi"; listed_volume "b" "7Gi"]
    [listed_engine "a" ["w1"; "w2"]; listed_engine "b" ["w1"]] _ []).
  - intros totals. reflexivity.
  - split; [vm_compute; reflexivity|lia].
Defined.

(** The total size is exact: volumes whose sizes are whole numbers of Gi, as
    the dashboard makes them, and together below 2^53, are shown with the sum
    of these numbers, however the floating-point sum is rounded on the way. *)
Theorem computeStats_total (range : node_totals → list (string * (Z * float64)))
    (volumes : list Volume) (engines : list Engine) (claims : list PersistentVolumeClaim)
    (nodes : list Node) (sizes : list Z) :
  Forall2 (λ v n, vs_Size (vol_spec v) = Itoa n +:+ "Gi") volumes sizes →
  Forall (λ n, 0 ≤ n)%Z sizes → (sum_Z sizes < 2 ^ 53)%Z →
  sd_TotalSizeGi (computeStats range volumes engines claims nodes) = Itoa (sum_Z sizes) +:+ ".0 Gi".
Proof.
  intros Hsizes Hpos Hsum. cbn [sd_TotalSizeGi computeStats]. unfold gi.
  rw (Sprintf_1f_exact _ (sum_Z sizes)); [by rw string_app_assoc|].
  unfold sizeTotal. change (sum_Z sizes) with (0 + sum_Z sizes)%Z.
  apply sum_sizes; [done..|by left|done].
Qed.
Lemma computeStats_total_witness :
  sd_TotalSizeGi listed_stats = "17.0 Gi" ∧ sd_TotalSizeGi listed_stats = Itoa (sum_Z [10; 7]%Z) +:+ ".0 Gi".
Proof.
  split; [vm_compute; reflexivity|].
  apply (computeStats_total map_to_list [listed_volume "a" "10Gi"; listed_volume "b" "7Gi"]
    [listed_engine "a" ["w1"; "w2"]; listed_engine "b" ["w1"]] _ [] [10; 7]%Z).
  - repeat constructor.
  - repeat constructor; lia.
  - reflexivity.
Defined.

(** Suffixes that are sizes for Kubernetes, but not for this function, count as
    nothing. *)
Theorem parseSizeToGi_suffixes :
  Sprintf_1f ∘ parseSizeToGi <$> ["1Ti"; "10G"; "512Mi"; "1073741824"; "1.5Gi"; "1e3Gi"] =
    ["0.0"; "0.0"; "0.5"; "1.0"; "1.5"; "1000.0"].
Proof. vm_compute. reflexivity. Qed.
Theorem ago_text_examples :
  ago_text <$> [0; 59 * Second + 999999999; Minute; Hour - 1; Hour; 24 * Hour - 1; 24 * Hour; - Second]%Z =
    ["0s"; "59s"; "1m"; "59m"; "1h"; "23h"; "1d"; "-1s"].
Proof. vm_compute. reflexivity. Qed.
