(* ===== verification/Dashboard.v ===== *)
(** * internal/dashboard: the web dashboard

    The handlers as programs over the API server, with the forms they validate
    and the pages they render, and the mux that calls them.  The text of a page
    is a parameter: it is made by html/template. *)
From Stdlib Require Import Ascii.
From S2P Require Import Prelude GoStrings GoNet GoJson K8s ApiTypes Names WireTypes Client MemStore JsonParse HttpServer NodeAgent GoFloat DashStats.

(** ** The calls: those of the controllers, merge patches of a volume, and lists
    of claims *)
Inductive extra_call :=
  | PatchVolume (key : NamespacedName) (patch : string)
  | ListClaims (namespace : string).
Definition extra_reply (c : extra_call) : Type :=
  match c with
  | PatchVolume _ _ => result Volume
  | ListClaims _ => result (list PersistentVolumeClaim)
  end.
Definition extra : sig := Sig extra_call extra_reply.
Definition dash : sig := both ctl extra.
Abbreviation D := (prog dash).
Definition api {A} (p : M A) : D A := on_left p.
Definition kPatch (key : NamespacedName) (patch : string) : D (result Volume) :=
  on_right (ask (S:=extra) (PatchVolume key patch)).
Definition kListClaims (namespace : string) : D (result (list PersistentVolumeClaim)) :=
  on_right (ask (S:=extra) (ListClaims namespace)).

(** ** Requests and responses

    The values of a path's wildcards, the header of an HTMX request, and the
    form, when it parses. *)
Record DashRequest := mkDashRequest {
  dq_Method : string; dq_Path : list string (* its segments, as they are escaped *); dq_HX : bool; dq_Form : result (gmap string string) }.
(** A piece of a body: a text, an error's text, and the same escaped for HTML. *)
Inductive piece := Lit (s : string) | ErrText (e : error) | EscapedErr (e : error) | Escaped (s : string).
Record DashResponse := mkDash {
  d_Code : Z; d_Redirect : option string  (* HX-Redirect *); d_Body : list piece }.
(** [http.Error] ends the text with a newline. *)
Definition http_error (msg : list piece) (code : Z) : DashResponse :=
  mkDash code None (msg ++ [Lit (String newline "")]).
Definition httpError (prefix : string) (e : error) (code : Z) : DashResponse :=
  http_error [Lit prefix; ErrText e] code.
Definition in_quotes (s : string) : string := q1 dquote +:+ s +:+ q1 dquote.
Definition mark (color : string) (msg : list piece) : list piece :=
  [Lit ("<mark style=" +:+ in_quotes ("color:" +:+ color) +:+ ">")] ++ msg ++ [Lit "</mark>"].
Definition red : list piece → list piece := mark "red".
Definition green : list piece → list piece := mark "green".
(** A row of a table that spans [n] columns. *)
Definition row (n : string) (msg : list piece) : list piece :=
  [Lit ("<tr><td colspan=" +:+ in_quotes n +:+ ">")] ++ msg ++ [Lit "</td></tr>"].
Definition refuse (msg : string) : DashResponse := mkDash 400 None (red [Lit msg]).
Definition FormValue (key : string) (form : gmap string string) : string := default "" (form !! key).

(** The pages and their data. *)
Record replicaView := mkView {
  rv_Name : string; rv_NodeID : string; rv_IsLocal : bool; rv_Phase : string; rv_NQN : string }.
Record volumeRow := mkRow { vr_Volume : Volume; vr_DisplayReplicaCount : Z }.
Inductive page :=
  | ListPage (rows : list volumeRow) (stats : statsData)
  | ListBodyPage (rows : list volumeRow) (stats : statsData)
  | CreatePage
  | DetailPage (v : Volume) (replicaCount : Z)
  | OverviewPage (v : Volume) (replicaCount : Z)
  | ReplicasPage (views : list replicaView) (volumeName : string)
  | ScalePage (name : string) (replicaCount : Z)
  | DeletePage (name : string)
  | SnapshotsPage (snapshots : list Snapshot) (volumeName : string).

(** ** Validation *)
Definition maxKubernetesNameLength : nat := 253.
Definition lower_alnum (c : ascii) : bool :=
  let n := bN c in ((97 <=? n) && (n <=? 122) || (48 <=? n) && (n <=? 57))%N.
Definition name_byte (c : ascii) : bool := lower_alnum c || Ascii.eqb c "-".
Definition first_byte (P : ascii → bool) (s : string) : bool :=
  match s with String c _ => P c | "" => false end.
(** [namePattern.MatchString]: name bytes, of which the first and the last are
    letters or digits *)
Definition namePattern (s : string) : bool :=
  first_byte lower_alnum s && first_byte lower_alnum (string_rev s) && all_bytes name_byte s.
Definition fits (name : string) : bool :=
  (String.length name <=? maxKubernetesNameLength)%nat &&
  (String.length (name +:+ "-pod") <=? maxKubernetesNameLength)%nat.
Definition derivedVolumeNamesFit (volumeName : string) : bool :=
  fits (EngineName volumeName) && forallb (λ idx, fits (ReplicaName volumeName idx)) [0; 9; 99; 999]%Z.

(** The checks of a name, or the message of the first that fails. *)
Definition check_name (what : string) (name : string) : option string :=
  if bool_decide (name = "") || (maxKubernetesNameLength <? String.length name)%nat then
    Some (what +:+ " is required (max 253 characters)")
  else if negb (namePattern name) then
    Some (what +:+ " must consist of lowercase letters, digits, and hyphens")
  else None.
Definition check_volume_name (what : string) (name : string) : option string :=
  match check_name what name with
  | Some msg => Some msg
  | None =>
      if negb (derivedVolumeNamesFit name) then
        Some (what +:+ " is too long for generated engine, replica, and pod names")
      else None
  end.

Section handler.
(** The templates' output and the error of rendering; the order of a [range]
    over a map. *)
Variable Render : page → string * option error.
Variable range : node_totals → list (string * (Z * float64)).
Variable namespace : string.
Abbreviation key := (mkName namespace).

(** An error after output has been written keeps the status 200. *)
Definition render (p : page) : D DashResponse :=
  Ret (match Render p with
       | (text, None) => mkDash 200 None [Lit text]
       | (text, Some err) =>
           mkDash (if bool_decide (text = "") then 500 else 200)%Z None
             (Lit text :: d_Body (httpError "render error: " err 500))
       end).

Definition getVolumeEngine (volume : Volume) : D (result (option Engine)) :=
  match vst_EngineRef (vol_status volume) with
  | None => Ret (Ok None)
  | Some ref =>
      if bool_decide (nor_Name ref = "") then Ret (Ok None)
      else
        engine ←? api (kGet KEngine (key (nor_Name ref)));
        Ret (Ok (Some engine))
  end.
Definition effectiveReplicaCount (volume : Volume) : D Z :=
  r ← getVolumeEngine volume;
  Ret (match r with
       | Ok (Some engine) => Z.of_nat (length (eng_Replicas engine))
       | _ =>
           match ParseReplicaCount (vs_ReplicaCount (vol_spec volume)) with
           | Ok (count, false) => count
           | _ => 0%Z
           end
       end).

(** ** The list page *)
Definition list_or {A} (p : D (result (list A))) (msg : string) (next : list A → D DashResponse)
    : D DashResponse :=
  r ← p;
  match r with Err err => Ret (httpError msg err 500) | Ok l => next l end.
(** The number of attachments by the name of the volume. *)
Definition engineCounts (engines : list Engine) : gmap string Z :=
  foldl (λ counts e,
    if bool_decide (es_VolumeRef (eng_spec e) ≠ "")
    then <[es_VolumeRef (eng_spec e) := Z.of_nat (length (eng_Replicas e))]> counts else counts)
    ∅ engines.
Fixpoint volume_rows (counts : gmap string Z) (volumes : list Volume) : D (list volumeRow) :=
  match volumes with
  | [] => Ret []
  | v :: volumes' =>
      count ← effectiveReplicaCount v;
      let count :=
        match counts !! vol_Name v with
        | Some c => if (c >? 0)%Z then c else count
        | None => count
        end in
      rows ← volume_rows counts volumes';
      Ret (mkRow v count :: rows)
  end.
Definition HandleList (hx : bool) : D DashResponse :=
  list_or (api (kList KVolume (Some namespace) ∅)) "failed to list volumes: " (λ volumes,
  list_or (api (kList KEngine (Some namespace) ∅)) "failed to list engines: " (λ engines,
  list_or (api (kList KNode None ∅)) "failed to list nodes: " (λ nodes,
  list_or (kListClaims namespace) "failed to list PVCs: " (λ pvcs,
    let stats := computeStats range volumes engines pvcs nodes in
    rows ← volume_rows (engineCounts engines) volumes;
    render (if hx : bool then ListBodyPage rows stats else ListPage rows stats))))).

(** ** Creating and showing volumes *)
Definition HandleCreateForm : D DashResponse := render CreatePage.
Definition new_volume (name size replicaCount : string) : Volume :=
  mkVolume (newMeta name namespace) (mkVolumeSpec (size +:+ "Gi") "" "" replicaCount None)
    zeroVolumeStatus.
(** [Create], and the answer to a failure. *)
Definition create_or {k} (o : obj k) (done : DashResponse) : D DashResponse :=
  r ← api (kCreate k o);
  Ret (match r with
       | Err err => mkDash 500 None (red [Lit "Create failed: "; EscapedErr err])
       | Ok _ => done
       end).
Definition create_volume (name size replicaCountStr : string) : D DashResponse :=
  match check_volume_name "Name" name with
  | Some msg => Ret (refuse msg)
  | None =>
      match Atoi size with
      | Some sizeNum =>
          if (sizeNum <=? 0)%Z then Ret (refuse "Size must be a positive integer (Gi)")
          else
            let replicaCount := if bool_decide (replicaCountStr = "") then "auto" else replicaCountStr in
            match ParseReplicaCount replicaCount with
            | Err _ => Ret (refuse ("Replica count must be " +:+ in_quotes "auto" +:+ " or a positive integer"))
            | Ok _ => create_or (k:=KVolume) (new_volume name size replicaCount) (mkDash 200 (Some "/") [])
            end
      | None => Ret (refuse "Size must be a positive integer (Gi)")
      end
  end.
Definition HandleCreate (r : DashRequest) : D DashResponse :=
  match dq_Form r with
  | Err err => Ret (httpError "bad form: " err 400)
  | Ok form => create_volume (FormValue "name" form) (FormValue "size" form) (FormValue "replicaCount" form)
  end.

(** A page of a volume. *)
Definition volume_page (name : string) (missing : error → DashResponse) (p : Volume → Z → page)
    : D DashResponse :=
  r ← api (kGet KVolume (key name));
  match r with
  | Err err => Ret (missing err)
  | Ok volume => count ← effectiveReplicaCount volume; render (p volume count)
  end.
Definition HandleDetail (name : string) : D DashResponse :=
  volume_page name (λ err, httpError "volume not found: " err 404) DetailPage.
Definition HandleOverview (name : string) : D DashResponse :=
  volume_page name (λ err, httpError "volume not found: " err 404) OverviewPage.
Definition HandleScaleForm (name : string) : D DashResponse :=
  volume_page name (λ _, http_error [Lit "not found"] 404) (λ _, ScalePage name).

Definition renderEmptyReplicas : D DashResponse := render (ReplicasPage [] "").
Definition replica_view (engine : Engine) (rep : ReplicaAttachment) : D replicaView :=
  r ← api (kGet KReplica (key (ra_Name rep)));
  let '(phase, nqn) :=
    match r with
    | Err _ => ("Unknown", ra_NQN rep)
    | Ok repCR =>
        (rst_Phase (rep_status repCR),
         if bool_decide (rst_NQN (rep_status repCR) ≠ "") then rst_NQN (rep_status repCR)
         else ra_NQN rep)
    end in
  Ret (mkView (ra_Name rep) (ra_NodeID rep)
         (bool_decide (ra_NodeID rep = es_NodeID (eng_spec engine))) phase nqn).
Fixpoint replica_views (engine : Engine) (reps : list ReplicaAttachment) : D (list replicaView) :=
  match reps with
  | [] => Ret []
  | rep :: reps' =>
      view ← replica_view engine rep;
      views ← replica_views engine reps';
      Ret (view :: views)
  end.
Definition HandleReplicas (name : string) : D DashResponse :=
  r ← api (kGet KVolume (key name));
  match r with
  | Err _ => renderEmptyReplicas
  | Ok volume =>
      e ← getVolumeEngine volume;
      match e with
      | Ok (Some engine) =>
          views ← replica_views engine (eng_Replicas engine);
          render (ReplicasPage views name)
      | _ => renderEmptyReplicas
      end
  end.

(** ** Scaling and deleting *)
Definition scale_patch (count : Z) : string :=
  Marshal (JObj [("spec", JObj [("replicaCount", JStr (Itoa count))])]).
Definition HandleScale (name : string) (r : DashRequest) : D DashResponse :=
  match dq_Form r with
  | Err _ => Ret (refuse "Invalid form")
  | Ok form =>
      let countStr := FormValue "replicaCount" form in
      match ParseReplicaCount countStr with
      | Ok (count, false) =>
          p ← kPatch (key name) (scale_patch count);
          Ret (match p with
               | Err err => mkDash 500 None (red [Lit "Scale failed: "; EscapedErr err])
               | Ok _ => mkDash 200 None (green [Lit "Scaled to "; Escaped countStr; Lit " replicas"])
               end)
      | _ => Ret (refuse "Replica count must be a positive integer")
      end
  end.

Definition failed_row (msg : string) (e : error) : DashResponse :=
  mkDash 500 None (row "6" (red [Lit msg; EscapedErr e])).
Definition without_replica (replicaName : string) (reps : list ReplicaAttachment) :=
  filter (λ rep, ra_Name rep ≠ replicaName) reps.
(** Taking a replica out of the engine's spec: the error of the update. *)
Definition detach_replica (replicaName : string) (volume : Volume) : D (result unit) :=
  e ← getVolumeEngine volume;
  match e with
  | Ok (Some engine) =>
      let filtered := without_replica replicaName (eng_Replicas engine) in
      if (length filtered <? length (eng_Replicas engine))%nat then
        _ ←? api (kUpdate KEngine (eng_set_Replicas filtered engine));
        Ret (Ok tt)
      else Ret (Ok tt)
  | _ => Ret (Ok tt)
  end.
Definition heal_patch (now : Time) : string :=
  Marshal (JObj [("metadata", JObj [("annotations",
    JObj [("kdfs.krea.to/last-heal", JStr (Itoa (now / Second)))])])]).
Definition HandleDeleteReplica (volumeName replicaName : string) : D DashResponse :=
  d ← api (kDelete KReplica (key replicaName));
  match d with
  | Err err => Ret (failed_row "Delete failed: " err)
  | Ok _ =>
      let deleted := mkDash 200 None (row "6" [Lit "Deleted"]) in
      v ← api (kGet KVolume (key volumeName));
      match v with
      | Err _ => Ret deleted
      | Ok volume =>
          u ← detach_replica replicaName volume;
          match u with
          | Err err => Ret (failed_row "Engine update failed: " err)
          | Ok _ =>
              now ← api timeNow;
              p ← kPatch (key_of (vol_meta volume)) (heal_patch now);
              Ret (match p with
                   | Err err => failed_row "Patch failed: " err
                   | Ok _ => deleted
                   end)
          end
      end
  end.
Definition HandleDeleteForm (name : string) : D DashResponse := render (DeletePage name).
Definition HandleDelete (name : string) : D DashResponse :=
  d ← api (kDelete KVolume (key name));
  Ret (match d with
       | Err err => httpError "delete failed: " err 500
       | Ok _ => mkDash 200 (Some "/") []
       end).

(** ** Snapshots *)
Definition HandleSnapshots (volumeName : string) : D DashResponse :=
  l ← api (kList KSnapshot (Some namespace) ∅);
  match l with
  | Err err => Ret (mkDash 500 None (red [Lit "failed to list snapshots: "; EscapedErr err]))
  | Ok snapshots =>
      render (SnapshotsPage (filter (λ s, ss_VolumeRef (snap_spec s) = volumeName) snapshots) volumeName)
  end.
Definition HandleSnapshotDelete (snapshotName : string) : D DashResponse :=
  d ← api (kDelete KSnapshot (key snapshotName));
  Ret (match d with
       | Err err => mkDash 500 None (red [Lit "Delete failed: "; EscapedErr err])
       | Ok _ => mkDash 200 None (row "5" [Lit "Deleted"])
       end).
Definition new_snapshot (volumeName snapshotName : string) : Snapshot :=
  mkSnapshot (newMeta snapshotName namespace) (mkSnapshotSpec volumeName snapshotName)
    zeroSnapshotStatus.
(** The object that a form refers to, or the answer that it is not there. *)
Definition get_or {k} (name msg : string) (next : obj k → D DashResponse) : D DashResponse :=
  r ← api (kGet k (key name));
  match r with
  | Err err => Ret (mkDash 400 None (red [Lit msg; EscapedErr err]))
  | Ok o => next o
  end.
Definition create_snapshot (volumeName snapshotName : string) : D DashResponse :=
  match check_name "Name" snapshotName with
  | Some msg => Ret (refuse msg)
  | None =>
      get_or (k:=KVolume) volumeName "Source volume not found: " (λ _,
        create_or (k:=KSnapshot) (new_snapshot volumeName snapshotName)
          (mkDash 200 (Some ("/volumes/" +:+ volumeName +:+ "/snapshots"))
             (green [Lit ("Snapshot " +:+ snapshotName +:+ " created")])))
  end.
Definition HandleSnapshotCreate (volumeName : string) (r : DashRequest) : D DashResponse :=
  match dq_Form r with
  | Err err => Ret (httpError "bad form: " err 400)
  | Ok form => create_snapshot volumeName (FormValue "name" form)
  end.

Definition restored_volume (source : Volume) (snap : Snapshot) (restoreName snapshotName : string)
    : Volume :=
  mkVolume (newMeta restoreName namespace)
    (mkVolumeSpec (vs_Size (vol_spec source)) "" (sst_EngineNode (snap_status snap)) "1"
       (Some snapshotName)) zeroVolumeStatus.
Definition create_from (volumeName snapshotName restoreName : string) : D DashResponse :=
  match check_volume_name "Volume name" restoreName with
  | Some msg => Ret (refuse msg)
  | None =>
      get_or (k:=KVolume) volumeName "Source volume not found: " (λ source,
      get_or (k:=KSnapshot) snapshotName "Snapshot not found: " (λ snap,
        if negb (sst_ReadyToUse (snap_status snap)) then Ret (refuse "Snapshot is not ready yet")
        else
          create_or (k:=KVolume) (restored_volume source snap restoreName snapshotName)
            (mkDash 200 (Some ("/volumes/" +:+ restoreName))
               (green [Lit ("Volume " +:+ restoreName +:+ " created from snapshot")]))))
  end.
Definition HandleSnapshotCreateFromSnapshot (volumeName snapshotName : string) (r : DashRequest)
    : D DashResponse :=
  match dq_Form r with
  | Err err => Ret (httpError "bad form: " err 400)
  | Ok form => create_from volumeName snapshotName (FormValue "name" form)
  end.

(** *** Restoring a volume in place *)
Definition delete_engine (volumeName : string) : D (result unit) :=
  e ← api (kGet KEngine (key (EngineName volumeName)));
  match e with
  | Err _ => Ret (Ok tt)
  | Ok engine => api (kDelete KEngine (key_of (eng_meta engine)))
  end.
Definition cleared_volume (volume : Volume) : Volume :=
  mkVolume (vol_meta volume) (vol_spec volume) zeroVolumeStatus.
(** Errors of the deletions are ignored. *)
Fixpoint delete_replicas (volumeName : string) (replicas : list Replica) : D unit :=
  match replicas with
  | [] => Ret tt
  | rep :: replicas' =>
      if bool_decide (rs_VolumeRef (rep_spec rep) = volumeName) then
        _ ← api (kDelete KReplica (key_of (rep_meta rep)));
        delete_replicas volumeName replicas'
      else delete_replicas volumeName replicas'
  end.
Definition delete_all_replicas (volumeName : string) : D unit :=
  l ← api (kList KReplica (Some namespace) ∅);
  match l with Err _ => Ret tt | Ok replicas => delete_replicas volumeName replicas end.
Definition with_source (snapshotName : string) (volume : Volume) : Volume :=
  let s := vol_spec volume in
  mkVolume (vol_meta volume)
    (mkVolumeSpec (vs_Size s) (vs_StorageClassName s) (vs_NodeID s) (vs_ReplicaCount s)
       (Some snapshotName)) (vol_status volume).
Definition restore (volumeName snapshotName : string) (volume : Volume) : D DashResponse :=
  d ← delete_engine volumeName;
  match d with
  | Err err => Ret (httpError "delete engine: " err 500)
  | Ok _ =>
      u ← api (kStatusUpdate KVolume (cleared_volume volume));
      match u with
      | Err err => Ret (httpError "clear volume status: " err 500)
      | Ok volume =>
          _ ← delete_all_replicas volumeName;
          u ← api (kUpdate KVolume (with_source snapshotName volume));
          Ret (match u with
               | Err err => httpError "update volume: " err 500
               | Ok _ => mkDash 200 (Some ("/volumes/" +:+ volumeName))
                   (green [Lit ("Volume " +:+ volumeName +:+ " restoring from snapshot")])
               end)
      end
  end.
Definition HandleSnapshotRestore (volumeName snapshotName : string) : D DashResponse :=
  s ← api (kGet KSnapshot (key snapshotName));
  match s with
  | Err err => Ret (httpError "snapshot not found: " err 404)
  | Ok snap =>
      if negb (sst_ReadyToUse (snap_status snap)) then Ret (http_error [Lit "snapshot is not ready"] 400)
      else
        v ← api (kGet KVolume (key volumeName));
        match v with
        | Err err => Ret (httpError "volume not found: " err 404)
        | Ok volume => restore volumeName snapshotName volume
        end
  end.
End handler.

(** ** Lemmas *)
Lemma wp_api {A} (p : M A) (Q : list (event dash) → A → Prop) :
  wp p (λ tr, Q (left_event <$> tr)) → wp (api p) Q.
Proof. apply wp_on_left. Qed.
Lemma kPatch_wp k patch (Q : list (event dash) → result Volume → Prop) :
  (∀ r, Q [right_event (ev (S:=extra) (PatchVolume k patch) r)] r) → wp (kPatch k patch) Q.
Proof. intros H. apply wp_on_right. intros r. apply H. Qed.

Lemma length_app_string s t : String.length (s +:+ t) = String.length s + String.length t.
Proof. induction s as [|c s IH]; [done|]. rw string_app_cons. cbn. by rw IH. Qed.
Lemma fits_spec name : fits name = true ↔ String.length name ≤ 249.
Proof.
  unfold fits. rw andb_true_iff !Nat.leb_le length_app_string.
  change (String.length "-pod") with 4. unfold maxKubernetesNameLength. lia.
Qed.
(** An index below a thousand has at most three digits. *)
Definition short_indices : bool :=
  forallb (λ i, String.length (Itoa (Z.of_nat i)) <=? 3)%nat (seq 0 1000).
Lemma Itoa_short i : (0 ≤ i ≤ 999)%Z → String.length (Itoa i) ≤ 3.
Proof.
  intros Hi. assert (short_indices = true) as H by (vm_compute; reflexivity).
  unfold short_indices in H. rw forallb_forall in H.
  specialize (H (Z.to_nat i)). rw Z2Nat.id in H; [|lia]. apply Nat.leb_le, H, in_seq. lia.
Qed.
Lemma ReplicaName_length v i :
  String.length (ReplicaName v i) = String.length v + 9 + String.length (Itoa i).
Proof. unfold ReplicaName. rw !length_app_string. change (String.length "-replica-") with 9. lia. Qed.
Lemma EngineName_length v : String.length (EngineName v) = String.length v + 7.
Proof. unfold EngineName. by rw length_app_string. Qed.
Lemma derived_fit_iff v : derivedVolumeNamesFit v = true ↔ String.length v ≤ 237.
Proof.
  unfold derivedVolumeNamesFit. cbn [forallb]. rw !(andb_true_iff (fits _)) !fits_spec EngineName_length.
  rw !ReplicaName_length. change (String.length (Itoa 0)) with 1. change (String.length (Itoa 9)) with 1.
  change (String.length (Itoa 99)) with 2. change (String.length (Itoa 999)) with 3. lia.
Qed.

(** A volume the controllers can work with. *)
Definition acceptable (v : Volume) : Prop :=
  namePattern (vol_Name v) = true ∧
  fits (EngineName (vol_Name v)) = true ∧
  (∀ i, (0 ≤ i ≤ 999)%Z → fits (ReplicaName (vol_Name v) i) = true) ∧
  (∃ size n, vs_Size (vol_spec v) = size +:+ "Gi" ∧ Atoi size = Some n ∧ (0 < n)%Z) ∧
  is_ok (ParseReplicaCount (vs_ReplicaCount (vol_spec v))) = true ∧
  vol_status v = zeroVolumeStatus.
Lemma check_volume_name_ok what name :
  check_volume_name what name = None →
  namePattern name = true ∧ derivedVolumeNamesFit name = true.
Proof.
  unfold check_volume_name, check_name. destruct (_ || _); [done|].
  destruct (namePattern name); [|done]. by destruct (derivedVolumeNamesFit name).
Qed.
Lemma derived_fit_all v :
  derivedVolumeNamesFit v = true →
  fits (EngineName v) = true ∧ ∀ i, (0 ≤ i ≤ 999)%Z → fits (ReplicaName v i) = true.
Proof.
  rw derived_fit_iff. intros H. split; [rw fits_spec EngineName_length; lia|].
  intros i Hi. rw fits_spec ReplicaName_length. pose proof (Itoa_short i Hi). lia.
Qed.
Lemma create_or_wp {k} (o : obj k) done Q :
  (∀ r, Q [left_event (ev (S:=ctl) (Create k o) r)]
     (match r with
      | Err err => mkDash 500 None (red [Lit "Create failed: "; EscapedErr err])
      | Ok _ => done
      end)) →
  wp (create_or o done) Q.
Proof. intros H. unfold create_or. apply wp_bind, wp_api. intros r. apply wp_ret_intro, H. Qed.

Lemma ParseReplicaCount_Itoa n :
  (0 < n)%Z → in_int64 n = true → ParseReplicaCount (Itoa n) = Ok (n, false).
Proof.
  intros Hn Hr. assert (Atoi (Itoa n) = Some n) as Ha by by rw Atoi_Itoa.
  unfold ParseReplicaCount. rw !bool_decide_false; [|intros E; by rw E in Ha..].
  cbn [orb]. rw Ha. by destruct (Z.leb_spec n 0); [lia|].
Qed.
Lemma scale_patch_parses n :
  utf8_ok (Itoa n) = true →
  Unmarshal (scale_patch n) = Ok (JObj [("spec", JObj [("replicaCount", JStr (Itoa n))])]).
Proof. intros Hu. unfold scale_patch. apply Unmarshal_Marshal; [cbn; by rw Hu|done]. Qed.

(** The calls that restoring makes once the engine has been dealt with. *)
Definition deletes_of (volumeName : string) (replicas : list Replica) : list NamespacedName :=
  (λ rep, key_of (rep_meta rep)) <$> filter (λ rep, rs_VolumeRef (rep_spec rep) = volumeName) replicas.
Definition deletion (key : NamespacedName) (r : result unit) : event ctl :=
  ev (S:=ctl) (Delete KReplica key) r.
Lemma delete_replicas_wp volumeName replicas :
  wp (delete_replicas volumeName replicas) (λ tr _, ∃ rs,
    tr = left_event <$> zip_with deletion (deletes_of volumeName replicas) rs ∧
    length rs = length (deletes_of volumeName replicas)).
Proof.
  induction replicas as [|rep replicas IH]; [by exists []|]. cbn [delete_replicas].
  unfold deletes_of. rw filter_cons. case_bool_decide as Hv.
  - rw decide_True //. apply wp_bind, wp_api, (wp_ask_intro (S:=ctl)). intros r. cbn beta.
    eapply wp_mono; [|apply IH].
    intros tr _ (rs & -> & Hl). exists (r :: rs). split; [done|]. rw fmap_cons !length_cons. by f_equal.
  - rw decide_False //.
Qed.

(** The calls about the engine, about the replicas, and all of them. *)
Definition engine_deleted (key : NamespacedName) (tr : trace) : Prop :=
  (∃ e, tr = [ev (S:=ctl) (Get KEngine key) (Err e)]) ∨
  ∃ eng, tr = [ev (S:=ctl) (Get KEngine key) (Ok eng);
               ev (S:=ctl) (Delete KEngine (key_of (eng_meta eng))) (Ok tt)].
Definition replicas_deleted (namespace volumeName : string) (tr : trace) : Prop :=
  (∃ e, tr = [ev (S:=ctl) (List KReplica (Some namespace) ∅) (Err e)]) ∨
  ∃ l rs, tr = ev (S:=ctl) (List KReplica (Some namespace) ∅) (Ok l) ::
                 zip_with deletion (deletes_of volumeName l) rs ∧
    length rs = length (deletes_of volumeName l).
Definition restored (namespace volumeName snapshotName : string) (volume : Volume)
    (tr : trace) (reply : result Volume) : Prop :=
  ∃ engine stored deleted,
    tr = engine ++ [ev (S:=ctl) (StatusUpdate KVolume (cleared_volume volume)) (Ok stored)] ++
         deleted ++ [ev (S:=ctl) (Update KVolume (with_source snapshotName stored)) reply] ∧
    engine_deleted (mkName namespace (EngineName volumeName)) engine ∧
    replicas_deleted namespace volumeName deleted.
(** Calls other than the one that records the source. *)
Definition unsourced (e : event dash) : Prop :=
  match e with existT (inl (Update KVolume _)) _ => False | _ => True end.
Lemma delete_engine_wp namespace volumeName :
  wp (delete_engine namespace volumeName) (λ tr r, Forall unsourced tr ∧ (is_ok r = true → ∃ etr,
    tr = left_event <$> etr ∧ engine_deleted (mkName namespace (EngineName volumeName)) etr)).
Proof.
  unfold delete_engine. apply wp_bind, wp_api, (wp_ask_intro (S:=ctl)). intros [eng|e].
  - apply wp_api, (wp_ask_intro (S:=ctl)). intros r. split; [by repeat constructor|].
    destruct r as [[]|e]; [|done]. intros _.
    eexists [_; _]. split; [reflexivity|]. right. by eexists.
  - apply wp_ret_intro. split; [by repeat constructor|]. intros _. eexists [_]. split; [reflexivity|]. left. by eexists.
Qed.
Lemma delete_all_wp namespace volumeName :
  wp (delete_all_replicas namespace volumeName) (λ tr _, ∃ dtr,
    tr = left_event <$> dtr ∧ replicas_deleted namespace volumeName dtr).
Proof.
  unfold delete_all_replicas. apply wp_bind, wp_api, (wp_ask_intro (S:=ctl)). intros [l|e].
  - cbn beta. eapply wp_mono, delete_replicas_wp. intros tr _ (rs & -> & Hl).
    eexists (_ :: _). split; [reflexivity|]. right. by exists l, rs.
  - apply wp_ret_intro. eexists [_]. split; [reflexivity|]. left. by eexists.
Qed.
Lemma restore_wp namespace volumeName snapshotName volume :
  wp (restore namespace volumeName snapshotName volume) (λ tr resp,
    (Forall unsourced tr ∧ d_Code resp = 500%Z) ∨
    ∃ rtr reply, tr = left_event <$> rtr ∧
      restored namespace volumeName snapshotName volume rtr reply ∧
      d_Code resp = (if is_ok reply then 200 else 500)%Z).
Proof.
  unfold restore. apply wp_bind. eapply wp_mono, delete_engine_wp.
  intros tr1 r [Hun He]. destruct r as [[]|e]; [|apply wp_ret_intro; left; by rw app_nil_r].
  destruct (He eq_refl) as (etr & -> & Heng).
  apply wp_bind, wp_api, (wp_ask_intro (S:=ctl)). intros [stored|e]; cycle 1.
  { apply wp_ret_intro. left. split; [|done]. apply Forall_app. by split; [|repeat constructor]. }
  apply wp_bind. eapply wp_mono, delete_all_wp. intros tr2 _ (dtr & -> & Hdel).
  apply wp_bind, wp_api, (wp_ask_intro (S:=ctl)). intros reply; apply wp_ret_intro. right.
  eexists _, reply. split; [|split; [eexists etr, stored, dtr; by split_and!|by destruct reply]].
  by rw !fmap_app app_nil_r.
Qed.

(** ** Properties *)

(** The API server holds a volume, its engine, two replicas, one of another
    volume, and a snapshot that is ready; patches succeed. *)
Definition stored_volume : Volume :=
  new_volume "kdfs" "data" "10" "2".
Definition dash_world : world :=
  put KVolume stored_volume
    (put KSnapshot (mkSnapshot (newMeta "s1" "kdfs") (mkSnapshotSpec "data" "s1")
        (mkSnapshotStatus "Ready" "/s1" "w1" 0 None true []))
    (put KEngine (mkEngine (newMeta (EngineName "data") "kdfs") (mkEngineSpec "data" "w1" [])
        zeroEngineStatus)
    (put KReplica (mkReplica (newMeta (ReplicaName "data" 0) "kdfs")
        (mkReplicaSpec "data" "w1" "Remote" "10Gi" "" "") zeroReplicaStatus)
    (put KReplica (mkReplica (newMeta (ReplicaName "logs" 0) "kdfs")
        (mkReplicaSpec "logs" "w1" "Remote" "10Gi" "" "") zeroReplicaStatus) empty_world)))).
Definition dash_handler (c : call dash) (w : world) : reply dash c * world :=
  match c return reply dash c * world with
  | inl c => mem_handler c w
  | inr c =>
      match c return extra_reply c * world with
      | PatchVolume key patch =>
          (match w_objs w KVolume !! okey_of key with Some v => Ok v | None => notFound end, w)
      | ListClaims _ => (Ok [], w)
      end
  end.
Definition form_of (kvs : list (string * string)) : DashRequest :=
  mkDashRequest "POST" [] true (Ok (list_to_map kvs)).
Definition dash_run {A} (p : D A) := run dash_handler p dash_world.


(** C34. What the dashboard creates: a form is answered 400 without any call, or
    makes one call, that creates a volume the controllers can work with (a
    valid name, such that the names of its engine, its pods and its first
    thousand replicas fit, a positive size and a replica count that parses);
    the answer is 200 exactly when the server accepts it. *)
Theorem HandleCreate_creates (namespace : string) (r : DashRequest) (tr : list (event dash))
    (resp : DashResponse) :
  exec (HandleCreate namespace r) tr resp →
  tr = [] ∧ d_Code resp = 400%Z ∨
  ∃ v reply, tr = [left_event (ev (S:=ctl) (Create KVolume v) reply)] ∧
    om_Namespace (vol_meta v) = namespace ∧ acceptable v ∧
    d_Code resp = (if is_ok reply then 200 else 500)%Z.
Proof.
  intros Hex. pattern tr, resp. refine (exec_wp _ _ _ _ Hex _). clear.
  unfold HandleCreate, create_volume.
  destruct (dq_Form r) as [form|e]; [|by left].
  destruct (check_volume_name _ _) as [msg|] eqn:Hname; [by left|].
  destruct (Atoi _) as [n|] eqn:Hsize; [|by left].
  destruct (Z.leb_spec n 0) as [?|Hn]; [by left|]. cbv zeta.
  destruct (ParseReplicaCount _) as [c|e] eqn:Hc; [|by left].
  apply create_or_wp. intros reply. right. eexists _, reply. split; [done|]. split; [done|].
  apply check_volume_name_ok in Hname as [Hp Hf]. apply derived_fit_all in Hf as [He Hr].
  split; [|by destruct reply]. split_and!; [done..|by eexists _, n|by cbn; rw Hc|done].
Qed.
Definition creating := dash_run (HandleCreate "kdfs" (form_of [("name", "fresh"); ("size", "5")])).
Lemma HandleCreate_creates_witness :
  d_Code creating.1.2 = 200%Z ∧
  (creating.1.1 = [] ∧ d_Code creating.1.2 = 400%Z ∨
   ∃ v reply, creating.1.1 = [left_event (ev (S:=ctl) (Create KVolume v) reply)] ∧
     om_Namespace (vol_meta v) = "kdfs" ∧ acceptable v ∧
     d_Code creating.1.2 = (if is_ok reply then 200 else 500)%Z).
Proof.
  split; [vm_compute; reflexivity|].
  apply (HandleCreate_creates "kdfs" (form_of [("name", "fresh"); ("size", "5")])).
  exact (exec_of_run _ _ dash_world _ eq_refl).
Defined.

(** Scaling from the dashboard: a form is answered 400 without any call, or
    makes one patch of the volume, whose text is JSON for exactly one change,
    the replica count, to a positive number that the controllers parse to the
    number of the form. *)
Theorem HandleScale_patches (namespace name : string) (r : DashRequest) (tr : list (event dash))
    (resp : DashResponse) :
  exec (HandleScale namespace name r) tr resp →
  tr = [] ∧ d_Code resp = 400%Z ∨
  ∃ form count reply,
    dq_Form r = Ok form ∧ Atoi (FormValue "replicaCount" form) = Some count ∧ (0 < count)%Z ∧
    tr = [right_event (ev (S:=extra) (PatchVolume (mkName namespace name) (scale_patch count)) reply)] ∧
    Unmarshal (scale_patch count) = Ok (JObj [("spec", JObj [("replicaCount", JStr (Itoa count))])]) ∧
    ParseReplicaCount (Itoa count) = Ok (count, false) ∧
    d_Code resp = (if is_ok reply then 200 else 500)%Z.
Proof.
  intros Hex. pattern tr, resp. refine (exec_wp _ _ _ _ Hex _). clear.
  unfold HandleScale. destruct (dq_Form r) as [form|e]; [|by left].
  cbv zeta. destruct (ParseReplicaCount _) as [[count []]|e] eqn:Hc; [by left| |by left].
  apply wp_bind, kPatch_wp. intros reply. apply wp_ret_intro. right.
  apply ParseReplicaCount_ok in Hc as [[? _]|(_ & Hn & Ha)]; [done|].
  pose proof (Atoi_range _ _ Ha) as Hr.
  exists form, count, reply. split_and!; [done..|lia|done| | |by destruct reply].
  - apply scale_patch_parses. apply utf8_ok_ascii, num_char_ascii. apply number_ok_Itoa.
  - apply ParseReplicaCount_Itoa; [lia|done].
Qed.
Definition scaling := dash_run (HandleScale "kdfs" "data" (form_of [("replicaCount", "+3")])).
Lemma HandleScale_patches_witness :
  scaling.1.1 = [right_event (ev (S:=extra) (PatchVolume (mkName "kdfs" "data")
    (scale_patch 3)) (Ok stored_volume))] ∧
  (scaling.1.1 = [] ∧ d_Code scaling.1.2 = 400%Z ∨
   ∃ form count reply,
     Ok (list_to_map [("replicaCount", "+3")]) = Ok form ∧
     Atoi (FormValue "replicaCount" form) = Some count ∧ (0 < count)%Z ∧
     scaling.1.1 = [right_event (ev (S:=extra) (PatchVolume (mkName "kdfs" "data")
       (scale_patch count)) reply)] ∧
     Unmarshal (scale_patch count) = Ok (JObj [("spec", JObj [("replicaCount", JStr (Itoa count))])]) ∧
     ParseReplicaCount (Itoa count) = Ok (count, false) ∧
     d_Code scaling.1.2 = (if is_ok reply then 200 else 500)%Z).
Proof.
  split; [vm_compute; reflexivity|].
  apply (HandleScale_patches "kdfs" "data" (form_of [("replicaCount", "+3")])).
  exact (exec_of_run _ _ dash_world _ eq_refl).
Defined.

Definition restoring := dash_run (HandleSnapshotRestore "kdfs" "data" "s1").
