(* ===== verification/DashServer.v ===== *)
(** * internal/dashboard/server.go and cmd/dashboard/main.go: the mux

    [http.ServeMux] with the patterns of [NewMux]: the cleaning of the path,
    methods, wildcards, and the rule that the most specific of the patterns that
    match takes precedence; and the routing table that comes of it. *)
From Stdlib Require Import Ascii.
From S2P Require Import Prelude GoStrings GoNet GoJson K8s ApiTypes Names WireTypes Client MemStore GoPath JsonParse HttpServer NodeAgent GoFloat DashStats Dashboard.

(** ** Patterns *)
Inductive segment := Seg (s : string) | Wild (name : string).
#[global] Instance segment_eq_dec : EqDecision segment.
Proof. solve_decision. Defined.
Record pattern := mkPattern { pt_Method : string; pt_Segments : list segment }.
(** [{$}] stands for nothing after a last slash. *)
Definition parse_segment (s : string) : segment :=
  if bool_decide (s = "{$}") then Seg ""
  else match strip_prefix "{" s with Some rest => Wild (TrimSuffix rest "}") | None => Seg s end.
(** The segments of a path follow its slashes. *)
Definition segments (path : string) : list string := tail (Split path "/").
Definition parse_pattern (s : string) : pattern :=
  match Cut " " s with
  | Some (method, path) => mkPattern method (parse_segment <$> segments path)
  | None => mkPattern "" (parse_segment <$> segments s)
  end.

(** A path that matches, with the values of the wildcards; none matches an empty
    segment. *)
Fixpoint match_path (ps : list segment) (path : list string) : option (gmap string string) :=
  match ps, path with
  | [], [] => Some ∅
  | Seg s :: ps, x :: path => if bool_decide (s = x) then match_path ps path else None
  | Wild n :: ps, x :: path =>
      if bool_decide (x = "") then None else <[n := x]> <$> match_path ps path
  | _, _ => None
  end.
(** A pattern for GET is one for HEAD too. *)
Definition match_method (p : pattern) (method : string) : bool :=
  bool_decide (pt_Method p = "") || bool_decide (pt_Method p = method) ||
  bool_decide (pt_Method p = "GET") && bool_decide (method = "HEAD").
Definition matches (p : pattern) (method : string) (path : list string) : bool :=
  match_method p method && bool_decide (is_Some (match_path (pt_Segments p) path)).

(** [covers q p]: [q] matches whatever [p] does.  [disjoint p q]: nothing matches both. *)
Definition covers_segment (q p : segment) : bool :=
  match q, p with
  | Seg s, Seg t => bool_decide (s = t)
  | Wild _, Seg t => negb (bool_decide (t = ""))
  | Wild _, Wild _ => true
  | Seg _, Wild _ => false
  end.
Fixpoint covers_path (qs ps : list segment) : bool :=
  match qs, ps with
  | [], [] => true
  | q :: qs, p :: ps => covers_segment q p && covers_path qs ps
  | _, _ => false
  end.
Definition covers (q p : pattern) : bool :=
  (bool_decide (pt_Method q = "") || bool_decide (pt_Method q = pt_Method p)) &&
  covers_path (pt_Segments q) (pt_Segments p).
Definition disjoint_segment (p q : segment) : bool :=
  match p, q with
  | Seg s, Seg t => negb (bool_decide (s = t))
  | Seg s, Wild _ | Wild _, Seg s => bool_decide (s = "")
  | Wild _, Wild _ => false
  end.
Fixpoint disjoint_path (ps qs : list segment) : bool :=
  match ps, qs with
  | [], [] => false
  | p :: ps, q :: qs => disjoint_segment p q || disjoint_path ps qs
  | _, _ => true
  end.
Definition disjoint (p q : pattern) : bool :=
  bool_decide (pt_Method p ∈ ["GET"; "POST"]) && bool_decide (pt_Method q ∈ ["GET"; "POST"]) &&
    negb (bool_decide (pt_Method p = pt_Method q)) ||
  disjoint_path (pt_Segments p) (pt_Segments q).

Section mux.
Context {A : Type}.
(** The most specific of the patterns that match. *)
Definition dispatch (patterns : list (string * A)) (method : string) (path : list string)
    : option (string * A) :=
  let found := filter (λ x, matches (parse_pattern x.1) method path = true) patterns in
  snd <$> list_find (λ x, forallb (λ y, covers (parse_pattern y.1) (parse_pattern x.1)) found = true) found.
End mux.
Definition path_values (s : string) (path : list string) : gmap string string :=
  default ∅ (match_path (pt_Segments (parse_pattern s)) path).

(** *** The path of a request

    A segment with its escapes undone, or as it is when they are not valid.  A
    segment that is an escaped slash counts as the end of a path after a last
    slash ([firstSegment]). *)
Definition hex_digit (c : ascii) : option N :=
  let n := bN c in
  if (48 <=? n)%N && (n <=? 57)%N then Some (n - 48)%N
  else if (97 <=? n)%N && (n <=? 102)%N then Some (n - 87)%N
  else if (65 <=? n)%N && (n <=? 70)%N then Some (n - 55)%N
  else None.
Fixpoint unescaped (s : string) : option string :=
  match s with
  | "" => Some ""
  | String c s' =>
      if Ascii.eqb c "%" then
        match s' with
        | String h (String l s'') =>
            match hex_digit h, hex_digit l, unescaped s'' with
            | Some h, Some l, Some t => Some (String (ascii_of_N (16 * h + l)) t)
            | _, _, _ => None
            end
        | _ => None
        end
      else String c <$> unescaped s'
  end.
Definition pathSegment (s : string) : string :=
  let u := default s (unescaped s) in if bool_decide (u = "/") then "" else u.
Definition request_path (path : list string) : string := foldr (λ s t, "/" +:+ s +:+ t) "" path.
(** [cleanPath] in net/http: [path.Clean] of a rooted path, with its last slash. *)
Definition cleanPath (p : string) : string :=
  if bool_decide (p = "") then "/" else
  let p := if is_rooted p then p else "/" +:+ p in
  let np := Clean p in
  if HasSuffix p "/" && negb (bool_decide (np = "/")) then np +:+ "/" else np.
(** Requests for other paths are redirected to the clean one, whatever the
    method, except CONNECT. *)
Definition served_as_is (r : DashRequest) : bool :=
  let path := request_path (dq_Path r) in
  bool_decide (dq_Method r = "CONNECT") || bool_decide (cleanPath path = path).
Inductive MuxAnswer := Redirected (path : string) | Answered (resp : DashResponse).

(** ** NewMux *)
Section server.
Context (Render : page → string * option error)
  (range : node_totals → list (string * (Z * float64))) (namespace : string).

Definition HandlerFunc : Type := gmap string string → DashRequest → D DashResponse.
Definition PathValue (name : string) (values : gmap string string) : string := default "" (values !! name).
(** A handler of a volume, and one of a volume and another name. *)
Definition with_name (h : string → DashRequest → D DashResponse) : HandlerFunc :=
  λ values, h (PathValue "name" values).
Definition with_both (other : string) (h : string → string → DashRequest → D DashResponse) : HandlerFunc :=
  λ values, h (PathValue "name" values) (PathValue other values).
Definition NewMux_patterns : list (string * HandlerFunc) :=
  [("GET /{$}", λ _ r, HandleList Render range namespace (dq_HX r));
   ("GET /volumes/{name}", with_name (λ name _, HandleDetail Render namespace name));
   ("GET /volumes/{name}/overview", with_name (λ name _, HandleOverview Render namespace name));
   ("GET /volumes/{name}/replicas", with_name (λ name _, HandleReplicas Render namespace name));
   ("GET /volumes/new", λ _ _, HandleCreateForm Render);
   ("POST /volumes/create", λ _ r, HandleCreate namespace r);
   ("GET /volumes/{name}/scale-form", with_name (λ name _, HandleScaleForm Render namespace name));
   ("POST /volumes/{name}/scale", with_name (HandleScale namespace));
   ("GET /volumes/{name}/delete-form", with_name (λ name _, HandleDeleteForm Render name));
   ("POST /volumes/{name}/delete", with_name (λ name _, HandleDelete namespace name));
   ("GET /volumes/{name}/snapshots", with_name (λ name _, HandleSnapshots Render namespace name));
   ("POST /volumes/{name}/snapshots/create", with_name (HandleSnapshotCreate namespace));
   ("POST /volumes/{name}/snapshots/{snapshot}/create-from",
    with_both "snapshot" (HandleSnapshotCreateFromSnapshot namespace));
   ("POST /volumes/{name}/snapshots/{snapshot}/restore",
    with_both "snapshot" (λ name snapshot _, HandleSnapshotRestore namespace name snapshot));
   ("POST /volumes/{name}/snapshots/{snapshot}/delete",
    with_both "snapshot" (λ _ snapshot _, HandleSnapshotDelete namespace snapshot));
   ("POST /volumes/{name}/replicas/{replica}/delete",
    with_both "replica" (λ name replica _, HandleDeleteReplica namespace name replica));
   ("GET /healthz", λ _ _, Ret (mkDash 200 None [Lit "ok"]))].

(** No pattern matches: the path may match for another method. *)
Definition not_served (path : list string) : DashResponse :=
  if existsb (λ x, bool_decide (is_Some (match_path (pt_Segments (parse_pattern x.1)) path))) NewMux_patterns
  then http_error [Lit "Method Not Allowed"] 405 else http_error [Lit "404 page not found"] 404.
Definition NewMux (r : DashRequest) : D MuxAnswer :=
  if negb (served_as_is r) then Ret (Redirected (cleanPath (request_path (dq_Path r)))) else
  let path := pathSegment <$> dq_Path r in
  resp ← match dispatch NewMux_patterns (dq_Method r) path with
         | Some (pattern, h) => h (path_values pattern path) r
         | None => Ret (not_served path)
         end;
  Ret (Answered resp).

(** *** The routing table, as a reference: the pages and the actions. *)
Definition visible_name (name : string) : bool := negb (bool_decide (name = "")).
Definition page_at (path : list string) (r : DashRequest) : option (D DashResponse) :=
  match path with
  | [s] =>
      if bool_decide (s = "") then Some (HandleList Render range namespace (dq_HX r))
      else if bool_decide (s = "healthz") then Some (Ret (mkDash 200 None [Lit "ok"]))
      else None
  | [s; name] =>
      if bool_decide (s = "volumes") && visible_name name then
        Some (if bool_decide (name = "new") then HandleCreateForm Render
              else HandleDetail Render namespace name)
      else None
  | [s; name; view] =>
      if bool_decide (s = "volumes") && visible_name name then
        if bool_decide (view = "overview") then Some (HandleOverview Render namespace name)
        else if bool_decide (view = "replicas") then Some (HandleReplicas Render namespace name)
        else if bool_decide (view = "scale-form") then Some (HandleScaleForm Render namespace name)
        else if bool_decide (view = "delete-form") then Some (HandleDeleteForm Render name)
        else if bool_decide (view = "snapshots") then Some (HandleSnapshots Render namespace name)
        else None
      else None
  | _ => None
  end.
Definition action_at (path : list string) (r : DashRequest) : option (D DashResponse) :=
  match path with
  | [s; verb] =>
      if bool_decide (s = "volumes") && bool_decide (verb = "create")
      then Some (HandleCreate namespace r) else None
  | [s; name; verb] =>
      if bool_decide (s = "volumes") && visible_name name then
        if bool_decide (verb = "scale") then Some (HandleScale namespace name r)
        else if bool_decide (verb = "delete") then Some (HandleDelete namespace name)
        else None
      else None
  | [s; name; kind; verb] =>
      if bool_decide (s = "volumes") && visible_name name &&
         bool_decide (kind = "snapshots") && bool_decide (verb = "create")
      then Some (HandleSnapshotCreate namespace name r) else None
  | [s; name; kind; other; verb] =>
      if bool_decide (s = "volumes") && visible_name name && visible_name other then
        if bool_decide (kind = "snapshots") then
          if bool_decide (verb = "create-from")
          then Some (HandleSnapshotCreateFromSnapshot namespace name other r)
          else if bool_decide (verb = "restore")
          then Some (HandleSnapshotRestore namespace name other)
          else if bool_decide (verb = "delete") then Some (HandleSnapshotDelete namespace other)
          else None
        else if bool_decide (kind = "replicas") && bool_decide (verb = "delete")
        then Some (HandleDeleteReplica namespace name other) else None
      else None
  | _ => None
  end.
(** A HEAD is answered as a GET. *)
Definition getlike (method : string) : bool := bool_decide (method = "GET") || bool_decide (method = "HEAD").
Definition route (path : list string) (r : DashRequest) : D DashResponse :=
  let found :=
    if getlike (dq_Method r) then page_at path r
    else if bool_decide (dq_Method r = "POST") then action_at path r else None in
  match found with
  | Some p => p
  | None => Ret (if bool_decide (is_Some (page_at path r)) || bool_decide (is_Some (action_at path r))
                 then http_error [Lit "Method Not Allowed"] 405
                 else http_error [Lit "404 page not found"] 404)
  end.
End server.

(** cmd/dashboard/main.go *)
Definition dashboard_namespace `{Environ} : string :=
  let namespace := Getenv "KDFS_NAMESPACE" in
  if bool_decide (namespace = "") then "kdfs" else namespace.

(** ** Lemmas *)
Lemma match_path_cons_Some p ps path :
  is_Some (match_path (p :: ps) path) ↔ ∃ x path', path = x :: path' ∧ is_Some (match_path ps path') ∧
    match p with Seg s => s = x | Wild _ => x ≠ "" end.
Proof.
  destruct p as [s|n], path as [|x path]; cbn [match_path];
    (split; [|intros (x' & path' & E & Hps & Hx)]); try by intros [? ?].
  - done.
  - case_bool_decide; [|by intros [? ?]]. intros H1. by exists x, path.
  - injection E as <- <-. by rw bool_decide_true.
  - done.
  - case_bool_decide; [by intros [? ?]|]. intros H1%fmap_is_Some. by exists x, path.
  - injection E as <- <-. rw bool_decide_false //. by apply fmap_is_Some.
Qed.
Lemma match_path_nil_Some path : is_Some (match_path [] path) ↔ path = [].
Proof. destruct path; cbn; [by split|split; [by intros [? ?]|done]]. Qed.
Lemma covers_path_sound qs ps path :
  covers_path qs ps = true → is_Some (match_path ps path) → is_Some (match_path qs path).
Proof.
  revert ps path. induction qs as [|q qs IH]; intros [|p ps] path; cbn [covers_path]; try done.
  intros [Hq Hqs]%andb_true_iff. rw !match_path_cons_Some. intros (x & path' & -> & Hps & Hx).
  exists x, path'. split_and!; [done|by eapply IH|]. destruct q, p; cbn in Hq; try done.
  - apply bool_decide_eq_true in Hq. congruence.
  - apply negb_true_iff, bool_decide_eq_false in Hq. congruence.
Qed.
Lemma matches_iff p method path :
  matches p method path = true ↔
  match_method p method = true ∧ is_Some (match_path (pt_Segments p) path).
Proof. unfold matches. by rw andb_true_iff bool_decide_eq_true. Qed.
Lemma covers_sound q p method path :
  covers q p = true → matches p method path = true → matches q method path = true.
Proof.
  intros [Hm Hs]%andb_true_iff [Hp Hps]%matches_iff. apply matches_iff.
  split; [|by eapply covers_path_sound]. unfold match_method in *.
  destruct (bool_decide_reflect (pt_Method q = "")) as [|Hne]; [done|]. cbn [orb] in Hm |- *.
  apply bool_decide_eq_true in Hm. rw -Hm bool_decide_false // in Hp.
Qed.
Lemma disjoint_path_sound ps qs path :
  disjoint_path ps qs = true → is_Some (match_path ps path) → is_Some (match_path qs path) → False.
Proof.
  revert qs path. induction ps as [|p ps IH]; intros [|q qs] path; cbn [disjoint_path]; try done.
  - intros _ ->%match_path_nil_Some. rw match_path_cons_Some. by intros (x & path' & ? & _).
  - intros _ H1 ->%match_path_nil_Some. apply match_path_cons_Some in H1 as (x & path' & ? & _). done.
  - rw orb_true_iff !match_path_cons_Some. intros Hd (x & path' & -> & Hps & Hx) (x' & path'' & E & Hqs & Hx').
    injection E as <- <-. destruct Hd as [Hd|Hd]; [|by eapply IH].
    destruct p, q; cbn in Hd; try done.
    + apply negb_true_iff, bool_decide_eq_false in Hd. congruence.
    + apply bool_decide_eq_true in Hd. congruence.
    + apply bool_decide_eq_true in Hd. congruence.
Qed.
Lemma disjoint_sound p q method path :
  disjoint p q = true → matches p method path = true → matches q method path = true → False.
Proof.
  intros Hd [Hm Hps]%matches_iff [Hm' Hqs]%matches_iff. unfold disjoint in Hd.
  apply orb_true_iff in Hd as [Hd|Hd]; [|by eapply disjoint_path_sound].
  apply andb_true_iff in Hd as [[Hp%bool_decide_eq_true Hq%bool_decide_eq_true]%andb_true_iff Hne].
  apply negb_true_iff, bool_decide_eq_false in Hne.
  revert Hm Hm'. unfold match_method. rw !orb_true_iff !andb_true_iff !bool_decide_eq_true.
  apply list_elem_of_In in Hp as [Ep|[Ep|[]]]; apply list_elem_of_In in Hq as [Eq|[Eq|[]]];
    intros [[?|?]|[? ?]] [[?|?]|[? ?]]; congruence.
Qed.
Lemma covers_path_trans ps qs rs :
  covers_path ps qs = true → covers_path qs rs = true → covers_path ps rs = true.
Proof.
  revert qs rs. induction ps as [|p ps IH]; intros [|q qs] [|r rs]; cbn [covers_path]; try done.
  rw !andb_true_iff. intros [Hp Hps] [Hq Hqs]. split; [|by eapply IH].
  destruct p, q, r; cbn in *; try done; repeat case_bool_decide; congruence.
Qed.
Lemma covers_trans p q r : covers p q = true → covers q r = true → covers p r = true.
Proof.
  unfold covers. rw !andb_true_iff !orb_true_iff !bool_decide_eq_true.
  intros [Hp Hps] [Hq Hqs]. split; [|by eapply covers_path_trans]. destruct Hp, Hq; first [left; congruence|right; congruence].
Qed.

(** Where every two patterns are comparable or disjoint, one of those that match
    is the most specific. *)
Definition unambiguous {A} (patterns : list (string * A)) : bool :=
  forallb (λ x, forallb (λ y,
    let p := parse_pattern x.1 in let q := parse_pattern y.1 in
    covers p q || covers q p || disjoint p q) patterns) patterns.
Lemma least_of {A} (R : A → A → Prop) (l : list A) :
  (∀ x y z, R x y → R y z → R x z) → (∀ x y, x ∈ l → y ∈ l → R x y ∨ R y x) → l ≠ [] →
  ∃ x, x ∈ l ∧ ∀ y, y ∈ l → R y x.
Proof.
  intros Htrans. induction l as [|a l IH]; intros Htot Hne; [done|].
  destruct (decide (l = [])) as [->|Hl].
  - exists a. split; [by left|]. intros y ->%list_elem_of_singleton.
    by destruct (Htot a a ltac:(by left) ltac:(by left)).
  - destruct IH as (x & Hx & Hmin); [intros y z Hy Hz; apply Htot; by right|done|].
    destruct (Htot a x ltac:(by left) ltac:(by right)) as [Hax|Hxa].
    + exists x. split; [by right|]. intros y [->|Hy]%elem_of_cons; [done|by apply Hmin].
    + exists a. split; [by left|]. intros y [->|Hy]%elem_of_cons.
      * by destruct (Htot a a ltac:(by left) ltac:(by left)).
      * apply (Htrans y x a); [by apply Hmin|done].
Qed.
Lemma dispatch_spec {A} (patterns : list (string * A)) method path :
  unambiguous patterns = true →
  match dispatch patterns method path with
  | None => ∀ x, x ∈ patterns → matches (parse_pattern x.1) method path = false
  | Some x => x ∈ patterns ∧ matches (parse_pattern x.1) method path = true ∧
      ∀ y, y ∈ patterns → matches (parse_pattern y.1) method path = true →
           covers (parse_pattern y.1) (parse_pattern x.1) = true
  end.
Proof.
  intros Hun. unfold dispatch. cbv zeta.
  set (found := filter _ patterns).
  destruct (list_find _ found) as [[i x]|] eqn:E; cbn.
  - apply list_find_Some in E as (Hx & Hall & _). apply list_elem_of_lookup_2 in Hx.
    apply list_elem_of_filter in Hx as [Hm Hin]. split_and!; [done..|]. intros y Hy Hmy.
    rw forallb_forall in Hall. apply Hall, list_elem_of_In, list_elem_of_filter. done.
  - intros x Hx. destruct (matches _ _ _) eqn:Hm; [exfalso|done].
    assert (∀ y, y ∈ found → y ∈ patterns ∧ matches (parse_pattern y.1) method path = true) as Hf
      by (intros y [? ?]%list_elem_of_filter; done).
    destruct (least_of (λ y x, covers (parse_pattern y.1) (parse_pattern x.1) = true) found) as (z & Hz & Hmin).
    + intros a b c Hab Hbc. by eapply covers_trans.
    + intros a b [Ha Hma]%Hf [Hb Hmb]%Hf. unfold unambiguous in Hun. rw forallb_forall in Hun.
      specialize (Hun a ltac:(by apply list_elem_of_In)). rw forallb_forall in Hun.
      specialize (Hun b ltac:(by apply list_elem_of_In)). cbv zeta in Hun.
      apply orb_true_iff in Hun as [[?|?]%orb_true_iff|Hd]; [by left|by right|].
      by destruct (disjoint_sound _ _ _ _ Hd Hma Hmb).
    + intros Hnil. assert (x ∈ found) as Hin by (by apply list_elem_of_filter). rw Hnil in Hin.
      by apply not_elem_of_nil in Hin.
    + apply list_find_None in E. rw Forall_forall in E. apply (E z Hz).
      apply forallb_forall. intros y Hy%list_elem_of_In. by apply Hmin.
Qed.

(** ** Properties *)
Section properties.
Context (Render : page → string * option error)
  (range : node_totals → list (string * (Z * float64))) (namespace : string).
Abbreviation patterns := (NewMux_patterns Render range namespace).
Lemma patterns_unambiguous : unambiguous patterns = true.
Proof. vm_compute. reflexivity. Qed.

(** Literal patterns are parsed in place. *)
Ltac parse_literals :=
  repeat match goal with
  | H : context [parse_pattern (fst (?s, ?h))] |- _ => change (fst (s, h)) with s in H
  | H : context [parse_pattern ?s] |- _ =>
      let p := eval vm_compute in (parse_pattern s) in change (parse_pattern s) with p in H
  | |- context [parse_pattern (fst (?s, ?h))] => change (fst (s, h)) with s
  | |- context [parse_pattern ?s] =>
      let p := eval vm_compute in (parse_pattern s) in change (parse_pattern s) with p
  end.
(** One goal for every pattern. *)
Ltac each_pattern Hin :=
  repeat (apply elem_of_cons in Hin as [[= -> ->]|Hin]; [parse_literals|]);
  [..|by apply not_elem_of_nil in Hin].
Ltac decide_bools :=
  repeat match goal with
  | |- context [bool_decide ?P] =>
      first [rewrite (bool_decide_true P); [|done] | rewrite (bool_decide_false P); [|done]]
  end.
(** The shape of a path that matches. *)
Ltac shape H :=
  cbn [pt_Segments fst] in H;
  repeat match type of H with
  | is_Some (match_path (_ :: _) _) => apply match_path_cons_Some in H as (? & ? & -> & H & ?)
  | is_Some (match_path [] _) => apply match_path_nil_Some in H as ->
  end; subst.

(** A path is in the table exactly when a pattern of that method matches it. *)
Definition path_matches (method : string) (path : list string) (x : string * HandlerFunc) : Prop :=
  pt_Method (parse_pattern x.1) = method ∧ is_Some (match_path (pt_Segments (parse_pattern x.1)) path).
Ltac find_pattern :=
  repeat first
    [ apply Exists_cons_hd; split; [reflexivity|]; parse_literals; cbn [pt_Segments];
      solve [repeat (apply match_path_cons_Some; eexists _, _; split; [reflexivity|]; split; [|done]);
             by apply match_path_nil_Some]
    | apply Exists_cons_tl ].
Lemma page_matches path r :
  is_Some (page_at Render range namespace path r) ↔ Exists (path_matches "GET" path) patterns.
Proof.
  split.
  - unfold page_at, visible_name. destruct path as [|x1 [|x2 [|x3 [|x4 path]]]]; try (by intros [? ?]).
    all: repeat case_bool_decide; cbn [andb negb]; try (by intros [? ?]); intros _; subst.
    all: unfold NewMux_patterns; find_pattern.
  - intros ([s h] & Hin & Hm & Hpath)%Exists_exists. unfold NewMux_patterns in Hin. each_pattern Hin; try done.
    all: shape Hpath; unfold page_at, visible_name; decide_bools; done.
Qed.
Lemma action_matches path r :
  is_Some (action_at namespace path r) ↔ Exists (path_matches "POST" path) patterns.
Proof.
  split.
  - unfold action_at, visible_name. destruct path as [|x1 [|x2 [|x3 [|x4 [|x5 [|x6 path]]]]]]; try (by intros [? ?]).
    all: repeat case_bool_decide; cbn [andb negb]; try (by intros [? ?]); intros _; subst.
    all: unfold NewMux_patterns; find_pattern.
  - intros ([s h] & Hin & Hm & Hpath)%Exists_exists. unfold NewMux_patterns in Hin.
    each_pattern Hin; try done.
    all: shape Hpath; unfold action_at, visible_name; decide_bools; done.
Qed.
Lemma pattern_method x : x ∈ patterns → pt_Method (parse_pattern x.1) = "GET" ∨ pt_Method (parse_pattern x.1) = "POST".
Proof.
  destruct x as [s h]. intros Hin. unfold NewMux_patterns in Hin. each_pattern Hin; by [left|right].
Qed.
Lemma match_GET p method : pt_Method p = "GET" → match_method p method = getlike method.
Proof.
  intros Hp. unfold match_method, getlike. rw Hp (bool_decide_false ("GET" = "")) // (bool_decide_true ("GET" = "GET")) //=.
  f_equal. by apply bool_decide_ext.
Qed.
Lemma match_POST p method : pt_Method p = "POST" → match_method p method = bool_decide (method = "POST").
Proof.
  intros Hp. unfold match_method. rw Hp (bool_decide_false ("POST" = "")) // (bool_decide_false ("POST" = "GET")) //=.
  rw orb_false_r. by apply bool_decide_ext.
Qed.
Lemma not_served_route path r :
  not_served Render range namespace path =
  if bool_decide (is_Some (page_at Render range namespace path r)) ||
     bool_decide (is_Some (action_at namespace path r))
  then http_error [Lit "Method Not Allowed"] 405 else http_error [Lit "404 page not found"] 404.
Proof.
  unfold not_served. match goal with |- (if ?a then _ else _) = (if ?b then _ else _) => assert (a = b) as ->; [|done] end.
  apply eq_bool_prop_intro. rw !Is_true_true orb_true_iff !bool_decide_eq_true.
  rw page_matches action_matches existsb_exists !Exists_exists. split.
  - intros (x & Hin%list_elem_of_In & Hm%bool_decide_eq_true).
    destruct (pattern_method x Hin); [left|right]; by exists x.
  - intros [(x & Hin & _ & Hm)|(x & Hin & _ & Hm)]; exists x; by rw -list_elem_of_In bool_decide_eq_true.
Qed.
Lemma post_not_get method : bool_decide (method = "POST") = true → getlike method = false.
Proof. by intros ->%bool_decide_eq_true. Qed.
(** The most specific pattern leads where the table does. *)
Lemma dispatch_route path r :
  match dispatch patterns (dq_Method r) path with
  | Some (pattern, h) => h (path_values pattern path) r
  | None => Ret (not_served Render range namespace path)
  end = route Render range namespace path r.
Proof.
  pose proof (dispatch_spec _ (dq_Method r) path patterns_unambiguous) as H.
  destruct (dispatch _ _ _) as [[s h]|].
  - destruct H as (Hin & [Hmeth Hpath]%matches_iff & Hmin).
    assert (∀ h', ("GET /volumes/new", h') ∈ patterns → path = ["volumes"; "new"] → getlike (dq_Method r) = true →
      covers (parse_pattern "GET /volumes/new") (parse_pattern s) = true) as Hnew.
    { intros h' Hin' -> Hg. apply (Hmin _ Hin'), matches_iff. split; [by rw match_GET|]. by eexists. }
    specialize (Hnew _ ltac:(do 4 apply list_elem_of_further; apply list_elem_of_here)).
    unfold NewMux_patterns in Hin. clear Hmin. each_pattern Hin; cbn [fst] in Hmeth.
    all: first [rewrite match_GET in Hmeth; [|reflexivity]|rewrite match_POST in Hmeth; [|reflexivity]].
    all: shape Hpath; unfold route, page_at, action_at, visible_name, with_name, with_both, path_values; parse_literals.
    all: try rw (post_not_get _ Hmeth); rw Hmeth; cbn [pt_Segments match_path]; decide_bools; try reflexivity.
    rw bool_decide_false; [reflexivity|]. intros ->. by specialize (Hnew eq_refl Hmeth).
  - unfold route. rw -not_served_route.
    assert (∀ method, match_method (mkPattern method []) (dq_Method r) = true →
      Exists (path_matches method path) patterns → False) as Hno.
    { intros method Hm (x & Hin & Hx & Hpath)%Exists_exists.
      assert (matches (parse_pattern x.1) (dq_Method r) path = true) as E; [|by rw H in E].
      apply matches_iff. split; [|done]. unfold match_method in *. by rw Hx. }
    destruct (getlike (dq_Method r)) eqn:Hg.
    + destruct (page_at _ _ _ path r) as [p|] eqn:Hp; [|done]. exfalso.
      apply (Hno "GET"); [by rw match_GET|]. apply (page_matches path r). by rw Hp.
    + case_bool_decide as Hpost; [|done].
      destruct (action_at _ path r) as [p|] eqn:Hp; [|done]. exfalso.
      apply (Hno "POST"); [rw match_POST //; by apply bool_decide_eq_true|]. apply (action_matches path r). by rw Hp.
Qed.

(** C35. The dashboard's routes.  The patterns of [NewMux], with the most
    specific of those that match taking precedence, come to this table: a
    request whose path is clean runs the handler that [page_at] has for its path
    if it is a GET or a HEAD, the one that [action_at] has if it is a POST, with
    the unescaped segments as the names; if there is none it is answered 405
    where the path has a handler for another method and 404 where it has none,
    without any call.  A request for any other path is redirected to the clean
    one, without any call, unless its method is CONNECT. *)
Theorem NewMux_dispatch (r : DashRequest) :
  NewMux Render range namespace r =
  if served_as_is r then
    resp ← route Render range namespace (pathSegment <$> dq_Path r) r; Ret (Answered resp)
  else Ret (Redirected (cleanPath (request_path (dq_Path r)))).
Proof. unfold NewMux. destruct (served_as_is r); [|done]. cbn [negb]. by rw dispatch_route. Qed.

(** The name [new] is valid for a volume, but its page is the form. *)
Theorem NewMux_volume (name : string) (hx : bool) (form : result (gmap string string)) :
  let r := mkDashRequest "GET" ["volumes"; name] hx form in
  served_as_is r = true → pathSegment name ≠ "" →
  NewMux Render range namespace r =
  (resp ← if decide (pathSegment name = "new") then HandleCreateForm Render
          else HandleDetail Render namespace (pathSegment name);
   Ret (Answered resp)).
Proof.
  intros r Hr Hne. unfold NewMux. rw Hr. cbn [negb]. rw dispatch_route. f_equal.
  unfold route, page_at, visible_name. subst r. cbn [dq_Path dq_Method fmap list_fmap].
  change (getlike "GET") with true. cbv iota.
  change (pathSegment "volumes") with "volumes". rw bool_decide_true // (bool_decide_false (pathSegment name = "")) //.
  cbn [andb negb]. repeat case_decide; repeat case_bool_decide; done.
Qed.
End properties.
Theorem new_is_valid : check_volume_name "Name" "new" = None.
Proof. vm_compute. reflexivity. Qed.
(** The routing on concrete requests. *)
Example routes_escaped : pathSegment "a%2Db%20c" = "a-b c".
Proof. vm_compute. reflexivity. Qed.
Example routes_clean : cleanPath "/volumes//a/../b/" = "/volumes/b/".
Proof. vm_compute. reflexivity. Qed.
Example routes_as_is :
  served_as_is (mkDashRequest "POST" ["volumes"; "a"; "delete"] false (Ok ∅)) = true ∧
  served_as_is (mkDashRequest "POST" ["volumes"; ""; "delete"] false (Ok ∅)) = false.
Proof. vm_compute. done. Qed.
