(* ===== verification/Cluster.v ===== *)
(** * The cluster: every program over one API server

    The reconcilers of the manager, the CSI controller service and the
    dashboard, each call of each interleaved with the others', reads that may
    be stale, and a server that keeps what it accepts.  The engines it holds are
    well typed at all times. *)
From S2P Require Import Prelude GoStrings K8s ApiTypes Names WireTypes Client MemStore Status VolumeNodes VolumeScale VolumeHeal PodTemplates AgentClient SidecarClient EngineTypes VolumeController ReplicaController EngineController SnapshotController CsiController ControllerManager JsonParse HttpServer NodeAgent GoFloat DashStats Dashboard DashServer.
From stdpp Require Import relations.

(** ** The other programs keep to the contract *)

(** *** The engine controller *)
Section engine.
Context `{Environ, PodImages}.
Lemma getReplicaPod_typed replica : Typed (getReplicaPod replica) (λ _, True).
Proof. unfold getReplicaPod. by typed_steps. Qed.
Lemma attachment_status_typed engine ra : Typed (attachment_status engine ra) (λ _, True).
Proof.
  unfold attachment_status. repeat first
    [ done | typed_step | typed_use getReplicaPod_typed; intros ? _ ].
Qed.
Lemma attachments_status_typed engine ras acc ready :
  Typed (attachments_status engine ras acc ready) (λ _, True).
Proof.
  revert acc ready. induction ras as [|ra ras IH]; intros acc ready; cbn [attachments_status];
    typed_steps; [done|].
  typed_use attachment_status_typed. intros [[[ra' r]|]|e] _; [apply IH|by typed_steps|done].
Qed.
Lemma same_names ras ras' : Forall2 same_replica ras ras' → ra_Name <$> ras' = ra_Name <$> ras.
Proof. induction 1 as [|ra ra' ras ras' [Hn _] _ IH]; [done|]. rw !fmap_cons Hn. by f_equal. Qed.
Lemma replicaStatus_typed engine :
  wf_engine engine →
  Typed (replicaStatus engine) (λ r, ∀ ready e, r = Ok (ready, e) → wf_engine e).
Proof.
  intros He. unfold replicaStatus. typed_step.
  eapply (typed_wp (S:=ctl)); [apply attachments_status_typed|apply attachments_status_wp|].
  intros tr [[[ras ready]|]|e] _ [_ Hras]; [|typed_step; by intros ready e [= <- <-]|done].
  destruct (Hras ras ready eq_refl) as [(new & -> & Hnew) _]. cbn [app].
  typed_step; [|typed_step; by intros ready' e [= <- <-]]. typed_steps.
  - apply wf_set_Replicas; [done|]. eapply wf_names; [by apply same_names|apply He].
  - intros ready' e [= <- <-]. by apply H1.
  - done.
Qed.
Lemma bdev_parts_typed ns ras acc : Typed (bdev_parts ns ras acc) (λ _, True).
Proof.
  revert acc. induction ras as [|ra ras IH]; intros acc; cbn [bdev_parts]; typed_steps; by try apply IH.
Qed.
Lemma publish_running_typed engine h :
  wf_engine engine → Typed (EngineController.publish_running engine h) (λ _, True).
Proof.
  intros He. unfold EngineController.publish_running. typed_steps. typed_use bdev_parts_typed.
  intros parts _. by typed_steps.
Qed.
Lemma configure_typed engine podIP status :
  wf_engine engine → Typed (configure engine podIP status) (λ _, True).
Proof.
  intros He. unfold configure, triggerReconfigure, publish_degraded.
  repeat first [done | typed_step | by apply publish_running_typed].
Qed.
Lemma GetStatus_typed c podIP : Typed (GetStatus c podIP) (λ _, True).
Proof. destruct c; cbn [GetStatus]; unfold http_GetStatus; by typed_steps. Qed.
Lemma engine_typed c req : Typed (EngineController.Reconcile c req) (λ _, True).
Proof.
  unfold EngineController.Reconcile. typed_step. typed_step. destruct r as [engine|e]; [|by typed_steps].
  destruct (H1 engine eq_refl) as [_ He]. typed_steps. typed_use replicaStatus_typed; [|done].
  intros [[ready e]|e] Hwf; [|done]. specialize (Hwf ready e eq_refl).
  unfold create_pod, allowedHosts, observe, getEnginePodInfo. repeat first
    [ done | typed_step | apply listNodes_typed; intros ? _ | apply wf_set_status
    | typed_use GetStatus_typed; intros ? _ | by apply configure_typed ].
Qed.
End engine.

(** *** Programs that write no engine *)
Lemma doJSON_typed base path body w : Typed (doJSON base path body w) (λ _, True).
Proof. unfold doJSON. by typed_steps. Qed.
Lemma agent_create_typed a req : Typed (AgentClient.CreateReplica a req) (λ _, True).
Proof. destruct a; cbn [AgentClient.CreateReplica]; [apply (doJSON_typed _ _ _ WantCreateReplica)|by typed_steps]. Qed.
Lemma agent_snapshot_typed a req : Typed (AgentClient.DeleteSnapshot a req) (λ _, True).
Proof. destruct a; cbn [AgentClient.DeleteSnapshot]; [apply (doJSON_typed _ _ _ WantNothing)|by typed_steps]. Qed.
(** [typed_quiet] goes through a program, with the lemmas of what it calls. *)
Ltac typed_quiet := repeat first
  [ done | typed_step | typed_use agent_create_typed; intros ? _
  | typed_use agent_snapshot_typed; intros ? _
  | typed_use GetStatus_typed; intros ? _ | typed_use createIfMissing_typed; [intros ? _|done] ].

Section replica.
Context `{Environ, PodImages}.
Lemma publish_replica_typed replica : Typed (ReplicaController.publish_running replica) (λ _, True).
Proof. unfold ReplicaController.publish_running. typed_quiet. Qed.
Lemma provision_typed r replica : Typed (provision r replica) (λ _, True).
Proof.
  unfold provision, choose_agent, snapshot_path, reconcile_remote, reconcile_local, replicaPod.
  repeat first [progress typed_quiet | apply publish_replica_typed].
Qed.
Lemma replica_typed r req : Typed (ReplicaController.Reconcile r req) (λ _, True).
Proof.
  unfold ReplicaController.Reconcile, replicaPod.
  repeat first [progress typed_quiet | apply provision_typed].
Qed.
End replica.

Lemma take_answer_typed snap resp : Typed (take_answer snap resp) (λ _, True).
Proof. unfold take_answer. typed_quiet. Qed.
Lemma snapshot_typed f req : Typed (SnapshotController.Reconcile f req) (λ _, True).
Proof.
  unfold SnapshotController.Reconcile, ignoreNotFound, reconcile_snapshot, reconcileDelete, delete_file,
    advance, startCreate, pollCreate, enginePodIP.
  repeat first [progress typed_quiet | apply take_answer_typed].
Qed.

Lemma ensureNQNConfig_typed namespace : Typed (ensureNQNConfig namespace) (λ _, True).
Proof.
  unfold ensureNQNConfig. generalize (default_config namespace). intros cm.
  typed_step. typed_step. destruct r as [old|e]; [|typed_quiet].
  destruct (completed (cm_Data old)) as [data updated]. typed_quiet.
Qed.
Lemma managed_typed {A} namespace (p : M A) R : Typed p R → Typed (managed namespace p) R.
Proof.
  apply typed_interp. intros c Hc.
  destruct c; try (apply (typed_ask (S:=ctl)); [exact Hc|by intros r]).
  unfold replicaAgentFactory, nodeAgentBaseURL. by typed_steps.
Qed.

Lemma CreateVolume_typed d req : Typed (CreateVolume d req) (λ _, True).
Proof. unfold CreateVolume, volume_for, CsiController.create_volume. typed_quiet. Qed.
Lemma DeleteVolume_typed d id : Typed (DeleteVolume d id) (λ _, True).
Proof. unfold DeleteVolume, delete_if_exists. typed_quiet. Qed.
Lemma ControllerPublish_typed d req : Typed (ControllerPublishVolume d req) (λ _, True).
Proof. unfold ControllerPublishVolume. typed_quiet. Qed.
Lemma CreateSnapshot_typed d req : Typed (CsiController.CreateSnapshot d req) (λ _, True).
Proof. unfold CsiController.CreateSnapshot. typed_quiet. Qed.
Lemma DeleteSnapshot_typed d id : Typed (CsiController.DeleteSnapshot d id) (λ _, True).
Proof. unfold CsiController.DeleteSnapshot, delete_if_exists. typed_quiet. Qed.
Lemma ListSnapshots_typed d id source : Typed (ListSnapshots d id source) (λ _, True).
Proof. unfold ListSnapshots. typed_quiet. Qed.

(** *** The dashboard *)
Definition dash_allowed (c : call dash) : Prop :=
  match c with inl c => allowed c | inr _ => True end.
Definition dash_promised (c : call dash) : reply dash c → Prop :=
  match c with inl c => promised c | inr _ => λ _, True end.
Abbreviation DTyped := (typed (S:=dash) dash_allowed dash_promised).
Lemma api_typed {A} (p : M A) R : Typed p R → DTyped (api p) R.
Proof. by apply typed_on_left. Qed.
Lemma kPatch_typed key patch R : (∀ r, R r) → DTyped (kPatch key patch) R.
Proof. intros H. split; [done|]. intros r _. apply H. Qed.
Lemma kListClaims_typed ns R : (∀ r, R r) → DTyped (kListClaims ns) R.
Proof. intros H. split; [done|]. intros r _. apply H. Qed.
Lemma dash_ret {A} (a : A) (R : A → Prop) : R a → DTyped (Ret a) R.
Proof. done. Qed.
Ltac dash_step :=
  cbn beta iota zeta;
  lazymatch goal with
  | |- typed (S:=dash) _ _ (Ret _) _ => apply dash_ret; cbn beta
  | |- typed (S:=dash) _ _ (api _) _ => apply api_typed
  | |- typed (S:=dash) _ _ (kPatch _ _) _ => apply kPatch_typed; intros ?
  | |- typed (S:=dash) _ _ (kListClaims _) _ => apply kListClaims_typed; intros ?
  | |- typed (S:=dash) _ _ (render _ _) _ => apply dash_ret; cbn beta
  | |- typed (S:=dash) _ _ (bind_ok _ _) _ => apply typed_bind_ok; cbn beta
  | |- typed (S:=dash) _ _ (mbind _ _) _ => apply typed_bind; cbn beta
  | |- typed (S:=dash) _ _ (match ?x with _ => _ end) _ => destruct x eqn:?
  | |- _ => typed_step
  end.
Ltac dash_steps := repeat first [done | dash_step].

Section dashboard.
Context (Render : page → string * option error)
  (range : node_totals → list (string * (Z * float64))) (namespace : string).
Lemma getVolumeEngine_typed volume :
  DTyped (getVolumeEngine namespace volume)
    (λ r, ∀ e, r = Ok (Some e) → wf_engine e).
Proof.
  unfold getVolumeEngine. repeat dash_step; try done. intros e [= <-]. by destruct (H a eq_refl).
Qed.
Lemma effective_typed volume : DTyped (effectiveReplicaCount namespace volume) (λ _, True).
Proof. unfold effectiveReplicaCount. dash_step. typed_use getVolumeEngine_typed. done. Qed.
Lemma volume_rows_typed counts volumes : DTyped (volume_rows namespace counts volumes) (λ _, True).
Proof.
  induction volumes as [|v volumes IH]; cbn [volume_rows]; [done|]. dash_step.
  typed_use effective_typed. intros count _. dash_step. typed_use IH. done.
Qed.
Lemma HandleList_typed hx : DTyped (HandleList Render range namespace hx) (λ _, True).
Proof.
  unfold HandleList, list_or. repeat first
    [ done | dash_step | typed_use volume_rows_typed; intros ? _ ].
Qed.
Lemma volume_page_typed name missing p : DTyped (volume_page Render namespace name missing p) (λ _, True).
Proof. unfold volume_page. dash_steps. typed_use effective_typed. done. Qed.
Lemma replica_views_typed engine reps : DTyped (replica_views namespace engine reps) (λ _, True).
Proof. induction reps as [|rep reps IH]; cbn [replica_views]; unfold replica_view; dash_steps. Qed.
Lemma HandleReplicas_typed name : DTyped (HandleReplicas Render namespace name) (λ _, True).
Proof.
  unfold HandleReplicas, renderEmptyReplicas. dash_steps. typed_use getVolumeEngine_typed.
  intros [[e|]|e] _; dash_steps. typed_use replica_views_typed. done.
Qed.
Lemma detach_typed replicaName volume : DTyped (detach_replica namespace replicaName volume) (λ _, True).
Proof.
  unfold detach_replica. dash_step. typed_use getVolumeEngine_typed.
  intros [[e|]|err] He; dash_steps. specialize (He e eq_refl).
  apply wf_set_Replicas; [done|]. eapply wf_sublist; [apply sublist_filter|apply He].
Qed.
Lemma HandleDeleteReplica_typed v name : DTyped (HandleDeleteReplica namespace v name) (λ _, True).
Proof.
  unfold HandleDeleteReplica. dash_steps. typed_use detach_typed. intros [[]|e] _; dash_steps.
Qed.
Lemma HandleScale_typed name r : DTyped (HandleScale namespace name r) (λ _, True).
Proof. unfold HandleScale. dash_steps. Qed.
Lemma HandleCreate_typed r : DTyped (HandleCreate namespace r) (λ _, True).
Proof. unfold HandleCreate, create_volume, create_or. dash_steps. Qed.
Lemma HandleDelete_typed name : DTyped (HandleDelete namespace name) (λ _, True).
Proof. unfold HandleDelete. dash_steps. Qed.
Lemma HandleSnapshots_typed v : DTyped (HandleSnapshots Render namespace v) (λ _, True).
Proof. unfold HandleSnapshots. dash_steps. Qed.
Lemma HandleSnapshotDelete_typed s : DTyped (HandleSnapshotDelete namespace s) (λ _, True).
Proof. unfold HandleSnapshotDelete. dash_steps. Qed.
Lemma HandleSnapshotCreate_typed v r : DTyped (HandleSnapshotCreate namespace v r) (λ _, True).
Proof. unfold HandleSnapshotCreate, create_snapshot, get_or, create_or. dash_steps. Qed.
Lemma create_from_typed v s r : DTyped (HandleSnapshotCreateFromSnapshot namespace v s r) (λ _, True).
Proof. unfold HandleSnapshotCreateFromSnapshot, create_from, get_or, create_or. dash_steps. Qed.
Lemma delete_replicas_typed v l : DTyped (delete_replicas v l) (λ _, True).
Proof. induction l as [|rep l IH]; cbn [delete_replicas]; dash_steps; done. Qed.
Lemma restore_typed v s : DTyped (HandleSnapshotRestore namespace v s) (λ _, True).
Proof.
  unfold HandleSnapshotRestore, restore, delete_engine, delete_all_replicas. dash_steps;
    try (typed_use delete_replicas_typed; intros ? _; dash_steps).
Qed.
#[local] Hint Resolve HandleList_typed HandleReplicas_typed HandleScale_typed HandleDeleteReplica_typed
  HandleCreate_typed HandleDelete_typed HandleSnapshots_typed HandleSnapshotDelete_typed
  HandleSnapshotCreate_typed create_from_typed restore_typed : typed.
Lemma NewMux_typed r : DTyped (NewMux Render range namespace r) (λ _, True).
Proof.
  unfold NewMux. destruct (served_as_is r); [|done]. cbn [negb].
  apply typed_bind. apply (typed_mono _ _ _ (λ _, True)); [done|]. set (path := pathSegment <$> dq_Path r).
  pose proof (dispatch_spec _ (dq_Method r) path (patterns_unambiguous Render range namespace)) as H.
  destruct (dispatch _ _ _) as [[s h]|]; [|done]. destruct H as [Hin _].
  generalize (path_values s path). intros values. cbn [NewMux_patterns] in Hin.
  unfold NewMux_patterns, with_name, with_both in Hin.
  repeat (apply elem_of_cons in Hin as [[= -> ->]|Hin];
    [first [done | solve [auto with typed] | apply volume_page_typed]|]).
  by apply not_elem_of_nil in Hin.
Qed.
End dashboard.

#[export] Hint Resolve volume_typed engine_typed replica_typed snapshot_typed ensureNQNConfig_typed
  CreateVolume_typed DeleteVolume_typed ControllerPublish_typed CreateSnapshot_typed
  DeleteSnapshot_typed ListSnapshots_typed NewMux_typed : typed.

(** ** The API server

    What is stored, and every version that was ever accepted: a cached read may
    answer an old one.  A version carries what the writer asked for, or, for a
    status, what was stored; the server adds the rest of the metadata. *)
Record apiserver := mkServer { stored : gmap okey Engine; versions : list Engine }.
Definition accept (e : Engine) (σ : apiserver) : apiserver :=
  mkServer (<[meta_okey (eng_meta e) := e]> (stored σ)) (e :: versions σ).
Definition remove (key : NamespacedName) (σ : apiserver) : apiserver :=
  mkServer (delete (okey_of key) (stored σ)) (versions σ).
Definition version_of (o e : Engine) : Prop :=
  key_of (eng_meta e) = key_of (eng_meta o) ∧ eng_spec e = eng_spec o.

Definition of_engines (c : ctl_call) : bool :=
  match c with
  | Get KEngine _ | List KEngine _ _ | Create KEngine _ | Update KEngine _
  | StatusUpdate KEngine _ | Client.Delete KEngine _ => true
  | _ => false
  end.
(** The call failed; whether a write was accepted all the same is open. *)
Definition failure (c : ctl_call) : ctl_reply c → Prop :=
  match c return ctl_reply c → Prop with
  | Get _ _ => λ r, ∃ err, r = Err err
  | List _ _ _ => λ r, ∃ err, r = Err err
  | Create _ _ | Update _ _ | StatusUpdate _ _ => λ r, ∃ err, r = Err err
  | Client.Delete _ _ => λ r, ∃ err, r = Err err
  | _ => λ _, False
  end.
(** The answer to a write that is accepted: the version, or an error. *)
Definition acked (e : Engine) (r : result Engine) : Prop := r = Ok e ∨ ∃ err, r = Err err.

Inductive served (σ : apiserver) : ∀ c : ctl_call, ctl_reply c → apiserver → Prop :=
  | ServedOther c r : of_engines c = false → promised c r → served σ c r σ
  | ServedFailed c r : failure c r → served σ c r σ
  | ServedGet key e :
      e ∈ versions σ → key_of (eng_meta e) = key → served σ (Get KEngine key) (Ok e) σ
  | ServedList ns labels l :
      modest (Z.of_nat (length l)) → l ⊆ versions σ → served σ (List KEngine ns labels) (Ok l) σ
  | ServedCreate o e r :
      stored σ !! meta_okey (eng_meta o) = None → version_of o e → acked e r →
      served σ (Create KEngine o) r (accept e σ)
  | ServedUpdate o old e r :
      stored σ !! meta_okey (eng_meta o) = Some old → version_of o e →
      eng_status e = eng_status old → acked e r → served σ (Update KEngine o) r (accept e σ)
  | ServedStatus o old e r :
      stored σ !! meta_okey (eng_meta o) = Some old → version_of old e →
      eng_status e = eng_status o → acked e r → served σ (StatusUpdate KEngine o) r (accept e σ)
  | ServedDelete key r : served σ (Client.Delete KEngine key) r (remove key σ).

(** The calls of the dashboard; a patch is of a volume. *)
Definition dash_served (σ : apiserver) (c : call dash) : reply dash c → apiserver → Prop :=
  match c with inl c => served σ c | inr _ => λ _ σ', σ' = σ end.

(** ** The programs *)
Definition discard {A} (p : D A) : D unit := p ≫= λ _, Ret tt.
Section cluster.
Context `{Environ, PodImages} (Render : page → string * option error)
  (range : node_totals → list (string * (Z * float64))).

(** The manager's reconcilers as [main] configures them, the CSI controller
    service, the dashboard's mux. *)
Inductive program : D unit → Prop :=
  | NQNConfig ns : program (discard (api (ensureNQNConfig ns)))
  | ReconcileVolume req : program (discard (api (VolumeController.Reconcile req)))
  | ReconcileReplica ns req :
      program (discard (api (managed ns
        (ReplicaController.Reconcile (mkReplicaReconciler None true None) req))))
  | ReconcileEngine req : program (discard (api (EngineController.Reconcile None req)))
  | ReconcileSnapshot ns req :
      program (discard (api (managed ns (SnapshotController.Reconcile None req))))
  | CsiCreateVolume d req : program (discard (api (CreateVolume d req)))
  | CsiDeleteVolume d id : program (discard (api (DeleteVolume d id)))
  | CsiPublish d req : program (discard (api (ControllerPublishVolume d req)))
  | CsiCreateSnapshot d req : program (discard (api (CsiController.CreateSnapshot d req)))
  | CsiDeleteSnapshot d id : program (discard (api (CsiController.DeleteSnapshot d id)))
  | CsiListSnapshots d id source : program (discard (api (ListSnapshots d id source)))
  | Dashboard ns r : program (discard (NewMux Render range ns r)).

(** A state: the server, and the programs that are running.  One step is one
    call of one of them, a program that is started, or one that ends: because
    it has returned, or because its process died. *)
Definition cluster : Type := apiserver * list (D unit).
Inductive step : cluster → cluster → Prop :=
  | Start σ ps p : program p → step (σ, ps) (σ, p :: ps)
  | Call σ σ' ps1 c k r ps2 :
      dash_served σ c r σ' → step (σ, ps1 ++ Vis (S:=dash) c k :: ps2) (σ', ps1 ++ k r :: ps2)
  | End σ ps1 p ps2 : step (σ, ps1 ++ p :: ps2) (σ, ps1 ++ ps2).
Definition empty_cluster : cluster := (mkServer ∅ [], []).
Definition reachable (s : cluster) : Prop := rtc step empty_cluster s.

(** ** The invariant *)
Definition server_typed (σ : apiserver) : Prop :=
  Forall wf_engine (versions σ) ∧ map_Forall (λ _, wf_engine) (stored σ).
Definition cluster_typed (s : cluster) : Prop :=
  server_typed s.1 ∧ Forall (λ p, DTyped p (λ _, True)) s.2.

Lemma discard_typed {A} (p : D A) : DTyped p (λ _, True) → DTyped (discard p) (λ _, True).
Proof. intros Hp. apply typed_bind. eapply typed_mono, Hp. done. Qed.
Lemma program_typed p : program p → DTyped p (λ _, True).
Proof.
  destruct 1; apply discard_typed; try apply api_typed; try apply managed_typed;
    solve [auto with typed].
Qed.

Lemma version_typed o e : version_of o e → wf_engine o → wf_engine e.
Proof.
  unfold wf_engine, eng_Replicas, eng_Name. intros [[= _ ->] ->]. done.
Qed.
Lemma accept_typed e σ : wf_engine e → server_typed σ → server_typed (accept e σ).
Proof.
  intros He [Hv Hs]. split; [by constructor|]. by apply map_Forall_insert_2.
Qed.
Lemma acked_typed e r σ :
  wf_engine e → acked e r → server_typed σ →
  (∀ o, r = Ok o → wf_engine o) ∧ server_typed (accept e σ).
Proof.
  intros He Hr Hσ. split; [|by apply accept_typed].
  destruct Hr as [->|[err ->]]; [|done]. by intros o [= <-].
Qed.
Lemma failure_promised c r : failure c r → promised c r.
Proof. destruct c; try done; intros [err ->] x Hx; done. Qed.

(** An allowed call of a well-typed server is answered as promised. *)
Lemma served_typed σ c r σ' :
  served σ c r σ' → allowed c → server_typed σ → promised c r ∧ server_typed σ'.
Proof.
  intros Hserve Hc Hσ. pose proof Hσ as [Hv Hs]. rw Forall_forall in Hv. destruct Hserve.
  - done.
  - split; [by apply failure_promised|done].
  - split; [|done]. intros o [= <-]. split; [by subst key|]. by apply Hv.
  - split; [|done]. intros l' [= <-]. split; [done|]. apply Forall_forall. set_solver.
  - apply (acked_typed e); [by eapply version_typed|done..].
  - apply (acked_typed e); [by eapply version_typed|done..].
  - apply (acked_typed e); [|done..]. eapply version_typed; [done|by apply (Hs _ _ H1)].
  - split; [done|]. split; [by apply Forall_forall|]. by apply map_Forall_delete.
Qed.
Lemma step_typed s s' : step s s' → cluster_typed s → cluster_typed s'.
Proof.
  destruct 1 as [σ ps p Hp|σ σ' ps1 c k r ps2 Hserve|σ ps1 p ps2]; intros [Hσ Hps]; cbn in *.
  - split; [done|]. constructor; [by apply program_typed|done].
  - apply Forall_app in Hps as [Hps1 [[Hc Hk] Hps2]%Forall_cons].
    assert (dash_promised c r ∧ server_typed σ') as [Hr Hσ'].
    { destruct c as [c|c]; [by eapply served_typed|]. cbn in Hserve. by subst. }
    split; [done|]. apply Forall_app. split; [done|]. constructor; [by apply Hk|done].
  - split; [done|]. apply Forall_app in Hps as [? [_ ?]%Forall_cons]. by apply Forall_app.
Qed.
Lemma reachable_typed s : reachable s → cluster_typed s.
Proof.
  intros H1. assert (cluster_typed empty_cluster) as H2 by (split; [split; [done|]|]; done).
  revert H2. induction H1 as [|s1 s2 s3 Hstep _ IH]; [done|]. intros H2. by apply IH, (step_typed s1).
Qed.

(** The whole of a program, undisturbed. *)
Inductive serves : apiserver → list (event dash) → apiserver → Prop :=
  | serves_nil σ : serves σ [] σ
  | serves_cons σ c r σ1 tr σ2 :
      dash_served σ c r σ1 → serves σ1 tr σ2 → serves σ (ev (S:=dash) c r :: tr) σ2.
Lemma run_steps p tr a σ σ' ps :
  exec p tr a → serves σ tr σ' → rtc step (σ, p :: ps) (σ', Ret a :: ps).
Proof.
  intros Hex Hs. revert p Hex. induction Hs as [σ|σ c r σ1 tr σ2 Hserve _ IH]; intros [b|c' k] Hex.
  - by destruct Hex as [_ ->].
  - by destruct Hex as (r & tr' & ? & _).
  - by destruct Hex.
  - destruct Hex as (r' & tr' & Heq & Hex).
    apply (inj2 cons) in Heq as [Hev <-].
    assert (∀ e : event dash, e = ev (S:=dash) c r → dash_served σ (projT1 e) (projT2 e) σ1) as He
      by (intros e Heq; by rw Heq).
    pose proof (He _ (eq_sym Hev)) as Hserve'.
    eapply rtc_l; [exact (Call σ σ1 [] c' k r' ps Hserve')|]. by apply IH.
Qed.
Lemma reachable_run p tr a σ σ' ps :
  reachable (σ, ps) → program p → exec p tr a → serves σ tr σ' → reachable (σ', Ret a :: ps).
Proof.
  unfold reachable. intros Hr Hp Hex Hs. etrans; [exact Hr|].
  eapply rtc_l; [by apply Start|]. by eapply run_steps.
Qed.

(** ** Property *)

(** C8. The type of engines is kept by the whole system.  The reconcilers of the
    manager, the CSI controller service and the dashboard run at the same time,
    in any number, any call of one between any two of another; reads may be
    stale, calls may fail with or without effect, and programs may die between
    two calls.  At every moment every version of an engine that the server has
    accepted has the name derived from its volume's, attachments that are all
    named after an index of that volume, and no two attachments of the same
    name; and so has every engine that a running program is about to write. *)
Theorem engines_well_typed (s : cluster) :
  reachable s →
  Forall wf_engine (versions s.1) ∧ map_Forall (λ _, wf_engine) (stored s.1) ∧
  ∀ c k, Vis (S:=dash) (inl c) k ∈ s.2 → allowed c.
Proof.
  intros [[Hv Hs] Hps]%reachable_typed. split_and!; [done..|]. intros c k Hin.
  rw Forall_forall in Hps. by destruct (Hps _ Hin).
Qed.
End cluster.

(** The first reconcile of a volume of two replicas. *)
Section witness.
Definition no_page (p : page) : string * option error := ("", None).
Definition first_pass := run dash_handler (discard (api (VolumeController.Reconcile (mkName "ns" "v")))) new_world.
#[local] Instance cluster_environ : Environ := λ _, "".
#[local] Instance cluster_images : PodImages := defaultPodImages.
Ltac solve_promised :=
  let o := fresh in let n := fresh in let Hn := fresh in
  cbn; first
    [ exact I | intros o _; exact I
    | intros o [= <-]; first [intros n Hn|split; [done|first [intros n Hn|by repeat constructor]]];
      vm_compute in Hn; injection Hn as <-; vm_compute; discriminate ].
Lemma serves_first_pass :
  ∃ σ, serves (mkServer ∅ []) first_pass.1.1 σ ∧ length (versions σ) = 1.
Proof.
  let t := eval vm_compute in first_pass.1.1 in change first_pass.1.1 with t. eexists. split.
  - repeat (eapply serves_cons;
      [first [apply ServedOther; [reflexivity|solve_promised]
             |eapply ServedCreate; [reflexivity|by split|by left]]|]).
    apply serves_nil.
  - reflexivity.
Qed.
(** The engine that the pass has created. *)
Lemma engines_well_typed_witness :
  ∃ σ, length (versions σ) = 1 ∧ Forall wf_engine (versions σ).
Proof.
  destruct serves_first_pass as (σ & Hs & Hl). exists σ. split; [exact Hl|].
  apply (engines_well_typed no_page map_to_list (σ, [Ret tt])).
  apply (reachable_run no_page map_to_list (discard (api (VolumeController.Reconcile (mkName "ns" "v"))))
    first_pass.1.1 tt (mkServer ∅ []) σ []).
  - apply rtc_refl.
  - apply ReconcileVolume.
  - exact (exec_of_run dash_handler _ new_world _ eq_refl).
  - exact Hs.
Defined.
End witness.
