(* ===== verification/FakeAgent.v ===== *)
(** * internal/agent/fake.go: the recording agent of the tests

    Its methods as functions on its state, and the environment that they are
    for the programs that call an agent. *)
From S2P Require Import Prelude GoStrings K8s ApiTypes WireTypes Client.

Record FakeClient := mkFake {
  fk_Created : list CreateReplicaRequest; fk_Deleted : list DeleteSnapshotRequest;
  fk_Err : option error }.
Definition answer {A} (f : FakeClient) (a : A) : result A :=
  match fk_Err f with Some err => Err err | None => Ok a end.
Definition fake_DeleteSnapshot (req : DeleteSnapshotRequest) (f : FakeClient) : result unit * FakeClient :=
  let f := mkFake (fk_Created f) (fk_Deleted f ++ [req]) (fk_Err f) in (answer f tt, f).
Definition fake_CreateReplica (req : CreateReplicaRequest) (f : FakeClient)
    : result CreateReplicaResponse * FakeClient :=
  let f := mkFake (fk_Created f ++ [req]) (fk_Deleted f) (fk_Err f) in
  (answer f (mkCreateReplicaResp "/dev/loop0" ReplicaStateReady), f).
Definition fake_DeleteReplica (req : DeleteReplicaRequest) (f : FakeClient) : result unit * FakeClient :=
  (answer f tt, f).
Definition fake_GetReplica (req : GetReplicaRequest) (f : FakeClient) : result GetReplicaResponse * FakeClient :=
  (answer f (mkGetReplicaResp ReplicaStateReady "10Gi"), f).

(** An environment with the fake as every agent. *)
Definition with_fake {W} (h : Prelude.handler ctl W) : Prelude.handler ctl (W * FakeClient) :=
  λ c, match c return W * FakeClient → ctl_reply c * (W * FakeClient) with
  | AgentCreateReplica _ req => λ x, let '(r, f) := fake_CreateReplica req x.2 in (r, (x.1, f))
  | AgentDeleteReplica _ req => λ x, let '(r, f) := fake_DeleteReplica req x.2 in (r, (x.1, f))
  | AgentGetReplica _ req => λ x, let '(r, f) := fake_GetReplica req x.2 in (r, (x.1, f))
  | AgentDeleteSnapshot _ req => λ x, let '(r, f) := fake_DeleteSnapshot req x.2 in (r, (x.1, f))
  | c => λ x, let '(r, w) := h c x.1 in (r, (w, x.2))
  end.

(** The requests that a trace holds. *)
Definition created_in (e : event ctl) : option CreateReplicaRequest :=
  match projT1 e with AgentCreateReplica _ req => Some req | _ => None end.
Definition deleted_in (e : event ctl) : option DeleteSnapshotRequest :=
  match projT1 e with AgentDeleteSnapshot _ req => Some req | _ => None end.

(** What the tests read off the fake is what the program asked of its agents,
    in order, whatever the program and whether or not the fake fails. *)
Theorem fake_records {A W} (h : Prelude.handler ctl W) (p : M A) (w : W) (f : FakeClient) :
  let '(tr, _, (_, f')) := run (with_fake h) p (w, f) in
  fk_Created f' = fk_Created f ++ omap created_in tr ∧
  fk_Deleted f' = fk_Deleted f ++ omap deleted_in tr ∧ fk_Err f' = fk_Err f.
Proof.
  revert w f. induction p as [a|c k IH]; intros w f; cbn [run].
  - by rw !app_nil_r.
  - destruct (with_fake h c (w, f)) as [r [w' f1]] eqn:E. specialize (IH r w' f1).
    destruct (run _ (k r) (w', f1)) as [[tr a] [w2 f2]]. destruct IH as (-> & -> & ->).
    assert (fk_Err f1 = fk_Err f ∧
      fk_Created f1 = fk_Created f ++ option_list (created_in (ev (S:=ctl) c r)) ∧
      fk_Deleted f1 = fk_Deleted f ++ option_list (deleted_in (ev (S:=ctl) c r))) as (-> & -> & ->).
    { destruct c; cbn in E; try destruct (h _ w); simplify_eq; cbn; by rw ?app_nil_r. }
    rw -!app_assoc. split_and!; [| |done]; destruct c; done.
Qed.
