(* ===== verification/Logging.v ===== *)
(** * internal/logging: the log format and the sink of the controller runtime

    zerolog and logr are libraries: an event is the list of the fields that it
    is given, in order, with its message; the timestamp that zerolog adds to
    each event, and the form in which it writes one, are not part of it. *)
From S2P Require Import Prelude GoStrings Names.

(** logging.go *)
Definition normalizeFormat (format : string) : string :=
  if bool_decide (ToLower (TrimSpace format) = "json") then "json" else "pretty".

(** A value of type [any]: a string, or something else. *)
Inductive any := AString (s : string) | AOther (id : nat).
(** A logger of zerolog: whether it writes for the console, and the fields of
    its context. *)
Record Logger := mkLogger { lo_Pretty : bool; lo_Context : list (string * any) }.
Definition newLogger (component format : string) : Logger :=
  mkLogger (bool_decide (normalizeFormat format = "pretty"))
    (if bool_decide (component ≠ "") then [("component", AString component)] else []).
Definition envLogFormat : string := "KDFS_LOG_FORMAT".
Definition Root `{Environ} : Logger := newLogger "" (Getenv envLogFormat).
Definition Component `{Environ} (name : string) : Logger := newLogger name (Getenv envLogFormat).

(** logr.go *)
Record sink := mkSink { sk_logger : Logger; sk_names : list string; sk_values : list any }.
Definition ControllerRuntime `{Environ} (component : string) : sink := mkSink (Component component) [] [].
Definition Enabled (level : Z) : bool := true.
Definition WithValues (keysAndValues : list any) (s : sink) : sink :=
  mkSink (sk_logger s) (sk_names s) (sk_values s ++ keysAndValues).
Definition WithName (name : string) (s : sink) : sink :=
  mkSink (sk_logger s) (sk_names s ++ [name]) (sk_values s).

(** ** The fields of an event *)
Definition field_key (k : any) (i : nat) : string :=
  match k with AString s => s | AOther _ => "non_string_key_" +:+ Itoa (Z.of_nat i) end.
(** The pairs from the [i]th on, of a list of even length. *)
Fixpoint pairs (i : nat) (all : list any) : list (string * any) :=
  match all with
  | k :: v :: all' => (field_key k i, v) :: pairs (S i) all'
  | _ => []
  end.
Definition padded (all : list any) : list any :=
  if bool_decide (length all `mod` 2 ≠ 0) then all ++ [AString "<missing>"] else all.
Definition apply (s : sink) (keysAndValues : list any) : list (string * any) :=
  (if bool_decide (0 < length (sk_names s)) then [("logger", AString (Join (sk_names s) "/"))] else []) ++
  pairs 0 (padded (sk_values s ++ keysAndValues)).
(** The level of an event; an error that is nil adds no field. *)
Inductive severity := LInfo | LError (err : option error).
Record log_event := mkLog { lg_Severity : severity; lg_Fields : list (string * any); lg_Msg : string }.
Definition Info (s : sink) (msg : string) (keysAndValues : list any) : log_event :=
  mkLog LInfo (lo_Context (sk_logger s) ++ apply s keysAndValues) msg.
Definition Error (s : sink) (err : option error) (msg : string) (keysAndValues : list any) : log_event :=
  mkLog (LError err) (lo_Context (sk_logger s) ++ apply s keysAndValues) msg.

(** ** Properties *)
Lemma padded_even all : ∃ n, length (padded all) = 2 * n.
Proof.
  unfold padded. case_bool_decide as H.
  - rw length_app. cbn [length]. exists (S (length all / 2)).
    pose proof (Nat.div_mod_eq (length all) 2). pose proof (Nat.mod_upper_bound (length all) 2). lia.
  - exists (length all / 2). pose proof (Nat.div_mod_eq (length all) 2). lia.
Qed.
Lemma length_pairs i all n : length all = 2 * n → length (pairs i all) = n.
Proof.
  revert i all. induction n as [|n IH]; intros i all H.
  - by destruct all.
  - destruct all as [|k [|v all]]; cbn in H; [lia|lia|]. cbn [pairs length]. f_equal. apply IH. lia.
Qed.
(** A value is logged at the place of its key, however the pairs are divided
    between the sink and the call; nothing is dropped. *)
Theorem WithValues_apply (s : sink) (kvs kvs' : list any) :
  apply (WithValues kvs s) kvs' = apply s (kvs ++ kvs').
Proof. unfold apply, WithValues. cbn. by rw -app_assoc. Qed.
Theorem apply_length (s : sink) (kvs : list any) :
  length (apply s kvs) =
  (if decide (sk_names s = []) then 0 else 1) + (length (sk_values s ++ kvs) + 1) / 2.
Proof.
  unfold apply. rw length_app. f_equal; [by destruct (sk_names s)|].
  destruct (padded_even (sk_values s ++ kvs)) as [n Hn]. rw (length_pairs 0 _ n Hn).
  unfold padded in Hn. case_bool_decide as H; [rw length_app in Hn; cbn [length] in Hn|].
  - apply (Nat.div_unique _ 2 n 0); lia.
  - apply (Nat.div_unique _ 2 n 1); lia.
Qed.
(** However it is spelled, a format other than "json" is the console's; the
    component comes before everything that the runtime logs. *)
Theorem ControllerRuntime_event `{Environ} (component msg : string) (kvs : list any) :
  component ≠ "" →
  lg_Fields (Info (ControllerRuntime component) msg kvs) =
    ("component", AString component) :: pairs 0 (padded kvs) ∧
  lo_Pretty (sk_logger (ControllerRuntime component)) =
    negb (bool_decide (ToLower (TrimSpace (Getenv envLogFormat)) = "json")).
Proof.
  intros Hc. unfold Info, ControllerRuntime, Component, newLogger. split.
  - cbn [lg_Fields sk_logger lo_Context]. by rw bool_decide_eq_true_2.
  - cbn [sk_logger lo_Pretty]. unfold normalizeFormat.
    by destruct (bool_decide (ToLower _ = _)).
Qed.
