(* ===== verification/Nfs.v ===== *)
(** * internal/sidecar/nfs.go and cmd/nfs-sidecar/main.go

    What the NFS sidecar serves and where, and the numbers of its file system;
    the server is the go-nfs library's. *)
From S2P Require Import Prelude GoStrings GoNet K8s ApiTypes Names PodTemplates.

Definition wrapu64 (z : Z) : Z := (z mod 2 ^ 64)%Z.
(** [syscall.Statfs_t], as far as it is used, and the answer of [FSStat]; an
    error leaves the answer as it was, and is not reported. *)
Record Statfs_t := mkStatfs {
  fs_Bsize : Z; fs_Blocks : Z; fs_Bfree : Z; fs_Bavail : Z; fs_Files : Z; fs_Ffree : Z }.
Record FSStat_answer := mkFSStat {
  TotalSize : Z; FreeSize : Z; AvailableSize : Z; TotalFiles : Z; FreeFiles : Z; AvailableFiles : Z }.
Definition FSStat (stat : result Statfs_t) (s : FSStat_answer) : FSStat_answer * option error :=
  (match stat with
   | Err _ => s
   | Ok stat =>
       let size blocks := wrapu64 (blocks * wrapu64 (fs_Bsize stat)) in
       mkFSStat (size (fs_Blocks stat)) (size (fs_Bfree stat)) (size (fs_Bavail stat))
         (fs_Files stat) (fs_Ffree stat) (fs_Ffree stat)
   end, None).

(** The address and the path that [main] serves, or the fatal message. *)
Definition nfs_main `{Environ} : string + (string * string) :=
  let addr := Getenv "KDFS_NFS_BIND" in
  let addr := if bool_decide (addr = "") then ":2049" else addr in
  let exportPath := Getenv "KDFS_NFS_EXPORT" in
  if bool_decide (exportPath = "") then inl "KDFS_NFS_EXPORT not set" else inr (exportPath, addr).

(** What is reported is ordered as a file system is, when its size in bytes
    fits in 64 bits. *)
Theorem FSStat_ordered (stat : Statfs_t) (s : FSStat_answer) :
  (0 < fs_Bsize stat < 2 ^ 63)%Z → (0 ≤ fs_Bavail stat ≤ fs_Bfree stat)%Z →
  (fs_Bfree stat ≤ fs_Blocks stat)%Z → (fs_Blocks stat * fs_Bsize stat < 2 ^ 64)%Z →
  let r := (FSStat (Ok stat) s).1 in
  (0 ≤ AvailableSize r ≤ FreeSize r)%Z ∧ (FreeSize r ≤ TotalSize r)%Z ∧
  TotalSize r = (fs_Blocks stat * fs_Bsize stat)%Z.
Proof.
  intros Hb Ha Hf Ht. cbn. assert (wrapu64 (fs_Bsize stat) = fs_Bsize stat) as ->
    by (apply Z.mod_small; lia).
  unfold wrapu64. rw !Z.mod_small; nia.
Qed.

(** From the controller's pod to the export: the process that sees the
    environment of its container serves the directory of the volume on the
    engine's node, which is where the file of the local replica lies, and not a
    mount of the volume that the engine exports. *)
Theorem nfs_exports_data_directory `{Env : Environ, PodImages} (process : Environ) (engine : Engine)
    (hosts : list string) (c : Container) :
  ps_Containers (pod_spec (EnginePodFor engine hosts)) !! 2 = Some c →
  (∀ n val, env_value n (c_Env c) = Some val → process n = val) →
  ∃ export, @nfs_main process = inr (export, ":2049") ∧
    host_path (EnginePodFor engine hosts) c (export +:+ "/vol.img") =
      Some (DataPath (es_VolumeRef (eng_spec engine))).
Proof.
  intros [= <-] Henv. set (v := es_VolumeRef (eng_spec engine)). exists ("/data/" +:+ v).
  assert (env_value "KDFS_NFS_EXPORT" (c_Env (nfs_container v)) = Some ("/data/" +:+ v) ∧
    env_value "KDFS_NFS_BIND" (c_Env (nfs_container v)) = Some ":2049") as [E1 E2] by done.
  apply Henv in E1, E2. unfold nfs_main, Getenv. rw E1 E2. split; [done|].
  rw string_app_assoc. reflexivity.
Qed.
