(* ===== verification/WorkQueue.v ===== *)
(** * The work queue of a controller

    A controller reconciles the objects of one kind.  A key waits in the queue
    until a worker takes it; while a key is being reconciled no other worker
    takes it, and what makes it wait again meanwhile is not lost.  A reconcile
    that fails, or asks for a later one, puts the key back; a write that changes
    an object wakes the controller of its kind.  This file says what a
    reconciler owes to the queue so that no object is forgotten, and shows that
    it is enough; Wakeups.v has the four reconcilers. *)
From S2P Require Import Prelude GoStrings K8s ApiTypes WireTypes Client.
From stdpp Require Import relations.

#[global] Instance NamespacedName_eq_dec : EqDecision NamespacedName.
Proof. solve_decision. Defined.
#[global] Program Instance NamespacedName_countable : Countable NamespacedName :=
  inj_countable' (λ n, (nn_Namespace n, nn_Name n)) (λ p, mkName p.1 p.2) _.
Next Obligation. by intros []. Qed.

(** ** What a reconcile leaves behind *)

(** The key is put back: after an error, or after a delay. *)
Definition retried (r : Reconciled) : Prop := r.2 ≠ None ∨ (0 < RequeueAfter r.1)%Z.
(** A write of the object itself that the server accepted. *)
Definition own_write (k : kind) (key : NamespacedName) (v : obj k) (tr : trace) : Prop :=
  key_of (obj_meta k v) = key ∧
  ∃ v', ev (S:=ctl) (StatusUpdate k v) (Ok v') ∈ tr ∨ ev (S:=ctl) (Update k v) (Ok v') ∈ tr.

(** The server answers an update of the main resource with the object it was
    sent, the version apart. *)
Definition echo (k : kind) : obj k → obj k → Prop :=
  match k with
  | KVolume => λ v v', vol_spec v' = vol_spec v ∧ vol_status v' = vol_status v
  | KEngine => λ v v', eng_spec v' = eng_spec v ∧ eng_status v' = eng_status v
  | _ => λ _ _, True
  end.
Definition echoes (e : event ctl) : Prop :=
  match e with
  | existT c r =>
      match c return ctl_reply c → Prop with
      | Update k v => λ r, match r with
          | Ok v' => key_of (obj_meta k v') = key_of (obj_meta k v) ∧ echo k v v'
          | Err _ => True
          end
      | _ => λ _, True
      end r
  end.

(** A write of an object that the server takes for the stored one (timestamps
    are stored to the second) changes nothing and wakes nobody.  Objects that
    differ in what follows are not the same to it. *)
Definition landmarks (k : kind) : obj k → obj k → Prop :=
  match k with
  | KVolume => λ o v, vst_Phase (vol_status o) = vst_Phase (vol_status v) ∧
                      vst_EngineRef (vol_status o) = vst_EngineRef (vol_status v)
  | KEngine => λ o v, est_Phase (eng_status o) = est_Phase (eng_status v) ∧
                      est_PodRef (eng_status o) = est_PodRef (eng_status v)
  | KReplica => λ o v, rst_Phase (rep_status o) = rst_Phase (rep_status v)
  | KSnapshot => λ o v, sst_Phase (snap_status o) = sst_Phase (snap_status v) ∧
                        om_Finalizers (snap_meta o) = om_Finalizers (snap_meta v)
  | KPod | KNode | KConfigMap => λ _ _, True
  end.
Class SameObject := {
  same : ∀ k, obj k → obj k → Prop;
  same_dec : ∀ k o v, Decision (same k o v);
  same_landmarks : ∀ k o v, same k o v → landmarks k o v }.
#[global] Existing Instance same_dec.

(** ** A reconciler and what it owes *)
Record Controller (k : kind) := mkController {
  reconciler : NamespacedName → M Reconciled;
  settled : obj k → Prop;
  (** The circumstances in which it lets an unsettled object go. *)
  hole : obj k → trace → Prop }.
Arguments mkController {k}.
Arguments reconciler {k}.
Arguments settled {k}.
Arguments hole {k}.

Section attentive.
Context `{SameObject} {k : kind}.
Definition woken (key : NamespacedName) (o : obj k) (tr : trace) : Prop :=
  ∃ v, own_write k key v tr ∧ ¬ same k o v.
(** It lets go of what it was given only when it is settled, or in the
    circumstances named. *)
Class Attentive (C : Controller k) : Prop := {
  attends : ∀ key o tr r, key_of (obj_meta k o) = key →
    exec (reconciler C key) (ev (S:=ctl) (Get k key) (Ok o) :: tr) r → Forall echoes tr →
    settled C o ∨ retried r ∨ woken key o tr ∨ hole C o tr;
  insists : ∀ key e tr r,
    exec (reconciler C key) (ev (S:=ctl) (Get k key) (Err e) :: tr) r →
    IsNotFound e = false → retried r }.

(** ** The queue *)
Record queue := mkQueue {
  q_store : gmap NamespacedName (obj k);    (* what the server holds *)
  q_pending : gset NamespacedName;          (* waiting, or waiting for a delay to pass *)
  q_running : gmap NamespacedName (option (obj k));  (* with what was read *)
  q_lost : gset NamespacedName }.           (* let go through a hole *)
Definition empty_queue : queue := mkQueue ∅ ∅ ∅ ∅.

(** What the first read of a reconcile is answered. *)
Definition answers (seen : option (obj k)) (g : result (obj k)) : Prop :=
  match seen with
  | Some o => g = Ok o ∨ ∃ e, g = Err e ∧ IsNotFound e = false
  | None => ∃ e, g = Err e
  end.
Definition done_with (key : NamespacedName) (pending lost : gset NamespacedName) (q : queue) : queue :=
  mkQueue (q_store q) (pending ∪ q_pending q) (delete key (q_running q)) (lost ∪ q_lost q).

Context (C : Controller k).
(** A reconcile of [key], begun when the server held [seen], has ended. *)
Definition reconciles (key : NamespacedName) (seen : option (obj k)) (tr : trace) (r : Reconciled) : Prop :=
  ∃ g, answers seen g ∧ exec (reconciler C key) (ev (S:=ctl) (Get k key) g :: tr) r ∧
       Forall echoes tr.
Definition wakes (key : NamespacedName) (seen : option (obj k)) (tr : trace) : Prop :=
  ∃ o, seen = Some o ∧ woken key o tr.
Definition escapes (seen : option (obj k)) (tr : trace) : Prop :=
  ∃ o, seen = Some o ∧ hole C o tr.

Inductive queue_step : queue → queue → Prop :=
  (** Somebody creates an object, or changes it: also a reconcile that is running. *)
  | Changed q o :
      let key := key_of (obj_meta k o) in
      queue_step q (mkQueue (<[key := o]> (q_store q)) ({[key]} ∪ q_pending q) (q_running q) (q_lost q))
  | Deleted q key :
      queue_step q (mkQueue (delete key (q_store q)) ({[key]} ∪ q_pending q) (q_running q) (q_lost q))
  (** Any other reason to reconcile. *)
  | Woken q key :
      queue_step q (mkQueue (q_store q) ({[key]} ∪ q_pending q) (q_running q) (q_lost q))
  | Begin q key :
      key ∈ q_pending q → q_running q !! key = None →
      queue_step q (mkQueue (q_store q) (q_pending q ∖ {[key]})
                      (<[key := q_store q !! key]> (q_running q)) (q_lost q))
  | EndAwake q key seen tr r :
      q_running q !! key = Some seen → reconciles key seen tr r →
      retried r ∨ wakes key seen tr → queue_step q (done_with key {[key]} ∅ q)
  | EndHole q key seen tr r :
      q_running q !! key = Some seen → reconciles key seen tr r →
      ¬ retried r → ¬ wakes key seen tr → escapes seen tr →
      queue_step q (done_with key ∅ {[key]} q)
  | EndAsleep q key seen tr r :
      q_running q !! key = Some seen → reconciles key seen tr r →
      ¬ retried r → ¬ wakes key seen tr → ¬ escapes seen tr →
      queue_step q (done_with key ∅ ∅ q).
Definition queue_reachable (q : queue) : Prop := rtc queue_step empty_queue q.

(** ** No object is forgotten *)
Definition attended (q : queue) (key : NamespacedName) (o : obj k) : Prop :=
  settled C o ∨ key ∈ q_pending q ∨ q_running q !! key = Some (Some o) ∨ key ∈ q_lost q.
(** A key was let go only through a hole. *)
Definition excused (key : NamespacedName) : Prop :=
  ∃ seen tr r, reconciles key seen tr r ∧ ¬ retried r ∧ ¬ wakes key seen tr ∧ escapes seen tr.
Record queue_inv (q : queue) : Prop := mkQueueInv {
  qi_keys : map_Forall (λ key o, key_of (obj_meta k o) = key) (q_store q);
  qi_seen : map_Forall (λ key seen, ∀ o, seen = Some o → key_of (obj_meta k o) = key) (q_running q);
  qi_attended : ∀ key o, q_store q !! key = Some o → attended q key o;
  qi_lost : ∀ key, key ∈ q_lost q → excused key }.

(** Taking a step elsewhere keeps an object attended. *)
Lemma attended_mono q q' key o :
  q_pending q ⊆ q_pending q' → q_running q' !! key = q_running q !! key →
  q_lost q ⊆ q_lost q' → attended q key o → attended q' key o.
Proof. unfold attended. intros Hp -> Hl [?|[?|[?|?]]]; set_solver. Qed.

Lemma done_inv q key seen pending lost :
  queue_inv q → q_running q !! key = Some seen →
  (∀ o, seen = Some o → key_of (obj_meta k o) = key → settled C o ∨ key ∈ pending ∨ key ∈ lost) →
  (∀ key', key' ∈ lost → excused key') →
  queue_inv (done_with key pending lost q).
Proof.
  intros [Hk Hs Ha Hl] Hr Hseen Hex. split; cbn.
  - done.
  - by apply map_Forall_delete.
  - intros key' o Ho. specialize (Ha key' o Ho). destruct (decide (key' = key)) as [->|Hne].
    + destruct Ha as [?|[?|[Hrun|?]]]; unfold attended; cbn; [by left|set_solver| |set_solver].
      rw Hr in Hrun. injection Hrun as ->.
      destruct (Hseen o eq_refl (Hs _ _ Hr o eq_refl)) as [?|[?|?]]; set_solver.
    + eapply attended_mono, Ha; cbn; [set_solver|by rw lookup_delete_ne|set_solver].
  - intros key' [Hin|Hin]%elem_of_union; auto.
Qed.

Lemma queue_step_inv `{!Attentive C} q q' : queue_step q q' → queue_inv q → queue_inv q'.
Proof.
  destruct 1 as [q o key|q key|q key|q key Hp Hr|q key seen tr r Hr Hrec Hw
    |q key seen tr r Hr Hrec H1 H2 H3|q key seen tr r Hr Hrec H1 H2 H3]; intros Hinv.
  1-4: destruct Hinv as [Hk Hs Ha Hl].
  - split; cbn; [by apply map_Forall_insert_2|done| |done]. intros key' o' Ho.
    destruct (decide (key' = key)) as [->|Hne]; [right; left; set_solver|].
    rw lookup_insert_ne // in Ho. eapply attended_mono, Ha, Ho; set_solver.
  - split; cbn; [by apply map_Forall_delete|done| |done].
    intros key' o' [Hne Ho]%lookup_delete_Some. eapply attended_mono, Ha, Ho; set_solver.
  - split; cbn; [done|done| |done]. intros key' o' Ho. eapply attended_mono, Ha, Ho; set_solver.
  - split; cbn; [done| | |done].
    + apply map_Forall_insert_2; [|done]. intros o Ho. by apply Hk.
    + intros key' o' Ho. destruct (decide (key' = key)) as [->|Hne].
      * right; right; left. cbn. by rw lookup_insert_eq Ho.
      * destruct (Ha key' o' Ho) as [?|[?|[?|?]]]; unfold attended; cbn;
          rw ?lookup_insert_ne; set_solver.
  - eapply done_inv; [done..| |set_solver]. intros; set_solver.
  - eapply done_inv; [done..|intros; set_solver|]. intros key' ->%elem_of_singleton.
    by exists seen, tr, r.
  - eapply done_inv; [done..| |set_solver]. intros o -> Hkey. destruct Hrec as (g & Hg & Hex & He).
    destruct Hg as [->|(e & -> & Hnf)].
    + destruct (attends (C:=C) key o tr r Hkey Hex He) as [?|[?|[?|?]]]; [by left|done| |].
      * destruct H2. by exists o.
      * destruct H3. by exists o.
    + destruct H1. by eapply insists.
Qed.
Lemma queue_reachable_inv `{!Attentive C} q : queue_reachable q → queue_inv q.
Proof.
  intros Hq. assert (queue_inv empty_queue) as H0.
  { split; cbn; [apply map_Forall_empty..|set_solver]. }
  revert H0. induction Hq as [|q1 q2 q3 Hstep _ IH]; [done|].
  intros H1. by apply IH, (queue_step_inv q1).
Qed.
End attentive.
Arguments queue : clear implicits.
