(* ===== verification/Wakeups.v ===== *)
(** * The reconcilers and their queues

    What each of the four reconcilers owes to its queue (WorkQueue.v): whatever
    the cluster answers, a reconciler lets go of an object only when it is
    settled, or in circumstances that are named. *)
From S2P Require Import Prelude GoStrings K8s ApiTypes Names WireTypes Client MemStore Status AgentClient SidecarClient VolumeNodes VolumeScale VolumeHeal PodTemplates VolumeController ReplicaController EngineController SnapshotController WorkQueue.

(** ** Passes that wake *)
Lemma own_write_app {k} key (v : obj k) tr1 tr2 :
  own_write k key v tr1 ∨ own_write k key v tr2 → own_write k key v (tr1 ++ tr2).
Proof.
  intros [(? & v' & Hv)|(? & v' & Hv)]; (split; [done|]); exists v'; rw !elem_of_app; tauto.
Qed.

(** A pass ends with its key put back, with a write of the object that
    satisfies [Q], or with a trace that satisfies [H]. *)
Section ends.
Context {k : kind} (key : NamespacedName) (Q : obj k → Prop).
Definition ends (H : trace → Prop) (p : M Reconciled) : Prop :=
  wp p (λ tr r, Forall echoes tr → retried r ∨ (∃ v, own_write k key v tr ∧ Q v) ∨ H tr).

(** What comes before the end matters only for what [H] says of it. *)
Lemma ends_bind {A} (R : trace → A → Prop) H (p : M A) (f : A → M Reconciled) :
  wp p R → (∀ tr1 a, R tr1 a → Forall echoes tr1 → ends (λ tr2, H (tr1 ++ tr2)) (f a)) →
  ends H (p ≫= f).
Proof.
  intros Hp Hf. apply wp_bind. eapply wp_mono, Hp. intros tr1 a HR.
  apply wp_exec. intros tr2 r Hex [H1 H2]%Forall_app.
  destruct (exec_wp _ _ _ _ Hex (Hf tr1 a HR H1) H2) as [?|[(v & ? & ?)|?]]; [by left| |by right; right].
  right; left. exists v. auto using own_write_app.
Qed.
Lemma ends_ask H (c : ctl_call) (f : ctl_reply c → M Reconciled) :
  (∀ r, echoes (ev (S:=ctl) c r) → ends (λ tr, H (ev (S:=ctl) c r :: tr)) (f r)) →
  ends H (ask (S:=ctl) c ≫= f).
Proof.
  intros Hf. refine (ends_bind (λ tr r, tr = [ev (S:=ctl) c r]) H _ _ _ _); [done|].
  intros tr1 r -> Hr. apply Hf. exact (proj1 (Forall_singleton _ _) Hr).
Qed.
Lemma ends_rec {A} (R : trace → result A → Prop) H (p : M (result A)) (f : A → M Reconciled) :
  wp p R → (∀ tr1 a, R tr1 (Ok a) → Forall echoes tr1 → ends (λ tr2, H (tr1 ++ tr2)) (f a)) →
  ends H (bind_rec p f).
Proof.
  intros Hp Hf. refine (ends_bind R H _ _ Hp _). intros tr1 [a|e] HR Htr; [by apply Hf|].
  intros _. left. by left.
Qed.
Lemma ends_retried H e : ends H (reconciled (Some e)).
Proof. intros _. left. by left. Qed.
Lemma ends_later H d : (0 < d)%Z → ends H (requeue d).
Proof. intros Hd _. left. by right. Qed.
Lemma ends_status H (v : obj k) :
  key_of (obj_meta k v) = key → Q v → ends H (finish (kStatusUpdate k v)).
Proof.
  intros Hk Hv. apply finish_wp, kStatusUpdate_wp. intros [v'|e] _; [right; left|by left; left].
  exists v. split; [|done]. split; [done|]. exists v'. left. apply list_elem_of_here.
Qed.
Lemma ends_update H (v : obj k) :
  key_of (obj_meta k v) = key → Q v → ends H (bind_rec (kUpdate k v) (λ _, reconciled None)).
Proof.
  intros Hk Hv. apply bind_rec_wp, kUpdate_wp. intros [v'|e]; [|by left; left].
  intros _. right; left. exists v. split; [|done]. split; [done|]. exists v'. right. apply list_elem_of_here.
Qed.
Lemma ends_set H cs t st reason msg (f : list Condition → M Reconciled) :
  (∀ now cs', ends (λ tr, H (ev (S:=ctl) TimeNow now :: tr)) (f cs')) →
  ends H (set cs t st reason msg ≫= f).
Proof.
  intros Hf. refine (ends_bind (λ tr _, ∃ now, tr = [ev (S:=ctl) TimeNow now]) H _ _ _ _).
  - apply wp_set. eauto.
  - intros tr1 cs' [now ->] _. apply Hf.
Qed.
End ends.

(** The first read of a reconcile, taken out of its trace. *)
Definition got (k : kind) (e : event ctl) : option (result (obj k)) :=
  match e with
  | existT c r =>
      match c return ctl_reply c → option (result (obj k)) with
      | Get k' _ => λ r,
          match kind_eq_dec k' k with
          | left e => Some (eq_rect k' (λ k, result (obj k)) r k e)
          | right _ => None
          end
      | _ => λ _, None
      end r
  end.
Lemma exec_got {A} k key (f : result (obj k) → M A) g tr a :
  exec (kGet k key ≫= f) (ev (S:=ctl) (Get k key) g :: tr) a → exec (f g) tr a.
Proof.
  intros (g' & tr' & Heq & Hex). apply (inj2 cons) in Heq as [Hev ->].
  apply (f_equal (got k)) in Hev.
  assert (∀ r : result (obj k), got k (ev (S:=ctl) (Get k key) r) = Some r) as Hgot
    by (intros r; by destruct k).
  rw !Hgot in Hev. by injection Hev as ->.
Qed.

(** A reconciler that reads its object, and whose passes end as they should. *)
Section attentive.
Context `{SameObject} {k : kind} (C : Controller k) `{∀ o, Decision (settled C o)}
  (Q : obj k → obj k → Prop)
  (pass : result (obj k) → NamespacedName → M Reconciled).
Lemma attentive_intro :
  (∀ key, reconciler C key = kGet k key ≫= λ g, pass g key) →
  (∀ o v, ¬ settled C o → Q o v → ¬ same k o v) →
  (∀ key o, key_of (obj_meta k o) = key → ¬ settled C o →
     ends key (Q o) (hole C o) (pass (Ok o) key)) →
  (∀ key e, IsNotFound e = false → wp (pass (Err e) key) (λ _ r, retried r)) →
  Attentive C.
Proof.
  intros Hrec HQ Hpass Herr. split.
  - intros key o tr r Hkey Hex He. rw Hrec in Hex. apply exec_got in Hex.
    destruct (decide (settled C o)) as [?|Hns]; [by left|right].
    destruct (exec_wp _ _ _ _ Hex (Hpass key o Hkey Hns) He) as [?|[(v & Hw & Hv)|?]]; [by left| |by right; right].
    right; left. exists v. auto.
  - intros key e tr r Hex Hnf. rw Hrec in Hex. apply exec_got in Hex.
    exact (exec_wp _ _ _ _ Hex (Herr key e Hnf)).
Qed.
End attentive.

Ltac ends_step :=
  cbn beta iota;
  lazymatch goal with
  | |- ends _ _ _ (reconciled (Some _)) => apply ends_retried
  | |- ends _ _ _ (requeue _) => apply ends_later; unfold Second; lia
  | |- ends _ _ _ (set _ _ _ _ _ ≫= _) => apply ends_set; intros ? ?
  | |- ends _ _ _ (SetTrue _ _ _ _ ≫= _) => apply ends_set; intros ? ?
  | |- ends _ _ _ (SetFalse _ _ _ _ ≫= _) => apply ends_set; intros ? ?
  | |- ends _ _ _ (kGet _ _ ≫= _) => apply ends_ask; intros ? ?
  | |- ends _ _ _ (kDelete _ _ ≫= _) => apply ends_ask; intros ? ?
  | |- ends _ _ _ (finish (kStatusUpdate _ _)) => apply ends_status
  | |- ends _ _ _ (bind_rec _ _) => eapply (ends_rec _ _ (λ _ _, True)); [by apply wp_true|intros ? ? _ _]
  | |- ends _ _ _ (mbind _ _) => eapply (ends_bind _ _ (λ _ _, True)); [by apply wp_true|intros ? ? _ _]
  | |- ends _ _ _ (match ?x with _ => _ end) => destruct x eqn:?
  end.
Ltac ends_steps := repeat ends_step.

(** ** The replica reconciler *)
Section replica.
Context `{Environ, PodImages}.
Definition running_r (v : Replica) : Prop := rst_Phase (rep_status v) = ReplicaPhaseRunning.
Definition replica_controller (r : ReplicaReconciler) : Controller KReplica :=
  mkController (k:=KReplica) (ReplicaController.Reconcile r) running_r (λ _ _, False).
Abbreviation replica_ends := (ends (k:=KReplica)).

Lemma publish_running_ends key Hl replica :
  key_of (rep_meta replica) = key → replica_ends key running_r Hl (ReplicaController.publish_running replica).
Proof. intros <-. unfold ReplicaController.publish_running. cbv zeta. by ends_steps. Qed.
Lemma reconcile_remote_ends key Hl r replica :
  key_of (rep_meta replica) = key → replica_ends key running_r Hl (reconcile_remote r replica).
Proof. intros Hk. unfold reconcile_remote. cbv zeta. ends_steps. by apply publish_running_ends. Qed.
Lemma reconcile_local_ends key Hl replica :
  key_of (rep_meta replica) = key → replica_ends key running_r Hl (reconcile_local replica).
Proof. intros Hk. unfold reconcile_local. cbv zeta. ends_steps; by apply publish_running_ends. Qed.
Lemma provision_ends key Hl r replica :
  key_of (rep_meta replica) = key → replica_ends key running_r Hl (provision r replica).
Proof.
  intros Hk. unfold provision. ends_steps; [by apply reconcile_remote_ends|by apply reconcile_local_ends].
Qed.
#[local] Instance running_r_dec v : Decision (running_r v).
Proof. unfold running_r. apply _. Defined.
#[global] Instance replica_attentive `{SameObject} r : Attentive (replica_controller r).
Proof.
  refine (attentive_intro (k:=KReplica) (replica_controller r) (λ _, running_r) _ _ _ _ _); [done|..].
  - intros o v Ho Hv Heq%same_landmarks. apply Ho. cbn in *. unfold running_r in *. by rw Heq.
  - intros key o Hk Hn. cbn beta iota. rw (bool_decide_false (rst_Phase _ = _)) //.
    by apply provision_ends.
  - intros key e Hnf. cbn beta iota. rw Hnf. by left.
Qed.
End replica.

(** ** The engine reconciler *)
Section engine.
Context `{Environ, PodImages}.
Definition running_e (v : Engine) : Prop := est_Phase (eng_status v) = EnginePhaseRunning.
Definition engine_controller (c : option SidecarStatusClient) : Controller KEngine :=
  mkController (k:=KEngine) (EngineController.Reconcile c) running_e (λ _ _, False).
(** It is running, or its pod has become known or unknown. *)
Definition moved (o v : Engine) : Prop :=
  running_e v ∨ est_PodRef (eng_status o) = None ∧ est_PodRef (eng_status v) ≠ None ∨
  est_PodRef (eng_status o) ≠ None ∧ est_PodRef (eng_status v) = None.
Abbreviation engine_ends := (ends (k:=KEngine)).

Lemma create_pod_ends key Hl (o e : Engine) :
  key_of (eng_meta e) = key → est_PodRef (eng_status o) = None →
  engine_ends key (moved o) Hl (create_pod e).
Proof.
  intros Hk Ho. unfold create_pod. cbv zeta. eapply (ends_bind _ _ (λ _ _, True)); [by apply wp_true|].
  intros tr1 hosts _ _. apply ends_ask. intros r _.
  destruct r as [pod|err]; [|destruct (IsAlreadyExists err)]; ends_steps; try done;
    right; left; by split.
Qed.
Lemma publish_running_e_ends key Hl (o e : Engine) hash :
  key_of (eng_meta e) = key → engine_ends key (moved o) Hl (EngineController.publish_running e hash).
Proof.
  intros Hk. unfold EngineController.publish_running. cbv zeta. ends_steps; [done|by left].
Qed.
Lemma publish_degraded_ends key Hl (o e : Engine) : engine_ends key (moved o) Hl (publish_degraded e).
Proof.
  unfold publish_degraded. cbv zeta. apply ends_set. intros now cs. apply ends_ask.
  intros r _ _. left. by right.
Qed.
Lemma observe_ends key Hl c (o e : Engine) :
  key_of (eng_meta e) = key → est_PodRef (eng_status o) ≠ None →
  engine_ends key (moved o) Hl (observe c e).
Proof.
  intros Hk Ho. unfold observe, configure. cbv zeta. ends_steps; try done;
    first [by apply publish_running_e_ends|apply publish_degraded_ends|by right; right].
Qed.
(** The engine at hand after the replicas have been looked at. *)
Lemma replicaStatus_echoes (e : Engine) :
  wp (replicaStatus e) (λ tr r, Forall echoes tr → ∀ ready e', r = Ok (ready, e') →
    key_of (eng_meta e') = key_of (eng_meta e) ∧ eng_status e' = eng_status e).
Proof.
  unfold replicaStatus. ctl_step. eapply wp_mono; [|by apply (wp_true _ (λ _ _, True))].
  intros tr1 [[[ras ready]|]|err] _; cbn beta iota; [|ctl_step|done]; [|by intros _ ready e' [= <- <-]].
  case_bool_decide; ctl_steps; [|done|by intros _ ready' e' [= <- <-]].
  intros He ready' e' [= <- <-]. apply Forall_app in He as [_ [[Hk [_ Hs]] _]%Forall_cons].
  by split.
Qed.
#[local] Instance running_e_dec v : Decision (running_e v).
Proof. unfold running_e. apply _. Defined.
#[global] Instance engine_attentive `{SameObject} c : Attentive (engine_controller c).
Proof.
  refine (attentive_intro (k:=KEngine) (engine_controller c) moved _ _ _ _ _); [done|..].
  - intros o v Ho Hm [Hp Hr]%same_landmarks. destruct Hm as [Hv|[[Hv1 Hv2]|[Hv1 Hv2]]].
    + apply Ho. cbn in *. unfold running_e in *. by rw Hp.
    + by rw -Hr in Hv2.
    + by rw Hr in Hv1.
  - intros key o <- Hn. cbn beta iota. eapply ends_rec; [apply replicaStatus_echoes|].
    intros tr1 [ready e] He Htr. destruct (He Htr ready e eq_refl) as [Hk Hs]. cbn beta iota.
    rw Hs. destruct (est_PodRef (eng_status o)) as [ref|] eqn:Hp; destruct ready; cbn [negb];
      try ends_step.
    + apply observe_ends; [done|by rw Hp].
    + by apply create_pod_ends.
  - intros key e Hnf. cbn beta iota. rw Hnf. by left.
Qed.
End engine.

(** ** The snapshot reconciler *)
Section snapshot.
Definition final_phase (st : SnapshotStatus) : Prop :=
  sst_Phase st ∉ [""; SnapshotPhasePending; SnapshotPhaseCreating].
(** Protected and at an end, or being deleted and not protected any more. *)
Definition at_rest (s : Snapshot) : Prop :=
  match om_DeletionTimestamp (snap_meta s) with
  | None => protected s = true ∧ final_phase (snap_status s)
  | Some _ => protected s = false
  end.
#[local] Instance at_rest_dec s : Decision (at_rest s).
Proof. unfold at_rest, final_phase. destruct (om_DeletionTimestamp _); apply _. Defined.
(** The engine does not exist, and the failure could not be published. *)
Definition failure_dropped (s : Snapshot) (tr : trace) : Prop :=
  sst_Phase (snap_status s) = SnapshotPhasePending ∧
  (∃ e, ev (S:=ctl) (Get KEngine (snap_engine_key s)) (Err e) ∈ tr ∧ IsNotFound e = true) ∧
  ∃ v e, ev (S:=ctl) (StatusUpdate KSnapshot v) (Err e) ∈ tr ∧
         sst_Phase (snap_status v) = SnapshotPhaseFailed.
Definition snapshot_controller (f : option (string → string)) : Controller KSnapshot :=
  mkController (k:=KSnapshot) (SnapshotController.Reconcile f) at_rest failure_dropped.
Definition changed_s (o v : Snapshot) : Prop := ¬ landmarks KSnapshot o v.
Abbreviation snapshot_ends := (ends (k:=KSnapshot)).

Lemma phase_changed (o v : Snapshot) :
  sst_Phase (snap_status o) ≠ sst_Phase (snap_status v) → changed_s o v.
Proof. by intros H [? _]. Qed.
Lemma startCreate_ends Hl (o : Snapshot) :
  sst_Phase (snap_status o) = SnapshotPhasePending →
  (∀ tr, failure_dropped o tr → Hl tr) →
  snapshot_ends (key_of (snap_meta o)) (changed_s o) Hl (startCreate o).
Proof.
  intros Hp Hhole. unfold startCreate. apply ends_ask. intros [engine|e] _; cbv zeta.
  { ends_steps; [done|]. apply phase_changed. by rw Hp. }
  apply ends_set. intros now cs. unfold ignoreNotFound. apply wp_bind_intro, kStatusUpdate_wp.
  intros r. apply wp_ret_intro. intros _. destruct (IsNotFound e) eqn:Hnf; [right|by left; left].
  destruct r as [v'|e']; [left|right].
  - eexists (snap_condition cs (sst_set_Phase SnapshotPhaseFailed (snap_status o)) o). split.
    + split; [done|]. exists v'. left. apply list_elem_of_here.
    + apply phase_changed. by rw Hp.
  - apply Hhole. split; [done|]. split.
    + exists e. split; [apply list_elem_of_here|done].
    + exists (snap_condition cs (sst_set_Phase SnapshotPhaseFailed (snap_status o)) o), e'.
      split; [|done]. apply list_elem_of_further, list_elem_of_further, list_elem_of_here.
Qed.
(** An engine that cannot be read is a failure of the snapshot, whatever the
    reason: a pass that meets a passing error asks to publish Failed, which is
    final, and the retry that it asks for finds nothing to do any more. *)
Theorem unreadable_engine_fails (o : Snapshot) (e : error) (tr : trace) (r : Reconciled) :
  exec (startCreate o) (ev (S:=ctl) (Get KEngine (snap_engine_key o)) (Err e) :: tr) r →
  (∃ v, status_updates KSnapshot tr = [v] ∧ sst_Phase (snap_status v) = SnapshotPhaseFailed) ∧
  (r.2 = None ↔ IsNotFound e = true).
Proof.
  intros Hex%exec_got. pattern tr, r. refine (exec_wp _ _ _ _ Hex _). cbv beta zeta.
  ctl_step. apply wp_set. intros now. ctl_step. ctl_step. unfold ignoreNotFound. ctl_step.
  split; [by eexists|]. by destruct (IsNotFound e).
Qed.
Lemma take_answer_ends Hl (o : Snapshot) resp :
  sst_Phase (snap_status o) = SnapshotPhaseCreating →
  snapshot_ends (key_of (snap_meta o)) (changed_s o) Hl (take_answer o resp).
Proof.
  intros Hp. unfold take_answer. cbv zeta. destruct (negb _); [|destruct (hr_Decoded resp)].
  - ends_steps; [done|apply phase_changed; by rw Hp].
  - apply (ends_bind _ _ (λ _ _, True)); [by apply wp_true|]. intros tr1 now _ _.
    ends_steps; [done|apply phase_changed; by rw Hp].
  - ends_steps; [done|apply phase_changed; by rw Hp].
Qed.
Lemma pollCreate_ends Hl f (o : Snapshot) :
  sst_Phase (snap_status o) = SnapshotPhaseCreating →
  snapshot_ends (key_of (snap_meta o)) (changed_s o) Hl (pollCreate f o).
Proof.
  intros Hp. unfold pollCreate. cbv zeta. ends_steps. by apply take_answer_ends.
Qed.
Lemma reconcileDelete_ends Hl (o : Snapshot) :
  protected o = true →
  snapshot_ends (key_of (snap_meta o)) (changed_s o) Hl (reconcileDelete o).
Proof.
  intros Hp. unfold reconcileDelete. rw Hp. ends_step. apply ends_update; [done|].
  intros [_ Hf]. cbn in Hf. unfold protected in Hp. rw containsString_spec Hf removeString_filter in Hp.
  by apply list_elem_of_filter in Hp as [? _].
Qed.
#[global] Instance snapshot_attentive `{SameObject} f : Attentive (snapshot_controller f).
Proof.
  refine (attentive_intro (k:=KSnapshot) (snapshot_controller f) changed_s _ _ _ _ _); [done|..].
  - by intros o v _ Hc Hl%same_landmarks.
  - intros key o <- Hn. cbn in Hn. unfold at_rest in Hn. cbn beta iota.
    unfold reconcile_snapshot. destruct (om_DeletionTimestamp (snap_meta o)) as [t|].
    { apply reconcileDelete_ends. by destruct (protected o). }
    case_bool_decide; [done|]. destruct (protected o) eqn:Hp; cbn [negb].
    + unfold advance. cbv zeta. case_bool_decide as H1; [|case_bool_decide as H2; [|case_bool_decide as H3]].
      * ends_step; [done|]. apply phase_changed. by rw H1.
      * by apply startCreate_ends.
      * by apply pollCreate_ends.
      * destruct Hn. split; [done|]. unfold final_phase. set_solver.
    + apply ends_update; [done|]. intros [_ Hf]. apply (f_equal length) in Hf. cbn in Hf.
      rw length_app in Hf. cbn in Hf. lia.
  - intros key e Hnf. cbn beta iota. unfold ignoreNotFound. rw Hnf. by left.
Qed.
End snapshot.

(** ** The volume reconciler *)
Section volume.
Implicit Types volume : Volume.
Definition is_ready volume : Prop := vst_Phase (vol_status volume) = VolumePhaseReady.
(** The number of worker nodes has changed between two lists of one pass. *)
Definition count_changed (tr : trace) : Prop :=
  ∃ l1 l2, l1 ∈ lists KNode tr ∧ l2 ∈ lists KNode tr ∧ auto_count l1 ≠ auto_count l2.
(** The count is the number of workers, and has changed during the pass; or
    what was written is what the server held already. *)
Definition volume_hole `{SameObject} volume (tr : trace) : Prop :=
  count_changed tr ∨ ∃ v, own_write KVolume (key_of (vol_meta volume)) v tr ∧ same KVolume volume v.
Definition volume_controller `{SameObject} : Controller KVolume :=
  mkController (k:=KVolume) VolumeController.Reconcile is_ready volume_hole.

(** A program that succeeds has written the volume. *)
Definition writes_ok {A} (key : NamespacedName) (p : M (result A)) : Prop :=
  wp p (λ tr r, is_ok r = true → ∃ v, own_write KVolume key v tr).
Lemma writes_bind {A B} key (p : M A) (f : A → M (result B)) :
  (∀ a, writes_ok key (f a)) → writes_ok key (p ≫= f).
Proof.
  intros Hf. apply wp_bind. eapply wp_mono; [|by apply (wp_true _ (λ _ _, True))].
  intros tr1 a _. eapply wp_mono, Hf. intros tr2 r H Hok. destruct (H Hok) as [v Hv].
  exists v. auto using own_write_app.
Qed.
Lemma writes_bind_ok {A B} key (p : M (result A)) (f : A → M (result B)) :
  (∀ a, writes_ok key (f a)) → writes_ok key (bind_ok p f).
Proof. intros Hf. apply writes_bind. intros [a|e]; [apply Hf|]. done. Qed.
Lemma writes_status {A} key (v : Volume) (f : result Volume → M (result A)) :
  key_of (vol_meta v) = key → (∀ e, wp (f (Err e)) (λ _ r, is_ok r = false)) →
  writes_ok key (kStatusUpdate KVolume v ≫= f).
Proof.
  intros Hk Hf. apply wp_bind_intro, kStatusUpdate_wp. intros [v'|e].
  - eapply wp_mono; [|by apply (wp_true _ (λ _ _, True))]. intros tr r _ _. exists v.
    split; [done|]. exists v'. left. apply list_elem_of_here.
  - eapply wp_mono, Hf. intros tr r Hr Hok. by rw Hr in Hok.
Qed.
Lemma mark_scaling_writes volume reason current desired :
  writes_ok (key_of (vol_meta volume)) (mark_scaling volume reason current desired).
Proof. unfold mark_scaling. apply writes_bind. intros cs. by apply writes_status. Qed.
Lemma scaleUp_writes volume engine current desired :
  writes_ok (key_of (vol_meta volume)) (scaleUp volume engine current desired).
Proof. do 2 (apply writes_bind_ok; intros ?). apply mark_scaling_writes. Qed.
Lemma scaleDown_writes volume engine current desired :
  writes_ok (key_of (vol_meta volume)) (scaleDown volume engine current desired).
Proof. do 2 (apply writes_bind_ok; intros ?). apply mark_scaling_writes. Qed.
Lemma heal_return_writes key volume st reason msg res :
  key_of (vol_meta volume) = key → writes_ok key (heal_return volume st reason msg res).
Proof. intros Hk. apply writes_bind. intros cs. by apply writes_status. Qed.
Lemma drop_attachment_writes volume engine i ra reason msg :
  writes_ok (key_of (vol_meta volume)) (drop_attachment volume engine i ra reason msg).
Proof. apply writes_bind_ok. intros _. by apply heal_return_writes. Qed.
Lemma recreate_writes volume engine i ra msg :
  writes_ok (key_of (vol_meta volume)) (recreate volume engine i ra msg).
Proof.
  apply writes_bind. intros [[]|e]; [|destruct (IsNotFound e); [|done]];
    apply drop_attachment_writes.
Qed.
Lemma restart_pod_writes volume nh i h ra pod :
  writes_ok (key_of (vol_meta volume)) (restart_pod volume nh i h ra pod).
Proof.
  assert (∀ u : unit, writes_ok (key_of (vol_meta volume))
    (now ← timeNow; heal_return (vol_set_ReplicaHealth (<[i := count_restart now h]> nh) volume)
      ConditionTrue "RestartingPod"
      ("restarting pod for replica " +:+ ra_Name ra +:+ " (attempt " +:+
       Itoa (rh_RestartAttempts (count_restart now h)) +:+ ")") (true, 0%Z))) as Hr.
  { intros _. apply writes_bind. intros now. by apply heal_return_writes. }
  apply writes_bind. intros [[]|e]; [|destruct (IsNotFound e); [|done]]; apply (Hr tt).
Qed.
Definition outcome_writes (key : NamespacedName) (p : M (Z + result Healed)) : Prop :=
  wp p (λ tr o, ∀ r, o = inr r → is_ok r = true → ∃ v, own_write KVolume key v tr).
Lemma outcome_bind {A} key (p : M A) (f : A → M (Z + result Healed)) :
  (∀ a, outcome_writes key (f a)) → outcome_writes key (p ≫= f).
Proof.
  intros Hf. apply wp_bind. eapply wp_mono; [|by apply (wp_true _ (λ _ _, True))].
  intros tr1 a _. eapply wp_mono, Hf. intros tr2 o H r Ho Hok. destruct (H r Ho Hok) as [v Hv].
  exists v. auto using own_write_app.
Qed.
Lemma outcome_return key (p : M (result Healed)) :
  writes_ok key p → outcome_writes key (r ← p; Ret (inr r)).
Proof.
  intros Hp. apply wp_bind. eapply wp_mono, Hp. intros tr r H. apply wp_ret_intro.
  rw app_nil_r. by intros r' [= <-].
Qed.
Lemma heal_one_writes volume engine nh i ra h cooldown :
  outcome_writes (key_of (vol_meta volume)) (heal_one volume engine nh i ra h cooldown).
Proof.
  unfold heal_one. cbv zeta. case_bool_decide; [apply outcome_return, drop_attachment_writes|].
  destruct (_ || _).
  - apply outcome_bind. intros [pod|].
    + destruct (healingBackoff _) as [backoff exhausted]. destruct exhausted.
      { apply outcome_return, recreate_writes. }
      apply outcome_bind. intros remaining. destruct (remaining >? 0)%Z; [done|].
      apply outcome_return, restart_pod_writes.
    + apply outcome_bind. intros [cr|e]; [|done]. do 2 (case_bool_decide; [done|]).
      apply outcome_return, recreate_writes.
  - destruct (healingBackoff _) as [backoff exhausted]. apply outcome_bind. intros remaining.
    by destruct (remaining >? 0)%Z.
Qed.
Lemma heal_loop_writes volume engine nh i todo cooldown :
  outcome_writes (key_of (vol_meta volume)) (heal_loop volume engine nh i todo cooldown).
Proof.
  revert i cooldown. induction todo as [|[ra h] todo IH]; intros i cooldown; cbn [heal_loop]; [done|].
  apply wp_bind. eapply wp_mono, heal_one_writes. intros tr1 [c|res] H1.
  - eapply wp_mono, IH. intros tr2 o H2 r Ho Hok. destruct (H2 r Ho Hok) as [v Hv].
    exists v. auto using own_write_app.
  - apply wp_ret_intro. rw app_nil_r. intros r [= <-] Hok. exact (H1 res eq_refl Hok).
Qed.
(** Whatever a healing pass decides, it publishes. *)
Lemma healReplicas_writes volume engine : writes_ok (key_of (vol_meta volume)) (healReplicas volume engine).
Proof.
  unfold healReplicas. do 2 (apply writes_bind_ok; intros ?). destruct a0 as [nh healthy]. cbv zeta.
  destruct (_ <? _)%Z; [by apply heal_return_writes|].
  apply wp_bind. eapply wp_mono, heal_loop_writes. intros tr1 [c|res] H1.
  - eapply wp_mono; [|by apply heal_return_writes]. intros tr2 r H2 Hok.
    destruct (H2 Hok) as [v Hv]. exists v. auto using own_write_app.
  - apply wp_ret_intro. rw app_nil_r. exact (H1 res eq_refl).
Qed.

(** The count that a pass has read. *)
Definition counted volume (tr : trace) (n : Z) : Prop :=
  (∃ auto, ParseReplicaCount (vs_ReplicaCount (vol_spec volume)) = Ok (n, auto) ∧ auto = false) ∨
  (∃ nodes, nodes ∈ lists KNode tr ∧ n = auto_count nodes) ∧
  ∃ m, ParseReplicaCount (vs_ReplicaCount (vol_spec volume)) = Ok (m, true).
Lemma replicasForVolume_counted volume :
  wp (replicasForVolume volume) (λ tr r, ∀ n, r = Ok n → counted volume tr n).
Proof.
  unfold replicasForVolume, counted. destruct (ParseReplicaCount _) as [[n auto]|e]; [|done].
  destruct auto; cbn [negb].
  - wp_step. apply listNodes_wp. intros [nodes|e]; [wp_step|done].
    intros n' [= <-]. right. split; [|by exists n]. exists nodes. split; [apply list_elem_of_here|done].
  - wp_step. intros n' [= <-]. left. by exists false.
Qed.
Lemma counted_twice volume tr1 tr2 n1 n2 :
  counted volume tr1 n1 → counted volume tr2 n2 → n1 ≠ n2 → count_changed (tr1 ++ tr2).
Proof.
  intros [(a1 & H1 & ->)|((l1 & H1 & ->) & m1 & E1)] [(a2 & H2 & ->)|((l2 & H2 & ->) & m2 & E2)] Hne;
    try congruence.
  exists l1, l2. rw lists_app. split_and!; [set_solver..|done].
Qed.
Lemma ensureScale_writes volume engine :
  wp (ensureScale volume engine) (λ tr r, is_ok r = true →
    (∃ v, own_write KVolume (key_of (vol_meta volume)) v tr) ∨
    counted volume tr (Z.of_nat (length (eng_Replicas engine)))).
Proof.
  unfold ensureScale. wp_step. eapply wp_mono, replicasForVolume_counted.
  intros tr1 [n|e] Hn; [|done]. cbv zeta. destruct (Z.eqb_spec n (Z.of_nat (length (eng_Replicas engine)))) as [E|E].
  { wp_step. intros _. right. rw app_nil_r -E. by apply Hn. }
  assert (∀ p : M (result unit), writes_ok (key_of (vol_meta volume)) p →
    wp p (λ tr r, is_ok r = true →
      (∃ v, own_write KVolume (key_of (vol_meta volume)) v (tr1 ++ tr)) ∨
      counted volume (tr1 ++ tr) (Z.of_nat (length (eng_Replicas engine))))) as Hp.
  { intros p Hp. eapply wp_mono, Hp. intros tr r H Hok. destruct (H Hok) as [v Hv]. left. exists v.
    auto using own_write_app. }
  destruct (n >? _)%Z; apply Hp; [apply scaleUp_writes|apply scaleDown_writes].
Qed.

Abbreviation volume_ends := (ends (k:=KVolume)).
Definition written (_ : Volume) : Prop := True.
Lemma count_changed_app tr1 tr2 : count_changed tr2 → count_changed (tr1 ++ tr2).
Proof.
  intros (l1 & l2 & H1 & H2 & Hne). exists l1, l2. rw lists_app. split_and!; [set_solver..|done].
Qed.
Lemma settle_ends key Hl volume engine :
  key_of (vol_meta volume) = key → (∀ tr, count_changed tr → Hl tr) →
  volume_ends key written Hl (settle volume false engine).
Proof.
  intros <- Hhole. unfold settle. ends_step.
  eapply ends_rec; [apply replicasForVolume_counted|]. intros tr2 n Hn _.
  destruct (Z.eqb_spec n (Z.of_nat (length (eng_Replicas engine)))) as [E|E]; cbn [negb].
  - unfold heal_or_wait. apply bind_rec_wp. eapply wp_mono, healReplicas_writes.
    intros tr3 [[healed d]|e] Hw; [|by left; left].
    destruct (Hw eq_refl) as [v Hv]. eapply wp_mono; [|by apply (wp_true _ (λ _ _, True))].
    intros tr4 r _ _. right; left. exists v. split; [auto using own_write_app|done].
  - apply bind_rec_wp. eapply wp_mono, ensureScale_writes. intros tr3 [[]|e] Hw; [|by left; left].
    apply wp_ret_intro. intros _. right. rw app_nil_r. destruct (Hw eq_refl) as [[v Hv]|Hc]; [left|right].
    + by exists v.
    + apply Hhole, count_changed_app. eapply counted_twice; [by apply Hn|exact Hc|done].
Qed.
Lemma reconcile_existing_ends volume :
  ¬ is_ready volume → volume_ends (key_of (vol_meta volume)) written count_changed (reconcile_existing volume).
Proof.
  intros Hn. unfold reconcile_existing. eapply (ends_rec _ _ (λ _ _, True)); [by apply wp_true|].
  intros tr1 ready _ _. rw (bool_decide_true (vst_Phase _ ≠ _)) //.
  destruct ready; cbn [andb].
  - unfold mark_ready. cbv zeta. by ends_steps.
  - apply ends_ask. intros [engine|e] _; cbn beta iota.
    + apply settle_ends; [done|]. intros tr Hc. by apply count_changed_app, (count_changed_app [_]).
    + by ends_steps.
Qed.
Lemma reconcile_new_ends Hl volume :
  volume_ends (key_of (vol_meta volume)) written Hl (reconcile_new volume).
Proof.
  unfold reconcile_new. cbv zeta. eapply (ends_rec _ _ (λ tr r, Forall echoes tr → ∀ v, r = Ok v →
    key_of (vol_meta v) = key_of (vol_meta volume))).
  - unfold schedule_node. case_bool_decide; [|by wp_step; intros _ v [= <-]].
    apply wp_bind. eapply wp_mono; [|by apply (wp_true _ (λ _ _, True))].
    intros tr1 [node|e] _; [|done]. apply kUpdate_wp. intros r He v ->.
    by apply Forall_app in He as [_ [[Hk _] _]%Forall_cons].
  - intros tr1 v Hv He. specialize (Hv He v eq_refl). by ends_steps.
Qed.
#[local] Instance is_ready_dec volume : Decision (is_ready volume).
Proof. unfold is_ready. apply _. Defined.
#[global] Instance volume_attentive `{SameObject} : Attentive volume_controller.
Proof.
  refine (attentive_intro (k:=KVolume) volume_controller (λ o v, ¬ same KVolume o v) _ _ _ _ _); [done|done|..].
  - intros key o <- Hn. cbn beta iota.
    assert (∀ p, volume_ends (key_of (vol_meta o)) written count_changed p →
      volume_ends (key_of (vol_meta o)) (λ v, ¬ same KVolume o v) (volume_hole o) p) as Hp.
    { intros p Hp. eapply wp_mono, Hp. intros tr r Hw He.
      destruct (Hw He) as [?|[(v & Hv & _)|?]]; [by left| |by right; right; left]. right.
      destruct (decide (same KVolume o v)); [right; right|left]; by exists v. }
    destruct (vst_EngineRef (vol_status o)); apply Hp; [by apply reconcile_existing_ends|apply reconcile_new_ends].
  - intros key e Hnf. cbn beta iota. rw Hnf. by left.
Qed.
End volume.

(** ** Property *)
Section property.
Context `{Environ, PodImages, SameObject}.
(** An object that the server holds is waiting for its reconciler, or being
    reconciled as it is. *)
Definition being_handled {k : kind} (q : queue k) (key : NamespacedName) (o : obj k) : Prop :=
  key ∈ q_pending q ∨ q_running q !! key = Some (Some o).

(** A controller without holes loses nothing. *)
Lemma nothing_lost {k} (C : Controller k) `{!Attentive C} q key o :
  (∀ o tr, ¬ hole C o tr) → queue_reachable C q → q_store q !! key = Some o → ¬ settled C o →
  being_handled q key o.
Proof.
  intros Hno Hq Ho Hns. apply (queue_reachable_inv C) in Hq.
  destruct (qi_attended C q Hq key o Ho) as [?|[?|[?|Hl]]];
    [done|by left|by right|].
  apply (qi_lost C q Hq) in Hl as (seen & tr & r & _ & _ & _ & o' & _ & Hh). by destruct (Hno o' tr).
Qed.
Lemma something_lost {k} (C : Controller k) `{!Attentive C} q key o :
  queue_reachable C q → q_store q !! key = Some o → ¬ settled C o →
  being_handled q key o ∨ key ∈ q_lost q ∧ excused C key.
Proof.
  intros Hq Ho Hns. apply (queue_reachable_inv C) in Hq.
  destruct (qi_attended C q Hq key o Ho) as [?|[?|[?|Hl]]];
    [done|by left; left|by left; right|right]. split; [done|]. by apply (qi_lost C q Hq).
Qed.

(** C9. No object is forgotten.  Objects are created, changed and deleted by
    anyone, at any time; reconciles run beside that, each against any answers of
    the cluster, and end in any order.  At every moment a replica or an engine
    that is not Running is waiting for its reconciler or being reconciled as it
    is.  So is a snapshot that is not at an end (or is being deleted and still
    protected), unless a pass that found no engine could not publish the failure,
    whose error is ignored; and a volume that is not Ready, unless a pass in
    which the number of worker nodes changed between two lists, or one that
    published what the server held already. *)
Theorem no_object_forgotten (r : ReplicaReconciler) (c : option SidecarStatusClient)
    (f : option (string → string)) :
  (∀ q key o, queue_reachable (replica_controller r) q → q_store q !! key = Some o →
     rst_Phase (rep_status o) ≠ ReplicaPhaseRunning → being_handled q key o) ∧
  (∀ q key o, queue_reachable (engine_controller c) q → q_store q !! key = Some o →
     est_Phase (eng_status o) ≠ EnginePhaseRunning → being_handled q key o) ∧
  (∀ q key o, queue_reachable (snapshot_controller f) q → q_store q !! key = Some o →
     ¬ at_rest o → being_handled q key o ∨ key ∈ q_lost q ∧ excused (snapshot_controller f) key) ∧
  (∀ q key o, queue_reachable volume_controller q → q_store q !! key = Some o →
     vst_Phase (vol_status o) ≠ VolumePhaseReady →
     being_handled q key o ∨ key ∈ q_lost q ∧ excused volume_controller key).
Proof.
  split_and!; intros q key o Hq Ho Hns.
  - apply (nothing_lost (replica_controller r)); [by intros ? ? []|done..].
  - apply (nothing_lost (engine_controller c)); [by intros ? ? []|done..].
  - by apply (something_lost (snapshot_controller f)).
  - by apply (something_lost volume_controller).
Qed.
End property.

(** A server that tells nothing but the landmarks apart, and a snapshot whose
    first pass runs to its end. *)
Section witness.
#[local] Instance NORef_eq_dec : EqDecision NamespacedObjectReference.
Proof. solve_decision. Defined.
#[local] Instance PodReference_eq_dec : EqDecision PodReference.
Proof. solve_decision. Defined.
#[local] Program Instance coarse : SameObject := {| same := landmarks |}.
Next Obligation. intros [] o v; cbn; apply _. Defined.
Next Obligation. done. Defined.
#[local] Instance queue_environ : Environ := λ _, "".
#[local] Instance queue_images : PodImages := defaultPodImages.
Definition fresh_key : NamespacedName := key_of (snap_meta fresh_snapshot).
Definition first_pass := run mem_handler (SnapshotController.Reconcile None fresh_key) (snapshot_world fresh_snapshot).
Lemma queue_after_reachable :
  ∃ q : queue KSnapshot, queue_reachable (snapshot_controller None) q ∧ q_store q !! fresh_key = Some pending_snapshot.
Proof.
  eexists. split.
  { eapply rtc_l; [exact (Changed (k:=KSnapshot) _ empty_queue fresh_snapshot)|].
  eapply rtc_l; [apply (Begin (k:=KSnapshot) _ _ fresh_key); [cbn; set_solver|done]|].
  eapply rtc_l; [exact (Changed (k:=KSnapshot) _ _ pending_snapshot)|].
  apply rtc_once.
  refine (EndAwake (k:=KSnapshot) _ _ fresh_key (Some fresh_snapshot) (tail first_pass.1.1) first_pass.1.2 _ _ _).
  - vm_compute. reflexivity.
  - exists (Ok fresh_snapshot). split; [by left|]. split.
    + pose proof (exec_of_run mem_handler (SnapshotController.Reconcile None fresh_key)
        (snapshot_world fresh_snapshot) _ eq_refl) as Hex.
      vm_compute in Hex |- *. exact Hex.
    + vm_compute. repeat constructor.
  - right. exists fresh_snapshot. split; [done|]. exists pending_snapshot. split.
    + split; [done|]. exists pending_snapshot. left. vm_compute. apply list_elem_of_here.
    + intros [Hp _]. vm_compute in Hp. discriminate. }
  vm_compute. reflexivity.
Qed.
Lemma no_object_forgotten_witness :
  ∃ q : queue KSnapshot, q_store q !! fresh_key = Some (pending_snapshot : obj KSnapshot) ∧
    (being_handled (k:=KSnapshot) q fresh_key pending_snapshot ∨
     fresh_key ∈ q_lost q ∧ excused (snapshot_controller None) fresh_key).
Proof.
  destruct queue_after_reachable as (q & Hq & Hs). exists q. split; [exact Hs|].
  apply (no_object_forgotten (mkReplicaReconciler None true None) None None).
  - exact Hq.
  - exact Hs.
  - intros [_ Hf]. apply Hf. vm_compute. apply list_elem_of_further, list_elem_of_here.
Defined.
End witness.
