(* ===== verification/Wiring.v ===== *)
(** * What wakes the controllers

    [SetupWithManager] of the four controllers (volume_controller.go,
    replica_controller.go, engine_controller.go, snapshot_controller.go): the
    objects each controller watches, and the requests that a change of an object
    makes.  Who the controlling owner of an object is, controller-runtime says:
    it is a parameter. *)
From S2P Require Import Prelude GoStrings K8s ApiTypes Names WireTypes Client MemStore Status PodTemplates AgentClient SidecarClient VolumeNodes VolumeScale VolumeHeal VolumeController ReplicaController EngineController SnapshotController.

(** ** SetupWithManager *)
Inductive watch :=
  | For (k : kind)
  | Owns (owner k : kind)
  | WatchesEvents (mapFunc : Event → list NamespacedName).
Definition volume_watches : list watch := [For KVolume; Owns KVolume KEngine; Owns KVolume KReplica].
Definition replica_watches : list watch := [For KReplica; Owns KReplica KPod].
Definition engine_watches : list watch :=
  [For KEngine; Owns KEngine KPod; WatchesEvents mapEventToEngine].
Definition snapshot_watches : list watch := [For KSnapshot].

(** ** Requests *)
Definition kind_name (k : kind) : string :=
  match k with
  | KVolume => "Volume" | KEngine => "Engine" | KReplica => "Replica" | KSnapshot => "Snapshot"
  | KPod => "Pod" | KNode => "Node" | KConfigMap => "ConfigMap"
  end.
(** [Owns] reconciles the owner of kind [kind_name owner] that is marked as the
    controller, and no other owner. *)
Class OwnerRequests := {
  owner_requests : kind → ObjectMeta → list NamespacedName;
  owner_requests_controller : ∀ owner m key, key ∈ owner_requests owner m →
    ∃ o, o ∈ om_OwnerReferences m ∧ or_Controller o = Some true;
  owner_requests_only : ∀ owner m o, om_OwnerReferences m = [o] → or_Controller o = Some true →
    or_APIVersion o = GroupVersion → or_Kind o = kind_name owner →
    owner_requests owner m = [mkName (om_Namespace m) (or_Name o)] }.

(** An object was created, changed or deleted; a Kubernetes event was recorded. *)
Inductive change := ObjectChange (k : kind) (o : obj k) | EventRecorded (e : Event).
Section requests.
Context `{OwnerRequests}.
Definition requests_of (c : change) (w : watch) : list NamespacedName :=
  match w, c with
  | For k', ObjectChange k o => if decide (k = k') then [key_of (obj_meta k o)] else []
  | Owns owner k', ObjectChange k o => if decide (k = k') then owner_requests owner (obj_meta k o) else []
  | WatchesEvents f, EventRecorded e => f e
  | _, _ => []
  end.
Definition requests (ws : list watch) (c : change) : list NamespacedName := ws ≫= requests_of c.

(** An object that has no owner marked as its controller. *)
Definition uncontrolled (m : ObjectMeta) : Prop :=
  Forall (λ o, or_Controller o ≠ Some true) (om_OwnerReferences m).
Lemma uncontrolled_requests owner m : uncontrolled m → owner_requests owner m = [].
Proof.
  intros Hm. destruct (owner_requests owner m) as [|key keys] eqn:E; [done|].
  destruct (owner_requests_controller owner m key) as (o & Ho & Hc); [rw E; apply list_elem_of_here|].
  unfold uncontrolled in Hm. rw Forall_forall in Hm. by destruct (Hm o Ho).
Qed.

(** ** The children of volumes and replicas *)
Section children.
Context `{Environ, PodImages}.
(** An engine, a replica or a replica's pod, at any time after it was created:
    its owners are those that it was created with. *)
Inductive child_change : change → Prop :=
  | EngineChange volume ras e :
      om_OwnerReferences (eng_meta e) = om_OwnerReferences (eng_meta (engine_for volume ras)) →
      child_change (ObjectChange KEngine e)
  | ReplicaChange volume i node r :
      om_OwnerReferences (rep_meta r) = om_OwnerReferences (rep_meta (replica_for volume i node)) →
      child_change (ObjectChange KReplica r)
  | ReplicaPodChange replica p :
      om_OwnerReferences (pod_meta p) = om_OwnerReferences (pod_meta (export_pod replica)) →
      child_change (ObjectChange KPod p).

(** C36. A volume is not woken by what happens to its children.  The volume
    controller owns engines and replicas, and the replica controller pods, but the
    owner references that they write are not marked as controllers: so no change
    of an engine, of its replicas or of their pods, nor any sequence of such
    changes, makes a request for a volume by the volume controller's watches, and
    no change of a replica's pod makes one by the replica controller's.  The pod
    of an engine is marked, and a change of it makes one request, for its engine.
    (Events of the volume or the replica itself, which include the informers'
    resyncs, do make requests.) *)
Theorem children_wake_nobody (cs : list change) (replica : Replica) (rp : Pod)
    (engine : Engine) (hosts : list string) (ep : Pod) :
  Forall child_change cs →
  om_OwnerReferences (pod_meta rp) = om_OwnerReferences (pod_meta (export_pod replica)) →
  om_OwnerReferences (pod_meta ep) = om_OwnerReferences (pod_meta (engine_pod engine hosts)) →
  om_Namespace (pod_meta ep) = eng_Namespace engine →
  (cs ≫= requests volume_watches) = [] ∧
  requests replica_watches (ObjectChange KPod rp) = [] ∧
  requests engine_watches (ObjectChange KPod ep) = [mkName (eng_Namespace engine) (eng_Name engine)].
Proof.
  intros Hcs Hr He Hns. split_and!.
  - induction Hcs as [|c cs Hc _ IH]; [done|]. rw bind_cons IH app_nil_r.
    destruct Hc as [v ras e Ho|v i n r Ho|r pod Ho]; cbn;
      rw ?uncontrolled_requests //; unfold uncontrolled; rw Ho; by repeat constructor.
  - cbn. rw uncontrolled_requests //. unfold uncontrolled. rw Hr. by repeat constructor.
  - cbn. rw (owner_requests_only KEngine (pod_meta ep) (engine_owner engine)) //. by rw Hns.
Qed.
End children.
End requests.

(** The first owner that is marked, when it is of the kind. *)
Section witness.
Definition marked_owner (owner : kind) (m : ObjectMeta) : list NamespacedName :=
  match filter (λ o, or_Controller o = Some true) (om_OwnerReferences m) with
  | o :: _ =>
      if bool_decide (or_APIVersion o = GroupVersion) && bool_decide (or_Kind o = kind_name owner)
      then [mkName (om_Namespace m) (or_Name o)] else []
  | [] => []
  end.
#[local] Program Instance marked : OwnerRequests := {| owner_requests := marked_owner |}.
Next Obligation.
  intros owner m key. unfold marked_owner. destruct (filter _ _) as [|o os] eqn:E; [by intros ?%not_elem_of_nil|].
  intros _. exists o. assert (o ∈ filter (λ o, or_Controller o = Some true) (om_OwnerReferences m)) as Ho
    by (rw E; apply list_elem_of_here). by apply list_elem_of_filter in Ho as [? ?].
Qed.
Next Obligation.
  intros owner m o Hm Hc Hg Hk. unfold marked_owner. rw Hm filter_cons decide_True //.
  by rw !bool_decide_true.
Qed.
#[local] Instance wiring_environ : Environ := λ _, "".
#[local] Instance wiring_images : PodImages := defaultPodImages.
Definition wired_volume : Volume :=
  mkVolume (newMeta "v" "ns") (mkVolumeSpec "1Gi" "" "w1" "1" None) zeroVolumeStatus.
Definition wired_engine : Engine := engine_for wired_volume [].
Definition wired_replica : Replica := replica_for wired_volume 0 "w1".
Lemma children_wake_nobody_witness :
  ([ObjectChange KEngine wired_engine; ObjectChange KReplica wired_replica;
    ObjectChange KPod (export_pod wired_replica)] ≫= requests volume_watches) = [] ∧
  requests replica_watches (ObjectChange KPod (export_pod wired_replica)) = [] ∧
  requests engine_watches (ObjectChange KPod (engine_pod wired_engine [])) =
    [mkName "ns" (EngineName "v")].
Proof.
  apply (children_wake_nobody _ wired_replica _ wired_engine []); [|done..].
  constructor; [by apply (EngineChange wired_volume [])|].
  constructor; [by apply (ReplicaChange wired_volume 0 "w1")|].
  constructor; [by apply (ReplicaPodChange wired_replica)|done].
Defined.
End witness.
