(* ===== verification/Processes.v ===== *)
(** * The start of the processes

    [main] of cmd/controller-manager, cmd/csi-plugin, cmd/dashboard,
    cmd/node-agent and cmd/nfs-sidecar as programs: what they read, what they
    build with the libraries, and in which order.  The libraries' calls
    (controller-runtime's manager, client-go, gRPC, net/http, go-nfs, the
    network) are calls of a signature, and may fail; [logger.Fatal] ends the
    process.  [main] of the sidecar, which has work of its own to do, is in
    SidecarServe.v. *)
From S2P Require Import Prelude GoStrings K8s ApiTypes Names WireTypes Client MemStore Os PodTemplates AgentClient SidecarClient SidecarReplica Agent VolumeController ReplicaController EngineController SnapshotController ControllerManager CsiController CsiPlugin HttpServer NodeAgent DashServer Nfs Wiring.

(** ** Library calls *)
Record ManagerOptions := mkManagerOptions {
  mo_MetricsAddr : string; mo_ProbeAddr : string; mo_LeaderElection : bool; mo_LeaderElectionID : string }.
(** Whose handlers an HTTP server has. *)
Inductive served := NodeAgentHandler | DashboardMux (namespace : string).
(** [ListenAndServe] always ends with an error. *)
Inductive serve_end := ErrServerClosed | ServeError (e : error).
Definition serve_error (e : serve_end) : error :=
  match e with ErrServerClosed => Errorf "http: Server closed" [] | ServeError e => e end.
Inductive lib_call :=
  | InClusterConfig
  | NewClient (config : option unit)  (* [None] is the empty config *)
  | GetConfigOrDie  (* which exits by itself when there is none *)
  | NewManager (o : ManagerOptions)
  | SetupWithManager (k : kind) (ws : list watch) (agents : option string)
      (* the namespace whose node agents the reconciler's AgentFactory finds *)
  | AddHealthzCheck (name : string)
  | AddReadyzCheck (name : string)
  | StartManager (images : Images)  (* that the reconcilers give to their pods *)
  | Listen (proto addr : string)
  | ServeCSI (d : Driver)
  | NFSServe (exportPath : string) (cacheSize : Z)  (* with a [statFSHandler] of the path *)
  | ListenAndServe (addr : string) (readHeader read write idle : Z) (h : served).
Definition lib_reply (c : lib_call) : Type :=
  match c with ListenAndServe _ _ _ _ _ _ => serve_end | _ => result unit end.
Definition lib : sig := Sig lib_call lib_reply.
Definition proc : sig := both os (both ctl lib).
Abbreviation Proc := (prog proc).
Definition on_node {A} (p : OS A) : Proc A := on_left p.
Definition on_api {A} (p : M A) : Proc A := on_right (on_left p).
Definition library (c : lib_call) : Proc (lib_reply c) := on_right (on_right (ask (S:=lib) c)).

(** How a process ends: by [logger.Fatal], by a panic, or by returning. *)
Inductive ending := FatalExit (msg : string) (e : option error) | Panicked | Returned.
(** [if err != nil { logger.Fatal()... }] *)
Definition or_fatal {A} (msg : string) (p : Proc (result A)) (k : A → Proc ending) : Proc ending :=
  p ≫= λ r, match r with Ok a => k a | Err err => Ret (FatalExit msg (Some err)) end.

(** ** cmd/controller-manager *)
Record ManagerFlags := mkManagerFlags {
  fl_metricsAddr : string; fl_probeAddr : string; fl_leaderElect : bool }.
Definition manager_flag_defaults : ManagerFlags := mkManagerFlags ":8080" ":8081" true.
Definition must {A} (p : Proc (result A)) (k : A → Proc ending) : Proc ending :=
  or_fatal "controller-manager startup failed" p k.
Definition manager_options (flags : ManagerFlags) : ManagerOptions :=
  mkManagerOptions (fl_metricsAddr flags) (fl_probeAddr flags) (fl_leaderElect flags)
    "kdfs.storage.krea.to".
Section mains.
Context `{Environ}.
Definition manager_main (flags : ManagerFlags) : Proc ending :=
  let images := configureControllerPodImages defaultPodImages in
  must (library GetConfigOrDie) (λ _,
  must (library (NewManager (manager_options flags))) (λ _,
  namespace ← on_node runtimeNamespace;
  must (library (NewClient (Some tt))) (λ _,
  must (on_api (ensureNQNConfig namespace)) (λ _,
  must (library (SetupWithManager KVolume volume_watches None)) (λ _,
  must (library (SetupWithManager KReplica replica_watches (Some namespace))) (λ _,
  must (library (SetupWithManager KEngine engine_watches None)) (λ _,
  must (library (SetupWithManager KSnapshot snapshot_watches (Some namespace))) (λ _,
  must (library (AddHealthzCheck "healthz")) (λ _,
  must (library (AddReadyzCheck "readyz")) (λ _,
  must (library (StartManager images)) (λ _, Ret Returned))))))))))).

(** ** cmd/csi-plugin *)
Record PluginFlags := mkPluginFlags { fl_endpoint : string; fl_nodeID : string }.
Definition plugin_flag_defaults : PluginFlags :=
  mkPluginFlags "unix:///csi/csi.sock" (Getenv "KUBE_NODE_NAME").
(** The parser never answers an error, so there is no exit for one. *)
Definition plugin_main (flags : PluginFlags) : Proc ending :=
  match parseEndpoint (fl_endpoint flags) with
  | Panics => Ret Panicked
  | Returns (proto, addr) =>
      c ← library InClusterConfig;
      let config := match c with Ok _ => Some tt | Err _ => None end in
      or_fatal "failed to create k8s client" (library (NewClient config)) (λ _,
      _ ← on_node (clear_socket proto addr);
      or_fatal "failed to listen for CSI server" (library (Listen proto addr)) (λ _,
      or_fatal "CSI grpc server exited" (library (ServeCSI (mkDriver "kdfs" (fl_nodeID flags)))) (λ _,
      Ret Returned)))
  end.

(** ** cmd/dashboard *)
Definition dashboard_main : Proc ending :=
  or_fatal "failed to get in-cluster config" (library InClusterConfig) (λ _,
  or_fatal "failed to create dashboard client" (library (NewClient (Some tt))) (λ _,
  r ← library (ListenAndServe ":8080" (10 * Second) (30 * Second) (30 * Second) (60 * Second)
                 (DashboardMux dashboard_namespace));
  Ret (FatalExit "dashboard server exited" (Some (serve_error r))))).

(** ** cmd/node-agent: the server is the one that [node_agent_main] makes. *)
Definition node_agent_process (PQ : string → result Z) (linux : bool) : Proc ending :=
  match node_agent_main PQ linux with
  | Err err => Ret (FatalExit "failed to initialize node-agent server" (Some err))
  | Ok srv =>
      r ← library (ListenAndServe (hs_Addr srv) (hs_ReadHeaderTimeout _ srv * Second)
                     (hs_ReadTimeout _ srv * Second) (hs_WriteTimeout _ srv * Second)
                     (hs_IdleTimeout _ srv * Second) NodeAgentHandler);
      match r with
      | ErrServerClosed => Ret Returned
      | ServeError err => Ret (FatalExit "node-agent server exited" (Some err))
      end
  end.

(** ** cmd/nfs-sidecar and [ServeNFS] *)
Definition ServeNFS (exportPath listenAddr : string) : Proc (result unit) :=
  listener ← library (Listen "tcp" listenAddr);
  match listener with
  | Err err => Ret (Err (Wrapf "listen: %w" [] err))
  | Ok _ => library (NFSServe exportPath 1024)
  end.
Definition nfs_process : Proc ending :=
  match nfs_main with
  | inl msg => Ret (FatalExit msg None)
  | inr (exportPath, addr) => or_fatal "NFS server exited" (ServeNFS exportPath addr) (λ _, Ret Returned)
  end.
End mains.

(** ** What the processes do, in order *)
Definition lib_ev (c : lib_call) (r : lib_reply c) : event proc :=
  right_event (right_event (ev (S:=lib) c r)).
Definition api_evs (tr : trace) : list (event proc) := right_event <$> (left_event <$> tr).
Definition node_evs (tr : list (event os)) : list (event proc) := left_event <$> tr.
Lemma exec_library c tr r : exec (library c) tr r ↔ tr = [lib_ev c r].
Proof.
  unfold library. rw exec_on_right. split.
  - intros (ttr & -> & (str & -> & (r' & tr' & -> & [-> ->]))%exec_on_right). done.
  - intros ->. exists [right_event (ev (S:=lib) c r)]. split; [done|]. apply exec_on_right.
    exists [ev (S:=lib) c r]. split; [done|]. by exists r, [].
Qed.
Lemma exec_on_node {A} (p : OS A) tr a : exec (on_node p) tr a ↔ ∃ otr, tr = node_evs otr ∧ exec p otr a.
Proof. apply exec_on_left. Qed.
Lemma exec_on_api {A} (p : M A) tr a : exec (on_api p) tr a ↔ ∃ ctr, tr = api_evs ctr ∧ exec p ctr a.
Proof.
  unfold on_api. rw exec_on_right. split.
  - intros (ttr & -> & (str & -> & Hex)%exec_on_left). by exists str.
  - intros (ctr & -> & Hex). eexists. split; [done|]. apply exec_on_left. by exists ctr.
Qed.
(** It stops at the first step that fails, and goes on otherwise. *)
Lemma exec_or_fatal {A} msg (p : Proc (result A)) k tr r :
  exec (or_fatal msg p k) tr r ↔
  (∃ e, exec p tr (Err e) ∧ r = FatalExit msg (Some e)) ∨
  (∃ a tr1 tr2, tr = tr1 ++ tr2 ∧ exec p tr1 (Ok a) ∧ exec (k a) tr2 r).
Proof.
  unfold or_fatal. rw exec_bind. split.
  - intros (tr1 & tr2 & [a|e] & -> & Hp & Hk); [right; by exists a, tr1, tr2|left].
    destruct Hk as [-> ->]. exists e. by rw app_nil_r.
  - intros [(e & Hp & ->)|(a & tr1 & tr2 & -> & Hp & Hk)].
    + exists tr, [], (Err e). by rw app_nil_r.
    + by exists tr1, tr2, (Ok a).
Qed.
Definition is_start (e : event proc) : bool :=
  match projT1 e with inr (inr (StartManager _)) => true | _ => false end.
Definition started (tr : list (event proc)) : bool := existsb is_start tr.
Lemma started_node otr : started (node_evs otr) = false.
Proof. induction otr as [|e otr IH]; [done|]. exact IH. Qed.
Lemma started_api ctr : started (api_evs ctr) = false.
Proof. induction ctr as [|e ctr IH]; [done|]. exact IH. Qed.

Section started.
Context `{Environ}.
(** The manager's start, step by step: what it has done when it is started. *)
Definition start_steps (flags : ManagerFlags) (namespace : string) (namespace_read : list (event os)) (config : trace)
    (result : result unit) : list (event proc) :=
  [lib_ev GetConfigOrDie (Ok tt); lib_ev (NewManager (manager_options flags)) (Ok tt)]
  ++ node_evs namespace_read ++ [lib_ev (NewClient (Some tt)) (Ok tt)] ++ api_evs config
  ++ [lib_ev (SetupWithManager KVolume volume_watches None) (Ok tt);
      lib_ev (SetupWithManager KReplica replica_watches (Some namespace)) (Ok tt);
      lib_ev (SetupWithManager KEngine engine_watches None) (Ok tt);
      lib_ev (SetupWithManager KSnapshot snapshot_watches (Some namespace)) (Ok tt);
      lib_ev (AddHealthzCheck "healthz") (Ok tt); lib_ev (AddReadyzCheck "readyz") (Ok tt);
      lib_ev (StartManager (configureControllerPodImages defaultPodImages)) result].
(** One step of [main] that is a library call: it fails and nothing is started,
    or it is done and the rest follows. *)
Lemma must_step (e : result unit → event proc) p k tr r :
  exec (must p k) tr r → (∀ tr r, exec p tr r ↔ tr = [e r]) → (∀ x, is_start (e x) = false) →
  started tr = true →
  ∃ tr', tr = e (Ok tt) :: tr' ∧ exec (k tt) tr' r ∧ started tr' = true.
Proof.
  intros Hex Hp Hc Hs.
  apply exec_or_fatal in Hex as [(err & ->%Hp & _)|([] & tr1 & tr2 & -> & ->%Hp & Hk)];
    cbn in Hs; rw Hc in Hs; [done|eauto].
Qed.
Ltac next_step Hex Hs :=
  let tr := fresh "tr" in let Hs' := fresh "Hs" in
  lazymatch type of Hex with exec (must (library ?c) _) _ _ =>
    apply (must_step (lib_ev c)) in Hex as (tr & -> & Hex & Hs');
    [|by intros ??; apply (exec_library c)|reflexivity|exact Hs];
    clear Hs; rename Hs' into Hs
  end.
(** C37. What the manager has done when its controllers start: it has read its
    namespace, ensured the configuration there with a client of its own, set up
    the volume, replica, engine and snapshot controllers, in this order, with
    their watches, the replica and snapshot controllers with the node agents of
    that namespace, and added its health checks; nothing else. *)
Theorem manager_starts_configured (flags : ManagerFlags) (tr : list (event proc)) (r : ending) :
  exec (manager_main flags) tr r → started tr = true →
  ∃ namespace namespace_read config result,
    exec runtimeNamespace namespace_read namespace ∧
    exec (ensureNQNConfig namespace) config (Ok tt) ∧
    tr = start_steps flags namespace namespace_read config result.
Proof.
  intros Hex Hs. unfold manager_main in Hex. cbv zeta in Hex.
  next_step Hex Hs. next_step Hex Hs.
  apply exec_bind in Hex as (tr1 & tr2 & ns & -> & (otr & -> & Hns)%exec_on_node & Hex).
  unfold started in Hs. rw existsb_app in Hs. change (existsb is_start) with started in Hs.
  rw started_node in Hs. cbn [orb] in Hs. next_step Hex Hs.
  apply exec_or_fatal in Hex as [(e & (ctr & -> & _)%exec_on_api & _)|([] & tr1 & tr3 & -> & (ctr & -> & Hcfg)%exec_on_api & Hex)].
  { by rw started_api in Hs. }
  unfold started in Hs. rw existsb_app in Hs. change (existsb is_start) with started in Hs.
  rw started_api in Hs. cbn [orb] in Hs.
  do 6 next_step Hex Hs.
  match type of Hex with exec _ ?t _ => assert (∃ res, t = [lib_ev (StartManager (configureControllerPodImages defaultPodImages)) res]) as [res ->];
    [apply exec_or_fatal in Hex as [(e & ->%exec_library & _)|([] & t1 & t2 & -> & ->%exec_library & [-> _])]; eauto|] end.
  by exists ns, otr, ctr, res.
Qed.

(** The CSI plugin listens where its endpoint says when that is a socket path,
    whose stale file is removed right before; otherwise it listens at the empty
    address of the empty network. *)
Definition is_listen (e : event proc) : bool :=
  match projT1 e with inr (inr (Listen _ _)) => true | _ => false end.
Definition removal (path : string) (gone : os_reply (Remove path)) : event proc :=
  left_event (ev (S:=os) (Remove path) gone).
Definition plugin_steps (c : result unit) (removed : list (event proc)) (proto addr : string)
    (res : result unit) : list (event proc) :=
  [lib_ev InClusterConfig c;
   lib_ev (NewClient (match c with Ok _ => Some tt | Err _ => None end)) (Ok tt)]
  ++ removed ++ [lib_ev (Listen proto addr) res].
Lemma listened_node otr : existsb is_listen (node_evs otr) = false.
Proof. induction otr as [|e otr IH]; [done|]. exact IH. Qed.
Theorem plugin_listens (flags : PluginFlags) (tr : list (event proc)) (r : ending) :
  exec (plugin_main flags) tr r → existsb is_listen tr = true →
  String.length (fl_endpoint flags) ≠ 6 ∧
  ∃ c res served,
    match strip_prefix "unix://" (fl_endpoint flags) with
    | Some path => ∃ gone, tr = plugin_steps c [removal path gone] "unix" path res ++ served
    | None => tr = plugin_steps c [] "" "" res ++ served
    end.
Proof.
  unfold plugin_main. rw parseEndpoint_spec. intros Hex Hs.
  destruct (Nat.eqb_spec (String.length (fl_endpoint flags)) 6) as [_|Hne].
  { by destruct Hex as [-> ->]. }
  split; [done|].
  set (parsed := match strip_prefix _ _ with Some path => Returns ("unix", path) | None => Returns ("", "") end) in Hex.
  assert (∃ proto addr, parsed = Returns (proto, addr)) as (proto & addr & Hp).
  { unfold parsed. destruct (strip_prefix _ _); eauto. }
  rw Hp in Hex.
  apply exec_bind in Hex as (tr1 & tr2 & c & -> & ->%exec_library & Hex).
  apply exec_or_fatal in Hex as [(e & ->%exec_library & _)|([] & t1 & t2 & -> & ->%exec_library & Hex)];
    [done|].
  apply exec_bind in Hex as (tr3 & tr4 & [] & -> & (otr & -> & Hrm)%exec_on_node & Hex).
  assert (∃ res served, tr4 = lib_ev (Listen proto addr) res :: served) as (res & served & ->).
  { apply exec_or_fatal in Hex as [(e & ->%exec_library & _)|([] & t1 & t3 & -> & ->%exec_library & _)]; eauto. }
  exists c, res, served. unfold parsed in Hp. destruct (strip_prefix _ _) as [path|]; injection Hp as <- <-.
  - destruct Hrm as (gone & tr5 & -> & [-> _]).
    by exists gone.
  - destruct Hrm as [-> _]. done.
Qed.
End started.

(** ** A start *)
Definition lib_ok (c : lib_call) : lib_reply c :=
  match c with ListenAndServe _ _ _ _ _ _ => ErrServerClosed | _ => Ok tt end.
Definition proc_handler (c : call proc) (w : world) : reply proc c * world :=
  match c return reply proc c * world with
  | inl c => (os_ok c, w)
  | inr (inl c) => mem_handler c w
  | inr (inr c) => (lib_ok c, w)
  end.
#[local] Instance start_environ : Environ := λ n, if String.eqb n "POD_NAMESPACE" then "kdfs" else "".
Definition start_run :=
  run (S:=proc) proc_handler (manager_main manager_flag_defaults) empty_world.
Lemma manager_starts_configured_witness :
  start_run.1.2 = Returned ∧ started start_run.1.1 = true ∧
  ∃ namespace namespace_read config result,
    exec runtimeNamespace namespace_read namespace ∧
    exec (ensureNQNConfig namespace) config (Ok tt) ∧
    start_run.1.1 = start_steps manager_flag_defaults namespace namespace_read config result.
Proof.
  split; [vm_compute; reflexivity|]. split; [vm_compute; reflexivity|].
  apply (manager_starts_configured manager_flag_defaults start_run.1.1 start_run.1.2).
  - exact (exec_of_run proc_handler _ empty_world _ eq_refl).
  - vm_compute. reflexivity.
Defined.
