(* ===== verification/Store.v ===== *)
(** * API servers, by their laws

    What a program relies on of an API server that nobody else writes to: which
    objects it keeps, and what each call answers and changes.  [lands p s Q]
    says that, whatever the server is and however it stands otherwise (its
    clock, the order of its lists, the agents and sidecars behind it), running
    [p] when it keeps the objects [s] ends with a value and with objects that
    satisfy [Q].  MemStore is such a server. *)
From S2P Require Import Prelude GoStrings K8s ApiTypes WireTypes Client MemStore Status VolumeScale.

(** ** The objects of a server

    Beside them, what its sidecars were last told: the body of the last request
    that was accepted at an address.  Only [tell] writes that. *)
Record store := mkStore {
  s_volumes : gmap okey Volume; s_engines : gmap okey Engine; s_replicas : gmap okey Replica;
  s_snapshots : gmap okey Snapshot; s_pods : gmap okey Pod; s_nodes : gmap okey Node;
  s_configmaps : gmap okey ConfigMap; s_told : gmap string string }.
Definition objects (k : kind) (s : store) : gmap okey (obj k) :=
  match k return gmap okey (obj k) with
  | KVolume => s_volumes s | KEngine => s_engines s | KReplica => s_replicas s
  | KSnapshot => s_snapshots s | KPod => s_pods s | KNode => s_nodes s
  | KConfigMap => s_configmaps s
  end.
Definition set_objects (k : kind) (s : store) : gmap okey (obj k) → store :=
  let 'mkStore vs es rs ss ps ns cs t := s in
  match k return gmap okey (obj k) → store with
  | KVolume => λ m, mkStore m es rs ss ps ns cs t
  | KEngine => λ m, mkStore vs m rs ss ps ns cs t
  | KReplica => λ m, mkStore vs es m ss ps ns cs t
  | KSnapshot => λ m, mkStore vs es rs m ps ns cs t
  | KPod => λ m, mkStore vs es rs ss m ns cs t
  | KNode => λ m, mkStore vs es rs ss ps m cs t
  | KConfigMap => λ m, mkStore vs es rs ss ps ns m t
  end.
Definition keep (k : kind) (key : okey) (o : obj k) (s : store) : store :=
  set_objects k s (<[key := o]> (objects k s)).
Definition drop_key (k : kind) (key : okey) (s : store) : store :=
  set_objects k s (delete key (objects k s)).
Definition tell (url body : string) (s : store) : store :=
  let 'mkStore vs es rs ss ps ns cs t := s in mkStore vs es rs ss ps ns cs (<[url := body]> t).

Lemma objects_set k s m : objects k (set_objects k s m) = m.
Proof. by destruct s, k. Qed.
Lemma objects_set_ne k k' s m : k ≠ k' → objects k (set_objects k' s m) = objects k s.
Proof. by destruct s, k, k'. Qed.
Lemma objects_keep k key o s : objects k (keep k key o s) = <[key := o]> (objects k s).
Proof. apply objects_set. Qed.
Lemma objects_keep_ne k k' key o s : k ≠ k' → objects k (keep k' key o s) = objects k s.
Proof. apply objects_set_ne. Qed.
Lemma objects_drop k key s : objects k (drop_key k key s) = delete key (objects k s).
Proof. apply objects_set. Qed.
Lemma objects_drop_ne k k' key s : k ≠ k' → objects k (drop_key k' key s) = objects k s.
Proof. apply objects_set_ne. Qed.

Lemma objects_tell k url body s : objects k (tell url body s) = objects k s.
Proof. by destruct s, k. Qed.
Lemma told_tell url body s : s_told (tell url body s) = <[url := body]> (s_told s).
Proof. by destruct s. Qed.
Lemma told_set k s m : s_told (set_objects k s m) = s_told s.
Proof. by destruct s, k. Qed.
Lemma told_keep k key o s : s_told (keep k key o s) = s_told s.
Proof. apply told_set. Qed.
Lemma told_drop k key s : s_told (drop_key k key s) = s_told s.
Proof. apply told_set. Qed.

#[global] Arguments tell : simpl never.
#[global] Arguments objects : simpl never.
#[global] Arguments keep : simpl never.
#[global] Arguments drop_key : simpl never.

(** What a list of a kind answers, in any order. *)
Definition listing (k : kind) (ns : option string) (sel : gmap string string) (s : store) : list (obj k) :=
  filter (λ o, in_ns ns (obj_meta k o) && has_labels sel (om_Labels (obj_meta k o)))
    (map_to_list (objects k s)).*2.
Lemma listing_spec k ns sel s o :
  o ∈ listing k ns sel s ↔
  in_ns ns (obj_meta k o) = true ∧ has_labels sel (om_Labels (obj_meta k o)) = true ∧
  ∃ key, objects k s !! key = Some o.
Proof.
  unfold listing. rw list_elem_of_filter Is_true_true andb_true_iff list_elem_of_fmap. split.
  - intros [[? ?] ((key & o') & -> & ?%elem_of_map_to_list)]. eauto.
  - intros (? & ? & key & ?). split; [done|]. exists (key, o). by rw elem_of_map_to_list.
Qed.

(** ** The laws *)
Definition answer_of {A} (found : option A) (r : result A) : Prop :=
  match found with
  | Some o => r = Ok o
  | None => ∃ e, r = Err e ∧ IsNotFound e = true
  end.
Class ApiServer {W} (h : handler ctl W) (view : W → store) : Prop := {
  serves_get k key w :
    answer_of (objects k (view w) !! okey_of key) (h (Get k key) w).1 ∧
    view (h (Get k key) w).2 = view w;
  serves_list k ns sel w :
    (∃ l, (h (List k ns sel) w).1 = Ok l ∧ l ≡ₚ listing k ns sel (view w)) ∧
    view (h (List k ns sel) w).2 = view w;
  serves_create k o w :
    let '(r, w') := h (Create k o) w in
    match objects k (view w) !! meta_okey (obj_meta k o) with
    | Some _ => (∃ e, r = Err e ∧ IsAlreadyExists e = true) ∧ view w' = view w
    | None => r = Ok o ∧ view w' = keep k (meta_okey (obj_meta k o)) o (view w)
    end;
  serves_update k o w :
    let '(r, w') := h (Update k o) w in
    match objects k (view w) !! meta_okey (obj_meta k o) with
    | Some old => r = Ok (with_status_of k o old) ∧ view w' = keep k (meta_okey (obj_meta k o)) (with_status_of k o old) (view w)
    | None => (∃ e, r = Err e ∧ IsNotFound e = true) ∧ view w' = view w
    end;
  serves_status k o w :
    let '(r, w') := h (StatusUpdate k o) w in
    match objects k (view w) !! meta_okey (obj_meta k o) with
    | Some old => r = Ok (with_status_of k old o) ∧ view w' = keep k (meta_okey (obj_meta k o)) (with_status_of k old o) (view w)
    | None => (∃ e, r = Err e ∧ IsNotFound e = true) ∧ view w' = view w
    end;
  serves_delete k key w :
    let '(r, w') := h (Delete k key) w in
    match objects k (view w) !! okey_of key with
    | Some _ => r = Ok tt ∧ view w' = drop_key k (okey_of key) (view w)
    | None => (∃ e, r = Err e ∧ IsNotFound e = true) ∧ view w' = view w
    end;
  (** The clock, the agents and the sidecars do not write objects. *)
  serves_others c w :
    match c with
    | Create _ _ | Update _ _ | StatusUpdate _ _ | Delete _ _ => True
    | HttpDo _ _ _ _ => ∀ k, objects k (view (h c w).2) = objects k (view w)
    | _ => view (h c w).2 = view w
    end }.

(** ** Programs on such a server *)
Section lands.
Context {W} (h : handler ctl W) (view : W → store).
Implicit Types s : store.

Definition lands {A} (p : M A) (s : store) (Q : A → store → Prop) : Prop :=
  ∀ w, view w = s → Q (run h p w).1.2 (view (run h p w).2).

Lemma lands_mono {A} (p : M A) s (Q Q' : A → store → Prop) :
  lands p s Q → (∀ a s', Q a s' → Q' a s') → lands p s Q'.
Proof. intros Hp HQ w Hw. apply HQ, Hp, Hw. Qed.
Lemma lands_ret {A} (a : A) s (Q : A → store → Prop) : Q a s → lands (Ret a) s Q.
Proof. by intros HQ w <-. Qed.
Lemma lands_bind {A B} (p : M A) (f : A → M B) s Q :
  lands p s (λ a s', lands (f a) s' Q) → lands (p ≫= f) s Q.
Proof.
  intros Hp w Hw. specialize (Hp w Hw _ eq_refl). revert Hp. clear Hw. revert w.
  induction p as [a|c k IH]; intros w; [done|]. cbn [run]. change (Vis c k ≫= f) with (Vis c (λ r, k r ≫= f)).
  cbn [run]. destruct (h c w) as [r w1]. specialize (IH r w1).
  destruct (run h (k r) w1) as [[tr a] w2]. destruct (run h (k r ≫= f) w1) as [[tr' b] w3].
  exact IH.
Qed.
Lemma lands_bind_ok {A B} (p : M (result A)) (f : A → M (result B)) s Q :
  lands p s (λ r s', match r with Ok a => lands (f a) s' Q | Err e => Q (Err e) s' end) →
  lands (bind_ok p f) s Q.
Proof.
  intros Hp. unfold bind_ok, bind_rec, finish. apply lands_bind. eapply lands_mono; [exact Hp|].
  intros [a|e] s' H; [done|by apply lands_ret].
Qed.
Lemma lands_bind_rec {A} (p : M (result A)) (f : A → M Reconciled) s Q :
  lands p s (λ r s', match r with Ok a => lands (f a) s' Q | Err e => Q (noResult, Some e) s' end) →
  lands (bind_rec p f) s Q.
Proof.
  intros Hp. unfold bind_ok, bind_rec, finish. apply lands_bind. eapply lands_mono; [exact Hp|].
  intros [a|e] s' H; [done|by apply lands_ret].
Qed.
Lemma lands_finish {A} (p : M (result A)) s Q :
  lands p s (λ r s', Q (noResult, err_of r) s') → lands (finish p) s Q.
Proof.
  intros Hp. unfold bind_ok, bind_rec, finish. apply lands_bind. eapply lands_mono; [exact Hp|]. intros r s' H. by apply lands_ret.
Qed.

Lemma lands_ask (c : ctl_call) s (Q : ctl_reply c → store → Prop) :
  (∀ w, view w = s → Q (h c w).1 (view (h c w).2)) → lands (ask (S:=ctl) c) s Q.
Proof.
  intros HQ w Hw. specialize (HQ w Hw). unfold ask. cbn [run]. by destruct (h c w) as [r w'].
Qed.

Context `{!ApiServer h view}.
Lemma lands_get k key s (Q : result (obj k) → store → Prop) :
  (∀ r, answer_of (objects k s !! okey_of key) r → Q r s) → lands (kGet k key) s Q.
Proof.
  intros HQ. apply (lands_ask (Get k key)). intros w <-.
  destruct (serves_get (h:=h) k key w) as [Hr ->]. by apply HQ.
Qed.
Lemma lands_get_some k key o s (Q : result (obj k) → store → Prop) :
  objects k s !! okey_of key = Some o → Q (Ok o) s → lands (kGet k key) s Q.
Proof. intros Ho HQ. apply lands_get. rw Ho. by intros r ->. Qed.
Lemma lands_list k ns sel s (Q : result (list (obj k)) → store → Prop) :
  (∀ l, l ≡ₚ listing k ns sel s → Q (Ok l) s) → lands (kList k ns sel) s Q.
Proof.
  intros HQ. apply (lands_ask (List k ns sel)). intros w <-.
  destruct (serves_list (h:=h) k ns sel w) as [(l & -> & Hl) ->]. by apply HQ.
Qed.
Lemma lands_create k o s (Q : result (obj k) → store → Prop) :
  match objects k s !! meta_okey (obj_meta k o) with
  | Some _ => ∀ e, IsAlreadyExists e = true → Q (Err e) s
  | None => Q (Ok o) (keep k (meta_okey (obj_meta k o)) o s)
  end → lands (kCreate k o) s Q.
Proof.
  intros HQ. apply (lands_ask (Create k o)). intros w <-. pose proof (serves_create (h:=h) k o w) as Hs.
  destruct (h (Create k o) w) as [r w']; cbn [fst snd]. destruct (objects k (view w) !! _).
  - destruct Hs as [(e & -> & He) ->]. by apply HQ.
  - by destruct Hs as [-> ->].
Qed.
Lemma lands_update k o old s (Q : result (obj k) → store → Prop) :
  objects k s !! meta_okey (obj_meta k o) = Some old →
  Q (Ok (with_status_of k o old)) (keep k (meta_okey (obj_meta k o)) (with_status_of k o old) s) → lands (kUpdate k o) s Q.
Proof.
  intros Ho HQ. apply (lands_ask (Update k o)). intros w <-. pose proof (serves_update (h:=h) k o w) as Hs.
  destruct (h (Update k o) w) as [r w']; cbn [fst snd]. rw Ho in Hs. by destruct Hs as [-> ->].
Qed.
Lemma lands_status k o old s (Q : result (obj k) → store → Prop) :
  objects k s !! meta_okey (obj_meta k o) = Some old →
  Q (Ok (with_status_of k old o)) (keep k (meta_okey (obj_meta k o)) (with_status_of k old o) s) → lands (kStatusUpdate k o) s Q.
Proof.
  intros Ho HQ. apply (lands_ask (StatusUpdate k o)). intros w <-. pose proof (serves_status (h:=h) k o w) as Hs.
  destruct (h (StatusUpdate k o) w) as [r w']; cbn [fst snd]. rw Ho in Hs. by destruct Hs as [-> ->].
Qed.
Lemma lands_delete k key s (Q : result unit → store → Prop) :
  match objects k s !! okey_of key with
  | Some _ => Q (Ok tt) (drop_key k (okey_of key) s)
  | None => ∀ e, IsNotFound e = true → Q (Err e) s
  end → lands (kDelete k key) s Q.
Proof.
  intros HQ. apply (lands_ask (Delete k key)). intros w <-. pose proof (serves_delete (h:=h) k key w) as Hs.
  destruct (h (Delete k key) w) as [r w']; cbn [fst snd]. destruct (objects k (view w) !! _).
  - by destruct Hs as [-> ->].
  - destruct Hs as [(e & -> & He) ->]. by apply HQ.
Qed.
Lemma lands_time s (Q : Time → store → Prop) : (∀ t, Q t s) → lands timeNow s Q.
Proof.
  intros HQ. apply (lands_ask TimeNow). intros w <-. rw (serves_others (h:=h) TimeNow w). apply HQ.
Qed.
#[local] Transparent set.
Lemma lands_set cs t st reason msg s (Q : list Condition → store → Prop) :
  (∀ cs', Q cs' s) → lands (set cs t st reason msg) s Q.
Proof. intros HQ. unfold set. apply lands_bind, lands_time. intros now. by apply lands_ret. Qed.
#[local] Opaque set.
Lemma lands_create_if_missing k o s (Q : result unit → store → Prop) :
  Q (Ok tt) (match objects k s !! meta_okey (obj_meta k o) with Some _ => s | None => keep k (meta_okey (obj_meta k o)) o s end) →
  lands (createIfMissing k o) s Q.
Proof.
  intros HQ. unfold createIfMissing. apply lands_bind, lands_create. destruct (objects k s !! _).
  - intros e ->. by apply lands_ret.
  - by apply lands_ret.
Qed.
End lands.

(** Through the structure of a program, up to a call of the server, a branch or
    another program. *)
Ltac lands_step :=
  cbn beta iota zeta;
  lazymatch goal with
  | |- lands _ _ (Ret _) _ _ => apply lands_ret
  | |- lands _ _ (reconciled _) _ _ => apply lands_ret
  | |- lands _ _ (requeue _) _ _ => apply lands_ret
  | |- lands _ _ (bind_rec _ _) _ _ => apply lands_bind_rec
  | |- lands _ _ (bind_ok _ _) _ _ => apply lands_bind_ok
  | |- lands _ _ (finish _) _ _ => apply lands_finish
  | |- lands _ _ (set _ _ _ _ _) _ _ => apply lands_set; [exact _|intros ?]
  | |- lands _ _ (SetTrue _ _ _ _) _ _ => apply lands_set; [exact _|intros ?]
  | |- lands _ _ (SetFalse _ _ _ _) _ _ => apply lands_set; [exact _|intros ?]
  | |- lands _ _ (mbind _ _) _ _ => apply lands_bind
  end.
Ltac lands_steps := repeat lands_step.

(** The same server beside other agents and sidecars. *)
Lemma server_beside {W} (h h' : handler ctl W) (view : W → store) `{!ApiServer h view} :
  (∀ c w, match c with
          | Get _ _ | List _ _ _ | Create _ _ | Update _ _ | StatusUpdate _ _ | Delete _ _ => h' c w = h c w
          | HttpDo _ _ _ _ => ∀ k, objects k (view (h' c w).2) = objects k (view w)
          | _ => view (h' c w).2 = view w
          end) → ApiServer h' view.
Proof.
  intros Hc. split.
  - intros k key w. rw (Hc (Get k key) w). apply serves_get.
  - intros k ns sel w. rw (Hc (List k ns sel) w). apply serves_list.
  - intros k o w. rw (Hc (Create k o) w). apply serves_create.
  - intros k o w. rw (Hc (Update k o) w). apply serves_update.
  - intros k o w. rw (Hc (StatusUpdate k o) w). apply serves_status.
  - intros k key w. rw (Hc (Delete k key) w). apply serves_delete.
  - intros c w. specialize (Hc c w). pose proof (serves_others (h:=h) c w) as Ho.
    destruct c; try done; by rw Hc.
Qed.

(** ** The server of MemStore *)
Definition world_view (w : world) : store :=
  mkStore (w_objs w KVolume) (w_objs w KEngine) (w_objs w KReplica) (w_objs w KSnapshot)
    (w_objs w KPod) (w_objs w KNode) (w_objs w KConfigMap) (w_told w).
Lemma objects_view k w : objects k (world_view w) = w_objs w k.
Proof. by destruct k. Qed.
Lemma view_set_objs k m w : world_view (set_objs k m w) = set_objects k (world_view w) m.
Proof. by destruct k. Qed.
Lemma view_note url body w : world_view (note url body w) = tell url body (world_view w).
Proof. done. Qed.
#[global] Instance mem_server : ApiServer mem_handler world_view.
Proof.
  split; intros; rw ?objects_view.
  - cbn [mem_handler]. destruct (w_objs w k !! _); (split; [|done]); [done|by eexists; split].
  - split; [|done]. eexists. split; [done|]. unfold listing. by rw objects_view.
  - cbn [mem_handler]. destruct (w_objs w k !! _); [split; [by eexists; split|done]|].
    split; [done|]. unfold keep. by rw objects_view view_set_objs.
  - cbn [mem_handler]. destruct (w_objs w k !! _); [|split; [by eexists; split|done]].
    split; [done|]. unfold keep. by rw objects_view view_set_objs.
  - cbn [mem_handler]. destruct (w_objs w k !! _); [|split; [by eexists; split|done]].
    split; [done|]. unfold keep. by rw objects_view view_set_objs.
  - cbn [mem_handler]. destruct (w_objs w k !! _); [|split; [by eexists; split|done]].
    split; [done|]. unfold drop_key. by rw objects_view view_set_objs.
  - destruct c; try done. cbn [mem_handler]. by destruct (w_objs w k !! _).
Qed.
