(* ===== verification/Stages.v ===== *)
(** * How far a volume has come

    An abstract machine for the children of a volume that comes up, or that gets
    more replicas: its replicas and their pods, its engine and the engine's pod.
    A pass of a reconciler, or of the kubelet, is a step; what has come about
    stays; and any six rounds in which everybody gets a turn bring everything to
    Running.  BringUp.v shows that the reconcilers carry this machine out. *)
From S2P Require Import Prelude.

(** ** The machine *)
(** An engine is stale when it runs, and was given other attachments since. *)
Inductive estage := ENew | EPending | EStale | ERunning.
(** A pod is absent, created, or up. *)
Record stages := mkStages {
  a_running : nat → bool;        (* the replica is Running *)
  a_pod : nat → option bool;     (* its pod *)
  a_final : nat → bool;          (* its attachment has its final value *)
  a_engine : estage;
  a_epod : option bool }.
Definition fresh_stages : stages := mkStages (λ _, false) (λ _, None) (λ _, false) ENew None.

Section machine.
Context (n : nat) (local : nat → bool).
Implicit Types a : stages.

(** A replica that the engine may use. *)
Definition ready a (i : nat) : bool := a_running a i.
Definition all_ready a : bool := forallb (ready a) (seq 0 n).
Definition set_at {A} (f : nat → A) (i : nat) (x : A) : nat → A := λ j, if decide (j = i) then x else f j.

Definition replica_pass (i : nat) a : stages :=
  let run := mkStages (set_at (a_running a) i true) (a_pod a) (a_final a) (a_engine a) (a_epod a) in
  if local i then run
  else match a_pod a i with
       | None => mkStages (a_running a) (set_at (a_pod a) i (Some false)) (a_final a) (a_engine a) (a_epod a)
       | Some false => a
       | Some true => run
       end.
Definition engine_pass a : stages :=
  let final := λ i, a_final a i || local i || ready a i in
  let set e p := mkStages (a_running a) (a_pod a) final e p in
  if negb (all_ready a) then set (a_engine a) (a_epod a)
  else match a_engine a, a_epod a with
       | ENew, p => set EPending (Some (default false p))
       | _, Some true => set ERunning (Some true)
       | e, p => set e p
       end.
(** The kubelet starts the pod of a replica, or the engine's. *)
Definition start (p : option bool) : option bool := match p with Some _ => Some true | None => None end.
Definition start_replica_pod (i : nat) a : stages :=
  mkStages (a_running a) (set_at (a_pod a) i (start (a_pod a i))) (a_final a) (a_engine a) (a_epod a).
Definition start_engine_pod a : stages :=
  mkStages (a_running a) (a_pod a) (a_final a) (a_engine a) (start (a_epod a)).

Inductive step := RunReplica (i : nat) | RunEngine | StartReplicaPod (i : nat) | StartEnginePod.
Definition stage_step (st : step) : stages → stages :=
  match st with
  | RunReplica i => replica_pass i
  | RunEngine => engine_pass
  | StartReplicaPod i => start_replica_pod i
  | StartEnginePod => start_engine_pod
  end.
Definition valid (st : step) : Prop :=
  match st with RunReplica i | StartReplicaPod i => i < n | _ => True end.
Definition advances (l : list step) a : stages := fold_left (λ a st, stage_step st a) l a.

(** Every child gets its turn, in any order, any number of times. *)
Definition complete_round (l : list step) : Prop :=
  Forall valid l ∧ RunEngine ∈ l ∧ StartEnginePod ∈ l ∧
  ∀ i, i < n → RunReplica i ∈ l ∧ StartReplicaPod i ∈ l.

(** *** Any six rounds are enough *)

(** What has come about stays: further along in every part. *)
Definition further (p q : option bool) : Prop :=
  match p, q with
  | None, _ => True
  | Some false, Some _ => True
  | Some true, Some true => True
  | _, _ => False
  end.
Definition efurther (e e' : estage) : Prop :=
  match e, e' with
  | ENew, _ | EPending, EPending | EPending, ERunning | EStale, EStale | EStale, ERunning
  | ERunning, ERunning => True
  | _, _ => False
  end.
Definition leads a a' : Prop :=
  (∀ i, a_running a i = true → a_running a' i = true) ∧
  (∀ i, further (a_pod a i) (a_pod a' i)) ∧
  efurther (a_engine a) (a_engine a') ∧ further (a_epod a) (a_epod a').
#[global] Instance estage_eq_dec : EqDecision estage.
Proof. solve_decision. Defined.
#[global] Instance leads_preorder : PreOrder leads.
Proof.
  split.
  - intros a. split_and!; [done|..].
    + intros i. by destruct (a_pod a i) as [[]|].
    + by destruct (a_engine a).
    + by destruct (a_epod a) as [[]|].
  - intros a b c (H1 & H2 & H3 & H4) (K1 & K2 & K3 & K4). split_and!; [by auto|..].
    + intros i. specialize (H2 i). specialize (K2 i).
      by destruct (a_pod a i) as [[]|], (a_pod b i) as [[]|], (a_pod c i) as [[]|].
    + by destruct (a_engine a), (a_engine b), (a_engine c).
    + by destruct (a_epod a) as [[]|], (a_epod b) as [[]|], (a_epod c) as [[]|].
Qed.
Lemma further_refl p : further p p.
Proof. by destruct p as [[]|]. Qed.
Lemma further_start p : further p (start p).
Proof. by destruct p as [[]|]. Qed.
Lemma set_at_eq {A} (f : nat → A) i x : set_at f i x i = x.
Proof. unfold set_at. by rw decide_True. Qed.
Lemma set_at_ne {A} (f : nat → A) i j x : j ≠ i → set_at f i x j = f j.
Proof. intros. unfold set_at. by rw decide_False. Qed.
Lemma leads_pod a i p :
  further (a_pod a i) p →
  leads a (mkStages (a_running a) (set_at (a_pod a) i p) (a_final a) (a_engine a) (a_epod a)).
Proof.
  intros Hp. split_and!; cbn; [done| |by destruct (a_engine a)|apply further_refl].
  intros j. unfold set_at. case_decide as Hj; [by subst|apply further_refl].
Qed.
Lemma leads_running a i :
  leads a (mkStages (set_at (a_running a) i true) (a_pod a) (a_final a) (a_engine a) (a_epod a)).
Proof.
  split_and!; cbn; [|intros; apply further_refl|by destruct (a_engine a)|apply further_refl].
  intros j Hj. unfold set_at. by case_decide.
Qed.
Lemma advance_leads st a : leads a (stage_step st a).
Proof.
  destruct st as [i| |i|]; cbn.
  - unfold replica_pass. destruct (local i); [apply leads_running|].
    destruct (a_pod a i) as [[]|] eqn:Hp; [apply leads_running|done|].
    apply leads_pod. by rw Hp.
  - unfold engine_pass. destruct (negb _); [|destruct (a_engine a) eqn:He, (a_epod a) as [[]|] eqn:Hp];
      (split_and!; cbn; rw ?He ?Hp; [done|intros; apply further_refl|try done; by destruct (a_engine a)
       |try done; apply further_refl]).
  - apply leads_pod, further_start.
  - split_and!; cbn; [done|intros; apply further_refl|by destruct (a_engine a)|apply further_start].
Qed.
Lemma advances_leads l a : leads a (advances l a).
Proof.
  revert a. induction l as [|st l IH]; intros a; [done|].
  etrans; [apply advance_leads|apply IH].
Qed.
Lemma advances_app l1 l2 a : advances (l1 ++ l2) a = advances l2 (advances l1 a).
Proof. apply fold_left_app. Qed.

(** Pods precede what runs in them, and the engine's attachments its pod. *)
Definition settled (e : estage) : bool := match e with EPending | ERunning => true | _ => false end.
Record consistent a : Prop := mkConsistent {
  cs_pod : ∀ i, local i = false → a_running a i = true → a_pod a i = Some true;
  cs_engine : a_engine a ≠ ENew → a_epod a ≠ None;
  cs_final : settled (a_engine a) = true → ∀ i, i < n → a_final a i = true }.
Lemma fresh_consistent : consistent fresh_stages.
Proof. by split. Qed.
Lemma all_ready_spec a : all_ready a = true ↔ ∀ i, i < n → a_running a i = true.
Proof.
  unfold all_ready, ready. rw forallb_forall. split; intros H i.
  - intros Hi. apply H, in_seq. lia.
  - intros Hi%in_seq. apply H. lia.
Qed.
Lemma all_ready_leads a a' : leads a a' → all_ready a = true → all_ready a' = true.
Proof. rw !all_ready_spec. intros (H & _) Ha i Hi. auto. Qed.
Lemma advance_final st a :
  consistent a → settled (a_engine (stage_step st a)) = true → ∀ i, i < n → a_final (stage_step st a) i = true.
Proof.
  intros [_ _ Hf]. destruct st as [j| |j|]; cbn; [|..|done|done].
  - unfold replica_pass. by destruct (local j), (a_pod a j) as [[]|].
  - unfold engine_pass. destruct (all_ready a) eqn:Hall; cbn.
    + rw all_ready_spec in Hall. unfold ready. intros _ i Hi.
      by destruct (a_engine a), (a_epod a) as [[]|]; cbn; rw (Hall i Hi) orb_true_r.
    + intros Hne i Hi. by rw (Hf Hne i Hi).
Qed.
Lemma advance_consistent st a : consistent a → consistent (stage_step st a).
Proof.
  intros Ha. pose proof (advance_final st a Ha). destruct Ha as [Hp He _].
  destruct (advance_leads st a) as (H1 & H2 & H3 & H4). split; [..|done].
  - intros i Hloc. specialize (Hp i Hloc). specialize (H2 i). destruct (a_running a i) eqn:Hrun.
    { rw Hp // in H2. by destruct (a_pod (stage_step st a) i) as [[]|]. }
    destruct st as [j| |j|]; cbn; try (intros; congruence).
    + unfold replica_pass. destruct (local j) eqn:Hj, (a_pod a j) as [[]|] eqn:Hpj; cbn;
        rw ?Hrun //; unfold set_at; case_decide as Hij; intros; congruence.
    + unfold engine_pass. destruct (negb _); [cbn; intros; congruence|].
      destruct (a_engine a), (a_epod a) as [[]|]; cbn; intros; congruence.
  - intros Hne. destruct (decide (a_engine a = ENew)) as [Hea|Hea].
    + destruct st as [j| |j|]; cbn in Hne; [|clear He|by rw Hea in Hne|by rw Hea in Hne].
      * destruct Hne. unfold replica_pass. by destruct (local j), (a_pod a j) as [[]|].
      * revert Hne. cbn. unfold engine_pass. by destruct (all_ready a); cbn; rw Hea.
    + specialize (He Hea). by destruct (a_epod a) as [[]|], (a_epod (stage_step st a)) as [[]|].
Qed.
Lemma advances_consistent l a : consistent a → consistent (advances l a).
Proof. revert a. induction l as [|st l IH]; intros a; [done|]. intros. by apply IH, advance_consistent. Qed.

(** A step of a round does its work, whatever comes before and after it. *)
Definition lasting (P : stages → Prop) : Prop := ∀ a a', leads a a' → P a → P a'.
Lemma round_reaches (P Q : stages → Prop) st l a :
  lasting P → lasting Q → (∀ a, consistent a → P a → Q (stage_step st a)) →
  st ∈ l → consistent a → P a → Q (advances l a).
Proof.
  intros HP HQ Hst (l1 & l2 & ->)%list_elem_of_split Ha Pa.
  rw advances_app. cbn. apply (HQ (stage_step st (advances l1 a))); [apply advances_leads|].
  apply Hst; [by apply advances_consistent|]. eapply HP, Pa. apply advances_leads.
Qed.
Definition made a (i : nat) : Prop := if local i then a_running a i = true else a_pod a i ≠ None.
Definition up a (i : nat) : Prop := if local i then a_running a i = true else a_pod a i = Some true.
Definition running a : Prop := all_ready a = true.
Lemma lasting_each (P : stages → nat → Prop) :
  (∀ i, lasting (λ a, P a i)) → lasting (λ a, ∀ i, i < n → P a i).
Proof. intros HP a a' Hl Ha i Hi. eapply HP; eauto. Qed.
Lemma lasting_made i : lasting (λ a, made a i).
Proof.
  intros a a' (H1 & H2 & _). unfold made. destruct (local i); [auto|]. specialize (H2 i).
  by destruct (a_pod a i) as [[]|], (a_pod a' i) as [[]|].
Qed.
Lemma lasting_up i : lasting (λ a, up a i).
Proof.
  intros a a' (H1 & H2 & _). unfold up. destruct (local i); [auto|]. specialize (H2 i).
  by destruct (a_pod a i) as [[]|], (a_pod a' i) as [[]|].
Qed.
Lemma lasting_running : lasting running.
Proof. intros a a' Hl. by apply all_ready_leads. Qed.
Lemma lasting_engine : lasting (λ a, running a ∧ a_engine a ≠ ENew).
Proof.
  intros a a' Hl [H1 H2]. split; [by eapply lasting_running|]. destruct Hl as (_ & _ & H3 & _).
  by destruct (a_engine a), (a_engine a').
Qed.
Lemma lasting_epod : lasting (λ a, running a ∧ a_engine a ≠ ENew ∧ a_epod a = Some true).
Proof.
  intros a a' Hl (H1 & H2 & H3). destruct (lasting_engine a a' Hl) as [K1 K2]; [done|].
  split_and!; [done..|]. destruct Hl as (_ & _ & _ & H4). rw H3 in H4. by destruct (a_epod a') as [[]|].
Qed.
Lemma lasting_done : lasting (λ a, running a ∧ a_engine a = ERunning).
Proof.
  intros a a' Hl [H1 H2]. split; [by eapply lasting_running|]. destruct Hl as (_ & _ & H3 & _).
  rw H2 in H3. by destruct (a_engine a').
Qed.

Lemma six_rounds (a0 : stages) (r1 r2 r3 r4 r5 r6 : list step) :
  consistent a0 → Forall complete_round [r1; r2; r3; r4; r5; r6] →
  let a := advances (r1 ++ r2 ++ r3 ++ r4 ++ r5 ++ r6) a0 in
  a_engine a = ERunning ∧ consistent a ∧ ∀ i, i < n → a_running a i = true.
Proof.
  intros K0. rw !Forall_cons. intros (C1 & C2 & C3 & C4 & C5 & C6 & _).
  cbv zeta. rw !advances_app.
  set (a1 := advances r1 a0). set (a2 := advances r2 a1). set (a3 := advances r3 a2).
  set (a4 := advances r4 a3). set (a5 := advances r5 a4).
  assert (consistent a1) as K1 by by apply advances_consistent.
  assert (consistent a2) as K2 by by apply advances_consistent.
  assert (consistent a3) as K3 by by apply advances_consistent.
  assert (consistent a4) as K4 by by apply advances_consistent.
  assert (consistent a5) as K5 by by apply advances_consistent.
  assert (∀ i, i < n → made a1 i) as H1.
  { intros i Hi. apply (round_reaches (λ _, True) (λ a, made a i) (RunReplica i)); [done|apply lasting_made|
      |by apply C1|done|done].
    intros a _ _. cbn. unfold replica_pass, made. destruct (local i); cbn; [by rw set_at_eq|].
    destruct (a_pod a i) as [[]|] eqn:Hp; cbn; rw ?set_at_eq ?Hp //. }
  assert (∀ i, i < n → up a2 i) as H2.
  { intros i Hi. apply (round_reaches (λ a, made a i) (λ a, up a i) (StartReplicaPod i));
      [apply lasting_made|apply lasting_up| |by apply C2|done|by apply H1].
    intros a _. unfold made, up. destruct (local i); [done|]. cbn. rw set_at_eq. by destruct (a_pod a i) as [[]|]. }
  assert (running a3) as H3.
  { apply all_ready_spec. intros i Hi.
    apply (round_reaches (λ a, up a i) (λ a, a_running a i = true) (RunReplica i));
      [apply lasting_up|by intros a a' (Hr & _); apply Hr| |by apply C3|done|by apply H2].
    intros a _. unfold up. cbn. unfold replica_pass. destruct (local i); cbn.
    - by rw set_at_eq.
    - intros ->. cbn. by rw set_at_eq. }
  assert (running a4 ∧ a_engine a4 ≠ ENew) as H4.
  { apply (round_reaches running (λ a, running a ∧ a_engine a ≠ ENew) RunEngine);
      [apply lasting_running|apply lasting_engine| |by apply C4|done|done].
    intros a Ha Hr. split; [eapply lasting_running; [apply (advance_leads RunEngine)|done]|].
    cbn. unfold engine_pass. rw Hr. cbn. by destruct (a_engine a), (a_epod a) as [[]|]. }
  assert (running a5 ∧ a_engine a5 ≠ ENew ∧ a_epod a5 = Some true) as H5.
  { apply (round_reaches (λ a, running a ∧ a_engine a ≠ ENew)
      (λ a, running a ∧ a_engine a ≠ ENew ∧ a_epod a = Some true) StartEnginePod r5 a4); [apply lasting_engine|apply lasting_epod| |by apply C5|done|done].
    intros a Ha [Hr He]. split_and!; [done..|]. cbn.
    pose proof (cs_engine a Ha He). by destruct (a_epod a) as [[]|]. }
  assert (running (advances r6 a5) ∧ a_engine (advances r6 a5) = ERunning) as [H6 H7].
  { apply (round_reaches (λ a, running a ∧ a_engine a ≠ ENew ∧ a_epod a = Some true)
      (λ a, running a ∧ a_engine a = ERunning) RunEngine r6 a5); [apply lasting_epod|apply lasting_done| |by apply C6|done|done].
    intros a Ha (Hr & He & Hp). split; [eapply lasting_running; [apply (advance_leads RunEngine)|done]|].
    cbn. unfold engine_pass. rw Hr Hp. cbn. by destruct (a_engine a). }
  split_and!; [done|by apply advances_consistent|by apply all_ready_spec].
Qed.
End machine.
