(* ===== verification/BringUp.v ===== *)
(** * A volume comes up

    The four reconcilers together, over one API server (Store.v), with agents
    and sidecars that do what they are asked and a kubelet that starts pods.
    The reconciles of replicas and of the engine, and the kubelet, carry out the
    machine of Stages.v step by step; with it, a volume that was created becomes
    Ready. *)
From S2P Require Import Prelude GoStrings GoNet GoJson Sha256 K8s ApiTypes Names Network WireTypes Client MemStore Status AgentClient SidecarClient VolumeNodes VolumeScale PodTemplates VolumeController ReplicaController EngineController Store Stages.

#[local] Arguments obj : simpl never.

(** ** The environment *)
Section environment.
Context {W} (h : handler ctl W) (view : W → store).
Context (rr : ReplicaReconciler) (c : option SidecarStatusClient).
(** The address that the kubelet gives to a pod, and what the sidecar there says. *)
Context (ip : okey → string) (sidecar : string → SidecarStatus) (kubelet : okey → W → W).

Definition up_status (key : okey) : PodStatus := mkPodStatus PodRunning (ip key) [true].
Definition start_pod (key : okey) (s : store) : store :=
  set_objects KPod s
    (alter (λ p, mkPod (pod_meta p) (pod_spec p) (up_status key)) key (objects KPod s)).
(** The agents provision, the sidecars answer, accept reconfigurations and keep what they were
    told, the kubelet starts the pod it is told to start, if there is one; nobody else writes. *)
Class Cooperative : Prop := {
  coop_agent nodeID s : lands h view (choose_agent rr nodeID) s (λ r s', (∃ a, r = Ok a) ∧ s' = s);
  coop_provision a req s : lands h view (CreateReplica a req) s (λ r s', (∃ x, r = Ok x) ∧ s' = s);
  coop_status sc key s : sc = rr_SidecarStatusClient rr ∨ sc = c →
    lands h view (GetStatus (status_client sc) (ip key)) s (λ r s', r = Ok (sidecar (ip key)) ∧ s' = s);
  coop_reconfigure key ras s : lands h view (triggerReconfigure (ip key) ras) s
    (λ r s', r = Ok tt ∧ s' = tell (reconfigureURL (ip key)) (reconfigure_payload ras) s);
  coop_ip key : ip key ≠ "";
  coop_kubelet key w : view (kubelet key w) = start_pod key (view w) }.
End environment.

(** ** The children of a volume on the chosen nodes

    The replica with index [i] is on the node [chosen !! i]; the engine has the
    attachments of the indices [order]. *)
Section children.
Context `{Environ, PodImages} (v : Volume) (chosen : list string) (order : list nat).
Context (ip : okey → string) (sidecar : string → SidecarStatus).
(** The hash of the attachments that the engine was last configured with, or
    nothing for an engine that has not been Running yet. *)
Context (last : string).

Definition count : nat := length chosen.
(** All of them, in order. *)
Definition indices : list nat := seq 0 count.
Definition node_at (i : nat) : string := placed_node v (default "" (chosen !! i)).
Definition is_local (i : nat) : bool := bool_decide (node_at i = vs_NodeID (vol_spec v)).
Definition replica_at (i : nat) : Replica := replica_for v (Z.of_nat i) (node_at i).
Definition replica_name (i : nat) : NamespacedName :=
  mkName (vol_Namespace v) (ReplicaName (vol_Name v) (Z.of_nat i)).
Definition replica_okey (i : nat) : okey := okey_of (replica_name i).
Definition pod_okey (i : nat) : okey :=
  (vol_Namespace v, ReplicaName (vol_Name v) (Z.of_nat i) +:+ "-pod").
Definition engine_pod_okey : okey := (vol_Namespace v, EngineName (vol_Name v) +:+ "-pod").

(** The attachments, as they are made and as they become. *)
Definition first_attachment (i : nat) : ReplicaAttachment := attachment_for v (Z.of_nat i) (node_at i).
Definition export_at (i : nat) : SidecarStatus := sidecar (ip (pod_okey i)).
Definition final_attachment (i : nat) : ReplicaAttachment :=
  if is_local i then ra_set_IsLocal true (first_attachment i)
  else match SplitEndpoint (st_Endpoint (export_at i)) with
       | Ok (host, port) => ra_set_Endpoint (st_ReplicaNQN (export_at i)) host port (first_attachment i)
       | Err _ => first_attachment i
       end.
Definition attachments (final : nat → bool) : list ReplicaAttachment :=
  (λ i, if final i then final_attachment i else first_attachment i) <$> order.
Definition all_final : list ReplicaAttachment := attachments (λ _, true).
Definition engine_at (final : nat → bool) (st : EngineStatus) : Engine :=
  eng_set_status st (engine_for v (attachments final)).
Definition engine_pod_meta : ObjectMeta := pod_meta (engine_pod (engine_for v []) []).
Definition engine_pod_ref : PodReference :=
  mkPodRef (EngineName (vol_Name v) +:+ "-pod") (vol_Namespace v).

(** ** What the server keeps at a stage *)
Definition replica_running (i : nat) (st : ReplicaStatus) : Prop :=
  rst_Phase st = ReplicaPhaseRunning ∧
  (is_local i = false → rst_NQN st = st_ReplicaNQN (export_at i) ∧
                        rst_Endpoint st = st_Endpoint (export_at i)).
Definition pod_at (p : option bool) (key : okey) (m : ObjectMeta) (found : option (obj KPod)) : Prop :=
  match p with
  | None => found = None
  | Some started => ∃ pod, found = Some pod ∧ pod_meta pod = m ∧
      if (started : bool) then pod_status pod = up_status ip key else pst_PodIP (pod_status pod) = ""
  end.
(** The target that the engine's sidecar serves. *)
Definition engine_target : SidecarStatus := sidecar (ip engine_pod_okey).
Definition engine_serves (st : EngineStatus) : Prop :=
  est_Phase st = EnginePhaseRunning ∧ est_Endpoint st = st_Endpoint engine_target ∧
  est_SubsystemNQN st = st_SubsystemNQN engine_target.
Definition engine_status_at (e : estage) (st : EngineStatus) : Prop :=
  match e with
  | ENew => st = zeroEngineStatus
  | EPending => est_PodRef st = Some engine_pod_ref ∧ est_LastReplicasHash st = last
  | EStale => est_PodRef st = Some engine_pod_ref ∧ engine_serves st ∧ est_LastReplicasHash st = last
  | ERunning => est_PodRef st = Some engine_pod_ref ∧ engine_serves st ∧
      est_LastReplicasHash st = replicasHash all_final
  end.
(** An engine that was configured with other attachments has been told the present ones. *)
Definition told_all (s : store) : Prop :=
  last ≠ "" → last ≠ replicasHash all_final →
  s_told s !! reconfigureURL (ip engine_pod_okey) = Some (reconfigure_payload all_final).
Lemma told_all_set k m s : told_all (set_objects k s m) = told_all s.
Proof. unfold told_all. by rw told_set. Qed.
Lemma told_all_keep k key o s : told_all (keep k key o s) = told_all s.
Proof. apply told_all_set. Qed.
Record children_at (stored : Volume) (s : store) (a : stages) : Prop := mkChildren {
  ch_replica i : i < count → ∃ st,
    objects KReplica s !! replica_okey i = Some (rep_set_status st (replica_at i) : obj KReplica) ∧
    if a_running a i then replica_running i st else st = zeroReplicaStatus;
  ch_pod i : i < count →
    pod_at (if is_local i then None else a_pod a i) (pod_okey i) (pod_meta (export_pod (replica_at i)))
      (objects KPod s !! pod_okey i);
  ch_unmade i : count ≤ i →
    objects KReplica s !! replica_okey i = None ∧ objects KPod s !! pod_okey i = None;
  ch_engine_pod : pod_at (a_epod a) engine_pod_okey engine_pod_meta (objects KPod s !! engine_pod_okey);
  ch_volume : objects KVolume s !! meta_okey (vol_meta v) = Some (stored : obj KVolume) }.
Record at_stage (stored : Volume) (s : store) (a : stages) : Prop := mkAtStage {
  as_children : children_at stored s a;
  as_engine : ∃ st, objects KEngine s !! okey_of (engine_key v) = Some (engine_at (a_final a) st : obj KEngine) ∧
    engine_status_at (a_engine a) st;
  as_told : a_engine a = ERunning → told_all s;
  as_first : a_engine a = ENew ∨ a_engine a = EPending → last = "" }.
Definition as_replica stored s a (Ha : at_stage stored s a) := ch_replica _ _ _ (as_children _ _ _ Ha).
Definition as_pod stored s a (Ha : at_stage stored s a) := ch_pod _ _ _ (as_children _ _ _ Ha).
Definition as_engine_pod stored s a (Ha : at_stage stored s a) := ch_engine_pod _ _ _ (as_children _ _ _ Ha).
Definition as_volume stored s a (Ha : at_stage stored s a) := ch_volume _ _ _ (as_children _ _ _ Ha).

(** The sidecars' statuses are ones that the controllers accept. *)
Record accepted : Prop := mkAccepted {
  acc_replica i : i < count → is_local i = false → validateReplicaSidecarStatus (export_at i) = None;
  acc_engine : validateEngineSidecarStatus (sidecar (ip engine_pod_okey)) = None }.

(** *** Keys *)
Lemma replica_okey_inj i j : replica_okey i = replica_okey j → i = j.
Proof. intros [= E]. apply (inj (ReplicaName _)) in E. lia. Qed.
Lemma pod_okey_inj i j : pod_okey i = pod_okey j → i = j.
Proof. intros [= E]. apply string_app_inj_r, (inj (ReplicaName _)) in E. lia. Qed.
Lemma pod_okey_engine i : pod_okey i ≠ engine_pod_okey.
Proof. intros [= E]. apply string_app_inj_r, ReplicaName_EngineName in E; [done|lia]. Qed.

(** *** Updates *)
Implicit Types (s : store) (a : stages) (stored : Volume).
Lemma keep_replica stored s a i st :
  at_stage stored s a → i < count → replica_running i st →
  at_stage stored (keep KReplica (replica_okey i) (rep_set_status st (replica_at i)) s)
    (mkStages (set_at (a_running a) i true) (a_pod a) (a_final a) (a_engine a) (a_epod a)).
Proof.
  intros [[Hr Hp Hu Hep Hv] He Ht Hfst] Hi Hst. split; [split|..]; try (by rw !objects_keep_ne); try (by rw ?told_all_keep).
  - intros j Hj. rw objects_keep. destruct (decide (j = i)) as [->|Hne].
    + exists st. rw lookup_insert_eq. cbn. by rw set_at_eq.
    + rw lookup_insert_ne; [|by intros ?%replica_okey_inj]. cbn. rw set_at_ne //. by apply Hr.
  - intros j Hj. rw objects_keep objects_keep_ne // lookup_insert_ne; [by apply Hu|].
    intros ?%replica_okey_inj. lia.
Qed.
Lemma keep_pod stored s a i pod started :
  at_stage stored s a → i < count → is_local i = false →
  pod_meta pod = pod_meta (export_pod (replica_at i)) →
  (if (started : bool) then pod_status pod = up_status ip (pod_okey i) else pst_PodIP (pod_status pod) = "") →
  at_stage stored (keep KPod (pod_okey i) pod s)
    (mkStages (a_running a) (set_at (a_pod a) i (Some started)) (a_final a) (a_engine a) (a_epod a)).
Proof.
  intros [[Hr Hp Hu Hep Hv] He Ht Hfst] Hi Hloc Hm Hst. split; [split|..]; try (by rw !objects_keep_ne); try (by rw ?told_all_keep).
  - intros j Hj. rw objects_keep. destruct (decide (j = i)) as [->|Hne].
    + rw lookup_insert_eq Hloc. cbn. rw set_at_eq. by exists pod.
    + rw lookup_insert_ne; [|by intros ?%pod_okey_inj]. cbn. rw set_at_ne //. by apply Hp.
  - intros j Hj. rw objects_keep objects_keep_ne // lookup_insert_ne; [by apply Hu|].
    intros ?%pod_okey_inj. lia.
  - rw objects_keep lookup_insert_ne; [done|apply pod_okey_engine].
Qed.
Lemma keep_engine_pod stored s a pod started :
  at_stage stored s a → pod_meta pod = engine_pod_meta →
  (if (started : bool) then pod_status pod = up_status ip engine_pod_okey else pst_PodIP (pod_status pod) = "") →
  at_stage stored (keep KPod engine_pod_okey pod s)
    (mkStages (a_running a) (a_pod a) (a_final a) (a_engine a) (Some started)).
Proof.
  intros [[Hr Hp Hu Hep Hv] He Ht Hfst] Hm Hst. split; [split|..]; try (by rw !objects_keep_ne); try (by rw ?told_all_keep).
  - intros j Hj. rw objects_keep lookup_insert_ne; [by apply Hp|]. intros E. by destruct (pod_okey_engine j).
  - intros j Hj. rw objects_keep objects_keep_ne // lookup_insert_ne; [by apply Hu|].
    intros E. by destruct (pod_okey_engine j).
  - rw objects_keep lookup_insert_eq. by exists pod.
Qed.
Lemma keep_engine stored s a final st e :
  at_stage stored s a → engine_status_at e st →
  (e = ERunning → told_all s) → (e = ENew ∨ e = EPending → last = "") →
  at_stage stored (keep KEngine (okey_of (engine_key v)) (engine_at final st) s)
    (mkStages (a_running a) (a_pod a) final e (a_epod a)).
Proof.
  intros [[Hr Hp Hu Hep Hv] He Ht Hfst] Hst Htold Hfirst. split; [split|..]; try (by rw !objects_keep_ne);
    try (by rw ?told_all_keep).
  exists st. by rw objects_keep lookup_insert_eq.
Qed.
Lemma keep_volume stored stored' s a :
  at_stage stored s a → at_stage stored' (keep KVolume (meta_okey (vol_meta v)) stored' s) a.
Proof.
  intros [[Hr Hp Hu Hep Hv] He Ht Hfst]. split; [split|..]; try (by rw !objects_keep_ne); try (by rw ?told_all_keep).
  by rw objects_keep lookup_insert_eq.
Qed.
End children.
#[global] Arguments as_children {_ _ _ _ _ _ _ _ _ _ _} _.
#[global] Arguments as_engine {_ _ _ _ _ _ _ _ _ _ _} _.
#[global] Arguments as_replica {_ _ _ _ _ _ _ _ _ _ _} _.
#[global] Arguments as_pod {_ _ _ _ _ _ _ _ _ _ _} _.
#[global] Arguments as_engine_pod {_ _ _ _ _ _ _ _ _ _ _} _.
#[global] Arguments as_told {_ _ _ _ _ _ _ _ _ _ _} _.
#[global] Arguments as_first {_ _ _ _ _ _ _ _ _ _ _} _.
#[global] Arguments as_volume {_ _ _ _ _ _ _ _ _ _ _} _.

(** ** The passes *)
Section passes.
Context `{Environ, PodImages} {W} (h : handler ctl W) (view : W → store) `{!ApiServer h view}.
Context (rr : ReplicaReconciler) (c : option SidecarStatusClient).
Context (ip : okey → string) (sidecar : string → SidecarStatus) (kubelet : okey → W → W).
Context `{!Cooperative h view rr c ip sidecar kubelet} (v : Volume) (chosen : list string) (order : list nat).
Context (last : string).
Context (Horder : order ≡ₚ seq 0 (count chosen)) (Hacc : accepted v chosen ip sidecar).
Abbreviation Lands := (lands h view).
Abbreviation Count := (count chosen).
Abbreviation IsLocal := (is_local v chosen).
Abbreviation AtStage := (at_stage v chosen order ip sidecar last).
Abbreviation Told := (told_all v chosen order ip sidecar last).
Implicit Types (s : store) (a : stages) (stored : Volume) (i : nat).

(** *** A pass of the replica controller *)
Lemma replica_type i :
  rs_Type (rep_spec (replica_at v chosen i)) = if IsLocal i then ReplicaTypeLocal else ReplicaTypeRemote.
Proof. done. Qed.
Lemma lands_replica_pod i s (st : ReplicaStatus) p (Q : result (option Pod) → store → Prop) :
  pod_at ip p (pod_okey v i) (pod_meta (export_pod (replica_at v chosen i))) (objects KPod s !! pod_okey v i) →
  match p with
  | None => Q (Ok None) s
  | Some started => ∀ pod, pst_PodIP (pod_status pod) = (if (started : bool) then ip (pod_okey v i) else "") →
      Q (Ok (Some pod)) s
  end →
  Lands (replicaPod (rep_set_status st (replica_at v chosen i))) s Q.
Proof.
  intros Hp HQ. unfold replicaPod. lands_step. apply lands_get; [done|].
  change (okey_of (replica_pod_key _)) with (pod_okey v i).
  destruct p as [started|]; cbn in Hp.
  - destruct Hp as (pod & -> & _ & Hst). intros r ->. lands_steps. apply HQ.
    destruct started; [by rw Hst|done].
  - rw Hp. intros r (e & -> & He). rw He. by lands_steps.
Qed.
Definition run_replica a i : stages :=
  mkStages (set_at (a_running a) i true) (a_pod a) (a_final a) (a_engine a) (a_epod a).
Lemma lands_replica_running stored s a i st :
  AtStage stored s a → i < Count →
  (IsLocal i = false → rst_NQN st = st_ReplicaNQN (export_at v ip sidecar i) ∧
                       rst_Endpoint st = st_Endpoint (export_at v ip sidecar i)) →
  Lands (ReplicaController.publish_running (rep_set_status st (replica_at v chosen i))) s
    (λ _ s', AtStage stored s' (run_replica a i)).
Proof.
  intros Ha Hi Hst. unfold ReplicaController.publish_running. lands_steps.
  destruct (as_replica Ha i Hi) as (st0 & Hf & _).
  eapply lands_status; [exact _|exact Hf|].
  by apply (keep_replica v chosen order ip sidecar last stored s a i).
Qed.
(** What the server keeps depends on the entries of the stages only. *)
Record same_stages a a' : Prop := mkSame {
  ss_running i : a_running a i = a_running a' i; ss_pod i : a_pod a i = a_pod a' i;
  ss_final i : a_final a i = a_final a' i; ss_engine : a_engine a = a_engine a';
  ss_epod : a_epod a = a_epod a' }.
Lemma at_stage_same stored s a a' : same_stages a a' → AtStage stored s a → AtStage stored s a'.
Proof.
  intros [H1 H2 H3 H4 H5] [[Hr Hp Hu Hep Hv] (st & He & Hst) Ht Hfst]. split; [split|..]; [..|by rw -H4|by rw -H4].
  - intros i. rw -H1. apply Hr.
  - intros i. rw -H2. apply Hp.
  - exact Hu.
  - by rw -H5.
  - done.
  - exists st. rw -H4. split; [|done]. rw He. unfold engine_at, attachments. do 3 f_equal.
    apply list_fmap_ext. intros _ i _. by rw H3.
Qed.
Lemma set_at_same {A} (f : nat → A) i j x : f i = x → set_at f i x j = f j.
Proof. intros <-. unfold set_at. by case_decide; [subst|]. Qed.

Lemma lands_reconcile_local stored s a i st :
  AtStage stored s a → i < Count → IsLocal i = true →
  Lands (reconcile_local (rep_set_status st (replica_at v chosen i))) s
    (λ _ s', AtStage stored s' (run_replica a i)).
Proof.
  intros Ha Hi Hloc. unfold reconcile_local. lands_steps.
  pose proof (as_pod Ha i Hi) as Hp. rw Hloc in Hp.
  eapply lands_replica_pod; [exact Hp|]. lands_steps.
  eapply (lands_replica_running stored s a i (rst_set_Export "" "" st)); [done..|]. by rw Hloc.
Qed.

(** After its pod was asked for. *)
Definition make_pod a i : stages :=
  mkStages (a_running a) (set_at (a_pod a) i (Some (default false (a_pod a i)))) (a_final a)
    (a_engine a) (a_epod a).
Lemma at_stage_pod stored s a i p :
  p = a_pod a i → AtStage stored s a →
  AtStage stored s (mkStages (a_running a) (set_at (a_pod a) i p) (a_final a) (a_engine a) (a_epod a)).
Proof. intros ->. apply at_stage_same. split; try done. intros j. cbn. by rw set_at_same. Qed.
Lemma lands_make_pod stored s a i st :
  AtStage stored s a → i < Count → IsLocal i = false →
  Lands (createIfMissing KPod (export_pod (rep_set_status st (replica_at v chosen i)))) s
    (λ r s', r = Ok tt ∧ AtStage stored s' (make_pod a i)).
Proof.
  intros Ha Hi Hloc. apply lands_create_if_missing; [done|]. split; [done|].
  pose proof (as_pod Ha i Hi) as Hp. rw Hloc in Hp.
  change (meta_okey _) with (pod_okey v i). unfold make_pod.
  destruct (a_pod a i) as [started|] eqn:Hpod.
  - destruct Hp as (pod & Hf & _). rw Hf. by apply at_stage_pod.
  - rw Hp. by apply (keep_pod v chosen order ip sidecar last stored s a i).
Qed.
Lemma lands_reconcile_remote stored s a i st :
  AtStage stored s a → i < Count → IsLocal i = false →
  Lands (reconcile_remote rr (rep_set_status st (replica_at v chosen i))) s
    (λ _ s', AtStage stored s' (replica_pass IsLocal i a)).
Proof.
  intros Ha Hi Hloc. unfold reconcile_remote. lands_step.
  eapply lands_mono; [by apply lands_make_pod|]. intros r s1 [-> Ha1]. lands_step.
  pose proof (as_pod Ha1 i Hi) as Hp. rw Hloc in Hp. cbn in Hp. rw set_at_eq in Hp.
  eapply lands_replica_pod; [exact Hp|]. intros pod Hip. cbv zeta. rw Hip.
  unfold replica_pass. rw Hloc. destruct (a_pod a i) as [[]|] eqn:Hpod; cbn [default].
  - rw bool_decide_false; [|eapply coop_ip; exact _]. lands_step.
    eapply lands_mono; [eapply coop_status; [exact _|by left]|]. intros r s' [-> ->]. cbn beta iota.
    pose proof (acc_replica _ _ _ _ Hacc i Hi Hloc) as Hval. unfold export_at in Hval. rw Hval. lands_steps.
    eapply lands_mono; [by apply (lands_replica_running stored s1 (make_pod a i) i
      (rst_set_Conditions _ (rst_set_Export _ _ st)))|].
    intros ? s2. apply at_stage_same. split; try done. intros j. cbn. apply set_at_same. by rw Hpod.
  - rw bool_decide_true //. lands_steps. revert Ha1. apply at_stage_same.
    split; try done. intros j. cbn. apply set_at_same. by rw Hpod.
  - rw bool_decide_true //. lands_steps. revert Ha1. apply at_stage_same.
    split; try done. intros j. cbn. by rw Hpod.
Qed.
Lemma lands_provision stored s a i st :
  AtStage stored s a → i < Count →
  Lands (provision rr (rep_set_status st (replica_at v chosen i))) s
    (λ _ s', AtStage stored s' (replica_pass IsLocal i a)).
Proof.
  intros Ha Hi. unfold provision. lands_step.
  eapply lands_mono; [eapply coop_agent; exact _|]. intros r s' [[agent ->] ->]. lands_step.
  assert (∀ Q, (∀ path, Q path s) → Lands (snapshot_path (rep_set_status st (replica_at v chosen i))) s Q) as Hsnap.
  { intros Q HQ. unfold snapshot_path. case_bool_decide; lands_steps; [|done].
    apply (lands_get _ _ KSnapshot). intros [snap|e] _; by lands_steps. }
  apply Hsnap. intros path. lands_step.
  eapply lands_mono; [eapply coop_provision; exact _|]. intros r s' [[x ->] ->]. cbn beta iota.
  change (rs_Type (rep_spec (rep_set_status st (replica_at v chosen i))))
    with (if IsLocal i then ReplicaTypeLocal else ReplicaTypeRemote).
  destruct (IsLocal i) eqn:Hloc.
  - rw bool_decide_false //. eapply lands_mono; [by eapply lands_reconcile_local|].
    intros ? s'. unfold replica_pass. by rw Hloc.
  - rw bool_decide_true //. by apply lands_reconcile_remote.
Qed.
Lemma lands_replica stored s a i :
  AtStage stored s a → consistent Count IsLocal a → i < Count →
  Lands (ReplicaController.Reconcile rr (replica_name v i)) s
    (λ _ s', AtStage stored s' (replica_pass IsLocal i a)).
Proof.
  intros Ha Hc Hi. unfold ReplicaController.Reconcile. lands_step.
  destruct (as_replica Ha i Hi) as (st & Hf & Hst).
  apply (lands_get_some _ _ KReplica _ _ _ _ Hf). cbn beta iota.
  change (rep_spec (rep_set_status st (replica_at v chosen i))) with (rep_spec (replica_at v chosen i)).
  rw replica_type. destruct (IsLocal i) eqn:Hloc.
  { rw (bool_decide_false (ReplicaTypeLocal = _)) // andb_false_r. by apply lands_provision. }
  case_bool_decide as Hph; cbn [andb]; [|by apply lands_provision].
  destruct (a_running a i) eqn:Hrun; [|by rw Hst in Hph].
  pose proof (cs_pod _ _ _ Hc i Hloc Hrun) as Hpod.
  pose proof (as_pod Ha i Hi) as Hp. rw Hloc Hpod in Hp. rw bool_decide_true //. lands_step.
  eapply lands_replica_pod; [exact Hp|]. intros pod Hip. cbn beta iota. rw Hip.
  rw bool_decide_true; [|eapply coop_ip; exact _]. lands_steps. revert Ha. apply at_stage_same.
  unfold replica_pass. rw Hloc Hpod. split; try done. intros j. cbn. by rw set_at_same.
Qed.

(** *** A pass of the engine controller *)
Abbreviation First := (first_attachment v chosen).
Abbreviation Final := (final_attachment v chosen ip sidecar).
Abbreviation EngineAt := (engine_at v chosen order ip sidecar).
Definition attached (final : nat → bool) i : ReplicaAttachment := if final i then Final i else First i.
Definition finals a i : bool := a_final a i || IsLocal i || a_running a i.

Lemma attached_name final i : ra_Name (attached final i) = ReplicaName (vol_Name v) (Z.of_nat i).
Proof.
  unfold attached, final_attachment. destruct (final i), (IsLocal i); try done.
  by destruct (SplitEndpoint _) as [[]|].
Qed.
Lemma accepted_export i :
  i < Count → IsLocal i = false → let x := export_at v ip sidecar i in
  st_ReplicaNQN x ≠ "" ∧ ∃ host port, SplitEndpoint (st_Endpoint x) = Ok (host, port).
Proof.
  intros Hi Hloc. cbv zeta.
  destruct (proj1 (validateReplica_spec _) (acc_replica _ _ _ _ Hacc i Hi Hloc)) as (_ & Hn & _ & host & port & Hs & _).
  split; [|eauto]. intros E. by rw E in Hn.
Qed.
(** The pod of a running remote replica is in the list. *)
Lemma lands_pod_found stored s a i st (Q : option Pod → store → Prop) :
  AtStage stored s a → i < Count → IsLocal i = false → a_pod a i = Some true →
  (∀ pod, Q (Some pod) s) → Lands (getReplicaPod (rep_set_status st (replica_at v chosen i))) s Q.
Proof.
  intros Ha Hi Hloc Hpod HQ. unfold getReplicaPod. lands_step. apply (lands_list _ _ KPod). intros l Hl.
  cbn beta iota. lands_step.
  pose proof (as_pod Ha i Hi) as Hp. rw Hloc Hpod in Hp. destruct Hp as (pod & Hf & Hm & _).
  match goal with |- context [list_find ?P l] => destruct (list_find P l) as [[j q]|] eqn:Hfind end;
    [lands_steps; apply HQ|].
  exfalso. apply list_find_None in Hfind. rw Forall_forall in Hfind. apply (Hfind pod).
  - rw Hl. apply (proj2 (listing_spec KPod _ _ _ pod)). split_and!; [| |by eexists].
    + cbn. rw Hm. cbn. by rw bool_decide_true.
    + change (obj_meta KPod pod) with (pod_meta pod). rw Hm. vm_compute. reflexivity.
  - by rw Hm.
Qed.
Lemma lands_attachment stored s a i final st :
  AtStage stored s a → consistent Count IsLocal a → i < Count →
  Lands (attachment_status (EngineAt final st) (attached (a_final a) i)) s
    (λ r s', r = Ok (Some (attached (finals a) i, a_running a i)) ∧ s' = s).
Proof.
  intros Ha Hc Hi. unfold attachment_status.
  rw attached_name. lands_step. destruct (as_replica Ha i Hi) as (rst & Hf & Hst).
  apply (lands_get_some _ _ KReplica _ _ _ _ Hf). cbn beta iota zeta.
  change (bool_decide (rs_NodeID (rep_spec (rep_set_status rst (replica_at v chosen i))) =
    es_NodeID (eng_spec (EngineAt final st)))) with (IsLocal i).
  destruct (IsLocal i) eqn:Hloc.
  - lands_steps. split; [|done]. do 3 f_equal.
    + unfold attached, finals, final_attachment. rw Hloc orb_true_r. by destruct (a_final a i).
    + change (rep_status (rep_set_status rst _)) with rst.
      destruct (a_running a i); [destruct Hst as [-> _]|rw Hst]; done.
  - lands_step. destruct (a_running a i) eqn:Hrun.
    + pose proof (cs_pod _ _ _ Hc i Hloc Hrun) as Hpod. destruct Hst as [Hph He].
      destruct (He Hloc) as [Hn Hend]. destruct (accepted_export i Hi Hloc) as (Hnqn & host & port & Hsplit).
      apply (lands_pod_found stored s a i rst); [done..|]. intros pod. cbn beta iota.
      change (rep_status (rep_set_status rst _)) with rst. rw Hph Hn Hend Hsplit.
      rw (bool_decide_false (ReplicaPhaseRunning ≠ _)); [|by intros []].
      rw (bool_decide_false (st_ReplicaNQN _ = "")) //. lands_steps. split; [|done]. do 3 f_equal.
      unfold attached, finals, final_attachment. rw Hloc Hsplit Hrun orb_true_r.
      by destruct (a_final a i).
    + assert (∀ Q, (∀ p, Q p s) → Lands (getReplicaPod (rep_set_status rst (replica_at v chosen i))) s Q) as Hget.
      { intros Q HQ. unfold getReplicaPod. lands_step. apply (lands_list _ _ KPod). intros l _. by lands_steps. }
      apply Hget. intros p. rw Hst. lands_steps. split; [|done]. do 3 f_equal.
      unfold attached, finals. rw Hloc Hrun !orb_false_r.
      destruct (a_final a i); [|done]. unfold final_attachment. rw Hloc. by destruct (SplitEndpoint _) as [[]|].
Qed.
Lemma lands_attachments stored s a final st l acc all :
  AtStage stored s a → consistent Count IsLocal a → Forall (λ i, i < Count) l →
  Lands (attachments_status (EngineAt final st) (attached (a_final a) <$> l) acc all) s
    (λ r s', r = Ok (Some (acc ++ (attached (finals a) <$> l), all && forallb (a_running a) l)) ∧ s' = s).
Proof.
  intros Ha Hc Hl. revert acc all. induction Hl as [|i l Hi _ IH]; intros acc all; cbn [fmap list_fmap attachments_status].
  - lands_steps. by rw app_nil_r andb_true_r.
  - lands_step. eapply lands_mono; [by eapply lands_attachment|]. intros r s' [-> ->]. cbn beta iota.
    eapply lands_mono; [apply IH|]. intros r s' [-> ->]. cbn [forallb]. by rw -app_assoc andb_assoc.
Qed.
Lemma in_order i : i ∈ order ↔ i < Count.
Proof. rw Horder elem_of_seq. lia. Qed.
Lemma order_valid : Forall (λ i, i < Count) order.
Proof. apply Forall_forall. intros i. apply in_order. Qed.
Lemma order_ready a : forallb (a_running a) order = all_ready Count a.
Proof.
  apply eq_true_iff_eq. rw all_ready_spec forallb_forall. split.
  - intros Hr i Hi. by apply Hr, list_elem_of_In, in_order.
  - intros Hr i Hi%list_elem_of_In. by apply Hr, in_order.
Qed.
Definition with_finals a : stages :=
  mkStages (a_running a) (a_pod a) (finals a) (a_engine a) (a_epod a).
Lemma lands_replicaStatus stored s a st :
  AtStage stored s a → consistent Count IsLocal a →
  objects KEngine s !! okey_of (engine_key v) = Some (EngineAt (a_final a) st : obj KEngine) →
  engine_status_at v chosen order ip sidecar last (a_engine a) st →
  Lands (replicaStatus (EngineAt (a_final a) st)) s
    (λ r s', r = Ok (all_ready Count a, EngineAt (finals a) st) ∧ AtStage stored s' (with_finals a) ∧
             objects KEngine s' !! okey_of (engine_key v) = Some (EngineAt (finals a) st : obj KEngine)).
Proof.
  intros Ha Hc Hf Hst. unfold replicaStatus. lands_step.
  eapply lands_mono; [apply (lands_attachments stored s a (a_final a) st order [] true); [done|done|apply order_valid]|].
  intros r s' [-> ->]. cbn beta iota. rw app_nil_l andb_true_l order_ready. case_bool_decide as Hch.
  - lands_step. eapply (lands_update _ _ KEngine); [exact Hf|]. lands_steps. split; [done|]. split.
    + exact (keep_engine v chosen order ip sidecar last stored s a (finals a) st (a_engine a) Ha Hst (as_told Ha) (as_first Ha)).
    + by rw objects_keep lookup_insert_eq.
  - lands_steps.
    assert (EngineAt (a_final a) st = EngineAt (finals a) st) as Heq.
    { unfold engine_at. do 2 f_equal. exact (eq_sym Hch). }
    rw Heq in Hf. rw Heq. split; [done|]. split; [|done].
    destruct Ha as [[Hr Hp Hu Hep Hv] _ Ht Hfst]. split; [by split|by exists st|done..].
Qed.
Lemma lands_create_pod stored s a final st :
  AtStage stored s a → a_engine a = ENew → a_final a = final → st = zeroEngineStatus →
  objects KEngine s !! okey_of (engine_key v) = Some (EngineAt final st : obj KEngine) →
  Lands (create_pod (EngineAt final st)) s
    (λ _ s', AtStage stored s' (mkStages (a_running a) (a_pod a) (a_final a) EPending (Some (default false (a_epod a))))).
Proof.
  intros Ha He <- -> Hf. unfold create_pod. lands_step. unfold allowedHosts. lands_step.
  apply (lands_list _ _ KNode). intros nodes _. lands_steps.
  set (pod := engine_pod _ _).
  assert (∀ s' epod, AtStage stored s' (mkStages (a_running a) (a_pod a) (a_final a) ENew epod) →
    objects KEngine s' !! okey_of (engine_key v) = Some (EngineAt (a_final a) zeroEngineStatus : obj KEngine) →
    Lands (conds ← SetTrue (est_Conditions (est_set_Phase EnginePhasePending (est_set_PodRef
              (Some (mkPodRef (om_Name (pod_meta pod)) (om_Namespace (pod_meta pod)))) zeroEngineStatus)))
              EngineConditionPodScheduled "PodCreated" "engine pod was created";
           finish (kStatusUpdate KEngine (eng_set_status (est_set_Conditions conds
              (est_set_Phase EnginePhasePending (est_set_PodRef
              (Some (mkPodRef (om_Name (pod_meta pod)) (om_Namespace (pod_meta pod)))) zeroEngineStatus)))
              (EngineAt (a_final a) zeroEngineStatus)))) s'
      (λ _ s', AtStage stored s' (mkStages (a_running a) (a_pod a) (a_final a) EPending epod))) as Hcreated.
  { intros s' epod Ha' Hf'. lands_steps. eapply (lands_status _ _ KEngine); [exact Hf'|].
    refine (keep_engine v chosen order ip sidecar last stored s' _ (a_final a) _ EPending Ha' _ _ _); [|done|]; intros; rw (as_first Ha) //; by left. }
  pose proof (as_engine_pod Ha) as Hp. 
  apply (lands_create _ _ KPod). change (meta_okey (obj_meta KPod pod)) with (engine_pod_okey v).
  destruct (a_epod a) as [started|] eqn:Hep.
  - destruct Hp as (pod' & -> & _). intros e ->. apply Hcreated; [|done].
    revert Ha. by apply at_stage_same; split.
  - rw Hp. apply Hcreated.
    + rw -He. by apply (keep_engine_pod v chosen order ip sidecar last stored s a pod false).
    + by rw objects_keep_ne.
Qed.
Lemma lands_bdev_parts namespace ras acc s (Q : list string → store → Prop) :
  (∀ parts, Q parts s) → Lands (bdev_parts namespace ras acc) s Q.
Proof.
  intros HQ. revert acc. induction ras as [|ra ras IH]; intros acc; cbn [bdev_parts]; lands_step; [done|].
  apply (lands_get _ _ KReplica). intros [rep|e] _; apply IH.
Qed.
(** The sidecar of the engine is told all its attachments. *)
Abbreviation told_now := (tell (reconfigureURL (ip (engine_pod_okey v))) (reconfigure_payload (all_final v chosen order ip sidecar))).
Lemma told_now_all s : Told (told_now s).
Proof. intros _ _. rw told_tell. apply lookup_insert_eq. Qed.
Lemma at_stage_told stored s a : AtStage stored s a → AtStage stored (told_now s) a.
Proof.
  intros [[Hr Hp Hu Hep Hv] He _ Hfst]. split; [split|..]; try (by rw objects_tell); try done.
  - intros i Hi. rw !objects_tell. by apply Hu.
  - intros _. apply told_now_all.
Qed.
Lemma lands_engine_running stored s a st st' :
  AtStage stored s a →
  objects KEngine s !! okey_of (engine_key v) = Some (EngineAt (a_final a) st : obj KEngine) →
  (∀ i, i < Count → a_final a i = true) → est_PodRef st' = Some (engine_pod_ref v) →
  est_LastReplicasHash st' = last ∨
    est_LastReplicasHash st' = replicasHash (all_final v chosen order ip sidecar) ∧ Told s →
  Lands (configure (EngineAt (a_final a) st') (ip (engine_pod_okey v)) (engine_target v ip sidecar)) s
    (λ _ s', AtStage stored s' (mkStages (a_running a) (a_pod a) (a_final a) ERunning (a_epod a))).
Proof.
  intros Ha Hf Hfin Href Hhash. unfold configure. cbv zeta.
  assert (eng_Replicas (EngineAt (a_final a) st') = all_final v chosen order ip sidecar) as Hall.
  { cbn. unfold all_final, attachments. apply list_fmap_ext. intros k i Hi%list_elem_of_lookup_2%in_order. by rw Hfin. }
  change (eng_Replicas (eng_set_status ?x (EngineAt (a_final a) st'))) with (eng_Replicas (EngineAt (a_final a) st')).
  rw Hall. change (est_LastReplicasHash (eng_status (eng_set_status _ _))) with (est_LastReplicasHash st').
  set (engine := eng_set_status _ _).
  assert (∀ s', AtStage stored s' a → objects KEngine s' = objects KEngine s → Told s' →
    Lands (EngineController.publish_running engine (replicasHash (all_final v chosen order ip sidecar))) s'
    (λ _ s', AtStage stored s' (mkStages (a_running a) (a_pod a) (a_final a) ERunning (a_epod a)))) as Hpublish.
  { intros s' Ha' Heq Htold. unfold EngineController.publish_running. lands_steps. apply lands_bdev_parts. intros parts. lands_steps.
    eapply (lands_status _ _ KEngine); [rw Heq; exact Hf|].
    refine (keep_engine v chosen order ip sidecar last stored s' a (a_final a) _ ERunning Ha' _ _ _); [done..|].
    by intros []. }
  destruct (bool_decide (est_LastReplicasHash st' ≠ _) && _) eqn:Hcase.
  - lands_step. eapply lands_mono; [eapply coop_reconfigure; exact _|]. intros r s' [-> ->]. cbn beta iota.
    apply Hpublish; [by apply at_stage_told|apply objects_tell|apply told_now_all].
  - apply Hpublish; [done|done|]. destruct Hhash as [Hlast|[_ Htold]]; [|done]. intros Hne Hne'. exfalso.
    rw Hlast in Hcase. by rw !bool_decide_true in Hcase.
Qed.
Lemma lands_observe stored s a st :
  AtStage stored s a → a_engine a ≠ ENew → a_epod a ≠ None →
  objects KEngine s !! okey_of (engine_key v) = Some (EngineAt (a_final a) st : obj KEngine) →
  engine_status_at v chosen order ip sidecar last (a_engine a) st → (∀ i, i < Count → a_final a i = true) →
  Lands (observe c (EngineAt (a_final a) st)) s
    (λ _ s', AtStage stored s' (mkStages (a_running a) (a_pod a) (a_final a)
      (if a_epod a is Some true then ERunning else a_engine a) (a_epod a))).
Proof.
  intros Ha He Hep Hf Hst Hfin. unfold observe. lands_step. unfold getEnginePodInfo.
  assert (est_PodRef st = Some (engine_pod_ref v)) as Href by (by destruct (a_engine a); [done|apply Hst..]).
  change (est_PodRef (eng_status (EngineAt (a_final a) st))) with (est_PodRef st). rw Href. lands_step.
  pose proof (as_engine_pod Ha) as Hp.
  destruct (a_epod a) as [started|] eqn:Hpod; [|done]. destruct Hp as (pod & Hfound & _ & Hup).
  eapply (lands_get_some _ _ KPod); [exact Hfound|]. lands_steps. cbn [negb]. destruct started.
  - assert (ip (engine_pod_okey v) ≠ "") as Hip by (eapply coop_ip; exact _).
    rw Hup. change (pst_PodIP (up_status ip (engine_pod_okey v))) with (ip (engine_pod_okey v)).
    rw (bool_decide_true (ip _ ≠ "")) //. rw (bool_decide_false (ip _ = "")) //.
    rw (bool_decide_false (length _ = 0)) //. cbn [negb andb up_status pst_ContainerReady forallb id]. lands_step.
    eapply lands_mono; [eapply coop_status; [exact _|by right]|]. intros r s' [-> ->]. cbn beta iota.
    rw (acc_engine _ _ _ _ Hacc).
    eapply lands_mono; [apply (lands_engine_running stored s a st); [done..|]|].
    + destruct (a_engine a) eqn:Heng; [done|left; apply Hst|left; apply Hst|right; split; [apply Hst|exact (as_told Ha Heng)]].
    + intros ? s'. by rw Hpod.
  - rw Hup. rw (bool_decide_false ("" ≠ "")); [|by intros []]. cbn. case_bool_decide; cbn; lands_steps;
      (revert Ha; apply at_stage_same; by split).
Qed.
Lemma lands_engine stored s a :
  AtStage stored s a → consistent Count IsLocal a →
  Lands (EngineController.Reconcile c (engine_key v)) s
    (λ _ s', AtStage stored s' (engine_pass Count IsLocal a)).
Proof.
  intros Ha Hc. unfold EngineController.Reconcile. lands_step.
  destruct (as_engine Ha) as (st & Hf & Hst).
  apply (lands_get_some _ _ KEngine _ _ _ _ Hf). cbn beta iota. lands_step.
  eapply lands_mono; [by apply lands_replicaStatus|]. intros r s' (-> & Ha' & Hf'). cbn beta iota.
  change (est_PodRef (eng_status (EngineAt (finals a) st))) with (est_PodRef st). unfold engine_pass.
  change (λ i, a_final a i || IsLocal i || ready a i) with (finals a). cbv zeta.
  destruct (all_ready Count a) eqn:Hall; cbn [negb].
  2: { by destruct (est_PodRef st); lands_steps. }
  assert (∀ i, i < Count → finals a i = true) as Hfin.
  { intros i Hi. unfold finals. rw (proj1 (all_ready_spec _ a) Hall i Hi). by rw orb_true_r. }
  destruct (a_engine a) eqn:He.
  { rw Hst. cbn [est_PodRef zeroEngineStatus]. rw Hst in Hf'.
    by apply (lands_create_pod stored s' (with_finals a) (finals a)). }
  all: rw (proj1 Hst); eapply lands_mono; [apply (lands_observe stored s' (with_finals a) st); cbn; rw ?He; try done|].
  all: first [by apply (cs_engine _ _ _ Hc); rw He|intros ? s2; cbn; rw He; by destruct (a_epod a) as [[]|]].
Qed.

(** *** The kubelet *)
Lemma pod_at_started p key m found :
  pod_at ip p key m found →
  pod_at ip (start p) key m ((λ p, mkPod (pod_meta p) (pod_spec p) (up_status ip key)) <$> found).
Proof.
  destruct p as [started|]; [|by intros ->]. intros (pod & -> & Hm & _). by eexists.
Qed.
Lemma started_replica_pod stored s a i :
  AtStage stored s a → i < Count → AtStage stored (start_pod ip (pod_okey v i) s) (start_replica_pod i a).
Proof.
  intros [[Hr Hp Hu Hep Hv] He Ht Hfst] Hi. unfold start_pod. split; [split|..]; try (by rw objects_set_ne); try (by rw ?told_all_set).
  - intros j Hj. rw objects_set. specialize (Hp j Hj). destruct (decide (j = i)) as [->|Hne].
    + rw lookup_alter_eq. cbn. rw set_at_eq. apply pod_at_started in Hp. by destruct (IsLocal i).
    + rw lookup_alter_ne; [|by intros ?%pod_okey_inj]. cbn. by rw set_at_ne.
  - intros j Hj. rw objects_set objects_set_ne // lookup_alter_ne; [by apply Hu|]. intros ?%pod_okey_inj. lia.
  - rw objects_set lookup_alter_ne; [done|apply pod_okey_engine].
Qed.
Lemma started_engine_pod stored s a :
  AtStage stored s a → AtStage stored (start_pod ip (engine_pod_okey v) s) (start_engine_pod a).
Proof.
  intros [[Hr Hp Hu Hep Hv] He Ht Hfst]. unfold start_pod. split; [split|..]; try (by rw objects_set_ne); try (by rw ?told_all_set).
  - intros j Hj. rw objects_set lookup_alter_ne; [by apply Hp|]. intros E. by destruct (pod_okey_engine v j).
  - intros j Hj. rw objects_set objects_set_ne // lookup_alter_ne; [by apply Hu|].
    intros E. by destruct (pod_okey_engine v j).
  - rw objects_set lookup_alter_eq. by apply pod_at_started.
Qed.

(** *** Any sequence of passes *)
Definition after {A} (p : M A) (w : W) : W := (run h p w).2.
Definition perform (st : step) (w : W) : W :=
  match st with
  | RunReplica i => after (ReplicaController.Reconcile rr (replica_name v i)) w
  | RunEngine => after (EngineController.Reconcile c (engine_key v)) w
  | StartReplicaPod i => kubelet (pod_okey v i) w
  | StartEnginePod => kubelet (engine_pod_okey v) w
  end.
Definition performs (l : list step) (w : W) : W := fold_left (λ w st, perform st w) l w.
Lemma performs_stages stored l w a :
  Forall (valid Count) l → consistent Count IsLocal a → AtStage stored (view w) a →
  AtStage stored (view (performs l w)) (advances Count IsLocal l a).
Proof.
  intros Hl. revert w a. induction Hl as [|st l Hst _ IH]; intros w a Hc Ha; [done|].
  cbn. apply IH; [by apply advance_consistent|]. destruct st as [i| |i|]; cbn in *.
  - by apply (lands_replica stored (view w) a i).
  - by apply (lands_engine stored (view w) a).
  - erewrite coop_kubelet; [|exact _]. by apply started_replica_pod.
  - erewrite coop_kubelet; [|exact _]. by apply started_engine_pod.
Qed.

(** *** The volume when all its children run *)

(** A pass wrote the phase and the conditions of the volume at most. *)
Definition kept_volume (stored stored' : Volume) : Prop :=
  vol_meta stored' = vol_meta stored ∧ vol_spec stored' = vol_spec stored ∧
  vst_EngineRef (vol_status stored') = vst_EngineRef (vol_status stored).
Definition serving (e : estage) : Prop := e = ERunning ∨ e = EStale.
Lemma serving_phase e st :
  serving e → engine_status_at v chosen order ip sidecar last e st → est_Phase st = EnginePhaseRunning.
Proof. intros [->| ->] (_ & Hst); apply Hst. Qed.
Lemma engine_key_meta v1 v2 : vol_meta v1 = vol_meta v2 → engine_key v1 = engine_key v2.
Proof. unfold engine_key, vol_Namespace, vol_Name. by intros ->. Qed.
Lemma lands_replicas_running stored s a namespace final l (Q : result bool → store → Prop) :
  AtStage stored s a → (∀ i, i < Count → a_running a i = true) → namespace = vol_Namespace v → Forall (λ i, i < Count) l →
  Q (Ok true) s → Lands (replicas_running namespace (attached final <$> l)) s Q.
Proof.
  intros Ha Hrun -> Hl HQ. induction Hl as [|k l Hk _ IH]; cbn [fmap list_fmap replicas_running].
  { by lands_steps. }
  lands_step. destruct (as_replica Ha k Hk) as (rst & Hr & Hrst).
  rw Hrun // in Hrst. destruct Hrst as [Hphase _]. rw attached_name.
  eapply (lands_get_some _ _ KReplica); [exact Hr|].
  cbn beta iota. change (rep_status (rep_set_status rst _)) with rst. rw Hphase.
  rw bool_decide_false; [|by intros []]. exact IH.
Qed.
Lemma lands_childrenReady stored s a (Q : result bool → store → Prop) :
  AtStage stored s a → serving (a_engine a) → (∀ i, i < Count → a_running a i = true) →
  vol_meta stored = vol_meta v → Q (Ok true) s → Lands (childrenReady stored) s Q.
Proof.
  intros Ha He Hrun Hm HQ. unfold childrenReady. lands_step.
  destruct (as_engine Ha) as (st & Hf & Hst%(serving_phase _ _ He)). rw (engine_key_meta stored v) //.
  eapply (lands_get_some _ _ KEngine); [exact Hf|]. cbn beta iota.
  change (est_Phase (eng_status (EngineAt (a_final a) st))) with (est_Phase st). rw Hst.
  rw bool_decide_false; [|by intros []].
  eapply lands_replicas_running; [done|done| |apply order_valid|done]. unfold vol_Namespace. by rw Hm.
Qed.
Lemma lands_ready stored s a :
  AtStage stored s a → serving (a_engine a) → (∀ i, i < Count → a_running a i = true) →
  vst_EngineRef (vol_status stored) ≠ None → vst_Phase (vol_status stored) ≠ VolumePhaseReady →
  vol_meta stored = vol_meta v →
  Lands (VolumeController.Reconcile (key_of (vol_meta v))) s
    (λ _ s', ∃ stored', AtStage stored' s' a ∧ kept_volume stored stored' ∧
                        vst_Phase (vol_status stored') = VolumePhaseReady).
Proof.
  intros Ha He Hrun Href Hph Hm. unfold VolumeController.Reconcile. lands_step.
  eapply (lands_get_some _ _ KVolume); [exact (as_volume Ha)|]. cbn beta iota.
  destruct (vst_EngineRef (vol_status stored)) as [ref|] eqn:Hr; [|done].
  unfold reconcile_existing. lands_step. eapply lands_childrenReady; [done..|].
  cbn [andb]. rw bool_decide_true //. unfold mark_ready. lands_steps.
  set (stored' := vol_set_Conditions _ _).
  assert (meta_okey (obj_meta KVolume stored') = meta_okey (vol_meta v)) as Hkey by (cbn; by rw Hm).
  apply (lands_status _ _ KVolume stored' stored); rw Hkey; [exact (as_volume Ha)|].
  eexists. split_and!; [by eapply keep_volume|done..].
Qed.
End passes.

(** ** The first pass of the volume controller *)
Definition cluster_nodes (s : store) : list Node := listing KNode None ∅ s.
(** The count that is asked for, the number of nodes to choose from, and how
    many replicas there will be. *)
Definition wanted (v : Volume) (nodes : list Node) : option Z :=
  match ParseReplicaCount (vs_ReplicaCount (vol_spec v)) with
  | Ok (n, false) => Some n
  | Ok (_, true) => Some (auto_count nodes)
  | Err _ => None
  end.
Lemma wanted_pos v nodes n : wanted v nodes = Some n → (1 ≤ n)%Z.
Proof.
  unfold wanted. destruct (ParseReplicaCount _) as [[m []]|] eqn:E; intros [= <-].
  - apply auto_count_pos.
  - apply ParseReplicaCount_ok in E. destruct E as [[? _]|(_ & ? & _)]; [done|lia].
Qed.
Definition replicas_for (n : Z) (nodes : list Node) : nat :=
  Z.to_nat (Z.min n (Z.of_nat (length (worker_names nodes)))).
(** Nothing of the volume is there yet. *)
Definition unmade (v : Volume) (s : store) : Prop :=
  objects KEngine s !! okey_of (engine_key v) = None ∧ objects KPod s !! engine_pod_okey v = None ∧
  ∀ i : nat, objects KReplica s !! replica_okey v i = None ∧ objects KPod s !! pod_okey v i = None.

Lemma auto_count_perm nodes nodes' : nodes ≡ₚ nodes' → auto_count nodes = auto_count nodes'.
Proof.
  intros E. unfold auto_count.
  assert (length (filter (λ n, isCP n = false) nodes) = length (filter (λ n, isCP n = false) nodes')) as ->
    by by rw E.
  by assert (length nodes = length nodes') as -> by by rw E.
Qed.
Lemma worker_names_perm nodes nodes' :
  nodes ≡ₚ nodes' → length (worker_names nodes) = length (worker_names nodes').
Proof.
  intros E. assert (node_Name <$> filter (λ n, isCP n = false) nodes ≡ₚ
    node_Name <$> filter (λ n, isCP n = false) nodes') as Hf by by rw E.
  unfold worker_names. destruct (node_Name <$> filter _ nodes) as [|x l].
  - apply Permutation_nil_l in Hf. rw -Hf. by rw E.
  - destruct (node_Name <$> filter _ nodes'); [by apply Permutation_nil_r in Hf|]. by rw Hf.
Qed.

Section first.
Context `{Environ, PodImages} {W} (h : handler ctl W) (view : W → store) `{!ApiServer h view}.
Context (ip : okey → string) (sidecar : string → SidecarStatus).
Abbreviation Lands := (lands h view).
Implicit Types (v : Volume) (s : store).

Lemma lands_wanted v s n (Q : result Z → store → Prop) :
  wanted v (cluster_nodes s) = Some n → Q (Ok n) s → Lands (replicasForVolume v) s Q.
Proof.
  unfold wanted, replicasForVolume. destruct (ParseReplicaCount _) as [[m []]|]; intros [= <-] HQ; cbn [negb].
  - lands_step. apply (lands_list _ _ KNode). intros l Hl. cbn beta iota. lands_step.
    by rw (auto_count_perm l (cluster_nodes s)).
  - by lands_steps.
Qed.
Lemma lands_chosen s n (Q : result (list string) → store → Prop) :
  (0 ≤ n)%Z → (∀ chosen, length chosen = replicas_for n (cluster_nodes s) → Q (Ok chosen) s) →
  Lands (pickWorkerNodes n) s Q.
Proof.
  intros Hn HQ. unfold pickWorkerNodes. lands_step. apply (lands_list _ _ KNode). intros l Hl. cbn beta iota. lands_step.
  apply HQ. unfold replicas_for. rw -(worker_names_perm l _ Hl) length_take length_SortStrings.
  destruct (Z.gtb_spec n (Z.of_nat (length (worker_names l)))); lia.
Qed.

(** The first [k] replicas of the volume have been made, and nothing else. *)
Record making v chosen k s : Prop := mkMaking {
  mk_made i : i < k → objects KReplica s !! replica_okey v i = Some (replica_at v chosen i : obj KReplica);
  mk_unmade i : k ≤ i → objects KReplica s !! replica_okey v i = None;
  mk_engine : objects KEngine s !! okey_of (engine_key v) = None;
  mk_pods i : objects KPod s !! pod_okey v i = None;
  mk_engine_pod : objects KPod s !! engine_pod_okey v = None;
  mk_volume : objects KVolume s !! meta_okey (vol_meta v) = Some (v : obj KVolume) }.
Lemma making_next v chosen k s :
  making v chosen k s →
  making v chosen (S k) (keep KReplica (replica_okey v k) (replica_at v chosen k) s).
Proof.
  intros [H1 H2 H3 H4 H5 H6]. split; try (by rw objects_keep_ne).
  - intros i Hi. rw objects_keep. destruct (decide (i = k)) as [->|Hne]; [by rw lookup_insert_eq|].
    rw lookup_insert_ne; [by apply H1; lia|]. by intros ?%replica_okey_inj.
  - intros i Hi. rw objects_keep lookup_insert_ne; [by apply H2; lia|]. intros ?%replica_okey_inj. lia.
Qed.
Lemma lands_create_replicas v chosen k m acc s :
  making v chosen k s → k + m = length chosen →
  Lands (create_replicas v (Z.of_nat k) (drop k chosen) acc) s
    (λ r s', r = Ok (acc ++ (first_attachment v chosen <$> seq k m)) ∧ making v chosen (length chosen) s').
Proof.
  revert k acc s. induction m as [|m IH]; intros k acc s Hs Hk.
  - rw drop_ge; [|lia]. cbn. lands_steps. rw app_nil_r. split; [done|]. by replace (length chosen) with k by lia.
  - destruct (lookup_lt_is_Some_2 chosen k ltac:(lia)) as [node Hn]. rw (drop_S _ _ _ Hn). cbn [create_replicas].
    lands_step. assert (placed_node v node = node_at v chosen k) as -> by (unfold node_at; by rw Hn).
    apply lands_create_if_missing; [done|].
    change (meta_okey (obj_meta KReplica (replica_for v (Z.of_nat k) (node_at v chosen k)))) with (replica_okey v k).
    rw (mk_unmade _ _ _ _ Hs k ltac:(lia)). replace (Z.of_nat k + 1)%Z with (Z.of_nat (S k)) by lia.
    eapply lands_mono; [apply IH; [by apply making_next|lia]|]. intros r s' [-> Hm]. split; [|done].
    by rw -app_assoc.
Qed.
Lemma lands_ensureChildren v chosen s :
  making v chosen 0 s →
  Lands (ensureChildren v chosen) s (λ r s', r = Ok tt ∧ at_stage v chosen (indices chosen) ip sidecar "" v s' fresh_stages).
Proof.
  intros Hs. unfold ensureChildren. lands_step.
  eapply lands_mono; [by apply (lands_create_replicas v chosen 0 (length chosen) [] s)|].
  intros r s' [-> [H1 H2 H3 H4 H5 H6]]. cbn beta iota. rw app_nil_l.
  apply lands_create_if_missing; [done|]. split; [done|].
  change (meta_okey (obj_meta KEngine (engine_for v _))) with (okey_of (engine_key v)). rw H3.
  split; [split|..]; try (by rw objects_keep_ne); try done.
  - intros i Hi. rw objects_keep_ne //. exists zeroReplicaStatus. split; [by apply H1|done].
  - intros i Hi. rw objects_keep_ne //. cbn. rw H4. by destruct (is_local v chosen i).
  - intros i Hi. rw !objects_keep_ne //. split; [by apply H2|apply H4].
  - exists zeroEngineStatus. by rw objects_keep lookup_insert_eq.
Qed.

(** The volume with its node chosen. *)
Definition scheduled v v' : Prop := v' = v ∨ ∃ node, v' = vol_set_NodeID node v.
Lemma lands_schedule v s (Q : result Volume → store → Prop) :
  objects KVolume s !! meta_okey (vol_meta v) = Some (v : obj KVolume) → unmade v s → cluster_nodes s ≠ [] →
  (∀ v' s', scheduled v v' → cluster_nodes s' = cluster_nodes s →
     (∀ chosen, making v' chosen 0 s') → Q (Ok v') s') →
  Lands (schedule_node v) s Q.
Proof.
  intros Hf (H1 & H2 & H3) Hn HQ. unfold schedule_node. case_bool_decide.
  - lands_step. unfold pickAnyWorkerNode. lands_step. apply (lands_list _ _ KNode). intros l Hl. cbn beta iota.
    assert (∃ node, ∀ R : result string → store → Prop, R (Ok node) s →
      Lands (match filter (λ n, isCP n = false) l with
             | n :: _ => Ret (Ok (node_Name n))
             | [] => match l with n :: _ => Ret (Ok (node_Name n)) | [] => Ret (Err (Errorf "no worker nodes available" [])) end
             end) s R) as [node Hpick].
    { destruct (filter _ l); [|eexists; intros; by lands_steps].
      destruct l; [|eexists; intros; by lands_steps]. by apply Permutation_nil_l in Hl. }
    apply Hpick. cbn beta iota. eapply (lands_update _ _ KVolume (vol_set_NodeID node v)); [exact Hf|].
    apply HQ; [right; by exists node| |].
    + unfold cluster_nodes, listing. by rw objects_keep_ne.
    + intros chosen. split; try (by rw objects_keep_ne; try apply H3).
      * lia.
      * intros i _. rw objects_keep_ne //. apply H3.
      * rw objects_keep. apply lookup_insert_eq.
  - lands_steps. apply HQ; [by left|done|]. intros chosen. split; try done; [lia|intros i _|intros i]; apply H3.
Qed.
Lemma lands_new v s n :
  objects KVolume s !! meta_okey (vol_meta v) = Some (v : obj KVolume) → vst_EngineRef (vol_status v) = None →
  unmade v s → wanted v (cluster_nodes s) = Some n → cluster_nodes s ≠ [] →
  Lands (VolumeController.Reconcile (key_of (vol_meta v))) s
    (λ _ s', ∃ v' chosen stored, scheduled v v' ∧ length chosen = replicas_for n (cluster_nodes s) ∧
       at_stage v' chosen (indices chosen) ip sidecar "" stored s' fresh_stages ∧
       vst_EngineRef (vol_status stored) ≠ None ∧ vst_Phase (vol_status stored) = VolumePhaseCreating ∧
       vol_meta stored = vol_meta v' ∧ vol_spec stored = vol_spec v').
Proof.
  intros Hf Href Hun Hw Hn. unfold VolumeController.Reconcile. lands_step.
  eapply (lands_get_some _ _ KVolume); [exact Hf|]. cbn beta iota. rw Href. unfold reconcile_new. lands_step.
  apply (lands_schedule v s); [done..|]. intros v' s' Hv' Hnodes Hmaking. cbn beta iota. lands_step.
  assert (wanted v' (cluster_nodes s') = Some n) as Hw' by (rw Hnodes; by destruct Hv' as [->|[node ->]]).
  apply (lands_wanted v' s' n); [done|]. cbn beta iota. lands_step.
  pose proof (wanted_pos _ _ _ Hw). apply lands_chosen; [lia|]. intros chosen Hc. cbn beta iota. lands_step.
  eapply lands_mono; [by apply lands_ensureChildren|]. intros r s2 [-> Ha]. lands_steps.
  set (stored := vol_set_Conditions _ _).
  apply (lands_status _ _ KVolume stored v'); [exact (as_volume Ha)|].
  exists v', chosen, stored. rw Hnodes in Hc. split_and!; try done. exact (keep_volume v' chosen _ ip sidecar "" v' stored s2 _ Ha).
Qed.
End first.

(** ** Properties *)
Section properties.
Context `{Environ, PodImages} {W} (h : handler ctl W) (view : W → store) `{!ApiServer h view}.
Context (rr : ReplicaReconciler) (c : option SidecarStatusClient).
Context (ip : okey → string) (sidecar : string → SidecarStatus) (kubelet : okey → W → W).
Context `{!Cooperative h view rr c ip sidecar kubelet}.
Implicit Types v : Volume.

(** The statuses that the sidecars of the volume's pods serve are accepted. *)
Definition served_well v : Prop :=
  (∀ i, validateReplicaSidecarStatus (export_at v ip sidecar i) = None) ∧
  validateEngineSidecarStatus (sidecar (ip (engine_pod_okey v))) = None.
Lemma scheduled_meta v v' : scheduled v v' → vol_meta v' = vol_meta v.
Proof. by intros [->|[node ->]]. Qed.
Lemma served_accepted v v' chosen : vol_meta v' = vol_meta v → served_well v → accepted v' chosen ip sidecar.
Proof. destruct v, v'; cbn. intros -> [Hr He]. split; [intros i _ _; apply Hr|done]. Qed.
Definition reconcile_volume v (w : W) : W := after h (VolumeController.Reconcile (key_of (vol_meta v))) w.
Definition Performs v : list step → W → W := performs h rr c kubelet v.
Lemma performs_meta v v' l w : vol_meta v' = vol_meta v → Performs v' l w = Performs v l w.
Proof. destruct v, v'; cbn. by intros ->. Qed.
Lemma reconcile_meta v v' w : vol_meta v' = vol_meta v → reconcile_volume v' w = reconcile_volume v w.
Proof. unfold reconcile_volume. by intros ->. Qed.

(** What a volume is when it is up: it is Ready, with exactly [k] replicas, all
    Running, and a Running engine that publishes the target its sidecar serves
    and records its present attachments as those that it is configured with.
    The engine's attachments are the replicas, in the order of their indices or
    in another one: the one on the engine's node as the local one, and every
    other one with the NQN, the address and the port that its own sidecar serves. *)
Definition attachment_up v (node : string) i (ra : ReplicaAttachment) : Prop :=
  ra_Name ra = ReplicaName (vol_Name v) (Z.of_nat i) ∧
  ra_IsLocal ra = bool_decide (ra_NodeID ra = node) ∧
  (ra_IsLocal ra = false →
   ra_NQN ra = st_ReplicaNQN (export_at v ip sidecar i) ∧
   SplitEndpoint (st_Endpoint (export_at v ip sidecar i)) = Ok (ra_Address ra, ra_Port ra)).
Definition volume_up_with v (order : list nat) (s : store) : Prop :=
  (∃ v', objects KVolume s !! meta_okey (vol_meta v) = Some (v' : obj KVolume) ∧
         vst_Phase (vol_status v') = VolumePhaseReady) ∧
  (∃ e, objects KEngine s !! okey_of (engine_key v) = Some (e : obj KEngine) ∧
        engine_serves v ip sidecar (eng_status e) ∧
        est_LastReplicasHash (eng_status e) = replicasHash (eng_Replicas e) ∧
        Forall2 (attachment_up v (es_NodeID (eng_spec e))) order (eng_Replicas e)) ∧
  (∀ i, i ∈ order → ∃ r, objects KReplica s !! replica_okey v i = Some (r : obj KReplica) ∧
    rst_Phase (rep_status r) = ReplicaPhaseRunning) ∧
  ∀ i, i ∉ order → objects KReplica s !! replica_okey v i = None.
(** The engine's sidecar was told the present attachments, unless they are those
    that it was configured with before (their hashes agree). *)
Definition reconfigured v (s s' : store) : Prop :=
  ∃ e e', objects KEngine s !! okey_of (engine_key v) = Some (e : obj KEngine) ∧
    objects KEngine s' !! okey_of (engine_key v) = Some (e' : obj KEngine) ∧
    (replicasHash (eng_Replicas e) ≠ replicasHash (eng_Replicas e') →
     s_told s' !! reconfigureURL (ip (engine_pod_okey v)) = Some (reconfigure_payload (eng_Replicas e'))).
Definition volume_up v (k : nat) : store → Prop := volume_up_with v (seq 0 k).

Lemma attached_up v chosen i :
  accepted v chosen ip sidecar → i < count chosen →
  attachment_up v (vs_NodeID (vol_spec v)) i (final_attachment v chosen ip sidecar i).
Proof.
  intros Hacc Hi. split; [exact (attached_name ip sidecar v chosen (λ _, true) i)|].
  unfold final_attachment. destruct (is_local v chosen i) eqn:Hloc;
    [by split; [exact (eq_sym Hloc)|]|].
  destruct (accepted_export ip sidecar v chosen Hacc i Hi Hloc) as (_ & host & port & Hs). rw Hs.
  by split; [exact (eq_sym Hloc)|].
Qed.
Lemma volume_up_meta v v' order s : vol_meta v' = vol_meta v → volume_up_with v' order s → volume_up_with v order s.
Proof. destruct v, v'; cbn. by intros ->. Qed.

Lemma reconfigured_meta v v' s s' : vol_meta v' = vol_meta v → reconfigured v' s s' → reconfigured v s s'.
Proof. destruct v, v'; cbn. by intros ->. Qed.

(** When everything runs. *)
Definition all_up chosen v a : Prop :=
  a_engine a = ERunning ∧ consistent (length chosen) (is_local v chosen) a ∧
  ∀ i, i < length chosen → a_running a i = true.
Lemma engine_up v chosen order last stored s a :
  order ≡ₚ indices chosen → at_stage v chosen order ip sidecar last stored s a →
  a_engine a = ERunning → consistent (length chosen) (is_local v chosen) a →
  ∃ st, objects KEngine s !! okey_of (engine_key v) = Some (engine_at v chosen order ip sidecar (λ _, true) st : obj KEngine) ∧
    engine_status_at v chosen order ip sidecar last ERunning st.
Proof.
  intros Horder Ha He Hc. destruct (as_engine Ha) as (st & Hf & Hst). rw He in Hst. exists st. split; [|done].
  rw Hf. unfold engine_at, attachments. do 3 f_equal. apply list_fmap_ext.
  intros _ i Hi%list_elem_of_lookup_2. rw (cs_final _ _ _ Hc) //; [by rw He|].
  rw Horder elem_of_seq in Hi. unfold count in Hi. lia.
Qed.
(** From an engine that was configured with the attachments [last] is the hash of. *)
Lemma stage_reconfigured v chosen order stored s0 e s a :
  order ≡ₚ indices chosen → objects KEngine s0 !! okey_of (engine_key v) = Some (e : obj KEngine) →
  at_stage v chosen order ip sidecar (replicasHash (eng_Replicas e)) stored s a →
  a_engine a = ERunning → consistent (length chosen) (is_local v chosen) a → reconfigured v s0 s.
Proof.
  intros Horder Hf0 Ha He Hc. destruct (engine_up v chosen order _ stored s a Horder Ha He Hc) as (st & Hf & _).
  exists e, (engine_at v chosen order ip sidecar (λ _, true) st). split_and!; [done..|].
  apply (as_told Ha He). apply replicasHash_nonempty.
Qed.
Lemma stage_up v chosen order last stored s a :
  order ≡ₚ indices chosen → accepted v chosen ip sidecar → at_stage v chosen order ip sidecar last stored s a →
  all_up chosen v a → vst_Phase (vol_status stored) = VolumePhaseReady → volume_up_with v order s.
Proof.
  intros Horder Hacc Ha (He & Hc & Hrun) Hph. assert (∀ i, i ∈ order ↔ i < length chosen) as Hin.
  { intros i. rw Horder elem_of_seq. unfold count. lia. }
  split_and!.
  - exists stored. split; [exact (as_volume Ha)|done].
  - destruct (engine_up v chosen order last stored s a Horder Ha He Hc) as (st & Hf & Hst).
    exists (engine_at v chosen order ip sidecar (λ _, true) st).
    split_and!; [done|apply Hst..|]. cbn. unfold attachments. apply Forall2_fmap_r, Forall_Forall2_diag, Forall_forall.
    intros i Hi%Hin. by apply attached_up.
  - intros i Hi%Hin. destruct (as_replica Ha i Hi) as (st & Hf & Hst).
    rw Hrun // in Hst. eexists. split; [exact Hf|apply Hst].
  - intros i Hi. rw Hin in Hi. apply (ch_unmade _ _ _ _ _ _ _ (as_children Ha)). unfold count. lia.
Qed.

(** From any stage, six rounds and a pass of the volume controller. *)
Lemma rounds_ready v chosen order last stored w a rounds :
  order ≡ₚ indices chosen → accepted v chosen ip sidecar → at_stage v chosen order ip sidecar last stored (view w) a →
  consistent (length chosen) (is_local v chosen) a →
  length rounds = 6 → Forall (complete_round (length chosen)) rounds →
  vst_EngineRef (vol_status stored) ≠ None → vst_Phase (vol_status stored) ≠ VolumePhaseReady →
  vol_meta stored = vol_meta v →
  ∃ stored' a', at_stage v chosen order ip sidecar last stored' (view (reconcile_volume v (Performs v (concat rounds) w))) a' ∧
    all_up chosen v a' ∧ kept_volume stored stored' ∧ vst_Phase (vol_status stored') = VolumePhaseReady.
Proof.
  intros Horder Hacc Ha Hc Hsix Hrounds Href Hph Hm.
  destruct rounds as [|r1 [|r2 [|r3 [|r4 [|r5 [|r6 [|]]]]]]]; try done.
  pose proof (six_rounds (length chosen) (is_local v chosen) a _ _ _ _ _ _ Hc Hrounds) as Hup.
  cbn [concat]. rw app_nil_r. cbv zeta in Hup. set (l := r1 ++ _) in *.
  assert (Forall (valid (length chosen)) l) as Hvalid.
  { unfold l. rw !Forall_cons in Hrounds. rw !Forall_app. repeat split; apply Hrounds. }
  assert (at_stage v chosen order ip sidecar last stored (view (Performs v l w))
    (advances (length chosen) (is_local v chosen) l a)) as Hat
    by by refine (performs_stages h view rr c ip sidecar kubelet v chosen order last Horder Hacc stored l _ _ Hvalid _ Ha).
  destruct Hup as (He & Hc' & Hrun).
  destruct (lands_ready h view ip sidecar v chosen order last Horder stored _ _ Hat (or_introl He) Hrun Href Hph Hm _ eq_refl)
    as (stored' & Hfinal & Hkept & Hready).
  exists stored', (advances (length chosen) (is_local v chosen) l a). by split_and!.
Qed.

(** The start of a volume: it was created, and nothing of it is there yet. *)
Record created v n (s : store) : Prop := mkCreated {
  cr_volume : objects KVolume s !! meta_okey (vol_meta v) = Some (v : obj KVolume);
  cr_new : vst_EngineRef (vol_status v) = None;
  cr_unmade : unmade v s;
  cr_wanted : wanted v (cluster_nodes s) = Some n;
  cr_nodes : cluster_nodes s ≠ [] }.
Lemma first_pass v w n :
  created v n (view w) →
  ∃ v' chosen stored, scheduled v v' ∧ length chosen = replicas_for n (cluster_nodes (view w)) ∧
    at_stage v' chosen (indices chosen) ip sidecar "" stored (view (reconcile_volume v w)) fresh_stages ∧
    vst_EngineRef (vol_status stored) ≠ None ∧ vst_Phase (vol_status stored) = VolumePhaseCreating ∧
    vol_meta stored = vol_meta v' ∧ vol_spec stored = vol_spec v'.
Proof.
  intros [H1 H2 H3 H4 H5].
  destruct (lands_new h view ip sidecar v (view w) n H1 H2 H3 H4 H5 w eq_refl)
    as (v' & chosen & stored & K).
  by exists v', chosen, stored.
Qed.

(** From there to Ready. *)
Lemma comes_up v w n rounds :
  created v n (view w) → served_well v →
  length rounds = 6 → Forall (complete_round (replicas_for n (cluster_nodes (view w)))) rounds →
  ∃ v' chosen stored a, length chosen = replicas_for n (cluster_nodes (view w)) ∧ vol_meta v' = vol_meta v ∧
    at_stage v' chosen (indices chosen) ip sidecar "" stored
      (view (reconcile_volume v (Performs v (concat rounds) (reconcile_volume v w)))) a ∧
    all_up chosen v' a ∧ vst_Phase (vol_status stored) = VolumePhaseReady ∧
    vst_EngineRef (vol_status stored) ≠ None ∧ vol_meta stored = vol_meta v' ∧ vol_spec stored = vol_spec v'.
Proof.
  intros Hcr Hs Hsix Hrounds.
  destruct (first_pass v w n Hcr) as (v' & chosen & stored & Hv%scheduled_meta & Hlen & Ha & Href & Hph & Hm & Hsp).
  rw -Hlen in Hrounds. assert (accepted v' chosen ip sidecar) as Hacc by by eapply served_accepted.
  destruct (rounds_ready v' chosen _ _ stored _ _ rounds ltac:(done) Hacc Ha (fresh_consistent _ _) Hsix Hrounds Href
    ltac:(by rw Hph) Hm) as (stored' & a' & Hat & Hup & (Km & Ks & Kr) & Hready).
  rw (reconcile_meta v v') // (performs_meta v v') // in Hat.
  exists v', chosen, stored', a'. split_and!; [done..|by rw Kr|by rw Km|by rw Ks].
Qed.

(** C10. The children of a volume come up step by step, as the machine of
    Stages.v says.  After the first pass of the volume controller over a volume
    that was created, as many nodes are chosen as there are replicas to be and
    nodes to choose from; and whatever passes of the replica and the engine
    controllers and of the kubelet follow, in any order and number, the server
    keeps exactly what the machine says after the same steps: which replicas
    and pods are there and Running, which attachments have their endpoints, and
    how far the engine is. *)
Theorem children_refine (v : Volume) (w : W) (n : Z) :
  created v n (view w) → served_well v →
  ∃ v' chosen stored, scheduled v v' ∧ length chosen = replicas_for n (cluster_nodes (view w)) ∧
    ∀ l, Forall (valid (length chosen)) l →
      at_stage v' chosen (indices chosen) ip sidecar "" stored (view (Performs v l (reconcile_volume v w)))
        (advances (length chosen) (is_local v' chosen) l fresh_stages).
Proof.
  intros Hcr Hs. destruct (first_pass v w n Hcr) as (v' & chosen & stored & Hv & Hlen & Ha & _).
  exists v', chosen, stored. split_and!; [done..|]. intros l Hl.
  rw -(performs_meta v v'); [|by apply scheduled_meta].
  refine (performs_stages h view rr c ip sidecar kubelet v' chosen _ "" _ _ stored l _ _ Hl _ Ha);
    [done|by eapply served_accepted; [apply scheduled_meta|]|apply fresh_consistent].
Qed.

(** C1. A volume comes up.  Take a volume that was just created, on any API
    server, with agents that provision, sidecars whose statuses are accepted,
    and a kubelet that starts pods.  After the first pass of the volume
    controller, six rounds in which every replica, the engine and the kubelet
    get a turn, in any order and any number of times, and a pass of the volume
    controller, the volume is Ready, with as many replicas as it asks for (or
    as there are nodes), all Running, and an engine that is Running over exactly
    them, each attached with the endpoint that its own sidecar serves. *)
Theorem volume_comes_up (v : Volume) (w : W) (n : Z) (rounds : list (list step)) :
  created v n (view w) → served_well v →
  let k := replicas_for n (cluster_nodes (view w)) in
  length rounds = 6 → Forall (complete_round k) rounds →
  volume_up v k (view (reconcile_volume v (Performs v (concat rounds) (reconcile_volume v w)))).
Proof.
  intros Hcr Hs k Hsix Hrounds. subst k.
  destruct (comes_up v w n rounds Hcr Hs Hsix Hrounds) as (v' & chosen & stored & a & <- & Hv & Hat & Hup & Hready & _).
  eapply volume_up_meta; [exact Hv|]. eapply (stage_up v' chosen); [done|by eapply served_accepted|done..].
Qed.
End properties.

(** ** A site

    MemStore's API server, agents that provision, sidecars that answer over
    HTTP, and a kubelet. *)
Section site.
#[local] Instance site_environ : Environ := λ _, "".
#[local] Instance site_images : PodImages := defaultPodImages.
Definition site_ip (key : okey) : string :=
  if bool_decide (key = ("ns", "v-engine-pod")) then "10.0.0.9"
  else if bool_decide (key = ("ns", "v-replica-1-pod")) then "10.0.0.2" else "10.0.0.1".
Definition site_sidecar (ip : string) : SidecarStatus :=
  if bool_decide (ip = "10.0.0.9") then mkSidecarStatus "engine" "10.0.0.9:4420" "nqn.2026-05.krea.to:volume-v" ""
  else mkSidecarStatus "replica" (ip +:+ ":4421") "" ("nqn:v:" +:+ ip).
Definition site_status (url : string) : SidecarStatus :=
  if bool_decide (url = statusURL "10.0.0.9") then site_sidecar "10.0.0.9"
  else if bool_decide (url = statusURL "10.0.0.2") then site_sidecar "10.0.0.2" else site_sidecar "10.0.0.1".
Definition site_handler : handler ctl world := λ c,
  match c return world → ctl_reply c * world with
  | AgentFactory _ => λ w, (Ok (OtherAgent 0), w)
  | AgentCreateReplica _ _ => λ w, (Ok (mkCreateReplicaResp "/dev/loop0" "Ready"), w)
  | HttpDo WantStatus _ url _ => λ w, (Ok (mkResponse (w:=WantStatus) 200 "" (Ok (site_status url))), w)
  | HttpDo WantNothing _ url body => λ w, (Ok (mkResponse (w:=WantNothing) 200 "" (Ok tt)), note url body w)
  | HttpDo WantCreateReplica _ _ _ => λ w,
      (Ok (mkResponse (w:=WantCreateReplica) 200 "" (Ok (mkCreateReplicaResp "/dev/loop0" "Ready"))), w)
  | c => mem_handler c
  end.
#[local] Instance site_server : ApiServer site_handler world_view.
Proof. apply (server_beside mem_handler); [exact _|]. intros c w. by destruct c as [| | | | | | | | | | | | | |[]]. Qed.
Definition site_kubelet (key : okey) (w : world) : world :=
  set_objs KPod
    (alter (λ p, mkPod (pod_meta p) (pod_spec p) (up_status site_ip key)) key (w_objs w KPod)) w.
Definition site_reconciler : ReplicaReconciler := mkReplicaReconciler None true None.
#[local] Instance site_cooperative :
  Cooperative site_handler world_view site_reconciler None site_ip site_sidecar site_kubelet.
Proof.
  split.
  - intros nodeID s w <-. by split; [eexists|].
  - intros [url|id] req s w <-; by split; [eexists|].
  - intros sc key s Hsc w <-. assert (sc = None) as -> by by destruct Hsc. split; [|done].
    cbn. unfold site_ip. repeat case_bool_decide; done.
  - intros key ras s w <-. split; [done|]. exact (view_note _ _ w).
  - intros key. unfold site_ip. by repeat case_bool_decide.
  - intros key w. unfold site_kubelet, start_pod. by rw view_set_objs objects_view.
Qed.

Definition site_volume : Volume :=
  mkVolume (newMeta "v" "ns") (mkVolumeSpec "1Gi" "" "" "2" None) zeroVolumeStatus.
Definition site_world : world :=
  put KVolume site_volume (put KNode (labelled_node "w1" false)
    (put KNode (labelled_node "w2" false) (put KNode (labelled_node "cp" true) empty_world))).
Lemma site_created : created site_volume 2 (world_view site_world).
Proof.
  split; [vm_compute; reflexivity|done| |vm_compute; reflexivity|by vm_compute].
  split_and!; [vm_compute; reflexivity..|]. intros i. split; apply lookup_empty.
Qed.
Lemma site_served : served_well site_ip site_sidecar site_volume.
Proof.
  split; [|vm_compute; reflexivity]. intros i. unfold export_at, site_ip.
  rw bool_decide_false; [|apply (pod_okey_engine site_volume)].
  case_bool_decide; vm_compute; reflexivity.
Qed.
Definition site_round : list step :=
  [RunEngine; RunReplica 1; RunReplica 0; StartEnginePod; StartReplicaPod 0; StartReplicaPod 1; RunReplica 1].
Lemma site_round_complete : complete_round 2 site_round.
Proof.
  split_and!; [repeat constructor|set_solver..|]. intros i Hi.
  destruct i as [|[|]]; [set_solver..|lia].
Qed.
Definition site_end : world :=
  reconcile_volume site_handler site_volume
    (Performs site_handler site_reconciler None site_kubelet site_volume
       (concat (replicate 6 site_round)) (reconcile_volume site_handler site_volume site_world)).
Lemma volume_comes_up_witness :
  complete_round 2 site_round ∧ volume_up site_ip site_sidecar site_volume 2 (world_view site_end).
Proof.
  split; [exact site_round_complete|].
  assert (replicas_for 2 (cluster_nodes (world_view site_world)) = 2) as Hk by (vm_compute; reflexivity).
  pose proof (volume_comes_up site_handler world_view site_reconciler None site_ip site_sidecar site_kubelet
           site_volume site_world 2 (replicate 6 site_round) site_created site_served) as Hup.
  cbv zeta in Hup. rw Hk in Hup. unfold site_end. apply Hup; [reflexivity|].
  apply Forall_replicate, site_round_complete.
Defined.
Lemma children_refine_witness :
  ∃ v' chosen stored, length chosen = 2 ∧
    at_stage v' chosen (indices chosen) site_ip site_sidecar "" stored
      (world_view (Performs site_handler site_reconciler None site_kubelet site_volume site_round
                     (reconcile_volume site_handler site_volume site_world)))
      (advances 2 (is_local v' chosen) site_round fresh_stages).
Proof.
  destruct (children_refine site_handler world_view site_reconciler None site_ip site_sidecar site_kubelet
              site_volume site_world 2 site_created site_served) as (v' & chosen & stored & _ & Hlen & Hat).
  assert (length chosen = 2) as Hk by (rw Hlen; vm_compute; reflexivity).
  exists v', chosen, stored. split; [exact Hk|]. rw Hk in Hat. apply Hat. exact (proj1 site_round_complete).
Defined.

(** What the rounds leave out is the volume controller itself.  It runs again
    while it waits, and finds both replicas Running before the engine is: the
    local replica, which has no pod and no NQN, counts as unhealthy, and is
    deleted. *)
Definition site_early : world :=
  Performs site_handler site_reconciler None site_kubelet site_volume
    [RunReplica 0; RunReplica 1; StartReplicaPod 1; RunReplica 1]
    (reconcile_volume site_handler site_volume site_world).
Definition phase_of (i : nat) (w : world) : option string :=
  (λ r : Replica, rst_Phase (rep_status r)) <$> (w_objs w KReplica !! replica_okey site_volume i).
Theorem volume_pass_interrupts :
  phase_of 0 site_early = Some ReplicaPhaseRunning ∧ phase_of 1 site_early = Some ReplicaPhaseRunning ∧
  phase_of 0 (reconcile_volume site_handler site_volume site_early) = None ∧
  phase_of 1 (reconcile_volume site_handler site_volume site_early) = Some ReplicaPhaseRunning.
Proof. split_and!; vm_compute; reflexivity. Qed.
End site.
