(* ===== verification/Scaling.v ===== *)
(** * A volume gets more replicas, or fewer

    A volume that is up and is asked for another number of replicas, over any API
    server of Store.v: the volume controller makes the new replicas and attaches
    them, or deletes the last ones, and by the machine of Stages.v the new ones
    come up and the engine takes over what there is.  [scaleUp] and [scaleDown]
    are in VolumeScale.v. *)
From S2P Require Import Prelude GoStrings GoNet GoJson Sha256 K8s ApiTypes Names Network WireTypes Client MemStore Status AgentClient SidecarClient VolumeNodes VolumeScale PodTemplates VolumeController ReplicaController EngineController Store Stages BringUp.

#[local] Arguments obj : simpl never.

(** ** More chosen nodes *)
Section more.
Context `{Environ, PodImages} (v : Volume) (ip : okey → string) (sidecar : string → SidecarStatus).
Implicit Types (chosen extra : list string) (s : store) (a : stages) (i : nat).

Lemma node_at_app chosen extra i : i < length chosen → node_at v (chosen ++ extra) i = node_at v chosen i.
Proof. intros Hi. unfold node_at. by rw lookup_app_l. Qed.
Lemma is_local_app chosen extra i : i < length chosen → is_local v (chosen ++ extra) i = is_local v chosen i.
Proof. intros Hi. unfold is_local. by rw node_at_app. Qed.
Lemma replica_at_app chosen extra i : i < length chosen → replica_at v (chosen ++ extra) i = replica_at v chosen i.
Proof. intros Hi. unfold replica_at. by rw node_at_app. Qed.
Lemma first_attachment_app chosen extra i :
  i < length chosen → first_attachment v (chosen ++ extra) i = first_attachment v chosen i.
Proof. intros Hi. unfold first_attachment. by rw node_at_app. Qed.
Lemma final_attachment_app chosen extra i :
  i < length chosen → final_attachment v (chosen ++ extra) ip sidecar i = final_attachment v chosen ip sidecar i.
Proof. intros Hi. unfold final_attachment. by rw is_local_app // first_attachment_app. Qed.

(** The stage of a volume whose first [k] replicas stay, and whose engine was
    given other attachments. *)
Definition grown (k : nat) a : stages :=
  mkStages (λ i, bool_decide (i < k) && a_running a i)
    (λ i, if bool_decide (i < k) then a_pod a i else None)
    (λ i, bool_decide (i < k) && a_final a i) EStale (a_epod a).
Lemma grown_consistent n n' local local' k a :
  (∀ i, i < k → local' i = local i) → consistent n local a → a_engine a = ERunning →
  consistent n' local' (grown k a).
Proof.
  intros Hl [Hp He _] Hrun. split; cbn; [|intros _; apply He; by rw Hrun|done].
  intros i Hloc. case_bool_decide as Hi; [|done]. rw Hl // in Hloc. by apply Hp.
Qed.
Lemma grown_children chosen stored s a :
  children_at v chosen ip sidecar stored s a → children_at v chosen ip sidecar stored s (grown (length chosen) a).
Proof.
  intros [Hr Hp Hu Hep Hv]. split; [..|done|done|done].
  - intros i Hi. cbn. rw bool_decide_true //. by apply Hr.
  - intros i Hi. cbn. rw (bool_decide_true (i < length chosen)) //. by apply Hp.
Qed.

(** One more replica has been made. *)
Lemma children_next chosen x stored s a :
  children_at v chosen ip sidecar stored s a →
  a_running a (length chosen) = false → a_pod a (length chosen) = None →
  children_at v (chosen ++ [x]) ip sidecar stored
    (keep KReplica (replica_okey v (length chosen)) (replica_at v (chosen ++ [x]) (length chosen)) s) a.
Proof.
  intros [Hr Hp Hu Hep Hv] Hrun Hpod. unfold count in Hr, Hp, Hu. split; try (by rw objects_keep_ne).
  - intros i Hi. rw /count length_app /= in Hi. rw objects_keep. destruct (decide (i = length chosen)) as [->|Hne].
    + exists zeroReplicaStatus. rw lookup_insert_eq Hrun. done.
    + rw lookup_insert_ne; [|by intros ?%replica_okey_inj]. destruct (Hr i) as (st & Hf & Hst); [lia|].
      exists st. rw replica_at_app; [|lia]. split; [done|]. destruct (a_running a i); [|done].
      destruct Hst as [Hph Hst]. split; [done|]. by rw is_local_app; [|lia].
  - intros i Hi. rw /count length_app /= in Hi. rw objects_keep_ne //. destruct (decide (i = length chosen)) as [->|Hne].
    + rw Hpod. destruct (Hu (length chosen)) as [_ Hnone]; [done|]. cbn. by destruct (is_local v _ _).
    + rw is_local_app; [|lia]. rw replica_at_app; [|lia]. apply Hp. lia.
  - intros i Hi. rw /count length_app /= in Hi. rw objects_keep objects_keep_ne //.
    rw lookup_insert_ne; [apply Hu; lia|]. intros ?%replica_okey_inj. lia.
Qed.

(** What the server keeps after replicas were deleted, and their pods with them. *)
Definition collected (k : nat) s s' : Prop :=
  (∀ kd, kd ≠ KPod → objects kd s' = objects kd s) ∧
  (∀ i, k ≤ i → objects KPod s' !! pod_okey v i = None) ∧
  ∀ key, (∀ i, k ≤ i → key ≠ pod_okey v i) → objects KPod s' !! key = objects KPod s !! key.
Lemma children_collected chosen rest stored s s' s'' a :
  children_at v (chosen ++ rest) ip sidecar stored s a →
  (∀ i, i < length chosen → objects KReplica s' !! replica_okey v i = objects KReplica s !! replica_okey v i) →
  (∀ i, length chosen ≤ i → objects KReplica s' !! replica_okey v i = None) →
  objects KPod s' = objects KPod s → objects KVolume s' = objects KVolume s →
  collected (length chosen) s' s'' → children_at v chosen ip sidecar stored s'' (grown (length chosen) a).
Proof.
  intros [Hr Hp Hu Hep Hv] Hk Hgone Hpods Hvol (Ho & Hpn & Hpk). unfold count in Hr, Hp. rw length_app in Hr, Hp.
  split.
  - intros i Hi. rw /count in Hi. rw Ho // Hk //. destruct (Hr i) as (st & Hf & Hst); [lia|].
    rw replica_at_app // in Hf. exists st. split; [done|]. cbn. rw bool_decide_true //.
    destruct (a_running a i); [|done]. destruct Hst as [Hph Hst]. split; [done|].
    by rw is_local_app // in Hst.
  - intros i Hi. rw /count in Hi. rw Hpk; [|intros j Hj ?%pod_okey_inj; lia]. rw Hpods.
    cbn. rw (bool_decide_true (i < length chosen)) //.
    specialize (Hp i ltac:(lia)). by rw is_local_app // replica_at_app // in Hp.
  - intros i Hi. rw Ho //. split; [by apply Hgone|by apply Hpn].
  - rw Hpk; [by rw Hpods|]. intros j _ E. by destruct (pod_okey_engine v j).
  - by rw Ho // Hvol.
Qed.
Lemma at_stage_collected chosen order last stored s s' a :
  at_stage v chosen order ip sidecar last stored s a → a_engine a ≠ ERunning → collected (length chosen) s s' →
  at_stage v chosen order ip sidecar last stored s' a.
Proof.
  intros [[Hr Hp Hu Hep Hv] He _ Hfst] Hne (Ho & Hpn & Hpk). split; [split|by rw Ho|done|done].
  - by rw Ho.
  - intros i Hi. rw Hpk; [by apply Hp|]. intros j Hj ?%pod_okey_inj. unfold count in Hi. lia.
  - intros i Hi. rw Ho //. split; [by apply Hu|by apply Hpn].
  - rw Hpk //. intros j _ E. by destruct (pod_okey_engine v j).
  - by rw Ho.
Qed.

(** The attachments of the replicas that stay, and of the others. *)
Lemma attachments_grown chosen extra a :
  attachments v (chosen ++ extra) (indices (chosen ++ extra)) ip sidecar (a_final (grown (length chosen) a)) =
  attachments v chosen (indices chosen) ip sidecar (a_final a) ++
  (first_attachment v (chosen ++ extra) <$> seq (length chosen) (length extra)).
Proof.
  unfold attachments, indices, count. rw length_app seq_app fmap_app. cbn. f_equal; apply list_fmap_ext; intros ? i [-> Hi]%lookup_seq.
  - rw bool_decide_true //. by rw final_attachment_app // first_attachment_app.
  - rw bool_decide_false //. lia.
Qed.
Lemma attachments_take chosen rest a :
  attachments v chosen (indices chosen) ip sidecar (a_final (grown (length chosen) a)) =
  take (length chosen) (attachments v (chosen ++ rest) (indices (chosen ++ rest)) ip sidecar (a_final a)).
Proof.
  unfold attachments, indices, count. rw -fmap_take take_seq length_app Nat.min_l; [|lia].
  apply list_fmap_ext; intros ? i [-> Hi]%lookup_seq. cbn.
  rw bool_decide_true //. by rw final_attachment_app // first_attachment_app.
Qed.
End more.

(** ** The indices of the new replicas *)
Lemma next_unused_first (used : gset Z) (next k : Z) :
  (∀ j, j ∈ used ↔ (0 ≤ j < k)%Z) → (0 ≤ next ≤ k)%Z → next_unused used next = k.
Proof.
  intros Hused Hnext. destruct (next_unused_spec used next) as (Hfree & Hle & Hskip).
  rw Hused in Hfree. destruct (Z.lt_trichotomy (next_unused used next) k) as [?|[?|?]]; [lia|done|].
  specialize (Hskip k ltac:(lia)). rw Hused in Hskip. lia.
Qed.
Lemma used_indices_named v (desired : Z) (ras : list ReplicaAttachment) (l : list nat) :
  ra_Name <$> ras = (λ i : nat, ReplicaName (vol_Name v) (Z.of_nat i)) <$> l →
  (∀ i, i ∈ l → Z.of_nat i < desired)%Z → (0 ≤ desired)%Z → (desired + 10 ≤ max_int64)%Z →
  ∀ j, j ∈ used_indices (vol_Name v) desired ras ↔ ∃ i : nat, i ∈ l ∧ j = Z.of_nat i.
Proof.
  intros Hn Hl Hpos Hmax j. assert (wrap64 (desired + 10) = desired + 10)%Z as Hw.
  { apply wrap64_id. unfold in_int64, min_int64. unfold max_int64 in *. lia. }
  unfold used_indices. rw Hw elem_of_list_to_set list_elem_of_omap. split.
  - intros (ra & Hra & [E _]%find_index_Some). apply (list_elem_of_fmap_2 ra_Name) in Hra. rw Hn in Hra.
    apply list_elem_of_fmap in Hra as (i & Hi & Hin). rw Hi in E. apply (inj (ReplicaName _)) in E as <-. by exists i.
  - intros (i & Hi & ->). assert (ReplicaName (vol_Name v) (Z.of_nat i) ∈ ra_Name <$> ras) as (ra & Hra & Hin)%list_elem_of_fmap.
    { rw Hn. apply list_elem_of_fmap. by exists i. }
    exists ra. split; [done|]. rw -Hra. apply find_index_complete. specialize (Hl i Hi). lia.
Qed.
Lemma used_indices_first v (desired : Z) (ras : list ReplicaAttachment) (k : nat) :
  ra_Name <$> ras = (λ i : nat, ReplicaName (vol_Name v) (Z.of_nat i)) <$> seq 0 k →
  (Z.of_nat k ≤ desired)%Z → (desired + 10 ≤ max_int64)%Z →
  ∀ j, j ∈ used_indices (vol_Name v) desired ras ↔ (0 ≤ j < Z.of_nat k)%Z.
Proof.
  intros Hn Hk Hmax j. rw (used_indices_named v desired ras (seq 0 k)) //; [|intros i Hi%elem_of_seq; lia|lia]. split.
  - intros (i & Hi%elem_of_seq & ->). lia.
  - intros Hj. exists (Z.to_nat j). rw elem_of_seq. lia.
Qed.

(** ** The pass that makes them *)
Section pass.
Context `{Environ, PodImages} {W} (h : handler ctl W) (view : W → store) `{!ApiServer h view}.
Context (ip : okey → string) (sidecar : string → SidecarStatus).
Abbreviation Lands := (lands h view).
Implicit Types (v : Volume) (chosen : list string) (s : store) (a : stages).

Lemma lands_unused_node used s (Q : string → store → Prop) :
  (∀ x, Q x s) → Lands (pickUnusedNode used) s Q.
Proof. intros HQ. unfold pickUnusedNode. lands_step. apply (lands_list _ _ KNode). intros l _. by lands_steps. Qed.

Lemma lands_scale_up_loop v chosen m used usedIndices next ras stored s a :
  children_at v chosen ip sidecar stored s a →
  (∀ i, length chosen ≤ i → a_running a i = false ∧ a_pod a i = None) →
  (∀ j, j ∈ usedIndices ↔ (0 ≤ j < Z.of_nat (length chosen))%Z) →
  (0 ≤ next ≤ Z.of_nat (length chosen))%Z →
  Lands (scale_up_loop v m used usedIndices next ras) s
    (λ r s', ∃ extra, length extra = m ∧
       r = Ok (ras ++ (first_attachment v (chosen ++ extra) <$> seq (length chosen) m)) ∧
       children_at v (chosen ++ extra) ip sidecar stored s' a ∧ objects KEngine s' = objects KEngine s).
Proof.
  revert chosen used usedIndices next ras s.
  induction m as [|m IH]; intros chosen used usedIndices next ras s Ha Hnew Hused Hnext; cbn [scale_up_loop].
  - lands_step. exists []. cbn. by rw !app_nil_r.
  - cbv zeta. rw (next_unused_first usedIndices next (Z.of_nat (length chosen))) //.
    lands_step. apply lands_unused_node. intros x. lands_step.
    assert (replica_for v (Z.of_nat (length chosen)) (placed_node v x) =
            replica_at v (chosen ++ [x]) (length chosen)) as ->
      by (unfold replica_at, node_at; by rw list_lookup_middle).
    assert (attachment_for v (Z.of_nat (length chosen)) (placed_node v x) =
            first_attachment v (chosen ++ [x]) (length chosen)) as ->
      by (unfold first_attachment, node_at; by rw list_lookup_middle).
    apply lands_create_if_missing; [done|].
    change (meta_okey (obj_meta KReplica (replica_at v _ _))) with (replica_okey v (length chosen)).
    destruct (ch_unmade _ _ _ _ _ _ _ Ha (length chosen)) as [-> _]; [done|].
    destruct (Hnew (length chosen)) as [Hrun Hpod]; [done|].
    eapply lands_mono; [eapply (IH (chosen ++ [x]))|].
    + by apply children_next.
    + intros i Hi. apply Hnew. rw length_app /= in Hi. lia.
    + intros j. rw elem_of_union elem_of_singleton Hused length_app /=. lia.
    + rw length_app /=. lia.
    + cbn beta. intros r s' (extra & <- & -> & Ha' & He). exists (x :: extra).
      replace (chosen ++ x :: extra) with ((chosen ++ [x]) ++ extra) by by rw -app_assoc.
      rw objects_keep_ne // in He. split_and!; [done| |done|done]. cbn [seq fmap list_fmap length].
      rw (first_attachment_app v (chosen ++ [x]) extra (length chosen)); [|rw length_app /=; lia].
      rw -app_assoc length_app Nat.add_1_r. done.
Qed.

(** The types of the replicas are right already. *)
Lemma attached_node v chosen final i : ra_NodeID (attached ip sidecar v chosen final i) = node_at v chosen i.
Proof.
  unfold attached, final_attachment. destruct (final i), (is_local v chosen i); try done.
  by destruct (SplitEndpoint _) as [[]|].
Qed.
Lemma lands_fix_types v chosen last volume stored s a final k m (Q : result unit → store → Prop) :
  at_stage v chosen (indices chosen) ip sidecar last stored s a → vol_meta volume = vol_meta v →
  vs_NodeID (vol_spec volume) = vs_NodeID (vol_spec v) → k + m = length chosen →
  Q (Ok tt) s → Lands (fix_types volume (attached ip sidecar v chosen final <$> seq k m)) s Q.
Proof.
  intros Ha Hm Hn. revert k. induction m as [|m IH]; intros k Hk HQ; cbn [seq fmap list_fmap fix_types].
  { by lands_steps. }
  lands_step. destruct (as_replica Ha k) as (st & Hf & _); [unfold count; lia|].
  assert (mkName (vol_Namespace volume) (ra_Name (attached ip sidecar v chosen final k)) = replica_name v k) as ->
    by (rw attached_name; unfold vol_Namespace; by rw Hm).
  eapply (lands_get_some _ _ KReplica); [exact Hf|]. cbn beta iota. unfold expected_type. rw attached_node Hn.
  rw bool_decide_false; [|by intros []]. apply IH; [lia|done].
Qed.

(** The volume, asked for another number of replicas.  The engine is configured
    with the attachments that it had. *)
Abbreviation had v chosen := (replicasHash (all_final v chosen (indices chosen) ip sidecar)).
Lemma lands_scale_up v chosen last s a st (n : Z) :
  at_stage v chosen (indices chosen) ip sidecar last v s a →
  objects KEngine s !! okey_of (engine_key v) = Some (engine_at v chosen (indices chosen) ip sidecar (a_final a) st : obj KEngine) →
  engine_status_at v chosen (indices chosen) ip sidecar last ERunning st →
  (Z.of_nat (length chosen) < n)%Z → (n + 10 ≤ max_int64)%Z →
  Lands (scaleUp v (engine_at v chosen (indices chosen) ip sidecar (a_final a) st) (Z.of_nat (length chosen)) n) s
    (λ r s', r = Ok tt ∧ ∃ extra stored', Z.of_nat (length (chosen ++ extra)) = n ∧
       at_stage v (chosen ++ extra) (indices (chosen ++ extra)) ip sidecar (had v chosen) stored' s' (grown (length chosen) a) ∧
       kept_volume v stored' ∧ vst_Phase (vol_status stored') = VolumePhaseDegraded).
Proof.
  intros Ha Hf Hst Hn Hmax. unfold scaleUp. cbv zeta. lands_step.
  eapply lands_mono.
  { apply (lands_scale_up_loop v chosen _ _ _ 0 _ v s (grown (length chosen) a)); [| | |lia].
    - apply grown_children, (as_children Ha).
    - intros i Hi. cbn. by rw (bool_decide_false (i < length chosen)); [|lia].
    - apply used_indices_first; [|lia|done]. cbn. unfold attachments, indices. rw -list_fmap_compose.
      apply list_fmap_ext. intros _ i _. exact (attached_name ip sidecar v chosen (a_final a) i). }
  intros r s1 (extra & Hlen & -> & Hch & Heng). cbn beta iota. lands_step.
  replace (eng_set_Replicas _ _) with (engine_at v (chosen ++ extra) (indices (chosen ++ extra)) ip sidecar (a_final (grown (length chosen) a)) st).
  2: { unfold engine_at. rw attachments_grown Hlen. done. }
  rw -Heng in Hf. eapply (lands_update _ _ KEngine); [exact Hf|]. cbn beta iota.
  unfold mark_scaling. lands_steps. set (stored' := vol_set_Conditions _ _).
  set (s2 := keep KEngine _ _ s1).
  assert (at_stage v (chosen ++ extra) (indices (chosen ++ extra)) ip sidecar (had v chosen) v s2 (grown (length chosen) a)) as Ha2.
  { split.
    - destruct Hch as [Hr Hp Hu Hep Hv]. unfold s2. split; try (by rw objects_keep_ne).
      intros i Hi. rw !objects_keep_ne //. by apply Hu.
    - exists st. unfold s2. rw objects_keep lookup_insert_eq. by split; [|split_and!; apply Hst].
    - done.
    - by intros []. }
  assert (meta_okey (obj_meta KVolume stored') = meta_okey (vol_meta v)) as Hkey by done.
  apply (lands_status _ _ KVolume stored' v); rw Hkey; [exact (as_volume Ha2)|]. lands_steps.
  split; [done|]. exists extra, stored'. split_and!; [rw length_app; lia|by eapply keep_volume|done..].
Qed.
(** *** Fewer replicas *)
Definition deleted v (i m : nat) s s' : Prop :=
  (∀ kd, kd ≠ KReplica → objects kd s' = objects kd s) ∧
  ∀ j, objects KReplica s' !! replica_okey v j =
       if decide (i ≤ j < i + m) then None else objects KReplica s !! replica_okey v j.
Lemma lands_scale_down_loop v m i s :
  Lands (scale_down_loop v m (Z.of_nat i)) s (λ r s', r = Ok tt ∧ deleted v i m s s').
Proof.
  revert i s. induction m as [|m IH]; intros i s; cbn [scale_down_loop].
  - lands_step. split; [done|]. split; [done|]. intros j. by rw decide_False; [|lia].
  - lands_step. replace (Z.of_nat i + 1)%Z with (Z.of_nat (S i)) by lia.
    assert (∀ s1, (∀ kd, kd ≠ KReplica → objects kd s1 = objects kd s) →
      (∀ j, objects KReplica s1 !! replica_okey v j = if decide (j = i) then None else objects KReplica s !! replica_okey v j) →
      Lands (scale_down_loop v m (Z.of_nat (S i))) s1 (λ r s', r = Ok tt ∧ deleted v i (S m) s s')) as Hrest.
    { intros s1 Ho Hr. eapply lands_mono; [apply IH|]. intros r s' [-> [Ho' Hr']]. split; [done|]. split.
      - intros kd Hkd. by rw Ho' // Ho.
      - intros j. rw Hr' Hr. repeat case_decide; try done; lia. }
    apply (lands_delete _ _ KReplica). change (okey_of _) with (replica_okey v i).
    destruct (objects KReplica s !! replica_okey v i) eqn:Hf; cbn beta iota.
    + apply Hrest; [intros kd Hkd; by rw objects_drop_ne|]. intros j. rw objects_drop.
      case_decide as Hj; [by subst; rw lookup_delete_eq|]. rw lookup_delete_ne //. by intros ?%replica_okey_inj.
    + intros e ->. apply Hrest; [done|]. intros j. case_decide; by subst.
Qed.
Lemma lands_scale_down v chosen rest last s a st :
  at_stage v (chosen ++ rest) (indices (chosen ++ rest)) ip sidecar last v s a →
  objects KEngine s !! okey_of (engine_key v) = Some (engine_at v (chosen ++ rest) (indices (chosen ++ rest)) ip sidecar (a_final a) st : obj KEngine) →
  engine_status_at v (chosen ++ rest) (indices (chosen ++ rest)) ip sidecar last ERunning st →
  Lands (scaleDown v (engine_at v (chosen ++ rest) (indices (chosen ++ rest)) ip sidecar (a_final a) st)
           (Z.of_nat (length (chosen ++ rest))) (Z.of_nat (length chosen))) s
    (λ r s', r = Ok tt ∧ ∃ stored', (∀ s'', collected v (length chosen) s' s'' →
         at_stage v chosen (indices chosen) ip sidecar (had v (chosen ++ rest)) stored' s'' (grown (length chosen) a)) ∧
       kept_volume v stored' ∧ vst_Phase (vol_status stored') = VolumePhaseDegraded).
Proof.
  intros Ha Hf Hst. unfold scaleDown. lands_step. eapply lands_mono; [apply lands_scale_down_loop|].
  intros r s1 [-> [Ho Hr]]. cbn beta iota. lands_step.
  replace (eng_set_Replicas _ _) with (engine_at v chosen (indices chosen) ip sidecar (a_final (grown (length chosen) a)) st).
  2: { unfold engine_at. rw (attachments_take v ip sidecar chosen rest) Nat2Z.id. done. }
  rw -(Ho KEngine) // in Hf. eapply (lands_update _ _ KEngine); [exact Hf|]. cbn beta iota.
  unfold mark_scaling. lands_steps. set (stored' := vol_set_Conditions _ _).
  assert (meta_okey (obj_meta KVolume stored') = meta_okey (vol_meta v)) as Hkey by done.
  apply (lands_status _ _ KVolume stored' v); rw Hkey.
  { rw objects_keep_ne // Ho //. exact (as_volume Ha). }
  lands_steps. split; [done|]. exists stored'. split_and!; [|done..].
  intros s'' Hcol. pose proof Hcol as (Hoc & _). split.
  - assert (children_at v (chosen ++ rest) ip sidecar stored' (keep KVolume (meta_okey (vol_meta v)) stored' s) a) as Hch
      by apply (as_children (keep_volume v _ _ ip sidecar last v stored' s a Ha)).
    eapply (children_collected v ip sidecar chosen rest); [exact Hch|..|exact Hcol].
    + intros i Hi. rw !objects_keep_ne // Hr. by rw decide_False; [|lia].
    + intros i Hi. rw !objects_keep_ne // Hr. case_decide as Hd; [done|].
      apply (ch_unmade _ _ _ _ _ _ _ (as_children Ha)). unfold count. rw length_app in Hd |- *. lia.
    + by rw !objects_keep_ne // Ho.
    + rw !objects_keep !objects_keep_ne // Ho //.
  - exists st. rw Hoc // objects_keep_ne // objects_keep lookup_insert_eq. split; [done|split_and!; apply Hst].
  - done.
  - by intros [].
Qed.

(** *** Another count *)
Definition rescaled v chosen a (n : Z) s' : Prop :=
  ∃ chosen' k stored', Z.of_nat (length chosen') = n ∧ k ≤ length chosen ∧
    (∀ i, i < k → is_local v chosen' i = is_local v chosen i) ∧
    (∀ s'', collected v (length chosen') s' s'' → at_stage v chosen' (indices chosen') ip sidecar (had v chosen) stored' s'' (grown k a)) ∧
    kept_volume v stored' ∧ vst_Phase (vol_status stored') = VolumePhaseDegraded.
Lemma lands_rescale v chosen last s a (n : Z) :
  at_stage v chosen (indices chosen) ip sidecar last v s a → a_engine a = ERunning → (∀ i, i < length chosen → a_running a i = true) →
  vst_EngineRef (vol_status v) ≠ None → vst_Phase (vol_status v) = VolumePhaseReady →
  wanted v (cluster_nodes s) = Some n → n ≠ Z.of_nat (length chosen) → (n + 10 ≤ max_int64)%Z →
  Lands (VolumeController.Reconcile (key_of (vol_meta v))) s
    (λ _ s', rescaled v chosen a n s').
Proof.
  intros Ha He Hrun Href Hph Hw Hn Hmax. unfold VolumeController.Reconcile. lands_step.
  eapply (lands_get_some _ _ KVolume); [exact (as_volume Ha)|]. cbn beta iota.
  destruct (vst_EngineRef (vol_status v)) as [ref|]; [|done].
  unfold reconcile_existing. lands_step.
  eapply (lands_childrenReady h view ip sidecar v chosen); [done|exact Ha|by left|done..|]. cbn beta iota.
  rw Hph bool_decide_false; [|by intros []]. cbn [andb]. lands_step.
  destruct (as_engine Ha) as (st & Hf & Hst). rw He in Hst.
  eapply (lands_get_some _ _ KEngine); [exact Hf|]. cbn beta iota. unfold settle. lands_step.
  assert (length (eng_Replicas (engine_at v chosen (indices chosen) ip sidecar (a_final a) st)) = length chosen) as Hlen
    by (cbn; unfold attachments, indices; by rw length_fmap length_seq).
  eapply (lands_fix_types v chosen last v v s a (a_final a) 0 (length chosen)); [exact Ha|done..|]. cbn beta iota.
  lands_step. eapply lands_wanted; [exact _|exact Hw|]. cbn beta iota. rw Hlen.
  rw (proj2 (Z.eqb_neq n _)) //. cbn [negb]. lands_step.
  unfold ensureScale. lands_step. eapply lands_wanted; [exact _|exact Hw|]. cbn beta iota zeta. rw Hlen.
  rw (proj2 (Z.eqb_neq n _)) //. pose proof (wanted_pos _ _ _ Hw).
  destruct (Z.gtb_spec n (Z.of_nat (length chosen))) as [Hgt|Hle].
  - eapply lands_mono; [by apply (lands_scale_up v chosen last); [..|lia|]|].
    intros r s' (-> & extra & stored' & Hlen' & Hat & Hkept & Hph'). lands_steps.
    exists (chosen ++ extra), (length chosen), stored'. split_and!; [done|done| | |done|done].
    + intros i Hi. by apply is_local_app.
    + intros s'' Hcol. eapply at_stage_collected; [exact Hat|done|exact Hcol].
  - assert (∃ kept rest, kept ++ rest = chosen ∧ n = Z.of_nat (length kept)) as (kept & rest & <- & ->).
    { exists (take (Z.to_nat n) chosen), (drop (Z.to_nat n) chosen). rw take_drop length_take. split; [done|lia]. }
    eapply lands_mono; [by eapply (lands_scale_down v kept rest last)|]. intros r s' (-> & stored' & Hat & Hkept & Hph'). lands_steps.
    exists kept, (length kept), stored'. split_and!; [done|rw length_app; lia| |done|done|done].
    intros i Hi. by rw is_local_app.
Qed.
End pass.

(** ** Properties *)
Section properties.
Context `{Environ, PodImages} {W} (h : handler ctl W) (view : W → store) `{!ApiServer h view}.
Context (rr : ReplicaReconciler) (c : option SidecarStatusClient).
Context (ip : okey → string) (sidecar : string → SidecarStatus) (kubelet : okey → W → W).
Context `{!Cooperative h view rr c ip sidecar kubelet}.
Abbreviation Reconcile_volume := (reconcile_volume h).
Abbreviation Performs := (BringUp.Performs h rr c kubelet).
Implicit Types v : Volume.

(** Somebody asks for another count, and nodes may come and go. *)
Definition asked_for (count : string) v : Volume :=
  mkVolume (vol_meta v)
    (mkVolumeSpec (vs_Size (vol_spec v)) (vs_StorageClassName (vol_spec v)) (vs_NodeID (vol_spec v)) count
       (vs_SnapshotSource (vol_spec v)))
    (vol_status v).
Definition asks v (count : string) (n : Z) (s s' : store) : Prop :=
  ∃ stored nodes, objects KVolume s !! meta_okey (vol_meta v) = Some (stored : obj KVolume) ∧
    s' = keep KVolume (meta_okey (vol_meta v)) (asked_for count stored) (set_objects KNode s nodes) ∧
    wanted (asked_for count stored) (cluster_nodes s') = Some n.

(** A stage depends on the volume's name, node, size and source only. *)
Lemma at_stage_alike v v' chosen order last stored s a :
  vol_meta v' = vol_meta v → vs_NodeID (vol_spec v') = vs_NodeID (vol_spec v) →
  vs_Size (vol_spec v') = vs_Size (vol_spec v) → vs_SnapshotSource (vol_spec v') = vs_SnapshotSource (vol_spec v) →
  at_stage v chosen order ip sidecar last stored s a → at_stage v' chosen order ip sidecar last stored s a.
Proof.
  destruct v as [m [] st], v' as [m' [] st']. cbn. intros -> -> -> -> [[Hr Hp Hu Hep Hv] He Ht Hfst]. by split.
Qed.
Lemma at_stage_nodes v chosen order last stored s nodes a :
  at_stage v chosen order ip sidecar last stored s a → at_stage v chosen order ip sidecar last stored (set_objects KNode s nodes) a.
Proof. intros [[Hr Hp Hu Hep Hv] He Ht Hfst]. split; [split|..]; intros; rw ?told_all_set ?objects_set_ne //; auto. Qed.

Lemma collected_meta v v' k s s' : vol_meta v' = vol_meta v → collected v k s s' → collected v' k s s'.
Proof. destruct v, v'; cbn. by intros ->. Qed.

(** C3. A volume that is up is scaled.  Take a volume that came up (from its
    creation, by six rounds), and let somebody ask for another number of
    replicas than it has (or, with an automatic count, let nodes come or go).
    After a pass of the volume controller, and once the pods of the deleted
    replicas, if any, are gone, six rounds in which every replica, the engine and
    the kubelet get a turn and a pass of the volume controller make the volume
    Ready again, with exactly as many replicas as are asked for, all Running,
    and an engine that is Running, whose attachments are exactly them and whose
    recorded hash is that of these attachments; and unless the hash is the one
    that was recorded before, the last request that the engine's sidecar accepted
    at its reconfigure address carries exactly these attachments.  The API server
    and the sidecars are those of BringUp.v, and the count asked for is at most ten
    below the largest integer.  That it is reconfigured holds at the end of the
    rounds: Ready alone does not say it ([ready_before_reconfigured]). *)
Theorem volume_rescales v (w w' w'' : W) (n n' : Z) (count : string) (rounds rounds' : list (list step)) :
  created v n (view w) → served_well ip sidecar v →
  let k := replicas_for n (cluster_nodes (view w)) in
  length rounds = 6 → Forall (complete_round k) rounds →
  asks v count n' (view (Reconcile_volume v (Performs v (concat rounds) (Reconcile_volume v w)))) (view w') →
  n' ≠ Z.of_nat k → (n' + 10 ≤ max_int64)%Z →
  collected v (Z.to_nat n') (view (Reconcile_volume v w')) (view w'') →
  length rounds' = 6 → Forall (complete_round (Z.to_nat n')) rounds' →
  let w3 := Reconcile_volume v (Performs v (concat rounds') w'') in
  volume_up ip sidecar v (Z.to_nat n') (view w3) ∧ reconfigured ip v (view w') (view w3).
Proof.
  intros Hcr Hs k Hsix Hrounds (stored & nodes & Hf & Hw' & Hn') Hk Hmax Hcol Hsix' Hrounds'.
  destruct (comes_up h view rr c ip sidecar kubelet v w n rounds Hcr Hs Hsix Hrounds)
    as (v1 & chosen & stored1 & a & Hlen & Hv1 & Hat & (He & Hc & Hrun) & Hph & Href & Hm & Hsp).
  pose proof (as_volume Hat) as Hf1. rw Hv1 Hf in Hf1. injection Hf1 as ->.
  set (v2 := asked_for count stored1) in *.
  assert (vol_meta v2 = vol_meta v) as Hv2 by (cbn; by rw Hm Hv1).
  assert (at_stage v2 chosen (indices chosen) ip sidecar "" v2 (view w') a) as Hat2.
  { apply (at_stage_alike v1); [by cbn; rw ?Hm ?Hsp..|]. rw Hw' -Hv1. eapply keep_volume, at_stage_nodes, Hat. }
  assert (is_local v2 chosen = is_local v1 chosen) as Hloc.
  { unfold is_local, node_at, placed_node. cbn. by rw Hsp. }
  destruct (lands_rescale h view ip sidecar v2 chosen _ (view w') a n' Hat2 He Hrun Href Hph Hn') with (w := w')
    as (chosen' & k' & stored3 & Hlen3 & Hk' & Hloc' & Hat3 & (Km & _ & Kr) & Hph3); [by rw Hlen|done|done|].
  change (run h _ w').2 with (Reconcile_volume v2 w') in Hat3. rw (reconcile_meta h v v2) // in Hat3.
  rw -Hlen3 Nat2Z.id. rw -Hlen3 !Nat2Z.id in Hcol, Hrounds'.
  assert (accepted v2 chosen' ip sidecar) as Hacc by by eapply served_accepted.
  destruct (rounds_ready h view rr c ip sidecar kubelet v2 chosen' (indices chosen') (replicasHash (all_final v2 chosen (indices chosen) ip sidecar)) stored3 w'' (grown k' a) rounds' ltac:(done) Hacc)
    as (stored4 & a4 & Hat4 & Hup4 & _ & Hready); [|  |done|done|by rw Kr|by rw Hph3|by rw Km|].
  { apply Hat3. by apply (collected_meta v). }
  { eapply grown_consistent; [|exact Hc|exact He]. intros i Hi. by rw Hloc' // Hloc. }
  rw (performs_meta h rr c kubelet v v2) // (reconcile_meta h v v2) // in Hat4. cbv zeta.
  destruct (engine_up ip sidecar v2 chosen (indices chosen) _ v2 (view w') a ltac:(done) Hat2 He) as (st & Hf2 & _);
    [by rw Hloc|].
  split; [eapply volume_up_meta|eapply reconfigured_meta]; [exact Hv2| |exact Hv2|].
  - eapply (stage_up ip sidecar v2 chosen' (indices chosen')); [done|exact Hacc|exact Hat4|exact Hup4|exact Hready].
  - eapply (stage_reconfigured ip sidecar v2 chosen' (indices chosen')); [done|exact Hf2|exact Hat4|apply Hup4..].
Qed.
End properties.

(** ** The site of BringUp.v, asked for a third replica, and for one *)
Section site.
#[local] Existing Instances site_environ site_images site_server site_cooperative.
Abbreviation Site_reconcile := (reconcile_volume site_handler site_volume).
Abbreviation Site_performs := (Performs site_handler site_reconciler None site_kubelet site_volume).
Definition site_stored : Volume := default site_volume (w_objs site_end KVolume !! ("ns", "v")).
Definition site_asked (count : string) : world :=
  set_objs KVolume (<[("ns", "v") := asked_for count site_stored]> (w_objs site_end KVolume)) site_end.
Lemma edited_view key (o : Volume) (w : world) :
  world_view (set_objs KVolume (<[key := o]> (w_objs w KVolume)) w) =
  keep KVolume key o (set_objects KNode (world_view w) (objects KNode (world_view w))).
Proof. by destruct w. Qed.
Lemma site_asks count n :
  wanted (asked_for count site_stored) (cluster_nodes (world_view (site_asked count))) = Some n →
  asks site_volume count n (world_view site_end) (world_view (site_asked count)).
Proof.
  intros Hn. exists site_stored, (objects KNode (world_view site_end)). split_and!.
  - vm_compute. reflexivity.
  - exact (edited_view ("ns", "v") (asked_for count site_stored) site_end).
  - exact Hn.
Qed.
Lemma site_end_eq :
  site_end = Site_reconcile (Site_performs (concat (replicate 6 site_round)) (Site_reconcile site_world)).
Proof. reflexivity. Qed.

Definition site_round3 : list step :=
  [RunReplica 0; RunReplica 2; StartEnginePod; RunReplica 1; StartReplicaPod 2; RunEngine; StartReplicaPod 0;
   StartReplicaPod 1].
Definition site_round1 : list step := [StartEnginePod; RunEngine; StartReplicaPod 0; RunReplica 0].
Lemma site_rounds_complete : complete_round 3 site_round3 ∧ complete_round 1 site_round1.
Proof.
  split; (split_and!; [repeat constructor|set_solver..|]); intros i Hi.
  - destruct i as [|[|[|]]]; [set_solver..|lia].
  - destruct i; [set_solver|lia].
Qed.

(** The pods of the deleted replicas go; here, at most that of replica 1. *)
Definition site_collect (w : world) : world :=
  set_objs KPod (delete ("ns", "v-replica-1-pod") (w_objs w KPod)) w.
Abbreviation site_grown := (Site_reconcile (site_asked "3")).
Abbreviation site_shrunk := (site_collect (Site_reconcile (site_asked "1"))).
Definition site_pods (w : world) : bool :=
  bool_decide (dom (w_objs w KPod) = {[("ns", "v-engine-pod"); pod_okey site_volume 1]}).
Lemma site_no_pods (w : world) i : site_pods w = true → 2 ≤ i → w_objs w KPod !! pod_okey site_volume i = None.
Proof.
  intros Hdom%bool_decide_eq_true_1 Hi. apply not_elem_of_dom. rw Hdom elem_of_union !elem_of_singleton.
  intros [E|E%pod_okey_inj]; [|lia]. by apply (pod_okey_engine site_volume i).
Qed.
Lemma none_collected (w : world) (k : nat) :
  site_pods w = true → 2 ≤ k → collected site_volume k (world_view w) (world_view w).
Proof. intros Hw Hk. split_and!; [done| |done]. intros i Hi. rw objects_view. apply site_no_pods; [done|lia]. Qed.
Lemma one_collected (w : world) :
  site_pods w = true → collected site_volume 1 (world_view w) (world_view (site_collect w)).
Proof.
  intros Hw. unfold site_collect. rw view_set_objs. split_and!.
  - intros kd Hkd. by rw objects_set_ne.
  - intros i Hi. rw objects_set. destruct (decide (i = 1)) as [->|Hne]; [apply lookup_delete_eq|].
    rw lookup_delete_ne; [|by intros ?%(pod_okey_inj site_volume 1)]. apply site_no_pods; [done|lia].
  - intros key Hkey. rw objects_set objects_view lookup_delete_ne; [done|]. intros <-. by apply (Hkey 1).
Qed.

(** From the request on. *)
Definition site_rescaled (round : list step) (w : world) : world :=
  Site_reconcile (Site_performs (concat (replicate 6 round)) w).
Definition rescaled_up (k : nat) (w w' : world) : Prop :=
  volume_up site_ip site_sidecar site_volume k (world_view w') ∧
  reconfigured site_ip site_volume (world_view w) (world_view w').
Definition told_engine (w : world) : bool := match w_told w !! reconfigureURL "10.0.0.9" with Some _ => true | None => false end.
Lemma volume_rescales_witness :
  (rescaled_up 3 (site_asked "3") (site_rescaled site_round3 site_grown) ∧
   told_engine (site_rescaled site_round3 site_grown) = true) ∧
  rescaled_up 1 (site_asked "1") (site_rescaled site_round1 site_shrunk) ∧
  told_engine (site_rescaled site_round1 site_shrunk) = true.
Proof.
  assert (replicas_for 2 (cluster_nodes (world_view site_world)) = 2) as Hk by (vm_compute; reflexivity).
  assert (Forall (complete_round 2) (replicate 6 site_round)) as Hr by apply Forall_replicate, site_round_complete.
  assert (∀ count n w' (w'' : world) round, asks site_volume count n (world_view site_end) (world_view w') →
    n ≠ 2%Z → (n + 10 ≤ max_int64)%Z →
    collected site_volume (Z.to_nat n) (world_view (Site_reconcile w')) (world_view w'') →
    complete_round (Z.to_nat n) round →
    rescaled_up (Z.to_nat n) w' (site_rescaled round w'')) as Hup.
  { intros count n w' w'' round Hasks Hn Hmax Hcol Hround. rw site_end_eq in Hasks.
    pose proof (volume_rescales site_handler world_view site_reconciler None site_ip site_sidecar site_kubelet
      site_volume site_world w' w'' 2 n count (replicate 6 site_round) (replicate 6 round)
      site_created site_served) as Hres.
    cbv zeta in Hres. rw Hk in Hres. apply Hres; [done|done|done|done|done|done|done|by apply Forall_replicate]. }
  destruct site_rounds_complete as [H3 H1]. split; (split; [|vm_compute; reflexivity]).
  - apply (Hup "3" 3%Z (site_asked "3") site_grown site_round3); [..|exact H3].
    + apply site_asks. vm_compute. reflexivity.
    + done.
    + vm_compute. discriminate.
    + apply none_collected; [vm_compute; reflexivity|lia].
  - apply (Hup "1" 1%Z (site_asked "1") site_shrunk site_round1); [..|exact H1].
    + apply site_asks. vm_compute. reflexivity.
    + done.
    + vm_compute. discriminate.
    + apply one_collected. vm_compute. reflexivity.
Defined.

(** The volume controller does not wait for the engine: when the third replica
    is Running and the engine, which is still Running over two, has not been
    reconfigured, a pass already publishes the volume as Ready. *)
Definition site_not_reconfigured : world :=
  Site_reconcile (Site_performs [RunReplica 2; StartReplicaPod 2; RunReplica 2] site_grown).
Definition phase_in (w : world) : option string :=
  (λ v : Volume, vst_Phase (vol_status v)) <$> (w_objs w KVolume !! ("ns", "v")).
Definition engine_in (w : world) : option (nat * string) :=
  (λ e : Engine, (length (eng_Replicas e), est_LastReplicasHash (eng_status e))) <$>
    (w_objs w KEngine !! ("ns", "v-engine")).
Theorem ready_before_reconfigured :
  phase_in site_grown = Some VolumePhaseDegraded ∧
  phase_in site_not_reconfigured = Some VolumePhaseReady ∧
  fst <$> engine_in site_not_reconfigured = Some 3 ∧
  snd <$> engine_in site_not_reconfigured = snd <$> engine_in site_end ∧
  snd <$> engine_in site_not_reconfigured ≠ snd <$> engine_in (site_rescaled site_round3 site_grown).
Proof. split_and!; [vm_compute; reflexivity..|vm_compute; discriminate]. Qed.
End site.
