(* ===== verification/Healing.v ===== *)
(** * A volume heals

    A replica of a volume that is up is lost, with its pod, over any API server
    of Store.v: the volume controller drops its attachment, and makes the replica
    again under the same name; by the machine of Stages.v it comes up, and the
    engine takes it back.  [healReplicas] is in VolumeHeal.v and [scaleUp] in
    VolumeScale.v. *)
From S2P Require Import Prelude GoStrings GoNet GoJson Sha256 K8s ApiTypes Names Network WireTypes Client MemStore Status AgentClient SidecarClient VolumeNodes VolumeScale VolumeHeal PodTemplates VolumeController ReplicaController EngineController Store Stages BringUp Scaling.

#[local] Arguments obj : simpl never.

(** ** The indices without one *)
Definition without (i n : nat) : list nat := seq 0 i ++ seq (S i) (n - S i).
Lemma seq_at i n : i < n → seq 0 n = seq 0 i ++ i :: seq (S i) (n - S i).
Proof. intros Hi. replace n with (i + S (n - S i)) at 1 by lia. by rw seq_app. Qed.
Lemma elem_of_without i n j : i < n → j ∈ without i n ↔ j < n ∧ j ≠ i.
Proof. intros Hi. unfold without. rw elem_of_app !elem_of_seq. lia. Qed.
Lemma length_without i n : i < n → length (without i n) = n - 1.
Proof. intros Hi. unfold without. rw length_app !length_seq. lia. Qed.
Lemma without_back i n : i < n → without i n ++ [i] ≡ₚ seq 0 n.
Proof. intros Hi. rw (seq_at i n Hi). unfold without. rw -app_assoc. by rw (Permutation_app_comm _ [i]). Qed.
Lemma filter_seq_ne i j n : i < j ∨ j + n ≤ i → filter (λ k, k ≠ i) (seq j n) = seq j n.
Proof.
  revert j. induction n as [|n IH]; intros j Hi; [done|]. cbn [seq]. rw filter_cons_True; [|lia]. by rw IH; [|lia].
Qed.
Lemma filter_without i n : i < n → filter (λ j, j ≠ i) (seq 0 n) = without i n.
Proof.
  intros Hi. rw (seq_at i n Hi) filter_app filter_cons_False; [|naive_solver]. unfold without.
  by rw !filter_seq_ne; [|lia..].
Qed.
Lemma remove_at (f : nat → ReplicaAttachment) i n :
  i < n → removeAttachment (f <$> seq 0 n) i = f <$> without i n.
Proof.
  intros Hi. unfold removeAttachment, without. rw (seq_at i n Hi) !fmap_app fmap_cons.
  rw take_app_length'; [|by rw length_fmap length_seq]. f_equal.
  rw drop_app length_fmap length_seq drop_ge; [|rw length_fmap length_seq; lia].
  by replace (S i - i) with 1 by lia.
Qed.

(** ** A replica is lost *)
Section bereft.
Context `{Environ, PodImages} (v : Volume) (chosen : list string) (i : nat).
Context (ip : okey → string) (sidecar : string → SidecarStatus).
Implicit Types (s : store) (order : list nat) (p : option bool).
Abbreviation Count := (count chosen).

(** Everything runs but replica [i], of which nothing is left; the engine has
    the attachments of the indices [order], and was configured with those that
    [last] is the hash of. *)
Record bereft last order p stored s : Prop := mkBereft {
  be_replica j : j < Count → j ≠ i → ∃ st,
    objects KReplica s !! replica_okey v j = Some (rep_set_status st (replica_at v chosen j) : obj KReplica) ∧
    replica_running v chosen ip sidecar j st;
  be_pod j : j < Count → j ≠ i →
    pod_at ip (if is_local v chosen j then None else Some true) (pod_okey v j)
      (pod_meta (export_pod (replica_at v chosen j))) (objects KPod s !! pod_okey v j);
  be_gone j : j = i ∨ Count ≤ j →
    objects KReplica s !! replica_okey v j = None ∧ objects KPod s !! pod_okey v j = None;
  be_engine_pod : pod_at ip p (engine_pod_okey v) (engine_pod_meta v) (objects KPod s !! engine_pod_okey v);
  be_volume : objects KVolume s !! meta_okey (vol_meta v) = Some (stored : obj KVolume);
  be_engine : ∃ st,
    objects KEngine s !! okey_of (engine_key v) = Some (engine_at v chosen order ip sidecar (λ _, true) st : obj KEngine) ∧
    est_PodRef st = Some (engine_pod_ref v) ∧ engine_serves v ip sidecar st ∧ est_LastReplicasHash st = last }.

(** What is left when the replica and its pod are deleted. *)
Definition lost s : store := drop_key KPod (pod_okey v i) (drop_key KReplica (replica_okey v i) s).
Lemma lost_bereft last stored s a :
  at_stage v chosen (indices chosen) ip sidecar last stored s a → a_engine a = ERunning →
  consistent Count (is_local v chosen) a → (∀ j, j < Count → a_running a j = true) → i < Count →
  bereft (replicasHash (all_final v chosen (indices chosen) ip sidecar)) (indices chosen) (a_epod a) stored (lost s).
Proof.
  intros [[Hr Hp Hu Hep Hv] (st & He & Hst) _ _] Heng Hc Hrun Hi. rw Heng in Hst. unfold lost. split.
  - intros j Hj Hne. destruct (Hr j Hj) as (rst & Hf & Hrst). rw Hrun // in Hrst.
    exists rst. rw objects_drop_ne // objects_drop lookup_delete_ne //. by intros ?%replica_okey_inj.
  - intros j Hj Hne. rw objects_drop objects_drop_ne // lookup_delete_ne; [|by intros ?%pod_okey_inj].
    specialize (Hp j Hj). destruct (is_local v chosen j) eqn:Hloc; [done|]. by rw (cs_pod _ _ _ Hc j Hloc (Hrun j Hj)) in Hp.
  - intros j Hj. rw objects_drop (objects_drop_ne KReplica KPod) // (objects_drop_ne KPod KReplica) // objects_drop.
    rw !lookup_delete_None. split.
    + destruct (decide (j = i)) as [->|]; [by left|right]. apply Hu. lia.
    + destruct (decide (j = i)) as [->|]; [by left|right]. apply Hu. lia.
  - rw objects_drop objects_drop_ne // lookup_delete_ne //. apply pod_okey_engine.
  - by rw !objects_drop_ne.
  - exists st. rw !objects_drop_ne // He. split; [|split_and!; apply Hst]. unfold engine_at.
    assert (attachments v chosen (indices chosen) ip sidecar (a_final a) = all_final v chosen (indices chosen) ip sidecar) as ->; [|done].
    apply list_fmap_ext. intros _ j [_ Hj]%list_elem_of_lookup_2%elem_of_seq. rw (cs_final _ _ _ Hc) //. by rw Heng.
Qed.

(** The engine drops the attachment. *)
Lemma drop_bereft stored s last order order' p :
  bereft last order p stored s → ∀ stored' st,
  objects KEngine s !! okey_of (engine_key v) = Some (engine_at v chosen order ip sidecar (λ _, true) st : obj KEngine) →
  bereft last order' p stored'
    (keep KVolume (meta_okey (vol_meta v)) stored'
       (keep KEngine (okey_of (engine_key v)) (engine_at v chosen order' ip sidecar (λ _, true) st) s)).
Proof.
  intros [Hr Hp Hg Hep Hv (st' & He & Hst)] stored' st Hf. rw He in Hf. injection Hf as [= <-]. split.
  1-4: intros; rw !objects_keep_ne //; auto.
  - by rw objects_keep lookup_insert_eq.
  - exists st'. rw objects_keep_ne // objects_keep lookup_insert_eq. done.
Qed.

(** The replica is made again, on some node, and attached again. *)
Definition remade p : stages :=
  mkStages (λ j, bool_decide (j ≠ i)) (λ j, if decide (j = i) then None else Some true)
    (λ j, bool_decide (j ≠ i)) EStale p.
Lemma remade_consistent n local p : p ≠ None → consistent n local (remade p).
Proof.
  intros Hp. split; [|done|done]. intros j _. cbn. rw bool_decide_eq_true. intros Hj. by rw decide_False.
Qed.
Lemma node_at_set x j : j ≠ i → node_at v (<[i := x]> chosen) j = node_at v chosen j.
Proof. intros Hj. unfold node_at. by rw list_lookup_insert_ne. Qed.
Lemma replica_at_set x j : j ≠ i → replica_at v (<[i := x]> chosen) j = replica_at v chosen j.
Proof. intros Hj. unfold replica_at. by rw node_at_set. Qed.
Lemma is_local_set x j : j ≠ i → is_local v (<[i := x]> chosen) j = is_local v chosen j.
Proof. intros Hj. unfold is_local. by rw node_at_set. Qed.
Lemma final_attachment_set x j :
  j ≠ i → final_attachment v (<[i := x]> chosen) ip sidecar j = final_attachment v chosen ip sidecar j.
Proof. intros Hj. unfold final_attachment, first_attachment. by rw is_local_set // node_at_set. Qed.
Lemma node_at_new x : i < Count → node_at v (<[i := x]> chosen) i = placed_node v x.
Proof. intros Hi. unfold node_at. by rw list_lookup_insert_eq. Qed.

Lemma children_remade last order p stored x s :
  bereft last order p stored s → i < Count →
  children_at v (<[i := x]> chosen) ip sidecar stored
    (keep KReplica (replica_okey v i) (replica_at v (<[i := x]> chosen) i) s) (remade p).
Proof.
  intros [Hr Hp Hg Hep Hv _] Hi.
  assert (∀ j, j < count (<[i := x]> chosen) ↔ j < Count) as Hcount by (intros j; unfold count; by rw length_insert).
  split; try by rw objects_keep_ne.
  - intros j Hj%Hcount. rw objects_keep. destruct (decide (j = i)) as [->|Hne].
    + exists zeroReplicaStatus. rw lookup_insert_eq. cbn. by rw bool_decide_false; [|naive_solver].
    + rw lookup_insert_ne; [|by intros ?%replica_okey_inj]. destruct (Hr j Hj Hne) as (st & Hf & Hst).
      exists st. rw replica_at_set //. cbn. rw bool_decide_true //. split; [done|].
      destruct Hst as [Hph Hst]. split; [done|]. by rw is_local_set.
  - intros j Hj%Hcount. rw objects_keep_ne //. cbn. destruct (decide (j = i)) as [->|Hne].
    + destruct (Hg i) as [_ ->]; [by left|]. by destruct (is_local _ _ _).
    + rw is_local_set // replica_at_set //. by apply Hp.
  - intros j Hj. rw /count length_insert in Hj. rw objects_keep (objects_keep_ne KPod) // lookup_insert_ne; [apply Hg; by right|].
    intros ?%replica_okey_inj. unfold count in Hi. lia.
Qed.
Lemma attachments_remade order p x :
  i < Count → (∀ j, j ∈ order → j ≠ i) →
  attachments v (<[i := x]> chosen) (order ++ [i]) ip sidecar (a_final (remade p)) =
  all_final v chosen order ip sidecar ++ [attachment_for v (Z.of_nat i) (placed_node v x)].
Proof.
  intros Hi Horder. unfold all_final, attachments. rw fmap_app. f_equal.
  - apply list_fmap_ext. intros _ j Hj%list_elem_of_lookup_2%Horder. cbn. by rw bool_decide_true // final_attachment_set.
  - cbn. rw bool_decide_false; [|naive_solver]. unfold first_attachment. by rw node_at_new.
Qed.
End bereft.

(** ** The passes of the volume controller *)
Section pass.
Context `{Environ, PodImages} {W} (h : handler ctl W) (view : W → store) `{!ApiServer h view}.
Context (ip : okey → string) (sidecar : string → SidecarStatus).
Context (v : Volume) (chosen : list string) (i : nat) (p : option bool) (last : string) (Hi : i < count chosen).
Abbreviation Lands := (lands h view).
Abbreviation Count := (count chosen).
Abbreviation IsLocal := (is_local v chosen).
Abbreviation Bereft := (bereft v chosen i ip sidecar last).
Abbreviation Final := (attached ip sidecar v chosen (λ _, true)).
Abbreviation EngineAt := (λ order st, engine_at v chosen order ip sidecar (λ _, true) st).
Implicit Types (s : store) (order l : list nat).

Lemma engine_attachments order st : eng_Replicas (EngineAt order st) = Final <$> order.
Proof. done. Qed.

(** *** The replicas are looked at *)
Lemma lands_children_bereft order s (Q : result bool → store → Prop) :
  Bereft order p v s → (∀ j, j ∈ order → j < Count) →
  Q (Ok (bool_decide (i ∉ order))) s → Lands (childrenReady v) s Q.
Proof.
  intros Hb Hin HQ. unfold childrenReady. lands_step. destruct (be_engine _ _ _ _ _ _ _ _ _ _ Hb) as (st & Hf & _ & Hst).
  eapply (lands_get_some _ _ KEngine); [exact Hf|]. cbn beta iota.
  change (est_Phase (eng_status (EngineAt order st))) with (est_Phase st). rw (proj1 (proj1 Hst)).
  rw bool_decide_false; [|by intros []]. rw engine_attachments. clear Hf Hst. 
  assert (∀ l, (∀ j, j ∈ l → j < Count) → bool_decide (i ∉ l) = bool_decide (i ∉ order) →
    Lands (replicas_running (vol_Namespace v) (Final <$> l)) s Q) as Hall; [|by apply Hall].
  induction l as [|j l IH]; intros Hl Heq; cbn [fmap list_fmap replicas_running].
  - lands_step. rw (bool_decide_true (i ∉ [])) in Heq; [|set_solver]. by rw Heq.
  - lands_step. rw attached_name. destruct (decide (j = i)) as [->|Hne].
    + apply (lands_get _ _ KReplica). change (okey_of _) with (replica_okey v i).
      destruct (be_gone _ _ _ _ _ _ _ _ _ _ Hb i) as [-> _]; [by left|]. intros r (e & -> & He).
      unfold IgnoreNotFound. rw He. lands_step. rw bool_decide_false in Heq; [by rw Heq|set_solver].
    + destruct (be_replica _ _ _ _ _ _ _ _ _ _ Hb j) as (rst & Hf & Hph & _); [apply Hl; set_solver|done|].
      eapply (lands_get_some _ _ KReplica); [exact Hf|]. cbn beta iota.
      change (rep_status (rep_set_status rst _)) with rst. rw Hph. rw bool_decide_false; [|by intros []].
      apply IH; [set_solver|]. rw -Heq. apply bool_decide_ext. set_solver.
Qed.
Lemma lands_fix_bereft order l s (Q : result unit → store → Prop) :
  Bereft order p v s → (∀ j, j ∈ l → j < Count) → Q (Ok tt) s → Lands (fix_types v (Final <$> l)) s Q.
Proof.
  intros Hb. induction l as [|j l IH]; intros Hl HQ; cbn [fmap list_fmap fix_types]; lands_step; [done|].
  rw attached_name. destruct (decide (j = i)) as [->|Hne].
  - apply (lands_get _ _ KReplica). change (okey_of _) with (replica_okey v i).
    destruct (be_gone _ _ _ _ _ _ _ _ _ _ Hb i) as [-> _]; [by left|]. intros r (e & -> & He).
    apply IH; [set_solver|done].
  - destruct (be_replica _ _ _ _ _ _ _ _ _ _ Hb j) as (rst & Hf & Hph & _); [apply Hl; set_solver|done|].
    eapply (lands_get_some _ _ KReplica); [exact Hf|]. cbn beta iota.
    unfold expected_type. rw attached_node. rw bool_decide_false; [|by intros []]. apply IH; [set_solver|done].
Qed.
Context (Hip : ∀ key, ip key ≠ "") (Hacc : accepted v chosen ip sidecar).
(** Every pod is kept under its own name. *)
Definition pods_keyed s : Prop := ∀ key pod, objects KPod s !! key = Some (pod : obj KPod) → meta_okey (pod_meta pod) = key.
Lemma lands_pod_by_name order s j (Q : option Pod → store → Prop) :
  Bereft order p v s → pods_keyed s → j < Count → j ≠ i → IsLocal j = false →
  (∀ pod, pst_Phase (pod_status pod) = PodRunning → Q (Some pod) s) →
  Lands (getReplicaPodByName (vol_Namespace v) (ReplicaName (vol_Name v) (Z.of_nat j))) s Q.
Proof.
  intros Hb Hkeyed Hj Hne Hloc HQ. unfold getReplicaPodByName. lands_step. apply (lands_list _ _ KPod). intros l Hl.
  cbn beta iota. pose proof (be_pod _ _ _ _ _ _ _ _ _ _ Hb j Hj Hne) as Hp. rw Hloc in Hp.
  destruct Hp as (pod & Hf & Hm & Hup).
  match goal with |- context [list_find ?P l] => destruct (list_find P l) as [[n q]|] eqn:Hfind end; lands_step.
  - apply list_find_Some in Hfind as (Hn%list_elem_of_lookup_2 & [Hname _] & _). apply HQ.
    rw Hl in Hn. apply (proj1 (listing_spec KPod _ _ _ q)) in Hn as (Hns & _ & key & Hkey). cbn in Hns. apply bool_decide_eq_true in Hns.
    pose proof (Hkeyed key q Hkey) as <-. replace (meta_okey (pod_meta q)) with (pod_okey v j) in Hkey.
    + rw Hf in Hkey. injection Hkey as <-. by rw Hup.
    + unfold meta_okey, pod_okey. rw Hname. f_equal. done.
  - exfalso. apply list_find_None in Hfind. rw Forall_forall in Hfind. apply (Hfind pod).
    + rw Hl. apply (proj2 (listing_spec KPod _ _ _ pod)). split_and!; [| |by eexists].
      * cbn. rw Hm. cbn. by rw bool_decide_true.
      * change (obj_meta KPod pod) with (pod_meta pod). rw Hm. vm_compute. reflexivity.
    + rw Hm Hup. split; [done|]. apply Hip.
Qed.

(** *** The healing pass *)
Definition health_of j (h : ReplicaHealth) : Prop :=
  rh_Phase h = if decide (j = i) then "Missing" else "Running".
Lemma lands_assess order l s nh c :
  Bereft order p v s → pods_keyed s → (∀ j, j ∈ l → j < Count) → (∀ j, j ∈ l → j ≠ i → IsLocal j = false) →
  Lands (assess v (Final <$> l) nh c) s
    (λ r s', s' = s ∧ ∃ hs, Forall2 health_of l hs ∧
       r = Ok (nh ++ hs, (c + Z.of_nat (length (filter (λ j, j ≠ i) l)))%Z)).
Proof.
  intros Hb Hkeyed. revert nh c. induction l as [|j l IH]; intros nh c Hl Hloc; cbn [fmap list_fmap assess].
  { lands_step. split; [done|]. exists []. split; [done|]. by rw app_nil_r Z.add_0_r. }
  lands_step.
  assert (∀ h, health_of j h → Lands (assess v (Final <$> l) (nh ++ [h]) (if decide (j = i) then c else c + 1)%Z) s
    (λ r s', s' = s ∧ ∃ hs, Forall2 health_of (j :: l) hs ∧
       r = Ok (nh ++ hs, (c + Z.of_nat (length (filter (λ j, j ≠ i) (j :: l))))%Z))) as Hrest.
  { intros hl Hh. eapply lands_mono; [apply IH; [set_solver|naive_solver set_solver]|].
    intros r s' (-> & hs & Hhs & ->). split; [done|]. exists (hl :: hs). split; [by constructor|].
    rw -app_assoc filter_cons. f_equal. f_equal. repeat case_decide; cbn [length]; try done; lia. }
  unfold assess_one. lands_step. rw attached_name. destruct (decide (j = i)) as [->|Hne].
  - apply (lands_get _ _ KReplica). change (okey_of _) with (replica_okey v i).
    destruct (be_gone _ _ _ _ _ _ _ _ _ _ Hb i) as [-> _]; [by left|]. intros r (e & -> & He). cbn beta iota. rw He.
    lands_step. apply Hrest. unfold health_of. by rw decide_True.
  - destruct (be_replica _ _ _ _ _ _ _ _ _ _ Hb j) as (rst & Hf & Hph & Hst); [apply Hl; set_solver|done|].
    destruct (Hst (Hloc j ltac:(set_solver) Hne)) as [Hnqn _].
    eapply (lands_get_some _ _ KReplica); [exact Hf|]. cbn beta iota zeta.
    change (rep_status (rep_set_status rst _)) with rst. rw Hph Hnqn.
    rw (bool_decide_true (ReplicaPhaseRunning = "Running")) //. lands_step.
    eapply (lands_pod_by_name order); [done|done|apply Hl; set_solver|done|apply Hloc; set_solver|].
    intros pod Hpod. cbn beta iota zeta. rw Hpod bool_decide_true //.
    destruct (accepted_export ip sidecar v chosen Hacc j) as [Hn _]; [apply Hl; set_solver|apply Hloc; set_solver|].
    rw bool_decide_true //. cbn [andb]. lands_step. apply Hrest. unfold health_of. by rw decide_False.
Qed.
(** A replica that runs is passed over, whatever its cooldown. *)
Lemma lands_heal_running volume engine nh k ra hl cooldown s (Q : Z + result Healed → store → Prop) :
  rh_Phase hl = "Running" → (∀ c, Q (inl c) s) → Lands (heal_one volume engine nh k ra hl cooldown) s Q.
Proof.
  intros Hph HQ. unfold heal_one. rw Hph. rw !bool_decide_false; [|discriminate..]. cbn [orb].
  destruct (healingBackoff _) as [backoff ex]. lands_step.
  assert (∀ R : Z → store → Prop, (∀ r, R r s) → Lands (remaining_of backoff (rh_LastHealTime hl)) s R) as Hrem.
  { intros R HR. unfold remaining_of, Since. destruct (rh_LastHealTime hl); lands_steps; [|done].
    apply lands_time; [exact _|]. intros now. lands_steps. apply HR. }
  apply Hrem. intros r. case_match; by lands_steps.
Qed.
Lemma lands_heal_loop volume engine nh k ras1 ra ras2 hs1 hl hs2 cooldown s (Q : Z + result Healed → store → Prop) :
  length ras1 = length hs1 → Forall (λ hl, rh_Phase hl = "Running") hs1 → rh_Phase hl = "Missing" →
  Lands (drop_attachment volume engine (k + length hs1) ra "RemovedMissing"
           (λ n, "removed stale attachment for missing replica " +:+ n)) s (λ r s', Q (inr r) s') →
  Lands (heal_loop volume engine nh k (zip (ras1 ++ ra :: ras2) (hs1 ++ hl :: hs2)) cooldown) s Q.
Proof.
  intros Hlen Hrun Hmiss. revert k ras1 Hlen cooldown. induction Hrun as [|h1 hs1 Hh1 _ IH]; intros k ras1 Hlen cooldown Hdrop.
  - destruct ras1; [|done]. cbn [app zip_with heal_loop]. lands_step. unfold heal_one. rw Hmiss bool_decide_true //.
    cbn in Hdrop. rw Nat.add_0_r in Hdrop. lands_step. eapply lands_mono; [exact Hdrop|]. intros r s' HQ. by lands_steps.
  - destruct ras1 as [|ra1 ras1]; [done|]. injection Hlen as Hlen. cbn [app zip_with heal_loop]. lands_step.
    apply lands_heal_running; [done|]. intros c. cbn beta iota. apply IH; [done|].
    cbn [length] in Hdrop. by rw Nat.add_succ_r in Hdrop.
Qed.

Lemma lands_drop s st nh msg reason ra (Q : result Healed → store → Prop) :
  Bereft (indices chosen) p v s →
  objects KEngine s !! okey_of (engine_key v) = Some (EngineAt (indices chosen) st : obj KEngine) →
  (∀ stored' s', Bereft (without i Count) p stored' s' → kept_volume v stored' →
     vst_Phase (vol_status stored') = vst_Phase (vol_status v) → cluster_nodes s' = cluster_nodes s → Q (Ok (true, 0%Z)) s') →
  Lands (drop_attachment (vol_set_ReplicaHealth nh v) (EngineAt (indices chosen) st) i ra reason msg) s Q.
Proof.
  intros Hb Hf HQ. unfold drop_attachment. lands_step. rw engine_attachments. unfold indices. rw remove_at //.
  change (eng_set_Replicas _ _) with (EngineAt (without i Count) st).
  eapply (lands_update _ _ KEngine); [exact Hf|]. cbn beta iota. unfold heal_return. lands_steps. set (stored' := vol_set_Conditions _ _).
  change (with_status_of KEngine _ _) with (EngineAt (without i Count) st).
  assert (meta_okey (obj_meta KVolume stored') = meta_okey (vol_meta v)) as Hkey by done.
  apply (lands_status _ _ KVolume stored' v); rw Hkey; [rw objects_keep_ne //; exact (be_volume _ _ _ _ _ _ _ _ _ _ Hb)|].
  lands_steps. apply (HQ stored'); [by eapply drop_bereft|done|done|].
  unfold cluster_nodes, listing. by rw !objects_keep_ne.
Qed.
Lemma lands_healReplicas s st (Q : result Healed → store → Prop) :
  Bereft (indices chosen) p v s → pods_keyed s → (∀ j, j < Count → j ≠ i → IsLocal j = false) →
  wanted v (cluster_nodes s) = Some (Z.of_nat Count) →
  objects KEngine s !! okey_of (engine_key v) = Some (EngineAt (indices chosen) st : obj KEngine) →
  (∀ stored' s', Bereft (without i Count) p stored' s' → kept_volume v stored' →
     vst_Phase (vol_status stored') = vst_Phase (vol_status v) → cluster_nodes s' = cluster_nodes s → Q (Ok (true, 0%Z)) s') →
  Lands (healReplicas v (EngineAt (indices chosen) st)) s Q.
Proof.
  intros Hb Hkeyed Hloc Hw Hf HQ. unfold healReplicas. lands_step. eapply lands_wanted; [exact _|exact Hw|]. lands_step.
  rw engine_attachments. assert (∀ j, j ∈ indices chosen → j < Count) as Hin by (intros j [_ Hj]%elem_of_seq; done).
  eapply lands_mono; [apply (lands_assess (indices chosen)); [done|done|done|auto]|].
  intros r s' (-> & hs & Hhs & ->). cbn beta iota zeta. unfold indices. rw filter_without // length_without // app_nil_l.
  replace (_ <? _)%Z with false by (symmetry; apply Z.ltb_ge; case_match; lia).
  unfold indices in Hhs. rw (seq_at i Count Hi) in Hhs. apply Forall2_app_inv_l in Hhs as (hs1 & hs' & H1 & H2 & ->).
  apply Forall2_cons_inv_l in H2 as (hl & hs2 & Hh & H2 & ->).
  lands_step. rw {2}(seq_at i Count Hi) fmap_app fmap_cons.
  apply lands_heal_loop.
  - rw length_fmap. by eapply Forall2_length.
  - apply Forall_forall. intros h1 (n & Hn)%list_elem_of_lookup.
    destruct (Forall2_lookup_r _ _ _ _ _ H1 Hn) as (j & Hj & Hhj). apply list_elem_of_lookup_2, elem_of_seq in Hj.
    unfold health_of in Hhj. rw decide_False // in Hhj. lia.
  - unfold health_of in Hh. by rw decide_True in Hh.
  - apply Forall2_length in H1. rw length_seq in H1. rw -H1. eapply lands_mono; [by apply (lands_drop s st)|].
    intros r s' HR. by lands_steps.
Qed.
Lemma in_indices j : j ∈ indices chosen ↔ j < Count.
Proof. unfold indices. rw elem_of_seq. lia. Qed.
Lemma lands_heals s :
  Bereft (indices chosen) p v s → pods_keyed s → (∀ j, j < Count → j ≠ i → IsLocal j = false) →
  wanted v (cluster_nodes s) = Some (Z.of_nat Count) → vst_EngineRef (vol_status v) ≠ None →
  Lands (VolumeController.Reconcile (key_of (vol_meta v))) s
    (λ _ s', ∃ stored', Bereft (without i Count) p stored' s' ∧ kept_volume v stored' ∧
       vst_Phase (vol_status stored') = vst_Phase (vol_status v) ∧ cluster_nodes s' = cluster_nodes s).
Proof.
  intros Hb Hkeyed Hloc Hw Href. unfold VolumeController.Reconcile. lands_step.
  eapply (lands_get_some _ _ KVolume); [exact (be_volume _ _ _ _ _ _ _ _ _ _ Hb)|]. cbn beta iota.
  destruct (vst_EngineRef (vol_status v)) as [ref|]; [|done]. unfold reconcile_existing. lands_step.
  eapply lands_children_bereft; [exact Hb|intros j; apply in_indices|].
  rw bool_decide_false; [|intros Hn; by apply Hn, in_indices]. cbn [andb]. lands_step.
  destruct (be_engine _ _ _ _ _ _ _ _ _ _ Hb) as (st & Hf & _).
  eapply (lands_get_some _ _ KEngine); [exact Hf|]. cbn beta iota. unfold settle. lands_step.
  rw engine_attachments. eapply lands_fix_bereft; [exact Hb|intros j; apply in_indices|]. lands_step.
  eapply lands_wanted; [exact _|exact Hw|]. cbn beta iota. rw length_fmap /indices length_seq Z.eqb_refl. cbn [negb].
  unfold heal_or_wait. lands_step. apply (lands_healReplicas s st); [done..|].
  intros stored' s' Hb' Hk Hph Hn. lands_steps. by exists stored'.
Qed.

(** *** The pass that makes the replica again *)
Lemma next_unused_gap (used : gset Z) (n : nat) :
  (∀ j, j ∈ used ↔ ∃ k : nat, k ∈ without i n ∧ j = Z.of_nat k) → i < n → next_unused used 0 = Z.of_nat i.
Proof.
  intros Hused Hn. destruct (next_unused_spec used 0) as (Hfree & Hle & Hskip).
  destruct (Z.lt_trichotomy (next_unused used 0) (Z.of_nat i)) as [Hlt|[?|Hgt]]; [|done|].
  - destruct Hfree. apply Hused. exists (Z.to_nat (next_unused used 0)). rw elem_of_without //. lia.
  - specialize (Hskip (Z.of_nat i) ltac:(lia)). apply Hused in Hskip as (k & Hk & E). rw elem_of_without // in Hk. lia.
Qed.
Definition remade_at s' : Prop :=
  ∃ x stored', at_stage v (<[i := x]> chosen) (without i Count ++ [i]) ip sidecar last stored' s' (remade i p) ∧
    kept_volume v stored' ∧ vst_Phase (vol_status stored') = VolumePhaseDegraded.
Lemma lands_scale_one s st :
  Bereft (without i Count) p v s → (Z.of_nat Count + 10 ≤ max_int64)%Z →
  objects KEngine s !! okey_of (engine_key v) = Some (EngineAt (without i Count) st : obj KEngine) →
  Lands (scaleUp v (EngineAt (without i Count) st) (Z.of_nat (Count - 1)) (Z.of_nat Count)) s
    (λ r s', r = Ok tt ∧ remade_at s').
Proof.
  intros Hb Hmax Hf. unfold scaleUp. cbv zeta. lands_step. rw engine_attachments.
  replace (Z.to_nat (Z.of_nat Count - Z.of_nat (Count - 1))) with 1 by lia. cbn [scale_up_loop]. cbv zeta.
  rw (next_unused_gap _ Count) //; cycle 1.
  { apply used_indices_named; [|intros j Hj; rw elem_of_without // in Hj; lia|lia|done].
    rw -list_fmap_compose. apply list_fmap_ext. intros _ j _. apply attached_name. }
  lands_step. apply lands_unused_node; [exact _|]. intros x. lands_step.
  pose proof (children_remade v chosen i ip sidecar _ _ _ _ x _ Hb Hi) as Hch.
  assert (∀ j, j ∈ without i Count → j ≠ i) as Hne by (intros j Hj; by apply elem_of_without in Hj as [_ ?]).
  pose proof (attachments_remade v chosen i ip sidecar (without i Count) p x Hi Hne) as Hat.
  rw -{1}(node_at_new v chosen i x Hi). change (replica_for v _ (node_at _ _ i)) with (replica_at v (<[i:=x]> chosen) i).
  apply lands_create_if_missing; [done|].
  change (meta_okey (obj_meta KReplica (replica_at _ _ _))) with (replica_okey v i).
  destruct (be_gone _ _ _ _ _ _ _ _ _ _ Hb i) as [-> _]; [by left|]. lands_steps.
  rw -Hat. change (eng_set_Replicas _ _) with (engine_at v (<[i:=x]> chosen) (without i Count ++ [i]) ip sidecar (a_final (remade i p)) st).
  eapply (lands_update _ _ KEngine); [by rw objects_keep_ne|]. cbn beta iota.
  unfold mark_scaling. lands_steps. set (stored' := vol_set_Conditions _ _).
  assert (meta_okey (obj_meta KVolume stored') = meta_okey (vol_meta v)) as Hkey by done.
  apply (lands_status _ _ KVolume stored' v); rw Hkey; [rw !objects_keep_ne //; exact (be_volume _ _ _ _ _ _ _ _ _ _ Hb)|].
  lands_steps. split; [done|]. exists x, stored'. split_and!; [|done..].
  apply (keep_volume v _ _ ip sidecar last v stored'). destruct Hch as [Hr Hp Hu Hep Hv]. split.
  - split; try by rw objects_keep_ne. intros j Hj. rw !(objects_keep_ne _ KEngine) //. by apply Hu.
  - exists st. rw objects_keep lookup_insert_eq. split; [done|].
    destruct (be_engine _ _ _ _ _ _ _ _ _ _ Hb) as (st' & Hf' & Hst'). rw Hf in Hf'. by injection Hf' as <-.
  - done.
  - by intros [].
Qed.
Lemma lands_remakes s :
  Bereft (without i Count) p v s → wanted v (cluster_nodes s) = Some (Z.of_nat Count) →
  vst_EngineRef (vol_status v) ≠ None → vst_Phase (vol_status v) = VolumePhaseReady →
  (Z.of_nat Count + 10 ≤ max_int64)%Z →
  Lands (VolumeController.Reconcile (key_of (vol_meta v))) s (λ _ s', remade_at s').
Proof.
  intros Hb Hw Href Hph Hmax. unfold VolumeController.Reconcile. lands_step.
  eapply (lands_get_some _ _ KVolume); [exact (be_volume _ _ _ _ _ _ _ _ _ _ Hb)|]. cbn beta iota.
  destruct (vst_EngineRef (vol_status v)) as [ref|]; [|done]. unfold reconcile_existing. lands_step.
  assert (∀ j, j ∈ without i Count → j < Count) as Hin by (intros j Hj; by apply elem_of_without in Hj as [? _]).
  eapply lands_children_bereft; [exact Hb|exact Hin|]. cbn beta iota.
  rw Hph (bool_decide_false (VolumePhaseReady ≠ _)) ?andb_false_r; [|by intros []]. lands_step.
  destruct (be_engine _ _ _ _ _ _ _ _ _ _ Hb) as (st & Hf & _).
  eapply (lands_get_some _ _ KEngine); [exact Hf|]. cbn beta iota. unfold settle. lands_step.
  rw engine_attachments. eapply lands_fix_bereft; [exact Hb|exact Hin|]. lands_step.
  eapply lands_wanted; [exact _|exact Hw|]. cbn beta iota. rw length_fmap length_without //.
  rw (proj2 (Z.eqb_neq _ _)); [|lia]. cbn [negb]. lands_step. unfold ensureScale. lands_step.
  eapply lands_wanted; [exact _|exact Hw|]. cbn beta iota zeta. rw engine_attachments length_fmap length_without //.
  rw (proj2 (Z.eqb_neq _ _)); [|lia]. replace (_ >? _)%Z with true by lia.
  eapply lands_mono; [by apply lands_scale_one|]. intros r s' [-> Hr]. by lands_steps.
Qed.
End pass.

(** ** Properties *)
Section properties.
Context `{Environ, PodImages} {W} (h : handler ctl W) (view : W → store) `{!ApiServer h view}.
Context (rr : ReplicaReconciler) (c : option SidecarStatusClient).
Context (ip : okey → string) (sidecar : string → SidecarStatus) (kubelet : okey → W → W).
Context `{!Cooperative h view rr c ip sidecar kubelet}.
Abbreviation Reconcile_volume := (reconcile_volume h).
Abbreviation Performs := (BringUp.Performs h rr c kubelet).
Implicit Types v : Volume.

(** Replica [i] of the [k] is lost with its pod, while nodes may come and go.
    The volume asks for as many as it had, and the other replicas are remote. *)
Record loses v (k i : nat) (s s' : store) : Prop := mkLoses {
  ls_index : i < k;
  ls_lost : ∃ nodes, s' = lost v i (set_objects KNode s nodes);
  ls_asked : ∃ stored, objects KVolume s !! meta_okey (vol_meta v) = Some (stored : obj KVolume) ∧
    wanted stored (cluster_nodes s') = Some (Z.of_nat k);
  ls_remote j : j < k → j ≠ i → ∃ r, objects KReplica s !! replica_okey v j = Some (r : obj KReplica) ∧
    rs_Type (rep_spec r) = ReplicaTypeRemote;
  ls_keyed : pods_keyed s' }.

Lemma lost_meta v v' i s : vol_meta v' = vol_meta v → lost v' i s = lost v i s.
Proof. destruct v, v'; cbn. by intros ->. Qed.
Lemma bereft_alike v v' chosen i last order p stored s :
  vol_meta v' = vol_meta v → vol_spec v' = vol_spec v →
  bereft v chosen i ip sidecar last order p stored s → bereft v' chosen i ip sidecar last order p stored s.
Proof. destruct v as [m sp st], v' as [m' sp' st']. cbn. intros -> -> [Hr Hp Hg Hep Hv He]. by split. Qed.
Lemma remote_not_local v chosen ord last stored s a j r :
  at_stage v chosen ord ip sidecar last stored s a → j < count chosen →
  objects KReplica s !! replica_okey v j = Some (r : obj KReplica) → rs_Type (rep_spec r) = ReplicaTypeRemote →
  is_local v chosen j = false.
Proof.
  intros Ha Hj Hf Ht. destruct (as_replica Ha j Hj) as (st & Hf' & _). rw Hf in Hf'. injection Hf' as ->.
  change (rs_Type _) with (if is_local v chosen j then ReplicaTypeLocal else ReplicaTypeRemote) in Ht.
  by destruct (is_local v chosen j).
Qed.

(** Two passes drop the attachment and make the replica again. *)
Lemma heals_twice v chosen i last p w :
  bereft v chosen i ip sidecar last (indices chosen) p v (view w) → served_well ip sidecar v → pods_keyed (view w) →
  (∀ j, j < count chosen → j ≠ i → is_local v chosen j = false) → i < count chosen →
  wanted v (cluster_nodes (view w)) = Some (Z.of_nat (count chosen)) → (Z.of_nat (count chosen) + 10 ≤ max_int64)%Z →
  vst_EngineRef (vol_status v) ≠ None → vst_Phase (vol_status v) = VolumePhaseReady →
  ∃ v' x stored, vol_meta v' = vol_meta v ∧
    at_stage v' (<[i := x]> chosen) (without i (count chosen) ++ [i]) ip sidecar last stored
      (view (Reconcile_volume v (Reconcile_volume v w))) (remade i p) ∧
    kept_volume v' stored ∧ vst_EngineRef (vol_status v') ≠ None ∧ vst_Phase (vol_status stored) = VolumePhaseDegraded.
Proof.
  intros Hb Hs Hkeyed Hloc Hi Hw Hmax Href Hph.
  destruct (lands_heals h view ip sidecar v chosen i p last Hi (coop_ip _ _ _ _ _ _ _)
    (served_accepted ip sidecar v v chosen eq_refl Hs) (view w) Hb Hkeyed Hloc Hw Href w eq_refl)
    as (v2 & Hb2 & (Km & Ks & Kr) & Hph2 & Hnodes).
  change (run h _ w).2 with (Reconcile_volume v w) in Hb2, Hnodes. set (w1 := Reconcile_volume v w) in *.
  apply (bereft_alike _ v2) in Hb2; [|done..].
  destruct (lands_remakes h view ip sidecar v2 chosen i p last Hi (view w1) Hb2) with (w := w1)
    as (x & stored & Hat & Hk & Hdegraded); [|by rw Kr|by rw Hph2|done|done|].
  { unfold wanted in *. by rw Ks Hnodes. }
  change (run h _ w1).2 with (Reconcile_volume v2 w1) in Hat. rw (reconcile_meta h v v2) // in Hat.
  exists v2, x, stored. split_and!; [done|done|done|by rw Kr|done].
Qed.
(** From a volume that came up. *)
Lemma loses_bereft v v1 chosen i last stored s s' a :
  at_stage v1 chosen (indices chosen) ip sidecar last stored s a → all_up chosen v1 a →
  vol_meta v1 = vol_meta v → vol_meta stored = vol_meta v1 → vol_spec stored = vol_spec v1 →
  loses v (length chosen) i s s' →
  bereft stored chosen i ip sidecar (replicasHash (all_final stored chosen (indices chosen) ip sidecar)) (indices chosen) (a_epod a) stored s' ∧
  (∀ j, j < count chosen → j ≠ i → is_local stored chosen j = false) ∧
  wanted stored (cluster_nodes s') = Some (Z.of_nat (count chosen)).
Proof.
  intros Hat (He & Hc & Hrun) Hv1 Hm Hsp [Hi (nodes & ->) (stored' & Hf & Hasked) Hremote _].
  pose proof (as_volume Hat) as Hf1. rw Hv1 Hf in Hf1. injection Hf1 as ->.
  assert (vol_meta stored = vol_meta v) as Hmeta by by rw Hm.
  apply (at_stage_alike ip sidecar v1 stored) in Hat; [|by rw ?Hm ?Hsp..].
  assert (is_local stored chosen = is_local v1 chosen) as Hloc by (unfold is_local, node_at, placed_node; by rw Hsp).
  split_and!; [| |done].
  - rw -(lost_meta v stored) //. eapply lost_bereft; [by apply at_stage_nodes|done|by rw Hloc|done|done].
  - intros j Hj Hne. destruct (Hremote j Hj Hne) as (r & Hr & Ht).
    eapply (remote_not_local stored chosen); [exact Hat|done| |exact Ht].
    by rw /replica_okey /replica_name /vol_Namespace /vol_Name Hmeta.
Qed.

(** C4. A volume heals.  Take a volume that came up (from its creation, by six
    rounds), with as many replicas as it asks for, and let one of them be lost,
    with its pod, the others being remote.  Two passes of the volume controller
    (which drop its attachment, and make it again under its name), six rounds in
    which every replica, the engine and the kubelet get a turn, and a pass of the
    volume controller make the volume Ready again, with the same replicas, all
    Running, and an engine that is Running, whose attachments are exactly them
    (those that stayed, in their order, and then the new one) and whose recorded
    hash is that of these attachments; and unless the hash is the one that was
    recorded before the loss, the last request that the engine's sidecar accepted
    at its reconfigure address carries exactly these attachments.  The API server
    and the sidecars are those of BringUp.v; the volume asks for as many replicas
    as it had, at most ten below the largest integer, and every pod is kept under
    its own name. *)
Theorem volume_heals v (w w' : W) (n : Z) (i : nat) (rounds rounds' : list (list step)) :
  created v n (view w) → served_well ip sidecar v →
  let k := replicas_for n (cluster_nodes (view w)) in
  length rounds = 6 → Forall (complete_round k) rounds →
  loses v k i (view (Reconcile_volume v (Performs v (concat rounds) (Reconcile_volume v w)))) (view w') →
  (Z.of_nat k + 10 ≤ max_int64)%Z →
  length rounds' = 6 → Forall (complete_round k) rounds' →
  let w3 := Reconcile_volume v (Performs v (concat rounds') (Reconcile_volume v (Reconcile_volume v w'))) in
  volume_up_with ip sidecar v (without i k ++ [i]) (view w3) ∧ reconfigured ip v (view w') (view w3).
Proof.
  intros Hcr Hs k Hsix Hrounds Hl Hmax Hsix' Hrounds'. subst k.
  destruct (comes_up h view rr c ip sidecar kubelet v w n rounds Hcr Hs Hsix Hrounds)
    as (v1 & chosen & v2 & a & Hlen & Hv1 & Hat & Hup & Hph & Href & Hm & Hsp).
  rw -Hlen in Hl, Hmax, Hrounds' |- *. clear Hlen. assert (vol_meta v2 = vol_meta v) as Hmeta by by rw Hm.
  destruct (loses_bereft v v1 chosen i _ v2 _ _ a Hat Hup Hv1 Hm Hsp Hl) as (Hb & Hloc & Hw).
  assert (∀ v' chosen', vol_meta v' = vol_meta v → accepted v' chosen' ip sidecar) as Hacc
    by (intros; by eapply served_accepted).
  destruct (heals_twice v2 chosen i _ (a_epod a) w' Hb) as (v3 & x & v4 & Hm3 & Hat3 & (Km & _ & Kr) & Href3 & Hph4);
    [|apply Hl|done|apply Hl|done|done|done|done|].
  { revert Hs. destruct v, v2. cbn in Hmeta. by subst. }
  rw !(reconcile_meta h v v2) // in Hat3. pose proof (length_insert chosen i x) as Hn.
  set (w2 := Reconcile_volume v (Reconcile_volume v w')) in *.
  assert (without i (count chosen) ++ [i] ≡ₚ indices (<[i := x]> chosen)) as Horder.
  { rw without_back; [|apply Hl]. unfold indices, count. by rw Hn. }
  destruct (rounds_ready h view rr c ip sidecar kubelet v3 (<[i := x]> chosen) _ _ v4 w2 _ rounds' Horder
    (Hacc v3 _ ltac:(by rw Hm3)) Hat3) as (v5 & a5 & Hat5 & Hup5 & _ & Hready);
    [|done|by rw Hn|by rw Kr|by rw Hph4|done|].
  { apply remade_consistent, (cs_engine _ _ _ (proj1 (proj2 Hup))). by rw (proj1 Hup). }
  rw (performs_meta h rr c kubelet v v3) ?(reconcile_meta h v v3) in Hat5; [|by rw Hm3..].
  destruct (be_engine _ _ _ _ _ _ _ _ _ _ Hb) as (st & Hf & _). rw -(engine_key_meta v3 v2) // in Hf.
  cbv zeta. split; [apply (volume_up_meta ip sidecar v v3)|apply (reconfigured_meta ip v v3)]; try by rw Hm3.
  - eapply (stage_up ip sidecar v3 (<[i := x]> chosen)); [exact Horder|by apply Hacc; rw Hm3|exact Hat5|exact Hup5|exact Hready].
  - eapply (stage_reconfigured ip sidecar v3 (<[i := x]> chosen)); [exact Horder|exact Hf|exact Hat5|apply Hup5..].
Qed.
End properties.

(** ** The site of BringUp.v, with a volume whose engine is on a node of its own *)
Section site.
#[local] Existing Instances site_environ site_images site_server site_cooperative.
Abbreviation Site_performs := (Performs site_handler site_reconciler None site_kubelet).
Definition remote_volume : Volume :=
  mkVolume (newMeta "v" "ns") (mkVolumeSpec "1Gi" "" "cp" "2" None) zeroVolumeStatus.
Abbreviation Site_reconcile := (reconcile_volume site_handler remote_volume).
Definition remote_world : world :=
  put KVolume remote_volume (put KNode (labelled_node "w1" false)
    (put KNode (labelled_node "w2" false) (put KNode (labelled_node "cp" true) empty_world))).
Lemma remote_created : created remote_volume 2 (world_view remote_world).
Proof.
  split; [vm_compute; reflexivity|done| |vm_compute; reflexivity|by vm_compute].
  split_and!; [vm_compute; reflexivity..|]. intros i. split; apply lookup_empty.
Qed.
Definition remote_up : world :=
  Site_reconcile (Site_performs remote_volume (concat (replicate 6 site_round)) (Site_reconcile remote_world)).
Lemma remote_up_eq :
  remote_up = Site_reconcile (Site_performs remote_volume (concat (replicate 6 site_round)) (Site_reconcile remote_world)).
Proof. reflexivity. Qed.
Lemma remote_served : served_well site_ip site_sidecar remote_volume.
Proof. exact site_served. Qed.
(** Its first replica is lost. *)
Definition lost_world : world :=
  set_objs KPod (delete (pod_okey remote_volume 0) (w_objs remote_up KPod))
    (set_objs KReplica (delete (replica_okey remote_volume 0) (w_objs remote_up KReplica)) remote_up).
Lemma lost_view v i (w : world) :
  world_view (set_objs KPod (delete (pod_okey v i) (w_objs w KPod))
                (set_objs KReplica (delete (replica_okey v i) (w_objs w KReplica)) w)) =
  lost v i (set_objects KNode (world_view w) (objects KNode (world_view w))).
Proof. by destruct w. Qed.
Lemma keyed_view (w : world) :
  bool_decide (map_Forall (λ key pod, meta_okey (pod_meta pod) = key) (w_objs w KPod)) = true → pods_keyed (world_view w).
Proof. intros Hw%bool_decide_eq_true_1 key pod Hf. rw objects_view in Hf. exact (Hw key pod Hf). Qed.
Lemma site_loses : loses remote_volume 2 0 (world_view remote_up) (world_view lost_world).
Proof.
  split.
  - lia.
  - eexists. exact (lost_view remote_volume 0 remote_up).
  - exists (default remote_volume (w_objs remote_up KVolume !! ("ns", "v"))). split; vm_compute; reflexivity.
  - intros j Hj Hne. assert (j = 1) as -> by lia. eexists. split; vm_compute; reflexivity.
  - apply keyed_view. vm_compute. reflexivity.
Qed.
Definition healed_world : world :=
  Site_reconcile (Site_performs remote_volume (concat (replicate 6 site_round))
    (Site_reconcile (Site_reconcile lost_world))).
Lemma volume_heals_witness :
  loses remote_volume 2 0 (world_view remote_up) (world_view lost_world) ∧
  (volume_up_with site_ip site_sidecar remote_volume [1; 0] (world_view healed_world) ∧
   reconfigured site_ip remote_volume (world_view lost_world) (world_view healed_world)) ∧
  told_engine healed_world = true.
Proof.
  split; [exact site_loses|]. split; [|vm_compute; reflexivity].
  assert (replicas_for 2 (cluster_nodes (world_view remote_world)) = 2) as Hk by (vm_compute; reflexivity).
  assert (Forall (complete_round 2) (replicate 6 site_round)) as Hr by apply Forall_replicate, site_round_complete.
  pose proof (volume_heals site_handler world_view site_reconciler None site_ip site_sidecar site_kubelet
    remote_volume remote_world lost_world 2 0 (replicate 6 site_round) (replicate 6 site_round)
    remote_created remote_served) as Hh.
  cbv zeta in Hh. rw Hk in Hh. pose proof site_loses as Hl. rw remote_up_eq in Hl.
  exact (Hh eq_refl Hr Hl ltac:(by vm_compute) eq_refl Hr).
Defined.

(** The engine of a healed volume has the new replica last, and scaling down
    keeps attachments by their positions but replicas by their indices.  Asked
    for one replica, the pass deletes the one that the engine keeps, and keeps
    the one that it drops: no attached replica is left. *)
Definition healed_asked : world :=
  set_objs KVolume (alter (λ v : obj KVolume, asked_for "1" v : obj KVolume) ("ns", "v") (w_objs healed_world KVolume)) healed_world.
Definition attached_in (w : world) : option (list string) :=
  (λ e : Engine, ra_Name <$> eng_Replicas e) <$> (w_objs w KEngine !! ("ns", "v-engine")).
Definition replicas_in (w : world) : list string := (λ r : Replica, om_Name (rep_meta r)) <$> (map_to_list (w_objs w KReplica)).*2.
Theorem healed_then_scaled_down :
  attached_in healed_world = Some ["v-replica-1"; "v-replica-0"] ∧
  attached_in (Site_reconcile healed_asked) = Some ["v-replica-1"] ∧
  replicas_in (Site_reconcile healed_asked) = ["v-replica-0"].
Proof. split_and!; vm_compute; reflexivity. Qed.
End site.
