(* ===== verification/Provisioning.v ===== *)
(** * A volume is provisioned

    From the request of the CSI controller to the device on a node: CsiController
    creates the volume, the reconcilers of BringUp.v bring it up, CsiController
    answers how it is reached, and CsiNode stages it.  Any API server of Store.v
    will do, and any host. *)
From S2P Require Import Prelude GoStrings GoNet K8s ApiTypes Names Network WireTypes Client MemStore SidecarClient Os AgentClient ReplicaController VolumeNodes VolumeController VolumeScale PodTemplates CsiController CsiNode Store Stages BringUp.

#[local] Arguments obj : simpl never.

(** ** The request of the CSI controller *)

(** The volume that a request asks for, as the server stands. *)
Definition asked_volume (d : Driver) (req : CreateVolumeRequest) (s : store) : option Volume :=
  if bool_decide (cv_Name req = "") then None
  else match cv_VolumeContentSource req with
       | None => Some (csi_volume d req (chosen_node d req) None)
       | Some FromOther => None
       | Some (FromSnapshot id) =>
           match objects KSnapshot s !! (d_Namespace d, id) with
           | Some snap =>
               if sst_ReadyToUse (snap_status (snap : Snapshot))
               then Some (csi_volume d req (sst_EngineNode (snap_status (snap : Snapshot))) (Some id)) else None
           | None => None
           end
       end.
(** What a request for one volume must find, and what nobody has made yet. *)
Record provisionable (d : Driver) (req : CreateVolumeRequest) (v : Volume) (s : store) : Prop := mkProvisionable {
  pv_asked : asked_volume d req s = Some v;
  pv_new : objects KVolume s !! (d_Namespace d, cv_Name req) = None;
  pv_unmade : unmade v s;
  pv_nodes : cluster_nodes s ≠ [] }.
Lemma asked_csi d req s v :
  asked_volume d req s = Some v → cv_Name req ≠ "" ∧ ∃ node src, v = csi_volume d req node src.
Proof.
  unfold asked_volume. case_bool_decide; [done|].
  destruct (cv_VolumeContentSource req) as [[id|]|]; [|done|intros [= <-]; by eauto].
  destruct (objects KSnapshot s !! _) as [snap|]; [|done]. destruct (sst_ReadyToUse _); [|done]. intros [= <-]. by eauto.
Qed.
Lemma asked_meta d req s v : asked_volume d req s = Some v → vol_meta v = newMeta (cv_Name req) (d_Namespace d).
Proof. by intros (_ & node & src & ->)%asked_csi. Qed.

(** The count is automatic: a replica on every worker, or on every node when
    there is no worker. *)
Lemma auto_replicas nodes : nodes ≠ [] → replicas_for (auto_count nodes) nodes = length (worker_names nodes).
Proof.
  intros Hne. assert (0 < length nodes) by (destruct nodes; [done|cbn; lia]).
  unfold replicas_for, auto_count, worker_names. destruct (filter _ nodes) as [|x l]; cbn [length fmap list_fmap].
  all: rw ?length_fmap; repeat case_decide; lia.
Qed.

Section create.
Context {W} (h : handler ctl W) (view : W → store) `{!ApiServer h view}.
Abbreviation Lands := (lands h view).

Lemma lands_volume_for d req s v (Q : result Volume → store → Prop) :
  asked_volume d req s = Some v → Q (Ok v) s → Lands (volume_for d req) s Q.
Proof.
  unfold asked_volume, volume_for. case_bool_decide; [done|]. destruct (cv_VolumeContentSource req) as [[id|]|];
    [|done|intros [= <-] ?; by lands_steps].
  intros Hv HQ. lands_step. apply (lands_get _ _ KSnapshot). change (okey_of _) with (d_Namespace d, id).
  destruct (objects KSnapshot s !! _) as [snap|]; [|done]. intros r ->.
  destruct (sst_ReadyToUse _); [|done]. injection Hv as <-. cbn [negb]. by lands_steps.
Qed.
Lemma lands_CreateVolume d req v s :
  provisionable d req v s →
  Lands (CreateVolume d req) s (λ r s',
    r = Ok (created_volume d req) ∧ created v (auto_count (cluster_nodes s)) s' ∧ cluster_nodes s' = cluster_nodes s).
Proof.
  intros [Hv Hnew Hun Hn]. destruct (asked_csi _ _ _ _ Hv) as (Hname & node & src & Hcsi).
  unfold CreateVolume. rw bool_decide_false //.
  lands_step. apply (lands_volume_for d req s v); [done|]. cbn beta iota. unfold create_volume. lands_step.
  apply (lands_create _ _ KVolume). assert (meta_okey (obj_meta KVolume v) = (d_Namespace d, cv_Name req)) as Hkey by by rw Hcsi.
  rw Hkey Hnew. lands_steps. split; [done|].
  assert (cluster_nodes (keep KVolume (d_Namespace d, cv_Name req) v s) = cluster_nodes s) as Hsame
    by (unfold cluster_nodes, listing; by rw objects_keep_ne).
  split; [|done]. destruct Hun as (H1 & H2 & H3). split; rw ?Hsame //; [|by rw Hcsi| |by rw Hcsi].
  - rw objects_keep. change (vol_meta v) with (obj_meta KVolume v). rw Hkey. apply lookup_insert_eq.
  - split_and!; [by rw objects_keep_ne..|]. intros i. rw !objects_keep_ne //.
Qed.
End create.

(** ** Reaching it *)

(** The access modes that are served over NVMe-oF. *)
Definition block_mode (cap : option VolumeCapability) : bool :=
  match c ← cap; vc_AccessMode c with
  | Some (SINGLE_NODE_WRITER | SINGLE_NODE_MULTI_WRITER | MULTI_NODE_READER_ONLY) => true
  | _ => false
  end.
(** How a volume whose engine serves this target is reached. *)
Definition target_context (volumeId : string) (x : SidecarStatus) : gmap string string :=
  {[ "volumeId" := volumeId; "endpoint" := st_Endpoint x; "nqn" := st_SubsystemNQN x ]}.
(** What staging does on the node, whatever the host answers: it connects to this
    target only, mounts at the staging path only, and a success is the mount of
    the device of a namespace of the subsystem with its NQN and a live controller. *)
Definition staged (x : SidecarStatus) (target : string) (readonly : bool) (tr : os_trace) (r : result unit) : Prop :=
  ∃ addr port, SplitEndpoint (st_Endpoint x) = Ok (addr, port) ∧
    (∃ k, k ≤ 3 ∧ connects tr = replicate k (connString addr port (st_SubsystemNQN x))) ∧
    Forall (λ st, st.2 = target) (mounts tr) ∧
    (r = Ok tt → (∀ z, ev (S:=os) (Stat "") (inr z) ∉ tr) →
     ∃ dev, found (st_SubsystemNQN x) dev tr ∧ ends_mounted dev target readonly tr).

Lemma wrapping_ok {A} fmt args (p : OS (result A)) tr r :
  exec (wrapping fmt args p) tr r → ∃ r', exec p tr r' ∧ (∀ a, r = Ok a → r' = Ok a).
Proof.
  unfold wrapping. intros (tr1 & tr2 & r' & -> & Hp & [-> ->])%exec_bind. exists r'. rw app_nil_r. split; [done|].
  by destruct r'.
Qed.
Lemma NodeStageVolume_staged `{Environ} (d : Driver) id x target cap tr r :
  validateEngineSidecarStatus x = None →
  exec (NodeStageVolume ExecMounter d (mkStage target (target_context id x) cap)) tr r →
  staged x target (stageReadonly cap) tr r.
Proof.
  intros (_ & Hn & He & addr & port & Hs & _)%validateEngine_spec. unfold NodeStageVolume, stageNVMe. cbn [sg_PublishContext].
  assert (ctx_get "protocol" (target_context id x) = "") as -> by done.
  assert (ctx_get "endpoint" (target_context id x) = st_Endpoint x) as -> by done.
  assert (ctx_get "nqn" (target_context id x) = st_SubsystemNQN x) as -> by done.
  rw bool_decide_false // (bool_decide_false (_ = "")); [|intros E; by rw E in He].
  rw (bool_decide_false (_ = "")); [|intros E; by rw E in Hn]. cbn [orb].
  intros (r' & Hex & Hr)%wrapping_ok. destruct (staged_course d _ _ _ _ _ _ _ _ Hs Hex) as [(_ & (_ & Hc & _ & Hm) & Hok) _].
  exists addr, port. split_and!; [done..|]. intros ->%Hr Hempty.
  destruct (Hok eq_refl) as (dev & [Hf|(_ & z & Hz)] & Hend); [by exists dev|]. by destruct (Hempty z).
Qed.
Lemma publish_block id cap (e : Engine) :
  block_mode cap = true →
  publish_context (mkPublish id cap) e = Ok (nvme_context id e).
Proof.
  unfold publish_context, access_mode, block_mode. cbn [pb_Capability pb_VolumeId].
  by destruct (c ← cap; vc_AccessMode c) as [[]|].
Qed.

Section reach.
Context `{Environ, PodImages} {W} (h : handler ctl W) (view : W → store) `{!ApiServer h view}.
Context (ip : okey → string) (sidecar : string → SidecarStatus).

Lemma lands_publish d v k id cap s :
  volume_up ip sidecar v k s → vol_meta v = newMeta id (d_Namespace d) → block_mode cap = true →
  lands h view (ControllerPublishVolume d (mkPublish id cap)) s
    (λ r s', r = Ok (target_context id (engine_target v ip sidecar)) ∧ s' = s).
Proof.
  intros (_ & (e & Hf & (Hph & He & Hn) & _) & _) Hm Hcap. unfold ControllerPublishVolume. lands_step.
  assert (okey_of (engine_key v) = (d_Namespace d, EngineName id)) as Hk
    by (unfold engine_key, vol_Namespace, vol_Name; by rw Hm).
  rw Hk in Hf. eapply (lands_get_some _ _ KEngine); [exact Hf|]. cbn beta iota. rw Hph.
  rw bool_decide_false; [|by intros []]. lands_step. split; [|done]. rw publish_block //.
  unfold nvme_context. by rw He Hn.
Qed.
End reach.

(** ** Properties *)
Section properties.
Context `{Environ, PodImages} {W} (h : handler ctl W) (view : W → store) `{!ApiServer h view}.
Context (rr : ReplicaReconciler) (c : option SidecarStatusClient).
Context (ip : okey → string) (sidecar : string → SidecarStatus) (kubelet : okey → W → W).
Context `{!Cooperative h view rr c ip sidecar kubelet}.
Abbreviation Reconcile_volume := (reconcile_volume h).
Abbreviation Performs := (BringUp.Performs h rr c kubelet).

(** C2. From the request for a volume to the device on a node.  A request for a
    new volume (empty, or from a snapshot that is ready) is answered with the
    volume; after a pass of the volume controller, six rounds of everybody and
    another pass the volume is up, with a replica on every worker; every request
    to publish it for access over NVMe-oF is then answered with the address and
    the NQN that the engine's own sidecar serves; and a node that stages it with
    this answer connects to nothing else, mounts only at the staging path, and
    reports success only when what it mounted last is the device of a namespace
    of the subsystem that has that very NQN and a live controller (provided that
    no file is found under the empty path, which is looked at when no device came). *)
Theorem provisioned_volume_reachable (d : Driver) (req : CreateVolumeRequest) (v : Volume) (w : W)
    (rounds : list (list step)) :
  provisionable d req v (view w) → served_well ip sidecar v →
  let k := length (worker_names (cluster_nodes (view w))) in
  length rounds = 6 → Forall (complete_round k) rounds →
  let w1 := after h (CsiController.CreateVolume d req) w in
  let w2 := Reconcile_volume v (Performs v (concat rounds) (Reconcile_volume v w1)) in
  let x := engine_target v ip sidecar in
  (run h (CsiController.CreateVolume d req) w).1.2 = Ok (created_volume d req) ∧
  volume_up ip sidecar v k (view w2) ∧
  ∀ cap, block_mode cap = true →
    let ctx := target_context (cv_Name req) x in
    (run h (ControllerPublishVolume d (mkPublish (cv_Name req) cap)) w2).1.2 = Ok ctx ∧
    ∀ d' target tr r, exec (NodeStageVolume ExecMounter d' (mkStage target ctx cap)) tr r →
      staged x target (stageReadonly cap) tr r.
Proof.
  intros Hp Hs k Hsix Hrounds w1 w2 x. destruct (lands_CreateVolume h view d req v (view w) Hp w eq_refl) as (Hr & Hcr & Hnodes).
  assert (k = replicas_for (auto_count (cluster_nodes (view w))) (cluster_nodes (view w1))) as Hk.
  { change (view w1) with (view (run h (CsiController.CreateVolume d req) w).2). rw Hnodes. symmetry. apply auto_replicas, Hp. }
  rw Hk in Hrounds. split; [done|].
  destruct (comes_up h view rr c ip sidecar kubelet v w1 _ rounds Hcr Hs Hsix Hrounds)
    as (v' & chosen & stored & a & Hlen & Hv & Hat & Hup & Hready & _).
  assert (volume_up ip sidecar v k (view w2)) as Hvol.
  { rw Hk -Hlen. eapply volume_up_meta; [exact Hv|]. eapply (stage_up ip sidecar v' chosen (indices chosen)); [done|by eapply served_accepted|done..]. }
  split; [done|]. intros cap Hcap ctx. split.
  - eapply (lands_publish h view ip sidecar d v k); [exact Hvol|apply (asked_meta _ _ _ _ (pv_asked _ _ _ _ Hp))|done|done].
  - intros d' target tr r Hex. eapply NodeStageVolume_staged; [apply Hs|exact Hex].
Qed.
End properties.

(** ** The site of BringUp.v, asked for a volume *)
Section site.
#[local] Existing Instances site_environ site_images site_server site_cooperative.
Definition site_driver : Driver := mkDriver "ns" "w1".
Definition site_request : CreateVolumeRequest := mkCreateVolume "v" 1073741824 [writer] ∅ None None.
Definition site_csi : Volume := csi_volume site_driver site_request "w1" None.
Definition site_nodes : world :=
  put KNode (labelled_node "w1" false) (put KNode (labelled_node "w2" false)
    (put KNode (labelled_node "cp" true) empty_world)).
Lemma site_provisionable : provisionable site_driver site_request site_csi (world_view site_nodes).
Proof.
  split; [vm_compute; reflexivity..| |by vm_compute].
  split_and!; [vm_compute; reflexivity..|]. intros i. split; apply lookup_empty.
Qed.
(** Staging it on a host that has never seen it. *)
Definition site_target : SidecarStatus := site_sidecar "10.0.0.9".
Definition site_staging :=
  run (S:=os) node_handler
    (NodeStageVolume ExecMounter node_driver (mkStage "/staging" (target_context "v" site_target) writer))
    (mkNode false false true).
Lemma provisioned_volume_reachable_witness :
  (∃ w, volume_up site_ip site_sidecar site_csi 2 (world_view w)) ∧ site_staging.1.2 = Ok tt ∧
  staged site_target "/staging" false site_staging.1.1 site_staging.1.2.
Proof.
  assert (length (worker_names (cluster_nodes (world_view site_nodes))) = 2) as Hk by (vm_compute; reflexivity).
  pose proof (provisioned_volume_reachable site_handler world_view site_reconciler None site_ip site_sidecar site_kubelet
    site_driver site_request site_csi site_nodes (replicate 6 site_round) site_provisionable site_served) as Hall.
  assert (engine_target site_csi site_ip site_sidecar = site_target) as Htarget by (vm_compute; reflexivity).
  cbv zeta in Hall. rw Hk Htarget in Hall.
  destruct Hall as (_ & Hup & Hreach); [reflexivity|apply Forall_replicate, site_round_complete|].
  split; [eexists; exact Hup|]. split; [vm_compute; reflexivity|].
  destruct (Hreach writer eq_refl) as [_ Hstage]. apply (Hstage node_driver "/staging").
  exact (exec_of_run (S:=os) node_handler _ (mkNode false false true) _ eq_refl).
Defined.
End site.
