(* ===== verification/SnapshotProgress.v ===== *)
(** * A snapshot is taken

    The snapshot reconciler over an API server (Store.v), when the volume's
    engine is up and its sidecar takes the snapshot: from any phase before the
    end, four passes make the snapshot Ready, with what the sidecar answered,
    and further passes leave it alone. *)
From S2P Require Import Prelude GoStrings K8s ApiTypes Names WireTypes Client MemStore Status SnapshotController Store.

#[local] Arguments obj : simpl never.

Section progress.
Context {W} (h : handler ctl W) (view : W → store) `{!ApiServer h view}.
Context (f : option (string → string)) (key : NamespacedName).
(** The volume's engine, the node it runs on, its pod, and what the sidecar
    answers. *)
Context (spec : SnapshotSpec) (node podIP : string) (answer : SnapshotResponse).

Definition engine_up (s : store) : Prop :=
  ∃ engine ref pod,
    objects KEngine s !! okey_of (mkName (nn_Namespace key) (EngineName (ss_VolumeRef spec))) =
      Some (engine : obj KEngine) ∧ es_NodeID (eng_spec engine) = node ∧
    est_PodRef (eng_status engine) = Some ref ∧
    objects KPod s !! okey_of (mkName (pr_Namespace ref) (pr_Name ref)) = Some (pod : obj KPod) ∧
    pst_Phase (pod_status pod) = PodRunning ∧ pst_PodIP (pod_status pod) = podIP.
Class SidecarTakes : Prop := {
  takes_ip : podIP ≠ "";
  takes_url s : lands h view (newRequest "POST" (snapshotURL f podIP)) s (λ r s', r = Ok tt ∧ s' = s);
  takes_answer body s : lands h view (httpDo WantSnapshot "POST" (snapshotURL f podIP) body) s
    (λ r s', (∃ resp, r = Ok resp ∧ hr_StatusCode resp = 200%Z ∧ hr_Decoded resp = Ok answer) ∧ s' = s) }.
Context `{!SidecarTakes}.
Abbreviation Lands := (lands h view).
Implicit Types (o : Snapshot) (s : store).

(** What is left to do: passes that add the finalizer and take the phase on. *)
Definition phase_due (st : SnapshotStatus) (n : nat) : Prop :=
  match n with
  | 0 => sst_Phase st = SnapshotPhaseReady ∧ sst_ReadyToUse st = true ∧ sst_EngineNode st = node ∧
         sst_SnapshotPath st = sr_SnapshotPath answer ∧ sst_SizeBytes st = sr_SizeBytes answer
  | 1 => sst_Phase st = SnapshotPhaseCreating ∧ sst_EngineNode st = node
  | 2 => sst_Phase st = SnapshotPhasePending
  | 3 => sst_Phase st = ""
  | _ => False
  end.
Definition due (n : nat) o : Prop :=
  key_of (snap_meta o) = key ∧ snap_spec o = spec ∧ om_DeletionTimestamp (snap_meta o) = None ∧
  ∃ m, phase_due (snap_status o) m ∧
    if protected o then n = m else n = S m ∧ m ≠ 0.
Definition kept (n : nat) s : Prop :=
  engine_up s ∧ ∃ o, objects KSnapshot s !! okey_of key = Some (o : obj KSnapshot) ∧ due n o.

Lemma kept_update n o s : engine_up s → due n o → kept n (keep KSnapshot (okey_of key) o s).
Proof.
  intros (e & ref & pod & H1 & H2 & H3 & H4 & H5) Ho. split.
  - exists e, ref, pod. by rw !objects_keep_ne.
  - exists o. by rw objects_keep lookup_insert_eq.
Qed.
(** The status of a protected snapshot is taken on. *)
Lemma due_status n o st :
  due n o → protected o = true → ∀ m, phase_due st m → due m (snap_set_status st o).
Proof. intros (H1 & H2 & H3 & _) Hp m Hm. split_and!; [done..|]. exists m. split; [done|]. unfold protected. cbn. by rw (Hp : containsString _ _ = true). Qed.
Lemma lands_store_status n o s st m :
  engine_up s → objects KSnapshot s !! okey_of key = Some (o : obj KSnapshot) → due n o →
  protected o = true → phase_due st m →
  Lands (finish (kStatusUpdate KSnapshot (snap_set_status st o))) s (λ _ s', kept m s').
Proof.
  intros He Ho Hd Hp Hm. lands_step.
  assert (meta_okey (obj_meta KSnapshot (snap_set_status st o)) = okey_of key) as Hkey.
  { destruct Hd as (<- & _). done. }
  apply (lands_status _ _ KSnapshot (snap_set_status st o) o); rw Hkey; [done|].
  apply kept_update; [done|]. by eapply (due_status n).
Qed.

Lemma due_engine_key n o :
  due n o → snap_engine_key o = mkName (nn_Namespace key) (EngineName (ss_VolumeRef spec)).
Proof. by intros (<- & <- & _). Qed.
Lemma due_phase n o : due n o → ∃ m, phase_due (snap_status o) m.
Proof. intros (_ & _ & _ & m & Hm & _). eauto. Qed.
Lemma lands_start n o s :
  engine_up s → objects KSnapshot s !! okey_of key = Some (o : obj KSnapshot) → due n o → protected o = true →
  Lands (startCreate o) s (λ _ s', kept 1 s').
Proof.
  intros He Ho Hd Hp. unfold startCreate. lands_step. rw (due_engine_key n o Hd).
  pose proof He as (e & ref & pod & H1 & H2 & _).
  apply (lands_get_some _ _ KEngine _ e); [exact H1|]. lands_step. lands_step.
  eapply (lands_store_status n o); [done..|]. by split.
Qed.
Lemma lands_poll n o s :
  engine_up s → objects KSnapshot s !! okey_of key = Some (o : obj KSnapshot) → due n o → protected o = true →
  sst_EngineNode (snap_status o) = node → Lands (pollCreate f o) s (λ _ s', kept 0 s').
Proof.
  intros He Ho Hd Hp Hnode. unfold pollCreate. lands_step. rw (due_engine_key n o Hd).
  pose proof He as (e & ref & pod & H1 & _ & Href & H2 & Hph & Hip).
  apply (lands_get_some _ _ KEngine _ e); [exact H1|]. lands_step. unfold enginePodIP. rw Href. lands_step.
  apply (lands_get_some _ _ KPod _ pod); [exact H2|]. cbn beta iota. rw Hph bool_decide_true //. lands_steps.
  rw Hip bool_decide_false; [|apply takes_ip]. lands_step.
  eapply lands_mono; [apply takes_url|]. intros r s' [-> ->]. lands_step.
  eapply lands_mono; [apply takes_answer|]. intros r s' [(resp & -> & Hc & Hd') ->]. cbn beta iota.
  unfold take_answer. rw Hc Hd'. cbn [Z.eqb Pos.eqb negb]. lands_step. apply lands_time; [exact _|]. intros now.
  lands_step. lands_step. eapply (lands_store_status n o); [done..|]. by split_and!.
Qed.
(** One pass takes a snapshot one step on, until there is nothing left. *)
Lemma lands_pass n s : kept n s → Lands (Reconcile f key) s (λ _ s', kept (pred n) s').
Proof.
  intros [He (o & Ho & Hd)]. unfold Reconcile. lands_step.
  apply (lands_get_some _ _ KSnapshot _ o); [exact Ho|]. cbn beta iota. unfold reconcile_snapshot.
  pose proof Hd as (Hk & Hspec & Hdel & m & Hm & Hp). rw Hdel bool_decide_false; [|by intros []].
  destruct (protected o) eqn:Hprot; cbn [negb].
  - subst m. unfold advance. cbv zeta. destruct n as [|[|[|[|n]]]]; cbn [phase_due] in Hm; cbn [Nat.pred]; [..|done].
    + destruct Hm as (-> & _). rw !(bool_decide_false (SnapshotPhaseReady = _)) //. lands_steps.
      split; [done|]. by exists o.
    + destruct Hm as (-> & Hnode). rw (bool_decide_false (SnapshotPhaseCreating = "")) //.
      rw (bool_decide_false (SnapshotPhaseCreating = SnapshotPhasePending)) //.
      rw bool_decide_true //. by apply (lands_poll 1 o).
    + rw Hm. rw bool_decide_false //. rw bool_decide_true //. by apply (lands_start 2 o).
    + rw Hm. rw bool_decide_true //. by eapply (lands_store_status 3 o).
  - destruct Hp as [-> Hm0]. lands_step.
    assert (meta_okey (obj_meta KSnapshot (with_finalizer o)) = okey_of key) as Hkey by by rw -Hk.
    apply (lands_update _ _ KSnapshot (with_finalizer o) o); rw Hkey; [exact Ho|]. lands_steps.
    apply kept_update; [done|]. split_and!; [done..|]. exists m. split; [done|].
    assert (protected (with_status_of KSnapshot (with_finalizer o) o) = true) as ->; [|done].
    apply containsString_spec, elem_of_app. right. apply list_elem_of_here.
Qed.

Definition passes (n : nat) (w : W) : W := Nat.iter n (λ w, (run h (Reconcile f key) w).2) w.
Lemma passes_kept n m w : kept n (view w) → kept (n - m) (view (passes m w)).
Proof.
  intros Hw. induction m as [|m IH]; cbn; [by rw Nat.sub_0_r|].
  replace (n - S m) with (pred (n - m)) by lia. exact (lands_pass _ _ IH _ eq_refl).
Qed.

(** C6. A snapshot is taken.  A snapshot that is not being deleted, of a volume
    whose engine is up, with its finalizer or without, and in no phase yet, in
    Pending, or in Creating with the engine's node recorded already, is Ready
    after four passes of its controller or more, provided that the engine's
    sidecar answers every snapshot request with success: ready to use, protected,
    with the node of the engine and the path and the size that the sidecar
    answered. *)
Theorem snapshot_taken (o : Snapshot) (w : W) (m : nat) :
  objects KSnapshot (view w) !! okey_of key = Some (o : obj KSnapshot) →
  key_of (snap_meta o) = key → snap_spec o = spec → om_DeletionTimestamp (snap_meta o) = None →
  sst_Phase (snap_status o) ∈ [""; SnapshotPhasePending; SnapshotPhaseCreating] →
  (sst_Phase (snap_status o) = SnapshotPhaseCreating → sst_EngineNode (snap_status o) = node) →
  engine_up (view w) → 4 ≤ m →
  ∃ o', objects KSnapshot (view (passes m w)) !! okey_of key = Some (o' : obj KSnapshot) ∧
    snap_spec o' = spec ∧ protected o' = true ∧
    sst_Phase (snap_status o') = SnapshotPhaseReady ∧ sst_ReadyToUse (snap_status o') = true ∧
    sst_EngineNode (snap_status o') = node ∧
    sst_SnapshotPath (snap_status o') = sr_SnapshotPath answer ∧
    sst_SizeBytes (snap_status o') = sr_SizeBytes answer.
Proof.
  intros Ho Hk Hspec Hdel Hph Hnode He Hm.
  assert (∃ n, n ≤ 4 ∧ kept n (view w)) as (n & Hn & Hkept).
  { assert (∃ k, 0 < k ≤ 3 ∧ phase_due (snap_status o) k) as (k & Hk3 & Hdue).
    { set_unfold in Hph. destruct Hph as [E|[E|[E|[]]]]; [exists 3|exists 2|exists 1]; (split; [lia|]);
        [exact E|exact E|by split; [|apply Hnode]]. }
    destruct (protected o) eqn:Hp; [exists k|exists (S k)]; (split; [lia|]); (split; [done|]); exists o;
      (split; [exact Ho|]); (split_and!; [done..|]); exists k; (split; [done|]); rw Hp; [done|]. split; [done|lia]. }
  pose proof (passes_kept n m w Hkept) as [_ (o' & Ho' & _ & Hs & _ & k & Hdue & Hp)].
  replace (n - m) with 0 in Hp by lia. exists o'. split; [exact Ho'|]. split; [done|].
  destruct (protected o') eqn:Hprot; [|by destruct Hp]. subst k. split; [done|exact Hdue].
Qed.
End progress.

(** An engine's pod whose sidecar takes snapshots. *)
Section taken.
Definition taken_answer : SnapshotResponse := mkSnapshotResponse "/data/v/snap-1.img" 4096.
Definition taken_handler : handler ctl world := λ c,
  match c return world → ctl_reply c * world with
  | HttpDo WantSnapshot _ _ _ => λ w,
      (Ok (mkResponse (w:=WantSnapshot) 200 "" (Ok taken_answer)), w)
  | c => mem_handler c
  end.
#[local] Instance taken_server : ApiServer taken_handler world_view.
Proof. apply (server_beside mem_handler); [exact _|]. intros c w. by destruct c as [| | | | | | | | | | | | | |[]]. Qed.
#[local] Instance taken_sidecar : SidecarTakes taken_handler world_view None "10.0.0.9" taken_answer.
Proof. split; [done|..]; [intros s w <-|intros body s w <-]; (split; [|done]); [done|by eexists]. Qed.
Definition taken_snapshot : Snapshot :=
  mkSnapshot (newMeta "s" "ns") (mkSnapshotSpec "v" "1") zeroSnapshotStatus.
Definition taken_engine : Engine :=
  mkEngine (newMeta "v-engine" "ns") (mkEngineSpec "v" "w1" [])
    (est_set_PodRef (Some (mkPodRef "v-engine-pod" "ns")) (est_set_Phase "Running" zeroEngineStatus)).
Definition taken_world : world :=
  put KSnapshot taken_snapshot (put KEngine taken_engine
    (put KPod (running_pod "v-engine-pod" "ns" "engine" "10.0.0.9") empty_world)).
Lemma snapshot_taken_witness :
  ∃ o', objects KSnapshot (world_view (passes taken_handler None (mkName "ns" "s") 4 taken_world)) !! ("ns", "s")
      = Some (o' : obj KSnapshot) ∧
    sst_Phase (snap_status o') = SnapshotPhaseReady ∧
    sst_SnapshotPath (snap_status o') = "/data/v/snap-1.img".
Proof.
  destruct (snapshot_taken taken_handler world_view None (mkName "ns" "s") (mkSnapshotSpec "v" "1") "w1"
              "10.0.0.9" taken_answer taken_snapshot taken_world 4)
    as (o' & Ho & _ & _ & Hph & _ & _ & Hpath & _).
  - vm_compute. reflexivity.
  - reflexivity.
  - reflexivity.
  - reflexivity.
  - apply list_elem_of_here.
  - discriminate.
  - exists taken_engine, (mkPodRef "v-engine-pod" "ns"), (running_pod "v-engine-pod" "ns" "engine" "10.0.0.9").
    split_and!; vm_compute; reflexivity.
  - repeat constructor.
  - exists o'. split; [exact Ho|]. split; [exact Hph|exact Hpath].
Defined.
End taken.
